(** * libtorrent: disk I/O thread, DHT node and alert manager

    A shallow embedding of the parts of
      - [src/branches/alert_queue/src/alert_manager.cpp],
      - [src/trunk/src/kademlia/node.cpp],
      - [src/branches/libtorrent_aio_policy_refactor/src/disk_io_thread.cpp]
    that the specification makes statements about, and the proofs of these
    statements.

    Conventions.  C++ [int] and [boost::int64_t] values are [Z]; a conversion
    to an unsigned type is written out as a reduction modulo a power of two.
    Byte strings ([std::string], [char const*] with a length) are [string].
    Objects reached through pointers are records that are passed in and
    returned.  Mutexes are not modelled: every function below runs with the
    lock it takes in the source held from entry to exit. *)

From Stdlib Require Import ZArith List Bool Lia String Ascii NArith.
From Stdlib Require Sorted OrderedTypeEx.
Import ListNotations.
Local Open Scope Z_scope.
Set Warnings "-register-all".

(** ** Assertions

    [TORRENT_ASSERT] is declared in [assert.hpp], which is not among the
    sources.  The sources guard their assertion-only code by
    [#if defined TORRENT_DEBUG || TORRENT_RELEASE_ASSERTS], so the macro is
    taken as a build option: with [asserts_on = true] a failed assertion
    stops the program, with [asserts_on = false] the macro expands to
    nothing. *)

Inductive outcome (A : Type) : Type :=
| Ret (a : A)
| AssertionFailed.
Arguments Ret {A} a.
Arguments AssertionFailed {A}.

Definition bind {A B : Type} (c : outcome A) (k : A -> outcome B) : outcome B :=
  match c with
  | Ret a => k a
  | AssertionFailed => AssertionFailed
  end.

Declare Scope outcome_scope.
Delimit Scope outcome_scope with outcome.
Notation "x <- c ;; k" := (bind c (fun x => k))
  (at level 61, c at next level, right associativity) : outcome_scope.
Notation "' p <- c ;; k" := (bind c (fun x => let 'p := x in k))
  (at level 61, p pattern, c at next level, right associativity) : outcome_scope.
Notation "c ;;; k" := (bind c (fun _ => k))
  (at level 61, right associativity) : outcome_scope.

Definition TORRENT_ASSERT (asserts_on : bool) (cond : bool) : outcome unit :=
  if asserts_on && negb cond then AssertionFailed else Ret tt.

Lemma TORRENT_ASSERT_holds (asserts_on : bool) (cond : bool) :
  cond = true -> TORRENT_ASSERT asserts_on cond = Ret tt.
Proof.
  intros ->. unfold TORRENT_ASSERT. now rewrite andb_false_r.
Qed.

Lemma TORRENT_ASSERT_release (cond : bool) :
  TORRENT_ASSERT false cond = Ret tt.
Proof. reflexivity. Qed.

Lemma TORRENT_ASSERT_debug_false :
  TORRENT_ASSERT true false = @AssertionFailed unit.
Proof. reflexivity. Qed.

Definition INT_MAX : Z := 2 ^ 31 - 1.

(** [size_t(x)] for an [int] x: the usual arithmetic conversions turn the
    signed operand of a mixed comparison into the unsigned type. *)
Definition to_size_t (x : Z) : Z := x mod 2 ^ 64.

(** [boost::uint64_t(x)] for a [boost::int64_t] x. *)
Definition to_uint64 (x : Z) : Z := x mod 2 ^ 64.

Lemma to_uint64_id (x : Z) : 0 <= x < 2 ^ 64 -> to_uint64 x = x.
Proof. intros H. unfold to_uint64. now apply Z.mod_small. Qed.

Lemma to_uint64_range (x : Z) : 0 <= to_uint64 x < 2 ^ 64.
Proof. unfold to_uint64. apply Z.mod_pos_bound. lia. Qed.

(** * The alert manager *)

Module Alert.

Section AlertManager.

(** The queue is a [heterogeneous_queue<alert>]; what an alert is does
    not matter to the manager. *)
Variable alert : Type.
Variable asserts_on : bool.

Record alert_manager : Type := mk_alert_manager {
  m_alerts : list alert;
  m_alert_mask : Z;
  m_queue_size_limit : Z;
  m_num_queued_resume : Z
}.

Definition num_queued_resume (m : alert_manager) : Z :=
  m_num_queued_resume m.

Definition empty (q : list alert) : bool :=
  match q with [] => true | _ :: _ => false end.

Definition size (q : list alert) : Z := Z.of_nat (List.length q).

(** [get_all(alerts, num_resume)]: the two reference parameters are
    returned next to the manager. *)
Definition get_all (m : alert_manager) (alerts : list alert)
  : outcome (alert_manager * list alert * Z) :=
  (TORRENT_ASSERT asserts_on
     (to_size_t (m_num_queued_resume m) <=? size (m_alerts m)) ;;;
   let num_resume := m_num_queued_resume m in
   (* alerts.clear() *)
   let alerts := @nil alert in
   if empty (m_alerts m) then Ret (m, alerts, num_resume)
   else
     (* m_alerts.swap(alerts) *)
     let '(queue, alerts) := (alerts, m_alerts m) in
     Ret ({| m_alerts := queue;
             m_alert_mask := m_alert_mask m;
             m_queue_size_limit := m_queue_size_limit m;
             m_num_queued_resume := 0 |}, alerts, num_resume))%outcome.

Definition pending (m : alert_manager) : bool :=
  negb (empty (m_alerts m)).

(** [set_alert_queue_size_limit] returns the previous limit. *)
Definition set_alert_queue_size_limit (m : alert_manager) (limit : Z)
  : alert_manager * Z :=
  ({| m_alerts := m_alerts m;
      m_alert_mask := m_alert_mask m;
      m_queue_size_limit := limit;
      m_num_queued_resume := m_num_queued_resume m |},
   m_queue_size_limit m).

(** The invariant that [get_all] asserts on entry: the resume-data
    alerts that are counted are in the queue. *)
Definition counts_queued (m : alert_manager) : Prop :=
  0 <= m_num_queued_resume m <= size (m_alerts m)
  /\ m_num_queued_resume m <= INT_MAX.

End AlertManager.

Arguments m_alerts {alert} _.
Arguments m_alert_mask {alert} _.
Arguments m_queue_size_limit {alert} _.
Arguments m_num_queued_resume {alert} _.
Arguments mk_alert_manager {alert} _ _ _ _.
Arguments num_queued_resume {alert} _.
Arguments pending {alert} _.
Arguments get_all {alert} _ _ _.
Arguments counts_queued {alert} _.
Arguments size {alert} _.
Arguments empty {alert} _.

End Alert.

(** * The DHT node *)

Module Dht.

Local Open Scope string_scope.
Local Open Scope Z_scope.

(** ** Containers

    [std::map<K, V>] with byte-string keys ([std::string], [node_id]): an
    association list kept in key order, as the map iterates. *)

Section StdMap.

Variable V : Type.

Fixpoint map_find (k : string) (m : list (string * V)) : option V :=
  match m with
  | [] => None
  | (k', v) :: m' => if String.eqb k k' then Some v else map_find k m'
  end.

(** [m[k] = v] *)
Fixpoint map_set (k : string) (v : V) (m : list (string * V))
  : list (string * V) :=
  match m with
  | [] => [(k, v)]
  | (k', v') :: m' =>
      match String.compare k k' with
      | Eq => (k, v) :: m'
      | Lt => (k, v) :: m
      | Gt => (k', v') :: map_set k v m'
      end
  end.

Fixpoint map_erase (k : string) (m : list (string * V)) : list (string * V) :=
  match m with
  | [] => []
  | (k', v) :: m' => if String.eqb k k' then m' else (k', v) :: map_erase k m'
  end.

Definition map_size (m : list (string * V)) : Z := Z.of_nat (List.length m).

End StdMap.

Arguments map_find {V} _ _.
Arguments map_set {V} _ _ _.
Arguments map_erase {V} _ _.
Arguments map_size {V} _.

(** ** Decoded messages: [bdecode_node] *)

Inductive type_t : Type := none_t | dict_t | list_t | string_t | int_t.

Definition type_t_eqb (a b : type_t) : bool :=
  match a, b with
  | none_t, none_t | dict_t, dict_t | list_t, list_t
  | string_t, string_t | int_t, int_t => true
  | _, _ => false
  end.

Inductive bdecode_tree : Type :=
| b_dict (d : list (string * bdecode_tree))
| b_list (l : list bdecode_tree)
| b_string (s : string)
| b_int (i : Z).

(** A [bdecode_node] is a handle that may be empty ([operator bool]). *)
Definition bdecode_node : Type := option bdecode_tree.

Definition type (n : bdecode_node) : type_t :=
  match n with
  | None => none_t
  | Some (b_dict _) => dict_t
  | Some (b_list _) => list_t
  | Some (b_string _) => string_t
  | Some (b_int _) => int_t
  end.

Definition is_set (n : bdecode_node) : bool :=
  match n with Some _ => true | None => false end.

Fixpoint tree_find (key : string) (d : list (string * bdecode_tree))
  : bdecode_node :=
  match d with
  | [] => None
  | (k, v) :: d' => if String.eqb k key then Some v else tree_find key d'
  end.

Definition dict_find (n : bdecode_node) (key : string) : bdecode_node :=
  match n with
  | Some (b_dict d) => tree_find key d
  | _ => None
  end.

Definition dict_find_string (n : bdecode_node) (key : string) : bdecode_node :=
  match dict_find n key with
  | Some (b_string s) => Some (b_string s)
  | _ => None
  end.

Definition string_value (n : bdecode_node) : string :=
  match n with Some (b_string s) => s | _ => "" end.

(** [string_ptr()] is read together with a length the caller knows. *)
Definition string_ptr (n : bdecode_node) : string := string_value n.

Definition string_length (n : bdecode_node) : Z :=
  Z.of_nat (String.length (string_value n)).

Definition int_value (n : bdecode_node) : Z :=
  match n with Some (b_int i) => i | _ => 0 end.

Definition dict_find_string_value (n : bdecode_node) (key : string) : string :=
  string_value (dict_find_string n key).

(** ** Replies: [entry] *)

Inductive entry : Type :=
| entry_int (i : Z)
| entry_string (s : string)
| entry_list (l : list entry)
| entry_dictionary (d : list (string * entry))
| entry_undefined.

(** [e[key]] read: a key that is not there reads as an undefined entry. *)
Definition entry_get (key : string) (e : entry) : entry :=
  match e with
  | entry_dictionary d =>
      match map_find key d with Some v => v | None => entry_undefined end
  | _ => entry_undefined
  end.

(** [e[key] = v]: an undefined entry becomes a dictionary on first use. *)
Definition entry_set (key : string) (v : entry) (e : entry) : entry :=
  match e with
  | entry_dictionary d => entry_dictionary (map_set key v d)
  | entry_undefined => entry_dictionary [(key, v)]
  | _ => e
  end.

Definition find_key (e : entry) (key : string) : option entry :=
  match e with
  | entry_dictionary d => map_find key d
  | _ => None
  end.

(** [e.list().push_back(v)] *)
Definition list_push_back (v : entry) (e : entry) : entry :=
  match e with
  | entry_list l => entry_list (l ++ [v])%list
  | entry_undefined => entry_list [v]
  | _ => e
  end.

(** [incoming_error]; the header gives [error_code] the default 203. *)
Definition incoming_error (e : entry) (msg : string) (error_code : Z) : entry :=
  let e := entry_set "y" (entry_string "e") e in
  let l := entry_get "e" e in
  let l := list_push_back (entry_int error_code) l in
  let l := list_push_back (entry_string msg) l in
  entry_set "e" l e.

Definition default_error_code : Z := 203.

(** ** [verify_message] *)

Record key_desc_t : Type := mk_key_desc {
  name : string;
  type_of : type_t;
  size : Z;
  optional : bool;
  parse_children : bool;
  last_child : bool;
  size_divisible : bool
}.

(** One more key descriptor, written as in the tables of the source:
    name, type, size and the flags that are set. *)
Definition key (n : string) (t : type_t) (sz : Z) : key_desc_t :=
  mk_key_desc n t sz false false false false.
Definition key_optional (n : string) (t : type_t) (sz : Z) : key_desc_t :=
  mk_key_desc n t sz true false false false.
Definition key_parse_children (n : string) (t : type_t) (sz : Z) : key_desc_t :=
  mk_key_desc n t sz false true false false.
Definition key_last_child (n : string) (t : type_t) (sz : Z) : key_desc_t :=
  mk_key_desc n t sz false false true false.

(** The body of the [for] loop of [verify_message].  [msg] is the dictionary
    that is being read, [stack] the dictionaries to return to (innermost
    first, the root last) and [skipping] says that the loop index is being
    advanced past the children of an absent dictionary.  The result is the
    [ret] array, or the text written to [error]; [inr ""] stands for the
    [return false] that writes no text. *)
Fixpoint verify_keys (desc : list key_desc_t) (msg : bdecode_node)
    (stack : list bdecode_node) (skipping : bool)
  : list bdecode_node + string :=
  match desc with
  | [] => inl []
  | k :: desc' =>
      if skipping then
        match verify_keys desc' msg stack (negb (last_child k)) with
        | inl ret => inl (None :: ret)
        | inr err => inr err
        end
      else
        let r := dict_find msg (name k) in
        (* none_t means any type *)
        let r := if is_set r && negb (type_t_eqb (type r) (type_of k))
                    && negb (type_t_eqb (type_of k) none_t)
                 then None else r in
        if negb (is_set r) && negb (optional k) then
          inr ("missing '" ++ name k ++ "' key")
        else
          let invalid :=
            (0 <? size k) && is_set r && type_t_eqb (type_of k) string_t
            && (if size_divisible k
                then negb (string_length r mod size k =? 0)
                else negb (string_length r =? size k)) in
          if invalid && negb (optional k) then
            inr ("invalid value for '" ++ name k ++ "'")
          else
            let r := if invalid then None else r in
            let cons_ret (rest : list bdecode_node + string) :=
              match rest with
              | inl ret => inl (r :: ret)
              | inr err => inr err
              end in
            if parse_children k then
              if is_set r then
                cons_ret (verify_keys desc' r (r :: stack) false)%list
              else
                (* skip all children *)
                cons_ret (verify_keys desc' msg stack (negb (last_child k)))
            else if last_child k then
              match stack with
              | _ :: (parent :: _) as stack' =>
                  cons_ret (verify_keys desc' parent stack' false)
              | _ => inr ""
              end
            else cons_ret (verify_keys desc' msg stack false)
  end.

Definition verify_message (message : bdecode_node) (desc : list key_desc_t)
  : list bdecode_node + string :=
  if negb (type_t_eqb (type message) dict_t) then inr "not a dictionary"
  else verify_keys desc message [message] false.

(** [ret[i]] *)
Definition at_ (ret : list bdecode_node) (i : nat) : bdecode_node :=
  nth i ret None.

(** ** Addresses and the collaborators of the node *)

(** [asio::ip::address]: an IPv4 or an IPv6 address, as a number. *)
Inductive address : Type :=
| address_v4 (a : Z)
| address_v6 (a : Z).

Definition is_v4 (a : address) : bool :=
  match a with address_v4 _ => true | address_v6 _ => false end.

Definition address_eqb (a b : address) : bool :=
  match a, b with
  | address_v4 x, address_v4 y => x =? y
  | address_v6 x, address_v6 y => x =? y
  | _, _ => false
  end.

Definition address_ltb (a b : address) : bool :=
  match a, b with
  | address_v4 x, address_v4 y => x <? y
  | address_v6 x, address_v6 y => x <? y
  | address_v4 _, address_v6 _ => true
  | address_v6 _, address_v4 _ => false
  end.

(** [udp::endpoint] and [tcp::endpoint] *)
Record endpoint : Type := mk_endpoint {
  address_of : address;
  port : Z
}.

Record msg : Type := mk_msg {
  message : bdecode_node;
  addr : endpoint
}.

Record node_entry : Type := mk_node_entry {
  id : string;
  ne_addr : address;
  ne_port : Z
}.

Record peer_entry : Type := mk_peer_entry {
  pe_addr : endpoint;
  added : Z;
  seed : bool
}.

Record torrent_entry : Type := mk_torrent_entry {
  te_name : string;
  peers : list peer_entry
}.

Record dht_settings : Type := mk_dht_settings {
  max_peers_reply : Z;
  max_torrents : Z;
  max_dht_items : Z;
  enforce_node_id : bool
}.

Inductive stats_counter : Type :=
| dht_ping_in | dht_get_peers_in | dht_invalid_get_peers | dht_find_node_in
| dht_announce_peer_in | dht_invalid_announce | dht_torrents
| dht_put_in | dht_invalid_put | dht_immutable_data | dht_mutable_data
| dht_get_in | dht_invalid_get.

(** What the node is built on and what the specification leaves to named
    collaborators: SHA-1 ([hasher]), the Ed25519 signature check, the
    routing table, the bloom filter of announcer addresses, the textual and
    the compact form of an address, and the bencoder.  None of them is
    among the sources; the node is verified for every implementation. *)
Class collaborators : Type := {
  (** [hasher]: [update] on each part, then [final]: the digest of the
      concatenation, 20 bytes. *)
  hasher : string -> string;
  hasher_size : forall s : string, String.length (hasher s) = 20%nat;
  (** [address::to_string(ec)]: the text and whether [ec] is set. *)
  to_string : address -> string * bool;
  (** the bytes of an [int] object ([(char* )&m_secret[0]], 4 bytes) *)
  int_bytes : Z -> string;
  endpoint_to_bytes : endpoint -> string;
  write_endpoint : address -> Z -> string;
  routing_table : Type;
  heard_about : routing_table -> string -> endpoint -> routing_table;
  node_seen : routing_table -> string -> endpoint -> Z -> routing_table;
  find_node : routing_table -> string -> list node_entry;
  verify_id : string -> address -> bool;
  (** [verify_mutable_item(v, salt, seq, pk, sig)] *)
  verify_mutable_item : string -> string -> Z -> string -> string -> bool;
  (** [item_target_id(v)] and [item_target_id(salt, pk)] *)
  item_target_id : string -> string;
  item_target_id_mutable : string -> string -> string;
  bloom_filter : Type;
  bloom_empty : bloom_filter;
  bloom_find : bloom_filter -> string -> bool;
  bloom_set : bloom_filter -> string -> bloom_filter;
  hash_address : address -> string;
  (** [bdecode(first, last)] into an [entry], and the bytes a decoded node
      was read from ([data_section()]). *)
  bdecode : string -> entry;
  data_section : bdecode_node -> string;
  (** [distance_exp(a, b)] of node ids *)
  distance_exp : string -> string -> Z;
  (** [node::lookup_peers(info_hash, reply, noseed, scrape)] on [m_map]
      with [max_peers_reply]: it samples the stored peers with [random()]
      and floating-point arithmetic.  No statement below depends on what
      it adds to the reply. *)
  lookup_peers : list (string * torrent_entry) -> Z -> string -> entry
                 -> bool -> bool -> entry
}.

(** ** The node *)

Definition item_pk_len : Z := 32.
Definition item_sig_len : Z := 64.

(** [int(x)] for a [boost::int64_t] x *)
Definition to_int (x : Z) : Z := (x + 2 ^ 31) mod 2 ^ 32 - 2 ^ 31.

(** [boost::int64_t(x)] for a [boost::uint64_t] x, as [entry] stores it *)
Definition to_int64 (x : Z) : Z := (x + 2 ^ 63) mod 2 ^ 64 - 2 ^ 63.

Section Node.

Context {C : collaborators}.
Variable asserts_on : bool.

Record dht_immutable_item : Type := mk_immutable_item {
  value : string;
  ips : bloom_filter;
  last_seen : Z;
  num_announcers : Z
}.

(** [struct dht_mutable_item : dht_immutable_item].  The sequence number is
    held as an unsigned 64-bit number: the source compares it with
    [boost::uint64_t(...)] of the number in the message. *)
Record dht_mutable_item : Type := mk_mutable_item {
  base : dht_immutable_item;
  sig : string;
  seq : Z;
  pk_key : string;
  salt : string
}.

Record node : Type := mk_node {
  m_settings : dht_settings;
  m_id : string;
  m_table : routing_table;
  m_secret : Z * Z;
  m_map : list (string * torrent_entry);
  m_immutable_table : list (string * dht_immutable_item);
  m_mutable_table : list (string * dht_mutable_item);
  (** the calls of [inc_stats_counter], the latest first *)
  m_counters : list (stats_counter * Z)
}.

Definition set_m_table (t : routing_table) (n : node) : node :=
  mk_node (m_settings n) (m_id n) t (m_secret n) (m_map n)
    (m_immutable_table n) (m_mutable_table n) (m_counters n).

Definition set_m_secret (s : Z * Z) (n : node) : node :=
  mk_node (m_settings n) (m_id n) (m_table n) s (m_map n)
    (m_immutable_table n) (m_mutable_table n) (m_counters n).

Definition set_m_map (t : list (string * torrent_entry)) (n : node) : node :=
  mk_node (m_settings n) (m_id n) (m_table n) (m_secret n) t
    (m_immutable_table n) (m_mutable_table n) (m_counters n).

Definition set_m_immutable_table (t : list (string * dht_immutable_item))
    (n : node) : node :=
  mk_node (m_settings n) (m_id n) (m_table n) (m_secret n) (m_map n)
    t (m_mutable_table n) (m_counters n).

Definition set_m_mutable_table (t : list (string * dht_mutable_item))
    (n : node) : node :=
  mk_node (m_settings n) (m_id n) (m_table n) (m_secret n) (m_map n)
    (m_immutable_table n) t (m_counters n).

Definition inc_stats_counter (c : stats_counter) (delta : Z) (n : node) : node :=
  mk_node (m_settings n) (m_id n) (m_table n) (m_secret n) (m_map n)
    (m_immutable_table n) (m_mutable_table n) ((c, delta) :: m_counters n)%list.

(** *** Write tokens *)

(** The digest that both [generate_token] and [verify_token] compute for
    one of the two secrets. *)
Definition token_hash (secret : Z) (address : string) (info_hash : string)
  : string :=
  hasher (address ++ int_bytes secret ++ info_hash).

(** [std::equal(token.begin(), token.end(), (char* )&h[0])] *)
Definition token_matches (token h : string) : bool :=
  String.eqb token (substring 0 (String.length token) h).

Definition verify_token (n : node) (token : string) (info_hash : string)
    (addr : endpoint) : bool :=
  if negb (Nat.eqb (String.length token) 4) then false
  else
    let '(address, ec) := to_string (address_of addr) in
    if ec then false
    else
      let h := token_hash (fst (m_secret n)) address info_hash in
      if token_matches token h then true
      else
        let h := token_hash (snd (m_secret n)) address info_hash in
        if token_matches token h then true
        else false.

Definition generate_token (n : node) (addr : endpoint) (info_hash : string)
  : outcome string :=
  (let '(address, ec) := to_string (address_of addr) in
   TORRENT_ASSERT asserts_on (negb ec) ;;;
   let hash := token_hash (fst (m_secret n)) address info_hash in
   let token := substring 0 4 hash in
   TORRENT_ASSERT asserts_on (token_matches token hash) ;;;
   Ret token)%outcome.

(** [new_write_key]; [random] is the value that [random()] returns. *)
Definition new_write_key (random : Z) (n : node) : node :=
  set_m_secret (random, fst (m_secret n)) n.

(** *** Replies *)

(** [reply[key] = v] where [entry& reply = e["r"]] *)
Definition reply_set (key : string) (v : entry) (e : entry) : entry :=
  entry_set "r" (entry_set key v (entry_get "r" e)) e.

Definition reply_of (e : entry) : entry := entry_get "r" e.

Fixpoint nodes_string (nodes : list node_entry) : string :=
  match nodes with
  | [] => ""
  | i :: nodes' =>
      if negb (is_v4 (ne_addr i)) then nodes_string nodes'
      else id i ++ write_endpoint (ne_addr i) (ne_port i) ++ nodes_string nodes'
  end.

(** [write_nodes_entry(r, nodes)] on [r = e["r"]] *)
Definition write_nodes_entry (e : entry) (nodes : list node_entry) : entry :=
  let n := match entry_get "nodes" (reply_of e) with
           | entry_string s => s
           | _ => ""
           end in
  reply_set "nodes" (entry_string (n ++ nodes_string nodes)) e.

(** *** [ping], [find_node], [get_peers] *)

Definition ping_request (n : node) (e : entry) : node * entry :=
  (inc_stats_counter dht_ping_in 1 n, e).

Definition find_node_desc : list key_desc_t :=
  [key "target" string_t 20].

Definition find_node_request (n : node) (e : entry) (arg_ent : bdecode_node)
  : node * entry :=
  match verify_message arg_ent find_node_desc with
  | inr error_string => (n, incoming_error e error_string default_error_code)
  | inl msg_keys =>
      let n := inc_stats_counter dht_find_node_in 1 n in
      let target := string_ptr (at_ msg_keys 0) in
      (n, write_nodes_entry e (find_node (m_table n) target))
  end.

Definition get_peers_desc : list key_desc_t :=
  [key "info_hash" string_t 20;
   key_optional "noseed" int_t 0;
   key_optional "scrape" int_t 0].


Definition get_peers_request (n : node) (m : msg) (e : entry)
    (arg_ent : bdecode_node) : outcome (node * entry) :=
  match verify_message arg_ent get_peers_desc with
  | inr error_string =>
      Ret (inc_stats_counter dht_invalid_get_peers 1 n,
           incoming_error e error_string default_error_code)
  | inl msg_keys =>
      (token <- generate_token n (addr m) (string_ptr (at_ msg_keys 0)) ;;
       let e := reply_set "token" (entry_string token) e in
       let n := inc_stats_counter dht_get_peers_in 1 n in
       let info_hash := string_ptr (at_ msg_keys 0) in
       (* always return nodes as well as peers *)
       let e := write_nodes_entry e (find_node (m_table n) info_hash) in
       let noseed := is_set (at_ msg_keys 1)
                     && negb (int_value (at_ msg_keys 1) =? 0) in
       let scrape := is_set (at_ msg_keys 2)
                     && negb (int_value (at_ msg_keys 2) =? 0) in
       Ret (n, entry_set "r"
                 (lookup_peers (m_map n) (max_peers_reply (m_settings n))
                    info_hash (reply_of e) noseed scrape) e))%outcome
  end.

(** *** [announce_peer] *)

Definition announce_peer_desc : list key_desc_t :=
  [key "info_hash" string_t 20;
   key "port" int_t 0;
   key "token" string_t 0;
   key_optional "n" string_t 0;
   key_optional "seed" int_t 0;
   key_optional "implied_port" int_t 0].

Definition peers_size (t : torrent_entry) : Z :=
  Z.of_nat (List.length (peers t)).

(** The loop that looks for the torrent to remove.  [i] is the position
    of the head of [m] in [m_map]; the result is the position of
    [candidate]. *)
Fixpoint fewest_peers (info_hash : string) (m : list (string * torrent_entry))
    (i : nat) (num_peers : Z) (candidate : nat) : nat :=
  match m with
  | [] => candidate
  | (k, v) :: m' =>
      if peers_size v >? num_peers
      then fewest_peers info_hash m' (S i) num_peers candidate
      else if String.eqb k info_hash
      then fewest_peers info_hash m' (S i) num_peers candidate
      else fewest_peers info_hash m' (S i) (peers_size v) i
  end.

(** [m.erase(it)] for the iterator at position [i] *)
Fixpoint erase_at {V : Type} (i : nat) (m : list V) : list V :=
  match m, i with
  | [], _ => []
  | _ :: m', O => m'
  | x :: m', S i' => x :: erase_at i' m'
  end.

(** The torrent that the loop settles on, in a table that is not empty. *)
Definition eviction_candidate (info_hash : string)
    (m : list (string * torrent_entry)) : nat :=
  match m with
  | [] => O
  | (_, v) :: _ => fewest_peers info_hash m O (peers_size v) O
  end.

(** [operator<] of [peer_entry] is declared in [node.hpp]; by the data
    model the peers of a torrent are a set keyed by the endpoint. *)
Definition peer_ltb (a b : peer_entry) : bool :=
  if address_eqb (address_of (pe_addr a)) (address_of (pe_addr b))
  then port (pe_addr a) <? port (pe_addr b)
  else address_ltb (address_of (pe_addr a)) (address_of (pe_addr b)).

Definition peer_equiv (a b : peer_entry) : bool :=
  negb (peer_ltb a b) && negb (peer_ltb b a).

(** [i = peers.find(peer); if (i != end) peers.erase(i++);
    peers.insert(i, peer)] *)
Fixpoint peers_replace (peer : peer_entry) (ps : list peer_entry)
  : list peer_entry :=
  match ps with
  | [] => [peer]
  | p :: ps' =>
      if peer_equiv peer p then peer :: ps'
      else if peer_ltb peer p then peer :: ps
      else p :: peers_replace peer ps'
  end.

Definition torrent_at (info_hash : string) (m : list (string * torrent_entry))
  : torrent_entry :=
  match map_find info_hash m with
  | Some v => v
  | None => mk_torrent_entry "" []
  end.

Definition announce_peer_request (now : Z) (n : node) (m : msg) (e : entry)
    (arg_ent : bdecode_node) (id : string) : node * entry :=
  match verify_message arg_ent announce_peer_desc with
  | inr error_string =>
      (inc_stats_counter dht_invalid_announce 1 n,
       incoming_error e error_string default_error_code)
  | inl msg_keys =>
      let port_ := to_int (int_value (at_ msg_keys 1)) in
      (* is the announcer asking to use the source port of the packet? *)
      let port_ := if is_set (at_ msg_keys 5)
                      && negb (int_value (at_ msg_keys 5) =? 0)
                   then port (addr m) else port_ in
      if (port_ <? 0) || (port_ >=? 65536) then
        (inc_stats_counter dht_invalid_announce 1 n,
         incoming_error e "invalid port" default_error_code)
      else
        let info_hash := string_ptr (at_ msg_keys 0) in
        if negb (verify_token n (string_value (at_ msg_keys 2)) info_hash (addr m))
        then
          (inc_stats_counter dht_invalid_announce 1 n,
           incoming_error e "invalid token" default_error_code)
        else
          let n := inc_stats_counter dht_announce_peer_in 1 n in
          (* the token was correct: let the table add the node *)
          let n := set_m_table (node_seen (m_table n) id (addr m) 65535) n in
          let n :=
            match map_find info_hash (m_map n) with
            | None =>
                (* we don't have this torrent, add it;
                   do we need to remove another one first? *)
                let n :=
                  if negb (Nat.eqb (List.length (m_map n)) 0)
                     && (map_size (m_map n) >=? max_torrents (m_settings n))
                  then
                    let candidate := eviction_candidate info_hash (m_map n) in
                    inc_stats_counter dht_torrents (-1)
                      (set_m_map (erase_at candidate (m_map n)) n)
                  else n in
                let n := inc_stats_counter dht_torrents 1 n in
                set_m_map (map_set info_hash (mk_torrent_entry "" []) (m_map n)) n
            | Some _ => n
            end in
          let v := torrent_at info_hash (m_map n) in
          (* the peer announces a torrent name, and we don't have one *)
          let v := if is_set (at_ msg_keys 3)
                      && Nat.eqb (String.length (te_name v)) 0
                   then mk_torrent_entry
                          (substring 0 50 (string_value (at_ msg_keys 3)))
                          (peers v)
                   else v in
          let peer := mk_peer_entry
                        (mk_endpoint (address_of (addr m)) port_) now
                        (is_set (at_ msg_keys 4)
                         && negb (int_value (at_ msg_keys 4) =? 0)) in
          let v := mk_torrent_entry (te_name v) (peers_replace peer (peers v)) in
          (set_m_map (map_set info_hash v (m_map n)) n, e)
  end.


(** *** [put] *)

Definition put_desc : list key_desc_t :=
  [key "token" string_t 0;
   key "v" none_t 0;
   key_optional "seq" int_t 0;
   (* public key *)
   key_optional "k" string_t item_pk_len;
   key_optional "sig" string_t item_sig_len;
   key_optional "cas" int_t 0;
   key_optional "salt" string_t 0].

(** [std::min_element(first, last, comp)]: the position of the result,
    [None] for [last] (an empty range). *)
Fixpoint min_element_from {V : Type} (comp : V -> V -> bool) (l : list V)
    (i : nat) (smallest : V) (pos : nat) : nat :=
  match l with
  | [] => pos
  | x :: l' =>
      if comp x smallest then min_element_from comp l' (S i) x i
      else min_element_from comp l' (S i) smallest pos
  end.

Definition min_element {V : Type} (comp : V -> V -> bool) (l : list V)
  : option nat :=
  match l with
  | [] => None
  | x :: l' => Some (min_element_from comp l' 1%nat x O)
  end.

(** [immutable_item_comparator]: true when the first argument is the
    better candidate for removal. *)
Definition immutable_item_comparator (our_id : string)
    (lhs rhs : string * dht_immutable_item) : bool :=
  let l_distance := distance_exp (fst lhs) our_id in
  let r_distance := distance_exp (fst rhs) our_id in
  Z.quot (num_announcers (snd lhs)) 5 - l_distance
  <? Z.quot (num_announcers (snd rhs)) 5 - r_distance.

(** The comparator that the mutable table is searched with:
    [boost::bind(&dht_immutable_item::num_announcers,
    boost::bind(&value_type::second, _1))], called with two arguments and
    read as a [bool]. *)
Definition mutable_item_comparator
    (lhs rhs : string * dht_mutable_item) : bool :=
  negb (num_announcers (base (snd lhs)) =? 0).

(** What the end of the [put] branch does to the item [f] points to. *)
Definition announced_by (now : Z) (a : address) (f : dht_immutable_item)
  : dht_immutable_item :=
  let f := mk_immutable_item (value f) (ips f) now (num_announcers f) in
  let iphash := hash_address a in
  if negb (bloom_find (ips f) iphash)
  then mk_immutable_item (value f) (bloom_set (ips f) iphash) (last_seen f)
         (num_announcers f + 1)
  else f.

Definition announced_by_mutable (now : Z) (a : address) (f : dht_mutable_item)
  : dht_mutable_item :=
  mk_mutable_item (announced_by now a (base f)) (sig f) (seq f) (pk_key f)
    (salt f).

Definition put_invalid (n : node) (e : entry) (text : string) (code : Z)
  : outcome (node * entry) :=
  Ret (inc_stats_counter dht_invalid_put 1 n, incoming_error e text code).

(** The immutable half: the table with the item at [target] in it. *)
Definition put_immutable (n : node) (target buf : string) : outcome node :=
  match map_find target (m_immutable_table n) with
  | Some _ => Ret n
  | None =>
      (n <- (if map_size (m_immutable_table n) >=? max_dht_items (m_settings n)
             then
               (* delete the least important one *)
               let j := min_element (immutable_item_comparator (m_id n))
                          (m_immutable_table n) in
               TORRENT_ASSERT asserts_on (match j with Some _ => true | None => false end) ;;;
               Ret (inc_stats_counter dht_immutable_data (-1)
                      (set_m_immutable_table
                         (match j with
                          | Some j => erase_at j (m_immutable_table n)
                          | None => m_immutable_table n
                          end) n))
             else Ret n) ;;
       let to_add := mk_immutable_item buf bloom_empty 0 0 in
       let t := match map_find target (m_immutable_table n) with
                | Some _ => m_immutable_table n
                | None => map_set target to_add (m_immutable_table n)
                end in
       Ret (inc_stats_counter dht_immutable_data 1 (set_m_immutable_table t n)))%outcome
  end.

(** The mutable half, after the signature has been verified: the node with
    the item stored, or the error to reply with. *)
Definition put_mutable (n : node) (target buf salt_ : string)
    (msg_keys : list bdecode_node) : outcome (node + string * Z) :=
  let seq_ := int_value (at_ msg_keys 2) in
  let pk := string_ptr (at_ msg_keys 3) in
  let sig_ := string_ptr (at_ msg_keys 4) in
  match map_find target (m_mutable_table n) with
  | None =>
      (* we don't have an item in this slot *)
      (n <- (if map_size (m_mutable_table n) >=? max_dht_items (m_settings n)
             then
               let j := min_element mutable_item_comparator (m_mutable_table n) in
               TORRENT_ASSERT asserts_on (match j with Some _ => true | None => false end) ;;;
               Ret (inc_stats_counter dht_mutable_data (-1)
                      (set_m_mutable_table
                         (match j with
                          | Some j => erase_at j (m_mutable_table n)
                          | None => m_mutable_table n
                          end) n))
             else Ret n) ;;
       let to_add := mk_mutable_item (mk_immutable_item buf bloom_empty 0 0)
                       sig_ (to_uint64 seq_) pk salt_ in
       TORRENT_ASSERT asserts_on (item_sig_len =? string_length (at_ msg_keys 4)) ;;;
       let t := match map_find target (m_mutable_table n) with
                | Some _ => m_mutable_table n
                | None => map_set target to_add (m_mutable_table n)
                end in
       Ret (inl (inc_stats_counter dht_mutable_data 1 (set_m_mutable_table t n))))%outcome
  | Some item =>
      (* the "cas" field: if it was specified, the current sequence number
         must match the expected value before the item is replaced *)
      if is_set (at_ msg_keys 5)
         && negb (seq item =? to_uint64 (int_value (at_ msg_keys 5)))
      then Ret (inr ("CAS mismatch", 301))
      else if seq item >? to_uint64 seq_
      then Ret (inr ("old sequence number", 302))
      else if seq item <? to_uint64 seq_
      then
        (let item := mk_mutable_item
                       (mk_immutable_item buf (ips (base item))
                          (last_seen (base item)) (num_announcers (base item)))
                       sig_ (to_uint64 seq_) (pk_key item) (salt item) in
         TORRENT_ASSERT asserts_on (item_sig_len =? string_length (at_ msg_keys 4)) ;;;
         Ret (inl (set_m_mutable_table
                     (map_set target item (m_mutable_table n)) n)))%outcome
      else Ret (inl n)
  end.

Definition put_request (now : Z) (n : node) (m : msg) (e : entry)
    (arg_ent : bdecode_node) (id : string) : outcome (node * entry) :=
  match verify_message arg_ent put_desc with
  | inr error_string => put_invalid n e error_string default_error_code
  | inl msg_keys =>
      let n := inc_stats_counter dht_put_in 1 n in
      (* is this a mutable put? *)
      let mutable_put := is_set (at_ msg_keys 2) && is_set (at_ msg_keys 3)
                         && is_set (at_ msg_keys 4) in
      (* the whole entry *)
      let buf := data_section (at_ msg_keys 1) in
      let buf_size := Z.of_nat (String.length buf) in
      if (buf_size >? 1000) || (buf_size <=? 0) then
        put_invalid n e "message too big" 205
      else
        let salt_ := if is_set (at_ msg_keys 6)
                     then string_ptr (at_ msg_keys 6) else "" in
        if Z.of_nat (String.length salt_) >? 64 then
          put_invalid n e "salt too big" 207
        else
          let target := if is_set (at_ msg_keys 3)
                        then item_target_id_mutable salt_ (string_ptr (at_ msg_keys 3))
                        else item_target_id buf in
          (* tokens are only valid to write to specific target hashes *)
          if negb (verify_token n (string_value (at_ msg_keys 0)) target (addr m))
          then put_invalid n e "invalid token" default_error_code
          else
            (stored <-
               (if negb mutable_put then
                  (n <- put_immutable n target buf ;; Ret (inl n))
                else if negb (verify_mutable_item buf salt_
                                (int_value (at_ msg_keys 2))
                                (string_ptr (at_ msg_keys 3))
                                (string_ptr (at_ msg_keys 4)))
                then Ret (inr ("invalid signature", 206))
                else put_mutable n target buf salt_ msg_keys) ;;
             match stored with
             | inr (text, code) => put_invalid n e text code
             | inl n =>
                 let n := set_m_table (node_seen (m_table n) id (addr m) 65535) n in
                 let a := address_of (addr m) in
                 (* f->last_seen, f->ips, f->num_announcers *)
                 let n :=
                   if negb mutable_put then
                     match map_find target (m_immutable_table n) with
                     | Some f => set_m_immutable_table
                                   (map_set target (announced_by now a f)
                                      (m_immutable_table n)) n
                     | None => n
                     end
                   else
                     match map_find target (m_mutable_table n) with
                     | Some f => set_m_mutable_table
                                   (map_set target (announced_by_mutable now a f)
                                      (m_mutable_table n)) n
                     | None => n
                     end in
                 Ret (n, e)
             end)%outcome
  end.

(** *** [get] *)

Definition get_desc : list key_desc_t :=
  [key_optional "seq" int_t 0;
   key "target" string_t 20].

Definition get_request (n : node) (m : msg) (e : entry)
    (arg_ent : bdecode_node) : outcome (node * entry) :=
  match verify_message arg_ent get_desc with
  | inr error_string =>
      Ret (inc_stats_counter dht_invalid_get 1 n,
           incoming_error e error_string default_error_code)
  | inl msg_keys =>
      let n := inc_stats_counter dht_get_in 1 n in
      let target := string_ptr (at_ msg_keys 1) in
      (token <- generate_token n (addr m) target ;;
       let e := reply_set "token" (entry_string token) e in
       (* always return nodes as well as peers *)
       let e := write_nodes_entry e (find_node (m_table n) target) in
       (* if the get has a sequence number it must be for a mutable item
          so don't bother searching the immutable table *)
       let i := if negb (is_set (at_ msg_keys 0))
                then map_find target (m_immutable_table n)
                else None in
       match i with
       | Some f => Ret (n, reply_set "v" (bdecode (value f)) e)
       | None =>
           match map_find target (m_mutable_table n) with
           | Some f =>
               let e := reply_set "seq" (entry_int (to_int64 (seq f))) e in
               if negb (is_set (at_ msg_keys 0))
                  || (to_uint64 (int_value (at_ msg_keys 0)) <? seq f)
               then
                 let e := reply_set "v" (bdecode (value (base f))) e in
                 let e := reply_set "sig" (entry_string (sig f)) e in
                 let e := reply_set "k" (entry_string (pk_key f)) e in
                 Ret (n, e)
               else Ret (n, e)
           | None => Ret (n, e)
           end
       end)%outcome
  end.

(** *** Queries that are not recognised *)

Definition unknown_request (n : node) (e : entry) (arg_ent : bdecode_node)
  : node * entry :=
  (* if there's a 'target' or 'info_hash' in the arguments, treat it as
     find_node to be future compatible *)
  let target_ent := dict_find_string arg_ent "target" in
  let found (target_ent : bdecode_node) :=
    let target := string_ptr target_ent in
    (n, write_nodes_entry e (find_node (m_table n) target)) in
  if negb (is_set target_ent) || negb (string_length target_ent =? 20) then
    let target_ent := dict_find_string arg_ent "info_hash" in
    if negb (is_set target_ent) || negb (string_length target_ent =? 20) then
      (n, incoming_error e "unknown message" default_error_code)
    else found target_ent
  else found target_ent.

(** *** [incoming_request] *)

Definition top_desc : list key_desc_t :=
  [key "q" string_t 0;
   key_optional "ro" int_t 0;
   key_parse_children "a" dict_t 0;
   key_last_child "id" string_t 20].

(** The query names, in the order in which the source compares them. *)
Definition dispatch (now : Z) (n : node) (m : msg) (e : entry)
    (query : string) (arg_ent : bdecode_node) (id : string)
  : outcome (node * entry) :=
  if String.eqb query "ping" then Ret (ping_request n e)
  else if String.eqb query "get_peers" then get_peers_request n m e arg_ent
  else if String.eqb query "find_node" then Ret (find_node_request n e arg_ent)
  else if String.eqb query "announce_peer"
  then Ret (announce_peer_request now n m e arg_ent id)
  else if String.eqb query "put" then put_request now n m e arg_ent id
  else if String.eqb query "get" then get_request n m e arg_ent
  else Ret (unknown_request n e arg_ent).

(** [has_quota] is what [m_sock->has_quota()] answers and [now] what
    [aux::time_now()] returns during the call.  [m_rpc.add_our_id(reply)]
    puts the node's id into the reply under ["id"]. *)
Definition incoming_request (has_quota : bool) (now : Z) (n : node) (m : msg)
    (e : entry) : outcome (node * entry) :=
  if negb has_quota then Ret (n, e)
  else
    let e := entry_dictionary [] in
    let e := entry_set "y" (entry_string "r") e in
    let e := entry_set "t"
               (entry_string (dict_find_string_value (message m) "t")) e in
    match verify_message (message m) top_desc with
    | inr error_string =>
        Ret (n, incoming_error e error_string default_error_code)
    | inl top_level =>
        let e := entry_set "ip" (entry_string (endpoint_to_bytes (addr m))) e in
        let query := string_ptr (at_ top_level 0) in
        let arg_ent := at_ top_level 2 in
        let read_only := is_set (at_ top_level 1)
                         && negb (int_value (at_ top_level 1) =? 0) in
        let id := string_ptr (at_ top_level 3) in
        (* if this node's ID doesn't match its IP, tell it with an error *)
        if enforce_node_id (m_settings n)
           && negb (verify_id id (address_of (addr m)))
        then Ret (n, incoming_error e "invalid node ID" default_error_code)
        else
          let n := if negb read_only
                   then set_m_table (heard_about (m_table n) id (addr m)) n
                   else n in
          let e := reply_set "id" (entry_string (m_id n)) e in
          (* mirror back the other node's external port *)
          let e := reply_set "p" (entry_int (port (addr m))) e in
          dispatch now n m e query arg_ent id
    end.

End Node.

Arguments dht_immutable_item {C}.
Arguments dht_mutable_item {C}.
Arguments node {C}.

End Dht.

(** * The disk I/O thread *)

Module Disk.

Local Open Scope Z_scope.

(** ** Jobs *)

Inductive job_action : Type :=
| read | write | hash_piece | move_storage | release_files | delete_files
| check_fastresume | save_resume_data | rename_file | stop_torrent
| cache_piece | finalize_file | flush_piece | flush_hashed | flush_storage
| trim_cache | file_priority | load_torrent | clear_piece | tick_storage.

(** A [disk_io_job].  [job_id] stands for the address of the job,
    [j_storage] is the storage the job works on, by its number, or [None]
    for a null pointer.  [in_progress] and [fence] are the two bits of
    [flags] that the thread looks at, [error] is [error.ec], 0 for no
    error.  The action [disk_io_job::hash] is [hash_piece] here. *)
Record disk_io_job : Type := mk_disk_io_job {
  job_id : Z;
  action : job_action;
  j_storage : option Z;
  j_piece : Z;
  io_offset : Z;
  io_buffer_size : Z;
  in_progress : bool;
  fence : bool;
  blocked : bool;
  ret : Z;
  error : Z
}.

Definition set_result (r : Z) (ec : Z) (j : disk_io_job) : disk_io_job :=
  mk_disk_io_job (job_id j) (action j) (j_storage j) (j_piece j) (io_offset j)
    (io_buffer_size j) (in_progress j) (fence j) (blocked j) r ec.

Definition clear_in_progress (j : disk_io_job) : disk_io_job :=
  mk_disk_io_job (job_id j) (action j) (j_storage j) (j_piece j) (io_offset j)
    (io_buffer_size j) false (fence j) (blocked j) (ret j) (error j).

(** [asio::error::operation_aborted] *)
Definition operation_aborted : Z := 125.

(** [(j->flags & disk_io_job::in_progress) || !j->storage] *)
Definition in_progress_or_no_storage (j : disk_io_job) : bool :=
  in_progress j || match j_storage j with None => true | Some _ => false end.

(** ** Cached pieces *)

Record cached_block_entry : Type := mk_block {
  buf : option string;
  refcount : Z;
  dirty : bool;
  pending : bool
}.

Record partial_hash : Type := mk_partial_hash {
  offset : Z
}.

Inductive cache_state_t : Type :=
| write_lru | volatile_read_lru | read_lru1 | read_lru1_ghost
| read_lru2 | read_lru2_ghost.

Definition cache_state_index (s : cache_state_t) : Z :=
  match s with
  | write_lru => 0 | volatile_read_lru => 1 | read_lru1 => 2
  | read_lru1_ghost => 3 | read_lru2 => 4 | read_lru2_ghost => 5
  end.

Definition is_write_lru (s : cache_state_t) : bool :=
  match s with write_lru => true | _ => false end.

(** A [cached_piece_entry]: the piece [piece] of the storage [storage]. *)
Record cached_piece_entry : Type := mk_piece {
  storage : Z;
  piece : Z;
  blocks : list cached_block_entry;
  blocks_in_piece : Z;
  num_dirty : Z;
  hash : option partial_hash;
  hashing_done : bool;
  hashing : bool;
  need_readback : bool;
  cache_state : cache_state_t;
  piece_refcount : Z;
  pe_refcount : Z;
  jobs : list disk_io_job
}.

Definition set_blocks (bs : list cached_block_entry) (pe : cached_piece_entry)
  : cached_piece_entry :=
  mk_piece (storage pe) (piece pe) bs (blocks_in_piece pe) (num_dirty pe)
    (hash pe) (hashing_done pe) (hashing pe) (need_readback pe)
    (cache_state pe) (piece_refcount pe) (pe_refcount pe) (jobs pe).

Definition set_jobs (js : list disk_io_job) (pe : cached_piece_entry)
  : cached_piece_entry :=
  mk_piece (storage pe) (piece pe) (blocks pe) (blocks_in_piece pe)
    (num_dirty pe) (hash pe) (hashing_done pe) (hashing pe) (need_readback pe)
    (cache_state pe) (piece_refcount pe) (pe_refcount pe) js.

Definition set_piece_refcount (r : Z) (pe : cached_piece_entry)
  : cached_piece_entry :=
  mk_piece (storage pe) (piece pe) (blocks pe) (blocks_in_piece pe)
    (num_dirty pe) (hash pe) (hashing_done pe) (hashing pe) (need_readback pe)
    (cache_state pe) r (pe_refcount pe) (jobs pe).

(** [pe->hashing_done = 0; delete pe->hash; pe->hash = NULL] *)
Definition clear_hash (pe : cached_piece_entry) : cached_piece_entry :=
  mk_piece (storage pe) (piece pe) (blocks pe) (blocks_in_piece pe)
    (num_dirty pe) None false (hashing pe) (need_readback pe)
    (cache_state pe) (piece_refcount pe) (pe_refcount pe) (jobs pe).

(** [pe->blocks[i]] *)
Definition block_at (pe : cached_piece_entry) (i : Z) : option cached_block_entry :=
  if i <? 0 then None else nth_error (blocks pe) (Z.to_nat i).

Fixpoint update_nth {A : Type} (n : nat) (f : A -> A) (l : list A) : list A :=
  match l, n with
  | [], _ => []
  | x :: l', O => f x :: l'
  | x :: l', S n' => x :: update_nth n' f l'
  end.

(** [pe->blocks[i]] changed by [f]; nothing for an [i] outside the array *)
Definition update_block (i : Z) (f : cached_block_entry -> cached_block_entry)
    (pe : cached_piece_entry) : cached_piece_entry :=
  if i <? 0 then pe else set_blocks (update_nth (Z.to_nat i) f (blocks pe)) pe.

Definition set_pending (p : bool) (b : cached_block_entry) : cached_block_entry :=
  mk_block (buf b) (refcount b) (dirty b) p.

(** ** The block cache

    [block_cache] is implemented in a file that is not among the sources.
    Its pieces are kept here; what it does to them is taken from the
    collaborators below. *)
Record block_cache : Type := mk_block_cache {
  pieces : list cached_piece_entry;
  block_size : Z
}.

Definition same_piece (s i : Z) (pe : cached_piece_entry) : bool :=
  (storage pe =? s) && (piece pe =? i).

(** Modelled from the spec: [block_cache::find_piece] is not among the
    sources; the cache maps [(storage, piece)] to the cached piece. *)
Definition find_piece (c : block_cache) (s i : Z) : option cached_piece_entry :=
  find (same_piece s i) (pieces c).

(** [find_piece(j)]: the piece that the job [j] is about. *)
Definition find_piece_of (c : block_cache) (j : disk_io_job)
  : option cached_piece_entry :=
  match j_storage j with
  | Some s => find_piece c s (j_piece j)
  | None => None
  end.

(** The entry of [pe]'s piece in the cache replaced by [pe]: a change made
    through a pointer into the cache. *)
Definition store_piece (pe : cached_piece_entry) (c : block_cache) : block_cache :=
  mk_block_cache
    (map (fun q => if same_piece (storage pe) (piece pe) q then pe else q)
       (pieces c))
    (block_size c).

Record settings_pack : Type := mk_settings {
  allow_partial_disk_writes : bool;
  disable_hash_checks : bool
}.

(** One [iovec_t]: the buffer and [iov_len]. *)
Definition iovec_t : Type := (string * Z)%type.

(** One call of [storage_interface::writev]. *)
Record writev_call : Type := mk_writev {
  w_storage : Z;
  w_iov : list iovec_t;
  w_piece : Z;
  w_offset : Z
}.

Inductive fence_result : Type :=
| fence_post_fence | fence_post_flush | fence_post_none.

(** What the thread is built on: the storage with its fence
    ([disk_job_fence], in [piece_manager]), the block cache, the job that
    asks whether it is complete, and the backend that writes.  None of them
    is among the sources. *)
Class collaborators : Type := {
  (** the fence of a storage *)
  fence_t : Type;
  (** [raise_fence(j, fj, &m_num_blocked_jobs)]: the result, the two jobs
      and the counter of blocked jobs as the call leaves them *)
  raise_fence : disk_io_job -> disk_io_job -> fence_t -> Z
                -> fence_result * disk_io_job * disk_io_job * fence_t * Z;
  (** [job_complete(j, new_jobs)]: the jobs that are unblocked *)
  job_complete : disk_io_job -> fence_t -> list disk_io_job * fence_t;
  (** [block_cache::blocks_flushed(pe, flushed, num_flushed)] *)
  blocks_flushed : cached_piece_entry -> list Z -> cached_piece_entry;
  (** [block_cache::inc_block_refcount(pe, block, ref_flushing)] *)
  inc_block_refcount : cached_piece_entry -> Z -> cached_piece_entry;
  (** [block_cache::evict_piece(pe, jobs)]: whether the piece was evicted
      and the jobs that hung on it *)
  evict_piece : cached_piece_entry -> block_cache
                -> bool * list disk_io_job * block_cache;
  num_to_evict : block_cache -> Z -> Z;
  try_evict_blocks : block_cache -> Z -> block_cache;
  (** [j->completed(pe, block_size)] *)
  completed : disk_io_job -> cached_piece_entry -> Z -> bool;
  (** [writev] of the storage, after the calls made before: what it returns
      and the error code it leaves, 0 for none *)
  writev : writev_call -> list writev_call -> Z * Z;
  (** [files()->piece_size(piece)] and [files()->num_pieces()] of a storage *)
  piece_size : Z -> Z -> Z;
  num_pieces : Z -> Z;
  (** the value of [retry_job] *)
  retry_job : Z
}.


(** ** The thread *)

Section Thread.

Context {D : collaborators}.
Variable asserts_on : bool.

(** [disk_io_thread], as far as the functions below use it.  [fences] are
    the fences of the storages, [writes] the calls of [writev] that the
    backends have seen, [m_jobs_in_use] the jobs that [allocate_job] handed
    out and [free_job] has not taken back.  Statistics, timers and
    condition variables are left out.  The cache mutex is dropped around
    [writev]; what other threads do meanwhile is not modelled. *)
Record disk_io_thread : Type := mk_thread {
  m_disk_cache : block_cache;
  m_settings : settings_pack;
  m_queued_jobs : list disk_io_job;
  m_queued_hash_jobs : list disk_io_job;
  m_completed_jobs : list disk_io_job;
  m_num_blocked_jobs : Z;
  m_num_threads : Z;
  fences : Z -> fence_t;
  writes : list writev_call;
  m_jobs_in_use : list Z;
  m_next_job : Z
}.

Definition set_m_disk_cache (c : block_cache) (t : disk_io_thread)
  : disk_io_thread :=
  mk_thread c (m_settings t) (m_queued_jobs t) (m_queued_hash_jobs t)
    (m_completed_jobs t) (m_num_blocked_jobs t) (m_num_threads t) (fences t)
    (writes t) (m_jobs_in_use t) (m_next_job t).

Definition set_m_queued_jobs (q : list disk_io_job) (t : disk_io_thread)
  : disk_io_thread :=
  mk_thread (m_disk_cache t) (m_settings t) q (m_queued_hash_jobs t)
    (m_completed_jobs t) (m_num_blocked_jobs t) (m_num_threads t) (fences t)
    (writes t) (m_jobs_in_use t) (m_next_job t).

Definition set_m_completed_jobs (q : list disk_io_job) (t : disk_io_thread)
  : disk_io_thread :=
  mk_thread (m_disk_cache t) (m_settings t) (m_queued_jobs t)
    (m_queued_hash_jobs t) q (m_num_blocked_jobs t) (m_num_threads t)
    (fences t) (writes t) (m_jobs_in_use t) (m_next_job t).

Definition set_m_num_blocked_jobs (k : Z) (t : disk_io_thread)
  : disk_io_thread :=
  mk_thread (m_disk_cache t) (m_settings t) (m_queued_jobs t)
    (m_queued_hash_jobs t) (m_completed_jobs t) k (m_num_threads t)
    (fences t) (writes t) (m_jobs_in_use t) (m_next_job t).

Definition set_fences (f : Z -> fence_t) (t : disk_io_thread)
  : disk_io_thread :=
  mk_thread (m_disk_cache t) (m_settings t) (m_queued_jobs t)
    (m_queued_hash_jobs t) (m_completed_jobs t) (m_num_blocked_jobs t)
    (m_num_threads t) f (writes t) (m_jobs_in_use t) (m_next_job t).

Definition set_writes (w : list writev_call) (t : disk_io_thread)
  : disk_io_thread :=
  mk_thread (m_disk_cache t) (m_settings t) (m_queued_jobs t)
    (m_queued_hash_jobs t) (m_completed_jobs t) (m_num_blocked_jobs t)
    (m_num_threads t) (fences t) w (m_jobs_in_use t) (m_next_job t).

Definition set_pool (in_use : list Z) (next : Z) (t : disk_io_thread)
  : disk_io_thread :=
  mk_thread (m_disk_cache t) (m_settings t) (m_queued_jobs t)
    (m_queued_hash_jobs t) (m_completed_jobs t) (m_num_blocked_jobs t)
    (m_num_threads t) (fences t) (writes t) in_use next.

(** The fence of the storage [s] replaced. *)
Definition set_fence (s : Z) (f : fence_t) (t : disk_io_thread)
  : disk_io_thread :=
  set_fences (fun s' => if s' =? s then f else fences t s') t.

(** A pointer into the cache written through. *)
Definition store (pe : cached_piece_entry) (t : disk_io_thread)
  : disk_io_thread :=
  set_m_disk_cache (store_piece pe (m_disk_cache t)) t.

(** [allocate_job] and [free_job] of the job pool: a new job has no
    storage, no flags and no result. *)
Definition allocate_job (a : job_action) (t : disk_io_thread)
  : disk_io_job * disk_io_thread :=
  (mk_disk_io_job (m_next_job t) a None 0 0 0 false false false 0 0,
   set_pool (m_next_job t :: m_jobs_in_use t) (m_next_job t + 1) t).

Definition free_job (j : disk_io_job) (t : disk_io_thread) : disk_io_thread :=
  set_pool (filter (fun i => negb (i =? job_id j)) (m_jobs_in_use t))
    (m_next_job t) t.

(** *** [add_completed_jobs] *)

(** The loop over [jobs]: each job is reported to the fence of its
    storage, which clears [in_progress] and hands back the jobs that it
    unblocks. *)
Fixpoint complete_jobs (jobs : list disk_io_job) (f : Z -> fence_t)
    (new_jobs : list disk_io_job)
  : outcome (list disk_io_job * (Z -> fence_t) * list disk_io_job) :=
  match jobs with
  | [] => Ret ([], f, new_jobs)
  | j :: jobs' =>
      (TORRENT_ASSERT asserts_on (in_progress_or_no_storage j) ;;;
       let '(j, f, new_jobs) :=
         match j_storage j with
         | Some s =>
             let '(unblocked, fs) := job_complete j (f s) in
             (clear_in_progress j,
              (fun s' => if s' =? s then fs else f s'),
              new_jobs ++ unblocked)
         | None => (j, f, new_jobs)
         end in
       TORRENT_ASSERT asserts_on (negb (in_progress j)) ;;;
       ' (done, f, new_jobs) <- complete_jobs jobs' f new_jobs ;;
       Ret (j :: done, f, new_jobs))%outcome
  end.

Definition add_completed_jobs (jobs : list disk_io_job) (t : disk_io_thread)
  : outcome disk_io_thread :=
  (' (jobs, f, new_jobs) <- complete_jobs jobs (fences t) [] ;;
   let ret_ := Z.of_nat (List.length new_jobs) in
   TORRENT_ASSERT asserts_on (m_num_blocked_jobs t >=? ret_) ;;;
   let t := set_fences f t in
   let t := set_m_num_blocked_jobs (m_num_blocked_jobs t - ret_) t in
   TORRENT_ASSERT asserts_on (forallb in_progress_or_no_storage new_jobs) ;;;
   let t := match new_jobs with
            | [] => t
            | _ => set_m_queued_jobs (m_queued_jobs t ++ new_jobs) t
            end in
   Ret (set_m_completed_jobs (m_completed_jobs t ++ jobs) t))%outcome.

(** *** [build_iovec] *)

(** The loop of [build_iovec] from block [i], for [n] blocks. *)
Fixpoint build_iovec_loop (n : nat) (i : Z) (size_left : Z)
    (block_base_index : Z) (bsize : Z) (pe : cached_piece_entry)
    (iov : list iovec_t) (flushing : list Z)
  : outcome (cached_piece_entry * list iovec_t * list Z) :=
  match n with
  | O => Ret (pe, iov, flushing)
  | S n' =>
      (TORRENT_ASSERT asserts_on (size_left >? 0) ;;;
       match block_at pe i with
       | Some b =>
           (* don't flush blocks that are empty, not dirty, or pending *)
           match buf b with
           | Some data =>
               if pending b || negb (dirty b) then
                 build_iovec_loop n' (i + 1) (size_left - bsize)
                   block_base_index bsize pe iov flushing
               else
                 let pe := update_block i (set_pending true) pe in
                 let pe := inc_block_refcount pe i in
                 build_iovec_loop n' (i + 1) (size_left - bsize)
                   block_base_index bsize pe
                   (iov ++ [(data, Z.min bsize size_left)])
                   (flushing ++ [i + block_base_index])
           | None =>
               build_iovec_loop n' (i + 1) (size_left - bsize)
                 block_base_index bsize pe iov flushing
           end
       | None =>
           build_iovec_loop n' (i + 1) (size_left - bsize)
             block_base_index bsize pe iov flushing
       end)%outcome
  end.

(** [build_iovec(pe, start, end, iov, flushing, block_base_index)]: the
    piece with the blocks marked, and the two arrays. *)
Definition build_iovec (c : block_cache) (pe : cached_piece_entry)
    (start end_ : Z) (block_base_index : Z)
  : outcome (cached_piece_entry * list iovec_t * list Z) :=
  (TORRENT_ASSERT asserts_on (start >=? 0) ;;;
   TORRENT_ASSERT asserts_on (start <? end_) ;;;
   let end_ := Z.min end_ (blocks_in_piece pe) in
   let psize := piece_size (storage pe) (piece pe) in
   TORRENT_ASSERT asserts_on (psize >? 0) ;;;
   ' (pe, iov, flushing) <-
     build_iovec_loop (Z.to_nat (end_ - start)) start psize block_base_index
       (block_size c) pe [] [] ;;
   TORRENT_ASSERT asserts_on
     (Z.of_nat (List.length iov) =? Z.of_nat (List.length flushing)) ;;;
   Ret (pe, iov, flushing))%outcome.

(** *** [flush_iovec] *)

Definition at_index (l : list Z) (i : Z) : Z := nth (Z.to_nat i) l 0.

(** [iov_start .. iov_start + n] *)
Definition iov_run (iov : list iovec_t) (first n : Z) : list iovec_t :=
  firstn (Z.to_nat n) (skipn (Z.to_nat first) iov).

(** The loop of [flush_iovec] from [i], for [n] rounds: one [writev] for
    each run of consecutive block indices. *)
Fixpoint flush_iovec_loop (n : nat) (i : Z) (flushing_start : Z)
    (pe : cached_piece_entry) (bsize : Z) (iov : list iovec_t)
    (flushing : list Z) (num_blocks : Z) (error_ : Z)
    (log : list writev_call) : Z * list writev_call :=
  match n with
  | O => (error_, log)
  | S n' =>
      if (i <? num_blocks)
         && (at_index flushing i =? at_index flushing (i - 1) + 1)
      then flush_iovec_loop n' (i + 1) flushing_start pe bsize iov flushing
             num_blocks error_ log
      else
        let call :=
          mk_writev (storage pe) (iov_run iov flushing_start (i - flushing_start))
            (piece pe
             + Z.quot (at_index flushing flushing_start) (blocks_in_piece pe))
            (Z.rem (at_index flushing flushing_start) (blocks_in_piece pe)
             * bsize) in
        let '(_, ec) := writev call log in
        let error_ := if ec =? 0 then error_ else ec in
        flush_iovec_loop n' (i + 1) i pe bsize iov flushing num_blocks error_
          (log ++ [call])
  end.

(** [flush_iovec(pe, iov, flushing, num_blocks, error)]: the thread with
    the writes made, and [error]. *)
Definition flush_iovec (pe : cached_piece_entry) (iov : list iovec_t)
    (flushing : list Z) (num_blocks : Z) (error_ : Z) (t : disk_io_thread)
  : outcome (disk_io_thread * Z) :=
  (TORRENT_ASSERT asserts_on (error_ =? 0) ;;;
   TORRENT_ASSERT asserts_on (num_blocks >? 0) ;;;
   let '(error_, log) :=
     flush_iovec_loop (Z.to_nat num_blocks) 1 0 pe
       (block_size (m_disk_cache t)) iov flushing num_blocks error_ (writes t) in
   Ret (set_writes log t, error_))%outcome.

(** *** [iovec_flushed] *)

(** The jobs of the piece after a write without error: the ones that are
    complete are taken off the piece. *)
Fixpoint split_completed (js : list disk_io_job) (pe : cached_piece_entry)
    (bsize : Z) (error_ : Z)
  : outcome (list disk_io_job * list disk_io_job) :=
  match js with
  | [] => Ret ([], [])
  | j :: js' =>
      (TORRENT_ASSERT asserts_on (in_progress_or_no_storage j) ;;;
       ' (done, rest) <- split_completed js' pe bsize error_ ;;
       if completed j pe bsize
       then Ret (set_result (io_buffer_size j) error_ j :: done, rest)
       else Ret (done, j :: rest))%outcome
  end.

(** [iovec_flushed(pe, flushing, num_blocks, block_offset, error)];
    [flushing] are the [num_blocks] indices that the call is given. *)
Definition iovec_flushed (pe : cached_piece_entry) (flushing : list Z)
    (block_offset : Z) (error_ : Z) (t : disk_io_thread)
  : outcome (cached_piece_entry * disk_io_thread) :=
  (let flushing := map (fun f => f - block_offset) flushing in
   let pe := blocks_flushed pe flushing in
   let bsize := block_size (m_disk_cache t) in
   ' (pe, jobs_) <-
     (if negb (error_ =? 0) then
        (* jobs.swap(pe->jobs) *)
        let jobs_ := jobs pe in
        let pe := set_jobs [] pe in
        TORRENT_ASSERT asserts_on (forallb in_progress_or_no_storage jobs_) ;;;
        Ret (pe, map (set_result (-1) error_) jobs_)
      else
        (* pe->jobs.get_all() *)
        let js := jobs pe in
        let pe := set_jobs [] pe in
        ' (done, rest) <- split_completed js pe bsize error_ ;;
        Ret (set_jobs rest pe, done)) ;;
   t <- add_completed_jobs jobs_ (store pe t) ;;
   Ret (pe, t))%outcome.

(** *** [flush_range] *)

(** [pe->cache_state <= read_lru1 || pe->cache_state == read_lru2] *)
Definition may_be_pinned (pe : cached_piece_entry) : bool :=
  (cache_state_index (cache_state pe) <=? cache_state_index read_lru1)
  || (cache_state_index (cache_state pe) =? cache_state_index read_lru2).

(** the cache is under pressure: evict the blocks that were just flushed *)
Definition evict_after_flush (t : disk_io_thread) : disk_io_thread :=
  let evict := num_to_evict (m_disk_cache t) 0 in
  if evict >? 0
  then set_m_disk_cache (try_evict_blocks (m_disk_cache t) evict) t
  else t.

(** [flush_range(pe, start, end, flags, l)]: the number of blocks
    written. *)
Definition flush_range (pe : cached_piece_entry) (start end_ : Z)
    (t : disk_io_thread) : outcome (Z * disk_io_thread) :=
  (TORRENT_ASSERT asserts_on (start >=? 0) ;;;
   TORRENT_ASSERT asserts_on (start <? end_) ;;;
   ' (pe, iov, flushing) <- build_iovec (m_disk_cache t) pe start end_ 0 ;;
   let iov_len := Z.of_nat (List.length iov) in
   if iov_len =? 0 then Ret (0, t)
   else
     TORRENT_ASSERT asserts_on (may_be_pinned pe) ;;;
     let pe := set_piece_refcount (piece_refcount pe + 1) pe in
     let t := store pe t in
     ' (t, error_) <- flush_iovec pe iov flushing iov_len 0 t ;;
     TORRENT_ASSERT asserts_on (piece_refcount pe >? 0) ;;;
     let pe := set_piece_refcount (piece_refcount pe - 1) pe in
     ' (pe, t) <- iovec_flushed pe flushing 0 error_ (store pe t) ;;
     Ret (iov_len, evict_after_flush t))%outcome.


(** *** [try_flush_hashed] *)

(** What a pointer to the piece [p] points at, after the cache has
    changed. *)
Definition deref (t : disk_io_thread) (p : cached_piece_entry)
  : cached_piece_entry :=
  match find_piece (m_disk_cache t) (storage p) (piece p) with
  | Some q => q
  | None => p
  end.

(** The number of blocks below [end_] that would be flushed. *)
Fixpoint count_flushable (n : nat) (p : cached_piece_entry) : Z :=
  match n with
  | O => 0
  | S n' =>
      count_flushable n' p
      + match block_at p (Z.of_nat n') with
        | Some b => if dirty b && negb (pending b) then 1 else 0
        | None => 0
        end
  end.

(** The first loop over the pieces of the stripe, from piece [i], for [n]
    pieces: whether all of them are ready to be flushed, and
    [first_piece]. *)
Fixpoint stripe_ready (n : nat) (i : Z) (range_start : Z)
    (p : cached_piece_entry) (t : disk_io_thread)
    (first_piece : option cached_piece_entry)
  : bool * option cached_piece_entry :=
  match n with
  | O => (true, first_piece)
  | S n' =>
      if i =? piece p then
        stripe_ready n' (i + 1) range_start p t
          (if i =? range_start then Some p else first_piece)
      else
        match find_piece (m_disk_cache t) (storage p) i with
        | None => (false, first_piece)
        | Some pe =>
            let first_piece := if i =? range_start then Some pe
                               else first_piece in
            (* a read-cache piece has already been flushed *)
            if negb (is_write_lru (cache_state pe)) then
              stripe_ready n' (i + 1) range_start p t first_piece
            else
              let hash_cursor :=
                match hash pe with
                | Some h => Z.quot (offset h) (block_size (m_disk_cache t))
                | None => 0
                end in
              (* all blocks are there, dirty, and hashed *)
              if (num_dirty pe =? blocks_in_piece pe)
                 && (hashing_done pe
                     || (hash_cursor =? blocks_in_piece pe)
                     || disable_hash_checks (m_settings t))
              then stripe_ready n' (i + 1) range_start p t first_piece
              else (false, first_piece)
        end
  end.

(** The piece that the second and the third loop take for the index [i]. *)
Definition stripe_piece (i : Z) (range_start : Z) (p : cached_piece_entry)
    (t : disk_io_thread) : option cached_piece_entry :=
  if i =? piece p then Some (deref t p)
  else find_piece (m_disk_cache t) (storage p) (range_start + i).

(** The second loop: one iovec for all pieces.  For each piece the result
    has [refcount_pieces[i]] and the part of [flushing] between
    [iovec_offset[i]] and [iovec_offset[i+1]]. *)
Fixpoint stripe_build (n : nat) (i : Z) (range_start : Z) (block_start : Z)
    (p : cached_piece_entry) (t : disk_io_thread) (iov : list iovec_t)
    (flushing : list Z) (per_piece : list (bool * list Z))
  : outcome (disk_io_thread * list iovec_t * list Z * list (bool * list Z)) :=
  match n with
  | O => Ret (t, iov, flushing, per_piece)
  | S n' =>
      let skip :=
        stripe_build n' (i + 1) range_start (block_start + blocks_in_piece p)
          p t iov flushing (per_piece ++ [(false, [])]) in
      match stripe_piece i range_start p t with
      | None => skip
      | Some pe =>
          if negb (is_write_lru (cache_state pe)) then skip
          else
            (TORRENT_ASSERT asserts_on (may_be_pinned pe) ;;;
             let pe := set_piece_refcount (piece_refcount pe + 1) pe in
             ' (pe, iov1, flushing1) <-
               build_iovec (m_disk_cache t) pe 0 (blocks_in_piece p)
                 block_start ;;
             stripe_build n' (i + 1) range_start
               (block_start + blocks_in_piece p) p (store pe t)
               (iov ++ iov1) (flushing ++ flushing1)
               (per_piece ++ [(true, flushing1)]))%outcome
      end
  end.

(** The third loop: the pieces are released and told what was flushed. *)
Fixpoint stripe_flushed (per_piece : list (bool * list Z)) (i : Z)
    (range_start : Z) (block_start : Z) (p : cached_piece_entry)
    (error_ : Z) (t : disk_io_thread) : outcome disk_io_thread :=
  match per_piece with
  | [] => Ret t
  | (counted, flushing) :: rest =>
      match stripe_piece i range_start p t with
      | None =>
          (TORRENT_ASSERT asserts_on (negb counted) ;;;
           stripe_flushed rest (i + 1) range_start
             (block_start + blocks_in_piece p) p error_ t)%outcome
      | Some pe =>
          (pe <- (if counted then
                    TORRENT_ASSERT asserts_on (piece_refcount pe >? 0) ;;;
                    Ret (set_piece_refcount (piece_refcount pe - 1) pe)
                  else Ret pe) ;;
           ' (_, t) <- iovec_flushed pe flushing block_start error_
                         (store pe t) ;;
           stripe_flushed rest (i + 1) range_start
             (block_start + blocks_in_piece p) p error_ t)%outcome
      end
  end.

(** The stripe of [cont_pieces] pieces that the piece [p] lies in. *)
Definition range_start_of (p : cached_piece_entry) (cont_pieces : Z) : Z :=
  Z.quot (piece p) cont_pieces * cont_pieces.

Definition range_end_of (p : cached_piece_entry) (cont_pieces : Z) : Z :=
  Z.min (range_start_of p cont_pieces + cont_pieces) (num_pieces (storage p)).

(** The part of [try_flush_hashed] that flushes the pieces from
    [range_start] up to [range_end] at once. *)
Definition flush_stripe (p : cached_piece_entry) (range_start range_end : Z)
    (t : disk_io_thread) : outcome (Z * disk_io_thread) :=
  let '(range_full, first_piece) :=
    stripe_ready (Z.to_nat (range_end - range_start)) range_start range_start
      p t None in
  if negb range_full then Ret (0, t)
  else
    let cont_pieces := range_end - range_start in
    (' (t, iov, flushing, per_piece) <-
       stripe_build (Z.to_nat cont_pieces) 0 range_start 0 p t [] [] [] ;;
     let iov_len := Z.of_nat (List.length iov) in
     TORRENT_ASSERT asserts_on
       (match first_piece with Some _ => true | None => false end) ;;;
     if iov_len =? 0 then
       (* we may not exit here if we incremented any piece refcounters *)
       TORRENT_ASSERT asserts_on (cont_pieces =? 0) ;;;
       Ret (0, t)
     else
       let first := match first_piece with
                    | Some q => deref t q
                    | None => deref t p
                    end in
       ' (t, error_) <- flush_iovec first iov flushing iov_len 0 t ;;
       t <- stripe_flushed per_piece 0 range_start 0 p error_ t ;;
       Ret (iov_len, evict_after_flush t))%outcome.

(** [try_flush_hashed(p, cont_block, l)]: flush the blocks that have been
    hashed. *)
Definition try_flush_hashed (p : cached_piece_entry) (cont_block : Z)
    (t : disk_io_thread) : outcome (Z * disk_io_thread) :=
  (TORRENT_ASSERT asserts_on (cont_block >? 0) ;;;
   if match hash p with None => true | Some _ => false end
      && negb (hashing_done p)
   then Ret (0, t)
   else if num_dirty p =? 0 then Ret (0, t)
   else
     (* end is one past the end; the offset is rounded up to include the
        last block, which might have an odd size *)
     let bsize := block_size (m_disk_cache t) in
     let end_ := if hashing_done p then blocks_in_piece p
                 else match hash p with
                      | Some h => Z.quot (offset h + bsize - 1) bsize
                      | None => 0
                      end in
     (* nothing has been hashed yet, don't flush anything *)
     if (end_ =? 0) && negb (need_readback p) then Ret (0, t)
     else
       (* the number of contiguous blocks we need to be allowed to flush *)
       let block_limit := Z.min cont_block (blocks_in_piece p) in
       (* if everything has been hashed, we might as well flush everything *)
       let block_limit := if end_ =? blocks_in_piece p then 1
                          else block_limit in
       let end_ := if need_readback p then blocks_in_piece p else end_ in
       (* count number of blocks that would be flushed *)
       let num_blocks := count_flushable (Z.to_nat end_) p in
       (* too few blocks would be flushed at this point, put it off *)
       if block_limit >? num_blocks then Ret (0, t)
       else
         let cont_pieces := Z.quot cont_block (blocks_in_piece p) in
         if (cont_pieces <=? 1) || allow_partial_disk_writes (m_settings t)
         then flush_range p 0 end_ t
         else
           flush_stripe p (range_start_of p cont_pieces)
             (range_end_of p cont_pieces) t)%outcome.

(** *** Fences and [clear_piece] *)

(** [abort_jobs(jobs)] *)
Definition abort_jobs (jobs_ : list disk_io_job) (t : disk_io_thread)
  : outcome disk_io_thread :=
  (TORRENT_ASSERT asserts_on (forallb in_progress_or_no_storage jobs_) ;;;
   let jobs_ := map (set_result (-1) operation_aborted) jobs_ in
   match jobs_ with
   | [] => Ret t
   | _ => add_completed_jobs jobs_ t
   end)%outcome.

Definition set_j_storage (s : option Z) (j : disk_io_job) : disk_io_job :=
  mk_disk_io_job (job_id j) (action j) s (j_piece j) (io_offset j)
    (io_buffer_size j) (in_progress j) (fence j) (blocked j) (ret j) (error j).

Definition set_j_piece (i : Z) (j : disk_io_job) : disk_io_job :=
  mk_disk_io_job (job_id j) (action j) (j_storage j) i (io_offset j)
    (io_buffer_size j) (in_progress j) (fence j) (blocked j) (ret j) (error j).

(** [add_fence_job(storage, j)] *)
Definition add_fence_job (s : Z) (j : disk_io_job) (t : disk_io_thread)
  : outcome disk_io_thread :=
  (TORRENT_ASSERT asserts_on (m_num_threads t >? 0) ;;;
   let '(fj, t) := allocate_job flush_storage t in
   let fj := set_j_storage (j_storage j) fj in
   let '(ret_, j, fj, f, num_blocked) :=
     raise_fence j fj (fences t s) (m_num_blocked_jobs t) in
   let t := set_m_num_blocked_jobs num_blocked (set_fence s f t) in
   match ret_ with
   | fence_post_fence =>
       TORRENT_ASSERT asserts_on (in_progress_or_no_storage j) ;;;
       (* prioritize fence jobs since they're blocking other jobs *)
       let t := set_m_queued_jobs (j :: m_queued_jobs t) t in
       (* discard the flush job *)
       Ret (free_job fj t)
   | fence_post_flush =>
       (* there are other jobs outstanding on this storage; trigger a
          flush of all those jobs now *)
       TORRENT_ASSERT asserts_on (blocked j) ;;;
       TORRENT_ASSERT asserts_on (in_progress_or_no_storage fj) ;;;
       Ret (set_m_queued_jobs (fj :: m_queued_jobs t) t)
   | fence_post_none =>
       TORRENT_ASSERT asserts_on (blocked j) ;;;
       TORRENT_ASSERT asserts_on (negb (in_progress fj)) ;;;
       TORRENT_ASSERT asserts_on (blocked fj) ;;;
       Ret t
   end)%outcome.

(** [async_clear_piece(storage, index, handler)] *)
Definition async_clear_piece (s : Z) (index : Z) (t : disk_io_thread)
  : outcome disk_io_thread :=
  let '(j, t) := allocate_job clear_piece t in
  let j := set_j_piece index (set_j_storage (Some s) j) in
  (* clear piece must wait for all write jobs that have been issued *)
  add_fence_job s j t.

(** [do_clear_piece(j)]: what the job returns. *)
Definition do_clear_piece (j : disk_io_job) (t : disk_io_thread)
  : outcome (Z * disk_io_thread) :=
  match find_piece_of (m_disk_cache t) j with
  | None => Ret (0, t)
  | Some pe =>
      (TORRENT_ASSERT asserts_on (negb (hashing pe)) ;;;
       let pe := clear_hash pe in
       let t := store pe t in
       (* evict_piece returns true if the piece was in fact evicted.  A
          piece may fail to be evicted if there are still outstanding
          operations on it, in which case try again later *)
       let '(evicted, jobs_, c) := evict_piece pe (m_disk_cache t) in
       let t := set_m_disk_cache c t in
       if evicted then
         t <- abort_jobs jobs_ t ;;
         Ret (0, t)
       else
         (* we should always be able to evict the piece, since this is a
            fence job *)
         TORRENT_ASSERT asserts_on false ;;;
         Ret (retry_job, t))%outcome
  end.

End Thread.

End Disk.

(** * SHA-1

    Modelled from the spec: the node's [hasher] is SHA-1 (``first 4 bytes of
    SHA-1(addr_string || secret[i] || info_hash)''), whose code is not among
    the sources.  This is the function of FIPS 180-4, on byte strings. *)

Module SHA1.

Local Open Scope N_scope.

Definition mask32 (x : N) : N := x mod 2 ^ 32.

Definition rotl (n : N) (x : N) : N :=
  mask32 (N.lor (N.shiftl x n) (N.shiftr x (32 - n))).

Definition add32 (x y : N) : N := mask32 (x + y).

Definition not32 (x : N) : N := N.lxor x (2 ^ 32 - 1).

Definition f (t : nat) (b c d : N) : N :=
  if (t <? 20)%nat then N.lor (N.land b c) (N.land (not32 b) d)
  else if (t <? 40)%nat then N.lxor (N.lxor b c) d
  else if (t <? 60)%nat then
    N.lor (N.lor (N.land b c) (N.land b d)) (N.land c d)
  else N.lxor (N.lxor b c) d.

Definition K (t : nat) : N :=
  if (t <? 20)%nat then 0x5A827999
  else if (t <? 40)%nat then 0x6ED9EBA1
  else if (t <? 60)%nat then 0x8F1BBCDC
  else 0xCA62C1D6.

Definition bytes_of_string (s : string) : list N :=
  map N_of_ascii (list_ascii_of_string s).

Fixpoint be_bytes (n : nat) (x : N) : list N :=
  match n with
  | O => []
  | S n' => (N.shiftr x (8 * N.of_nat n')) mod 256 :: be_bytes n' x
  end.

Definition pad (msg : list N) : list N :=
  let len := List.length msg in
  let zeros := ((64 - ((len + 9) mod 64)) mod 64)%nat in
  msg ++ [0x80] ++ repeat 0 zeros ++ be_bytes 8 (8 * N.of_nat len).

Fixpoint words (fuel : nat) (bs : list N) : list N :=
  match fuel, bs with
  | S fuel', b0 :: b1 :: b2 :: b3 :: rest =>
      (b0 * 2 ^ 24 + b1 * 2 ^ 16 + b2 * 2 ^ 8 + b3) :: words fuel' rest
  | _, _ => []
  end.

Definition W_at (w : list N) (t : nat) : N := nth t w 0.

Fixpoint schedule (n : nat) (w : list N) : list N :=
  match n with
  | O => w
  | S n' =>
      let t := List.length w in
      schedule n'
        (w ++ [rotl 1 (N.lxor (N.lxor (W_at w (t - 3)) (W_at w (t - 8)))
                         (N.lxor (W_at w (t - 14)) (W_at w (t - 16))))])
  end.

Definition state : Type := N * N * N * N * N.

Fixpoint rounds (t : nat) (w : list N) (s : state) : state :=
  match w with
  | [] => s
  | wt :: w' =>
      let '(a, b, c, d, e) := s in
      let temp :=
        add32 (add32 (add32 (add32 (rotl 5 a) (f t b c d)) e) wt) (K t) in
      rounds (S t) w' (temp, a, rotl 30 b, c, d)
  end.

Definition process_block (h : state) (block : list N) : state :=
  let w16 := words 16 block in
  (* the 16 words of the block, extended to 80 *)
  let w := schedule (80 - List.length w16) w16 in
  let '(a, b, c, d, e) := rounds 0 w h in
  let '(h0, h1, h2, h3, h4) := h in
  (add32 h0 a, add32 h1 b, add32 h2 c, add32 h3 d, add32 h4 e).

Fixpoint blocks (fuel : nat) (bs : list N) (h : state) : state :=
  match fuel with
  | O => h
  | S fuel' =>
      match bs with
      | [] => h
      | _ => blocks fuel' (skipn 64 bs) (process_block h (firstn 64 bs))
      end
  end.

Definition init : state :=
  (0x67452301, 0xEFCDAB89, 0x98BADCFE, 0x10325476, 0xC3D2E1F0).

Definition byte_at (x : N) (k : N) : ascii :=
  ascii_of_N ((N.shiftr x (8 * k)) mod 256).

Definition word_string (x : N) (rest : string) : string :=
  String (byte_at x 3) (String (byte_at x 2)
    (String (byte_at x 1) (String (byte_at x 0) rest))).

Definition digest (s : string) : string :=
  let p := pad (bytes_of_string s) in
  let '(h0, h1, h2, h3, h4) := blocks (List.length p) p init in
  word_string h0 (word_string h1 (word_string h2
    (word_string h3 (word_string h4 EmptyString)))).

Lemma digest_size (s : string) : String.length (digest s) = 20%nat.
Proof.
  unfold digest.
  destruct (blocks _ _ _) as [[[[h0 h1] h2] h3] h4].
  reflexivity.
Qed.

(** The test vector of FIPS 180-4 for the message [abc]. *)
Example digest_abc :
  bytes_of_string (digest "abc")
  = [0xa9; 0x99; 0x3e; 0x36; 0x47; 0x06; 0x81; 0x6a; 0xba; 0x3e;
     0x25; 0x71; 0x78; 0x50; 0xc2; 0x6c; 0x9c; 0xd0; 0xd8; 0x9d].
Proof. vm_compute. reflexivity. Qed.

End SHA1.

(** * A concrete set of collaborators

    One implementation of everything the node takes as given, to run the
    node on concrete messages: SHA-1 as the hasher, IPv4 addresses in
    dotted-decimal text, a little-endian [int], a routing table that keeps
    what it hears, and a bencoder.  The signature check accepts: the
    messages below stand for messages whose signatures are valid. *)

Module World.

Import Dht.
Local Open Scope string_scope.
Local Open Scope Z_scope.

Fixpoint digits (fuel : nat) (n : Z) (acc : string) : string :=
  match fuel with
  | O => acc
  | S fuel' =>
      let acc := String (ascii_of_N (Z.to_N (48 + n mod 10))) acc in
      if n / 10 =? 0 then acc else digits fuel' (n / 10) acc
  end.

Definition decimal (z : Z) : string :=
  if z <? 0 then "-" ++ digits (S (Z.to_nat (Z.log2 (- z)))) (- z) ""
  else digits (S (Z.to_nat (Z.log2 z))) z "".

Definition byte_of (x : Z) : ascii := ascii_of_N (Z.to_N (x mod 256)).

(** the [n] low bytes of [x], the most significant first *)
Fixpoint be_string (n : nat) (x : Z) : string :=
  match n with
  | O => ""
  | S n' => String (byte_of (Z.shiftr x (8 * Z.of_nat n'))) (be_string n' x)
  end.

(** the [n] low bytes of [x], the least significant first *)
Fixpoint le_string (n : nat) (x : Z) : string :=
  match n with
  | O => ""
  | S n' => String (byte_of x) (le_string n' (Z.shiftr x 8))
  end.

Definition dotted (a : Z) : string :=
  decimal (Z.shiftr a 24 mod 256) ++ "." ++ decimal (Z.shiftr a 16 mod 256)
  ++ "." ++ decimal (Z.shiftr a 8 mod 256) ++ "." ++ decimal (a mod 256).

Definition address_text (a : address) : string * bool :=
  match a with
  | address_v4 x => (dotted x, false)
  | address_v6 _ => ("", true)
  end.

Definition address_bytes (a : address) : string :=
  match a with
  | address_v4 x => be_string 4 x
  | address_v6 x => be_string 16 x
  end.

Definition compact_endpoint (a : address) (p : Z) : string :=
  address_bytes a ++ be_string 2 p.

Fixpoint number_of (s : string) (acc : Z) : Z :=
  match s with
  | EmptyString => acc
  | String c s' => number_of s' (acc * 256 + Z.of_N (N_of_ascii c))
  end.

Definition xor_distance_exp (a b : string) : Z :=
  160 - Z.log2 (Z.lxor (number_of a 0) (number_of b 0)).

(** Bencoding. *)
Fixpoint encode (t : bdecode_tree) : string :=
  match t with
  | b_int i => "i" ++ decimal i ++ "e"
  | b_string s => decimal (Z.of_nat (String.length s)) ++ ":" ++ s
  | b_list l =>
      "l" ++ (fix items (l : list bdecode_tree) : string :=
                match l with
                | [] => ""
                | x :: l' => encode x ++ items l'
                end) l ++ "e"
  | b_dict d =>
      "d" ++ (fix items (d : list (string * bdecode_tree)) : string :=
                match d with
                | [] => ""
                | (k, x) :: d' =>
                    decimal (Z.of_nat (String.length k)) ++ ":" ++ k
                    ++ encode x ++ items d'
                end) d ++ "e"
  end.

Definition encoded (n : bdecode_node) : string :=
  match n with Some t => encode t | None => "" end.

Definition is_digit (c : ascii) : bool :=
  (48 <=? Z.of_N (N_of_ascii c)) && (Z.of_N (N_of_ascii c) <=? 57).

(** the number that [s] starts with and what follows it *)
Fixpoint read_number (s : string) (acc : Z) : Z * string :=
  match s with
  | String c s' =>
      if is_digit c then read_number s' (acc * 10 + Z.of_N (N_of_ascii c) - 48)
      else (acc, s)
  | EmptyString => (acc, s)
  end.

Definition drop (n : nat) (s : string) : string :=
  substring n (String.length s - n) s.

Fixpoint decode (fuel : nat) (s : string) : option (entry * string) :=
  match fuel with
  | O => None
  | S fuel' =>
      match s with
      | EmptyString => None
      | String c rest =>
          if Ascii.eqb c "i" then
            let '(negative, rest) :=
              match rest with
              | String d rest' => if Ascii.eqb d "-" then (true, rest') else (false, rest)
              | EmptyString => (false, rest)
              end in
            let '(i, rest) := read_number rest 0 in
            match rest with
            | String d rest' =>
                if Ascii.eqb d "e"
                then Some (entry_int (if negative then - i else i), rest')
                else None
            | EmptyString => None
            end
          else if Ascii.eqb c "l" then
            (fix items (k : nat) (s : string) (acc : list entry)
               : option (entry * string) :=
               match k with
               | O => None
               | S k' =>
                   match s with
                   | String d rest' =>
                       if Ascii.eqb d "e" then Some (entry_list (rev acc), rest')
                       else match decode fuel' s with
                            | Some (x, rest'') => items k' rest'' (x :: acc)%list
                            | None => None
                            end
                   | EmptyString => None
                   end
               end) fuel' rest []
          else if Ascii.eqb c "d" then
            (fix items (k : nat) (s : string) (acc : list (string * entry))
               : option (entry * string) :=
               match k with
               | O => None
               | S k' =>
                   match s with
                   | String d rest' =>
                       if Ascii.eqb d "e" then Some (entry_dictionary acc, rest')
                       else
                         let '(len, after) := read_number s 0 in
                         let name := substring 1 (Z.to_nat len) after in
                         match decode fuel' (drop (S (Z.to_nat len)) after) with
                         | Some (x, rest'') =>
                             items k' rest'' (map_set name x acc)
                         | None => None
                         end
                   | EmptyString => None
                   end
               end) fuel' rest []
          else if is_digit c then
            let '(len, after) := read_number s 0 in
            Some (entry_string (substring 1 (Z.to_nat len) after),
                  drop (S (Z.to_nat len)) after)
          else None
      end
  end.

Definition decoded (s : string) : entry :=
  match decode (S (String.length s)) s with
  | Some (e, _) => e
  | None => entry_undefined
  end.

Definition endpoint_entries (ps : list peer_entry) : list entry :=
  map (fun p => entry_string
                  (compact_endpoint (address_of (pe_addr p)) (port (pe_addr p))))
    ps.

Definition all_peers (m : list (string * torrent_entry)) (max_reply : Z)
    (info_hash : string) (reply : entry) (noseed scrape : bool) : entry :=
  match map_find info_hash m with
  | None => reply
  | Some v =>
      entry_set "values"
        (entry_list
           (endpoint_entries
              (firstn (Z.to_nat max_reply)
                 (filter (fun p => negb (noseed && seed p)) (peers v)))))
        reply
  end.

Definition world : collaborators := {|
  hasher := SHA1.digest;
  hasher_size := SHA1.digest_size;
  to_string := address_text;
  int_bytes := le_string 4;
  endpoint_to_bytes := fun ep => compact_endpoint (address_of ep) (port ep);
  write_endpoint := compact_endpoint;
  routing_table := list node_entry;
  heard_about := fun t id ep =>
    (mk_node_entry id (address_of ep) (port ep) :: t)%list;
  node_seen := fun t id ep _ =>
    (mk_node_entry id (address_of ep) (port ep) :: t)%list;
  find_node := fun t _ => firstn 8 t;
  verify_id := fun _ _ => true;
  verify_mutable_item := fun _ _ _ _ _ => true;
  item_target_id := SHA1.digest;
  item_target_id_mutable := fun salt pk => SHA1.digest (pk ++ salt);
  bloom_filter := list string;
  bloom_empty := [];
  bloom_find := fun f h => existsb (String.eqb h) f;
  bloom_set := fun f h => (h :: f)%list;
  hash_address := fun a => SHA1.digest (address_bytes a);
  distance_exp := xor_distance_exp;
  lookup_peers := all_peers;
  bdecode := decoded;
  data_section := encoded
|}.

Example decoded_encoded :
  decoded (encode (b_dict [("a", b_int (-7)); ("b", b_list [b_string "xy"])]))
  = entry_dictionary
      [("a", entry_int (-7)); ("b", entry_list [entry_string "xy"])].
Proof. vm_compute. reflexivity. Qed.

Example dotted_example : dotted 167772161 = "10.0.0.1".
Proof. vm_compute. reflexivity. Qed.

End World.

(** * The block cache and the fence, from the specification

    The functions of [block_cache] and [disk_job_fence] that the thread
    calls are written here as the specification describes them, to state
    what the thread does with them and to run it. *)

Module DiskModel.

Import Disk.
Local Open Scope Z_scope.

(** Modelled from the spec: [block_cache::inc_block_refcount] is not among
    the sources.  Before the lock is dropped for I/O the worker sets a
    typed reference on the block ([flushing], [hashing], [reading]); the
    block and the piece count the references. *)
Definition pin_block (b : cached_block_entry) : cached_block_entry :=
  mk_block (buf b) (refcount b + 1) (dirty b) (pending b).

Definition inc_block_refcount_model (pe : cached_piece_entry) (i : Z)
  : cached_piece_entry :=
  let pe := update_block i pin_block pe in
  mk_piece (storage pe) (piece pe) (blocks pe) (blocks_in_piece pe)
    (num_dirty pe) (hash pe) (hashing_done pe) (hashing pe) (need_readback pe)
    (cache_state pe) (piece_refcount pe) (pe_refcount pe + 1) (jobs pe).

(** Modelled from the spec: [block_cache::blocks_flushed] is not among the
    sources.  A flushed block is persisted: it is no longer [pending]
    (inside a [writev]) and no longer [dirty] (written but not yet
    persisted); its buffer stays as a read block, the reference taken for
    the flush is given back, and [num_dirty] is the number of blocks that
    are dirty and not pending. *)
Definition flushed_block (b : cached_block_entry) : cached_block_entry :=
  mk_block (buf b) (refcount b - 1) false false.

Definition count_dirty (bs : list cached_block_entry) : Z :=
  Z.of_nat (List.length (filter (fun b => dirty b && negb (pending b)) bs)).

Definition blocks_flushed_model (pe : cached_piece_entry) (flushed : list Z)
  : cached_piece_entry :=
  let pe := fold_left (fun pe i => update_block i flushed_block pe) flushed pe in
  mk_piece (storage pe) (piece pe) (blocks pe) (blocks_in_piece pe)
    (count_dirty (blocks pe)) (hash pe) (hashing_done pe) (hashing pe)
    (need_readback pe) (cache_state pe) (piece_refcount pe)
    (pe_refcount pe - Z.of_nat (List.length flushed)) (jobs pe).

(** Modelled from the spec: [block_cache::evict_piece] is not among the
    sources.  It succeeds iff [piece_refcount == 0] and no block is
    pending; the piece leaves the cache and the jobs that hung on it are
    returned. *)
Definition evict_piece_model (pe : cached_piece_entry) (c : block_cache)
  : bool * list disk_io_job * block_cache :=
  if (piece_refcount pe =? 0) && forallb (fun b => negb (pending b)) (blocks pe)
  then (true, jobs pe,
        mk_block_cache
          (filter (fun q => negb (same_piece (storage pe) (piece pe) q))
             (pieces c))
          (block_size c))
  else (false, [], c).

(** Modelled from the spec: [disk_job_fence] is not among the sources.  The
    fence of a storage counts the fences raised and the jobs outstanding,
    and keeps the jobs that wait. *)
Record disk_job_fence : Type := mk_fence {
  m_has_fence : Z;
  m_outstanding_jobs : Z;
  m_blocked_jobs : list disk_io_job
}.

Definition with_flags (in_progress_ fence_ blocked_ : bool) (j : disk_io_job)
  : disk_io_job :=
  mk_disk_io_job (job_id j) (action j) (j_storage j) (j_piece j) (io_offset j)
    (io_buffer_size j) in_progress_ fence_ blocked_ (ret j) (error j).

(** [PostFence]: no outstanding jobs, the fence job may run.  [PostFlush]:
    outstanding jobs exist, the flush job is to run and the fence job
    waits.  Otherwise a fence is already in flight and both jobs wait. *)
Definition raise_fence_model (j fj : disk_io_job) (f : disk_job_fence)
    (num_blocked : Z)
  : fence_result * disk_io_job * disk_io_job * disk_job_fence * Z :=
  if (m_has_fence f =? 0) && (m_outstanding_jobs f =? 0) then
    (fence_post_fence, with_flags true true (blocked j) j, fj,
     mk_fence 1 1 (m_blocked_jobs f), num_blocked)
  else if m_has_fence f =? 0 then
    let j := with_flags (in_progress j) true true j in
    let fj := with_flags true (fence fj) (blocked fj) fj in
    (fence_post_flush, j, fj,
     mk_fence 1 (m_outstanding_jobs f + 1) (m_blocked_jobs f ++ [j]),
     num_blocked + 1)
  else
    let j := with_flags (in_progress j) true true j in
    let fj := with_flags (in_progress fj) (fence fj) true fj in
    (fence_post_none, j, fj,
     mk_fence (m_has_fence f + 1) (m_outstanding_jobs f)
       (m_blocked_jobs f ++ [fj; j]),
     num_blocked + 2).

(** A job is done: when the last outstanding job is done the jobs that
    wait are let go, in progress. *)
Definition job_complete_model (j : disk_io_job) (f : disk_job_fence)
  : list disk_io_job * disk_job_fence :=
  let f := mk_fence (if fence j then m_has_fence f - 1 else m_has_fence f)
             (m_outstanding_jobs f - 1) (m_blocked_jobs f) in
  if m_outstanding_jobs f =? 0 then
    (map (fun b => with_flags true (fence b) false b) (m_blocked_jobs f),
     mk_fence (m_has_fence f)
       (Z.of_nat (List.length (m_blocked_jobs f))) [])
  else ([], f).

(** A write job is complete when its block is neither dirty nor pending. *)
Definition completed_model (j : disk_io_job) (pe : cached_piece_entry)
    (bsize : Z) : bool :=
  match action j with
  | write =>
      match block_at pe (Z.quot (io_offset j) bsize) with
      | Some b => negb (dirty b) && negb (pending b)
      | None => false
      end
  | _ => false
  end.

(** A backend whose [writev] leaves the error code [ec] (0: it writes all
    bytes), for torrents of [pieces_] pieces of four blocks; the cache is
    never under pressure. *)
Definition backend (ec : Z) (pieces_ : Z) : collaborators := {|
  fence_t := disk_job_fence;
  raise_fence := raise_fence_model;
  job_complete := job_complete_model;
  blocks_flushed := blocks_flushed_model;
  inc_block_refcount := inc_block_refcount_model;
  evict_piece := evict_piece_model;
  num_to_evict := fun _ _ => 0;
  try_evict_blocks := fun c _ => c;
  completed := completed_model;
  writev := fun call _ =>
    if ec =? 0 then (fold_left (fun n v => n + snd v) (w_iov call) 0, 0)
    else (-1, ec);
  piece_size := fun _ _ => 4 * 16384;
  num_pieces := fun _ => pieces_;
  retry_job := -201
|}.

End DiskModel.

(** * The alert manager: construction and waiting *)

Module AlertWait.

Import Alert.

Section AlertWait.

Variable alert : Type.

(** [alert_manager(queue_limit, alert_mask)]: the limit is kept as a
    [size_t]. *)
Definition new_alert_manager (queue_limit : Z) (alert_mask : Z)
  : alert_manager alert :=
  mk_alert_manager [] alert_mask (to_size_t queue_limit) 0.

(** [m_alerts.front()], or [NULL] *)
Definition front (q : list alert) : option alert :=
  match q with
  | a :: _ => Some a
  | [] => None
  end.

(** [wait_for_alert(max_wait)].  The mutex is released while the thread
    waits on the condition; [woken] is the manager as the thread finds it
    when the wait ends.  The alert is looked at, not taken. *)
Definition wait_for_alert (m woken : alert_manager alert) : option alert :=
  if negb (empty (m_alerts m)) then front (m_alerts m)
  else
    (* m_condition.wait_for(lock, max_wait) *)
    if negb (empty (m_alerts woken)) then front (m_alerts woken)
    else None.

End AlertWait.

Arguments new_alert_manager {alert} _ _.
Arguments front {alert} _.
Arguments wait_for_alert {alert} _ _.

End AlertWait.

(** * The DHT node: stored peers, timeouts and incoming packets *)

Module DhtUpkeep.

Import Dht.
Local Open Scope string_scope.
Local Open Scope Z_scope.

(** [bloom_filter<256>], which the scrape reply is built with, is not among
    the sources. *)
Class scrape_filter : Type := {
  filter256 : Type;
  filter256_empty : filter256;
  filter256_set : filter256 -> string -> filter256;
  filter256_to_string : filter256 -> string
}.

(** ** [lookup_peers] *)

Section Lookup.

Context {C : collaborators} {F : scrape_filter}.

(** [random()], call by call, and what the comparison
    [(random() / float(UINT_MAX + 1.f)) * (num - t) >= num - m] gives for
    the value of [random()], [num - t] and [num - m]: the arithmetic is in
    [float] and is not redone here. *)
Variable random : nat -> Z.
Variable skip_peer : Z -> Z -> Z -> bool.

(** The loop over the peers of the torrent, from [iter], with the counters
    [t] and [m]; [pe] is [reply["values"].list()]. *)
Fixpoint pick_peers (noseed : bool) (num : Z) (iter : list peer_entry)
    (t m : Z) (pe : list entry) : list entry :=
  match iter with
  | [] => pe
  | p :: iter' =>
      if negb (m <? num) then pe
      else if skip_peer (random (Z.to_nat t)) (num - t) (num - m)
      then pick_peers noseed num iter' (t + 1) m pe
      else if noseed && seed p
      then pick_peers noseed num iter' (t + 1) m pe
      else
        let endpoint :=
          write_endpoint (address_of (pe_addr p)) (port (pe_addr p)) in
        pick_peers noseed num iter' (t + 1) (m + 1)
          (pe ++ [entry_string endpoint])%list
  end.

(** The two filters of a scrape: the peers that download and the seeds. *)
Definition scrape_filters (ps : list peer_entry) : filter256 * filter256 :=
  fold_left
    (fun (ds : filter256 * filter256) (p : peer_entry) =>
       let iphash := hash_address (address_of (pe_addr p)) in
       if seed p then (fst ds, filter256_set (snd ds) iphash)
       else (filter256_set (fst ds) iphash, snd ds))
    ps (filter256_empty, filter256_empty).

(** [e.list()]: an undefined entry becomes an empty list. *)
Definition list_of (e : entry) : list entry :=
  match e with
  | entry_list l => l
  | _ => []
  end.

(** [node::lookup_peers(info_hash, reply, noseed, scrape)] on the table
    [m_map], with [m_settings.max_peers_reply]. *)
Definition lookup_peers_run (m_map : list (string * torrent_entry))
    (max_peers_reply : Z) (info_hash : string) (reply : entry)
    (noseed scrape : bool) : entry :=
  (* lower_bound(info_hash), then i->first != info_hash *)
  match map_find info_hash m_map with
  | None => reply
  | Some v =>
      let reply := if negb (String.eqb (te_name v) "")
                   then entry_set "n" (entry_string (te_name v)) reply
                   else reply in
      if scrape then
        let '(downloaders, seeds) := scrape_filters (peers v) in
        let reply := entry_set "BFpe"
                       (entry_string (filter256_to_string downloaders)) reply in
        entry_set "BFsd" (entry_string (filter256_to_string seeds)) reply
      else
        let num := Z.min (to_int (Z.of_nat (List.length (peers v))))
                     max_peers_reply in
        let pe := list_of (entry_get "values" reply) in
        entry_set "values"
          (entry_list (pick_peers noseed num (peers v) 0 0 pe)) reply
  end.

End Lookup.

(** ** [purge_peers] and [connection_timeout] *)

Section Timeout.

Context {C : collaborators}.

(** The clock counts ticks; [minutes(k)] is a number of ticks. *)
Variable ticks_per_minute : Z.

Definition minutes (k : Z) : Z := k * ticks_per_minute.

(** [enum { announce_interval = 30 }] *)
Definition announce_interval : Z := 30.

(** [purge_peers(peers)]: the peers that have timed out are erased;
    [int(announce_interval * 1.5f)] is 45. *)
Definition purge_peers (now : Z) (ps : list peer_entry) : list peer_entry :=
  filter (fun i => negb (added i + minutes 45 <? now)) ps.

(** The times that [connection_timeout] and [tick] keep. *)
Record node_timers : Type := mk_node_timers {
  m_last_tracker_tick : Z;
  m_last_self_refresh : Z
}.

(** The loop over [m_immutable_table]: the items that were not seen for 60
    minutes are erased, with one call of [inc_stats_counter] each. *)
Fixpoint expire_items (now : Z) (table : list (string * dht_immutable_item))
    (n : node) : list (string * dht_immutable_item) * node :=
  match table with
  | [] => ([], n)
  | (k, i) :: table' =>
      if last_seen i + minutes 60 >? now then
        let '(kept, n) := expire_items now table' n in
        ((k, i) :: kept, n)
      else
        expire_items now table' (inc_stats_counter dht_immutable_data (-1) n)
  end.

(** The loop over [m_map]: the peers of each torrent are purged, and a
    torrent without peers is erased. *)
Fixpoint expire_torrents (now : Z) (table : list (string * torrent_entry))
    (n : node) : list (string * torrent_entry) * node :=
  match table with
  | [] => ([], n)
  | (key, t) :: table' =>
      let t := mk_torrent_entry (te_name t) (purge_peers now (peers t)) in
      (* if there are no more peers, remove the entry altogether *)
      match peers t with
      | [] => expire_torrents now table' (inc_stats_counter dht_torrents (-1) n)
      | _ :: _ =>
          let '(kept, n) := expire_torrents now table' n in
          ((key, t) :: kept, n)
      end
  end.

(** [connection_timeout()]; [d] is what [m_rpc.tick()] returns and [now]
    what [aux::time_now()] returns. *)
Definition connection_timeout (d now : Z) (tm : node_timers) (n : node)
  : Z * node_timers * node :=
  if now - minutes 2 <? m_last_tracker_tick tm then (d, tm, n)
  else
    let tm := mk_node_timers now (m_last_self_refresh tm) in
    let '(items, n) := expire_items now (m_immutable_table n) n in
    let n := set_m_immutable_table items n in
    (* look through all peers and see if any have timed out *)
    let '(torrents, n) := expire_torrents now (m_map n) n in
    let n := set_m_map torrents n in
    (d, tm, n).

End Timeout.

(** ** [incoming] *)

(** The RPC manager, which takes the replies and the errors, is not among
    the sources. *)
Class rpc_collaborator {C : collaborators} : Type := {
  rpc_manager : Type;
  (** [m_rpc.incoming(m, &id, m_settings)] *)
  rpc_incoming : rpc_manager -> msg -> dht_settings -> rpc_manager
}.

Section Incoming.

Context {C : collaborators} {R : rpc_collaborator}.
Variable asserts_on : bool.

(** The node with its RPC manager, the packets handed to
    [m_sock->send_packet] and the calls of
    [m_observer->set_external_address], both in the order of the calls. *)
Record node_io : Type := mk_node_io {
  the_node : node;
  m_rpc : rpc_manager;
  sent : list (entry * endpoint);
  external_address : list (address * address)
}.

(** The number that the first [k] bytes of [s] spell, most significant
    byte first ([address_v4::bytes_type], [address_v6::bytes_type]). *)
Fixpoint bytes_value (k : nat) (s : string) (acc : Z) : Z :=
  match k, s with
  | S k', String c s' => bytes_value k' s' (acc * 256 + Z.of_nat (nat_of_ascii c))
  | _, _ => acc
  end.

(** [*(y_ent.string_ptr())] *)
Definition first_char (s : string) : option ascii :=
  match s with
  | String c _ => Some c
  | EmptyString => None
  end.

(** [node::incoming(m)].  [use_ipv6] is [TORRENT_USE_IPV6], [has_observer]
    says that [m_observer] is not null; [has_quota] and [now] are for
    [incoming_request]. *)
Definition incoming (use_ipv6 has_observer has_quota : bool) (now : Z)
    (s : node_io) (m : msg) : outcome node_io :=
  (* is this a reply? *)
  let y_ent := dict_find_string (message m) "y" in
  if negb (is_set y_ent) || (string_length y_ent =? 0) then
    (* don't respond to this obviously broken message *)
    Ret s
  else
    let ext_ip := dict_find_string (message m) "ip" in
    (* backwards compatibility *)
    let ext_ip :=
      if negb (is_set ext_ip) then
        match dict_find (message m) "r" with
        | Some (b_dict d) => dict_find_string (Some (b_dict d)) "ip"
        | _ => ext_ip
        end
      else ext_ip in
    let told (a : address) (s : node_io) : node_io :=
      if has_observer
      then mk_node_io (the_node s) (m_rpc s) (sent s)
             (external_address s ++ [(a, address_of (addr m))])%list
      else s in
    let s :=
      if use_ipv6 && is_set ext_ip && (string_length ext_ip >=? 16) then
        (* this node claims we use the wrong node-ID! *)
        told (address_v6 (bytes_value 16 (string_ptr ext_ip) 0)) s
      else if is_set ext_ip && (string_length ext_ip >=? 4) then
        told (address_v4 (bytes_value 4 (string_ptr ext_ip) 0)) s
      else s in
    match first_char (string_ptr y_ent) with
    | Some "r"%char | Some "e"%char =>
        Ret (mk_node_io (the_node s)
               (rpc_incoming (m_rpc s) m (m_settings (the_node s)))
               (sent s) (external_address s))
    | Some "q"%char =>
        (TORRENT_ASSERT asserts_on
           (String.eqb (dict_find_string_value (message m) "y") "q") ;;;
         ' (n, e) <- incoming_request asserts_on has_quota now (the_node s) m
                       entry_undefined ;;
         Ret (mk_node_io n (m_rpc s) (sent s ++ [(e, addr m)])%list
                (external_address s)))%outcome
    | _ => Ret s
    end.

End Incoming.

End DhtUpkeep.

(** * Facts about the alert manager *)

Module AlertFacts.
Import Alert.

Lemma to_size_t_small (x : Z) : 0 <= x <= INT_MAX -> to_size_t x = x.
Proof.
  intros H. unfold to_size_t. apply Z.mod_small.
  unfold INT_MAX in H. lia.
Qed.

(** C9.  [get_all] hands the caller every queued alert in queue order,
    whatever the caller's queue held before, and reports the number of
    queued resume-data alerts; afterwards the manager is drained:
    [pending] is false and [num_queued_resume] is 0.  The hypothesis is the
    invariant that [get_all] itself asserts on entry. *)
Theorem get_all_drains (alert : Type) (asserts_on : bool)
    (m : alert_manager alert) (alerts : list alert) :
  counts_queued m ->
  exists m' : alert_manager alert,
    get_all asserts_on m alerts
      = Ret (m', m_alerts m, m_num_queued_resume m)
    /\ m_alerts m' = []
    /\ pending m' = false
    /\ num_queued_resume m' = 0.
Proof.
  intros [[Hlo Hhi] Hmax].
  unfold get_all.
  rewrite TORRENT_ASSERT_holds.
  2:{ rewrite to_size_t_small by lia. now apply Z.leb_le. }
  cbn [bind].
  destruct m as [q mask limit n]; cbn in *.
  destruct q as [|a q]; cbn [empty].
  - exists (mk_alert_manager [] mask limit n). cbn.
    unfold size in Hhi; cbn in Hhi.
    repeat split; try reflexivity.
    unfold num_queued_resume; cbn. lia.
  - eexists. repeat split; reflexivity.
Qed.

Lemma get_all_drains_witness :
  counts_queued (mk_alert_manager [7%nat; 8%nat; 9%nat] 0 1000 1)
  /\ exists m' : alert_manager nat,
    get_all true (mk_alert_manager [7%nat; 8%nat; 9%nat] 0 1000 1) [1%nat]
      = Ret (m', [7%nat; 8%nat; 9%nat], 1)
    /\ m_alerts m' = []
    /\ pending m' = false
    /\ num_queued_resume m' = 0.
Proof.
  assert (H : counts_queued (mk_alert_manager [7%nat; 8%nat; 9%nat] 0 1000 1)).
  { unfold counts_queued, size, INT_MAX; cbn. lia. }
  split; [exact H|].
  exact (get_all_drains nat true
           (mk_alert_manager [7%nat; 8%nat; 9%nat] 0 1000 1) [1%nat] H).
Defined.

(** The invariant is needed: on an empty queue [get_all] returns before it
    resets the counter, so a counter that is ahead of the queue survives
    the call in a build without assertions. *)
Lemma get_all_empty_keeps_counter :
  get_all false (mk_alert_manager (@nil nat) 0 1000 3) [1%nat]
    = Ret (mk_alert_manager (@nil nat) 0 1000 3, [], 3).
Proof. reflexivity. Qed.

End AlertFacts.

(** * Facts about the DHT node *)

Module DhtFacts.

Import Dht.
Local Open Scope string_scope.
Local Open Scope Z_scope.

(** ** Strings and maps *)

Lemma substring_0_length (n : nat) (s : string) :
  (n <= String.length s)%nat -> String.length (substring 0 n s) = n.
Proof.
  revert s; induction n as [|n IH]; intros s Hn.
  - destruct s; reflexivity.
  - destruct s as [|c s]; cbn in Hn; [lia|].
    cbn. f_equal. apply IH. lia.
Qed.

Lemma compare_refl (s : string) : String.compare s s = Eq.
Proof.
  pose proof (String.compare_antisym s s) as H.
  destruct (String.compare s s); cbn in H; congruence.
Qed.

Lemma compare_eqb (a b : string) :
  String.eqb a b = match String.compare a b with Eq => true | _ => false end.
Proof.
  destruct (String.compare a b) eqn:E.
  - apply String.compare_eq_iff in E. subst. apply String.eqb_refl.
  - apply String.eqb_neq. intros ->. rewrite compare_refl in E. discriminate.
  - apply String.eqb_neq. intros ->. rewrite compare_refl in E. discriminate.
Qed.

Lemma map_find_set_same (V : Type) (k : string) (v : V) (m : list (string * V)) :
  map_find k (map_set k v m) = Some v.
Proof.
  induction m as [|[k' v'] m IH]; cbn.
  - now rewrite String.eqb_refl.
  - destruct (String.compare k k') eqn:E; cbn.
    + now rewrite String.eqb_refl.
    + now rewrite String.eqb_refl.
    + rewrite compare_eqb, E. exact IH.
Qed.

Lemma map_find_set_other (V : Type) (k k0 : string) (v : V)
    (m : list (string * V)) :
  k0 <> k -> map_find k0 (map_set k v m) = map_find k0 m.
Proof.
  intros Hne.
  assert (Hk : String.eqb k0 k = false) by now apply String.eqb_neq.
  induction m as [|[k' v'] m IH]; cbn.
  - now rewrite Hk.
  - destruct (String.compare k k') eqn:E; cbn.
    + apply String.compare_eq_iff in E. subst k'. now rewrite Hk.
    + now rewrite Hk.
    + destruct (String.eqb k0 k'); [reflexivity | exact IH].
Qed.

(** ** Write tokens *)

(** The token that a secret gives for an endpoint and an info-hash: the
    first four bytes of the digest. *)
Definition write_token {C : collaborators} (secret : Z) (addr : endpoint)
    (info_hash : string) : string :=
  substring 0 4
    (token_hash secret (fst (to_string (address_of addr))) info_hash).

Lemma write_token_length {C : collaborators} (secret : Z) (addr : endpoint)
    (info_hash : string) :
  String.length (write_token secret addr info_hash) = 4%nat.
Proof.
  unfold write_token, token_hash. apply substring_0_length.
  rewrite hasher_size. lia.
Qed.

Lemma token_matches_write_token {C : collaborators} (token : string)
    (secret : Z) (addr : endpoint) (info_hash : string) :
  String.length token = 4%nat ->
  token_matches token
    (token_hash secret (fst (to_string (address_of addr))) info_hash)
  = String.eqb token (write_token secret addr info_hash).
Proof.
  intros Hlen. unfold token_matches, write_token. now rewrite Hlen.
Qed.

Lemma verify_token_spec {C : collaborators} (n : node) (token : string)
    (info_hash : string) (addr : endpoint) :
  String.length token = 4%nat ->
  snd (to_string (address_of addr)) = false ->
  verify_token n token info_hash addr
  = String.eqb token (write_token (fst (m_secret n)) addr info_hash)
    || String.eqb token (write_token (snd (m_secret n)) addr info_hash).
Proof.
  intros Hlen Hec. unfold verify_token.
  rewrite Hlen. cbn [Nat.eqb negb].
  pose proof (token_matches_write_token token (fst (m_secret n)) addr info_hash Hlen) as H0.
  pose proof (token_matches_write_token token (snd (m_secret n)) addr info_hash Hlen) as H1.
  destruct (to_string (address_of addr)) as [a ec]. cbn in Hec, H0, H1. subst ec.
  rewrite H0, H1.
  destruct (String.eqb token _); [reflexivity|].
  destruct (String.eqb token _); reflexivity.
Qed.

Lemma generate_token_spec {C : collaborators} (asserts_on : bool) (n : node)
    (addr : endpoint) (info_hash : string) :
  snd (to_string (address_of addr)) = false ->
  generate_token asserts_on n addr info_hash
  = Ret (write_token (fst (m_secret n)) addr info_hash).
Proof.
  intros Hec.
  pose proof (write_token_length (fst (m_secret n)) addr info_hash) as Hlen.
  pose proof (token_matches_write_token _ (fst (m_secret n)) addr info_hash Hlen) as Hm.
  unfold generate_token. unfold write_token in *.
  destruct (to_string (address_of addr)) as [a ec]. cbn in Hec, Hlen, Hm |- *.
  subst ec. cbn [negb].
  rewrite TORRENT_ASSERT_holds by reflexivity. cbn [bind].
  rewrite TORRENT_ASSERT_holds.
  - reflexivity.
  - rewrite Hm. apply String.eqb_refl.
Qed.

(** C5, as the code has it.  The token that [generate_token] returns is
    accepted by [verify_token], and still after one [new_write_key].  After
    two calls it is rejected exactly when it differs from the tokens that
    both new secrets give for the same endpoint and hash: a token is four
    bytes of a digest, so a secret that differs may give the same token. *)
Theorem write_token_rotation {C : collaborators} (asserts_on : bool)
    (n : node) (addr : endpoint) (info_hash : string) (r1 r2 : Z) :
  snd (to_string (address_of addr)) = false ->
  generate_token asserts_on n addr info_hash
    = Ret (write_token (fst (m_secret n)) addr info_hash)
  /\ verify_token n (write_token (fst (m_secret n)) addr info_hash)
       info_hash addr = true
  /\ verify_token (new_write_key r1 n)
       (write_token (fst (m_secret n)) addr info_hash) info_hash addr = true
  /\ (verify_token (new_write_key r2 (new_write_key r1 n))
        (write_token (fst (m_secret n)) addr info_hash) info_hash addr = false
      <-> write_token r1 addr info_hash
            <> write_token (fst (m_secret n)) addr info_hash
          /\ write_token r2 addr info_hash
            <> write_token (fst (m_secret n)) addr info_hash).
Proof.
  intros Hec.
  pose proof (write_token_length (fst (m_secret n)) addr info_hash) as Hlen.
  split; [now apply generate_token_spec|].
  rewrite !verify_token_spec by assumption.
  cbn [new_write_key set_m_secret m_secret fst snd].
  rewrite String.eqb_refl.
  split; [reflexivity|].
  split; [apply orb_true_r|].
  rewrite orb_false_iff, !String.eqb_neq.
  split; intros [H1 H2]; split; congruence.
Qed.



(** ** From [incoming_request] to the branch of a query *)

(** The reply when the query is looked at: [y], [t], [ip], and in [r] the
    node's id and the sender's port. *)
Definition reply_head {C : collaborators} (n : node) (m : msg) : entry :=
  entry_dictionary
    [("ip", entry_string (endpoint_to_bytes (addr m)));
     ("r", entry_dictionary
             [("id", entry_string (m_id n));
              ("p", entry_int (port (addr m)))]);
     ("t", entry_string (dict_find_string_value (message m) "t"));
     ("y", entry_string "r")].

(** The node after [m_table.heard_about], which a read-only sender
    suppresses. *)
Definition heard {C : collaborators} (n : node) (m : msg)
    (top_level : list bdecode_node) : node :=
  if negb (is_set (at_ top_level 1) && negb (int_value (at_ top_level 1) =? 0))
  then set_m_table
         (heard_about (m_table n) (string_ptr (at_ top_level 3)) (addr m)) n
  else n.

(** The reply is a KRPC error with this code and text. *)
Definition is_error (e : entry) (code : Z) (text : string) : Prop :=
  find_key e "y" = Some (entry_string "e")
  /\ find_key e "e" = Some (entry_list [entry_int code; entry_string text]).

(** The reply is a response (["y"] is ["r"]). *)
Definition is_response (e : entry) : Prop :=
  find_key e "y" = Some (entry_string "r").

Section Query.

Context {C : collaborators}.
Variable asserts_on : bool.
Variable now : Z.
Variable n : node.
Variable m : msg.
Variable e : entry.
Variable top_level : list bdecode_node.

Hypothesis header_ok : verify_message (message m) top_desc = inl top_level.
Hypothesis id_ok :
  enforce_node_id (m_settings n)
  && negb (verify_id (string_ptr (at_ top_level 3)) (address_of (addr m)))
  = false.

Lemma heard_fields :
  m_settings (heard n m top_level) = m_settings n
  /\ m_id (heard n m top_level) = m_id n
  /\ m_secret (heard n m top_level) = m_secret n
  /\ m_map (heard n m top_level) = m_map n
  /\ m_immutable_table (heard n m top_level) = m_immutable_table n
  /\ m_mutable_table (heard n m top_level) = m_mutable_table n
  /\ m_counters (heard n m top_level) = m_counters n.
Proof.
  unfold heard. destruct (negb (is_set _ && _)); repeat split; reflexivity.
Qed.

Lemma incoming_request_dispatch :
  incoming_request asserts_on true now n m e
  = dispatch asserts_on now (heard n m top_level) m (reply_head n m)
      (string_ptr (at_ top_level 0)) (at_ top_level 2)
      (string_ptr (at_ top_level 3)).
Proof.
  unfold incoming_request. cbn [negb].
  rewrite header_ok, id_ok.
  replace (reply_head n m)
    with (reply_head (heard n m top_level) m)
    by (unfold reply_head; now rewrite (proj1 (proj2 heard_fields))).
  unfold heard. destruct (negb (is_set _ && _)); reflexivity.
Qed.

End Query.

(** ** Queries that are not recognised *)

Definition known_query (q : string) : bool :=
  String.eqb q "ping" || String.eqb q "get_peers" || String.eqb q "find_node"
  || String.eqb q "announce_peer" || String.eqb q "put" || String.eqb q "get".

(** The arguments have a string of 20 bytes under [key]. *)
Definition has_id20 (arg_ent : bdecode_node) (key : string) : bool :=
  is_set (dict_find_string arg_ent key)
  && (string_length (dict_find_string arg_ent key) =? 20).

(** The id that the fallback looks up: [target] if it is a string of 20
    bytes, [info_hash] otherwise. *)
Definition fallback_id (arg_ent : bdecode_node) : string :=
  if has_id20 arg_ent "target"
  then string_ptr (dict_find_string arg_ent "target")
  else string_ptr (dict_find_string arg_ent "info_hash").

Lemma dispatch_unknown {C : collaborators} (asserts_on : bool) (now : Z)
    (n : node) (m : msg) (e : entry) (q : string) (arg_ent : bdecode_node)
    (id : string) :
  known_query q = false ->
  dispatch asserts_on now n m e q arg_ent id = Ret (unknown_request n e arg_ent).
Proof.
  unfold known_query, dispatch. intros H.
  repeat (apply orb_false_iff in H; destruct H as [H ?]).
  repeat match goal with Hq : String.eqb q _ = false |- _ => rewrite Hq; clear Hq end.
  reflexivity.
Qed.

Lemma find_node_request_target {C : collaborators} (n : node) (e : entry)
    (t : string) :
  String.length t = 20%nat ->
  find_node_request n e (Some (b_dict [("target", b_string t)]))
  = (inc_stats_counter dht_find_node_in 1 n,
     write_nodes_entry e (find_node (m_table n) t)).
Proof.
  intros Hlen. unfold find_node_request, verify_message, find_node_desc.
  cbn. unfold string_length. cbn. rewrite Hlen. reflexivity.
Qed.

(** The compact form of the nodes that [write_nodes_entry] writes: for
    every node with an IPv4 address, in the order of the list, its id and
    then its endpoint. *)
Definition compact_nodes {C : collaborators} (nodes : list node_entry)
  : string :=
  fold_right
    (fun i s => id i ++ write_endpoint (ne_addr i) (ne_port i) ++ s) ""
    (filter (fun i => is_v4 (ne_addr i)) nodes).

Lemma nodes_string_compact {C : collaborators} (nodes : list node_entry) :
  nodes_string nodes = compact_nodes nodes.
Proof.
  unfold compact_nodes. induction nodes as [|i nodes IH]; [reflexivity|].
  cbn [nodes_string filter].
  destruct (is_v4 (ne_addr i)); cbn [negb fold_right]; now rewrite IH.
Qed.

Lemma write_nodes_entry_head {C : collaborators} (n : node) (m : msg)
    (nodes : list node_entry) :
  find_key (reply_of (write_nodes_entry (reply_head n m) nodes)) "nodes"
  = Some (entry_string (compact_nodes nodes))
  /\ find_key (reply_of (write_nodes_entry (reply_head n m) nodes)) "id"
     = Some (entry_string (m_id n)).
Proof.
  rewrite <- nodes_string_compact. split; reflexivity.
Qed.

(** C10.  A query whose name is none of the six that the node knows is
    answered with the error "unknown message" exactly when its arguments
    hold neither a [target] nor an [info_hash] that is a string of 20
    bytes; otherwise the reply is the one that a [find_node] query for that
    id gets: a response whose ["nodes"] holds, in compact form, the nodes
    that the routing table finds for that id.  The query is one that
    reaches the dispatch: the socket has quota, and the message has the
    header that every query must carry. *)
Theorem unknown_query_fallback {C : collaborators} (asserts_on : bool)
    (now : Z) (n : node) (m : msg) (e : entry)
    (top_level : list bdecode_node) :
  verify_message (message m) top_desc = inl top_level ->
  enforce_node_id (m_settings n)
    && negb (verify_id (string_ptr (at_ top_level 3)) (address_of (addr m)))
    = false ->
  known_query (string_ptr (at_ top_level 0)) = false ->
  exists e' : entry,
    incoming_request asserts_on true now n m e = Ret (heard n m top_level, e')
    /\ (is_error e' default_error_code "unknown message"
        <-> has_id20 (at_ top_level 2) "target" = false
            /\ has_id20 (at_ top_level 2) "info_hash" = false)
    /\ (has_id20 (at_ top_level 2) "target" = true
        \/ has_id20 (at_ top_level 2) "info_hash" = true ->
        is_response e'
        /\ e' = snd (find_node_request (heard n m top_level) (reply_head n m)
                       (Some (b_dict [("target",
                                       b_string (fallback_id (at_ top_level 2)))])))
        /\ find_key (reply_of e') "nodes"
           = Some (entry_string
                     (compact_nodes
                        (find_node (m_table (heard n m top_level))
                           (fallback_id (at_ top_level 2)))))
        /\ find_key (reply_of e') "id" = Some (entry_string (m_id n))).
Proof.
  intros Hhead Hid Hq.
  rewrite (incoming_request_dispatch asserts_on now n m e top_level Hhead Hid).
  rewrite dispatch_unknown by assumption.
  set (arg := at_ top_level 2). set (n1 := heard n m top_level).
  unfold unknown_request, fallback_id, has_id20.
  destruct (is_set (dict_find_string arg "target")
            && (string_length (dict_find_string arg "target") =? 20)) eqn:Ht.
  - apply andb_true_iff in Ht. destruct Ht as [Ht1 Ht2].
    rewrite Ht1, Ht2. cbn [negb orb].
    eexists. split; [reflexivity|]. split.
    + split.
      * intros [Hy _]. cbv in Hy. discriminate.
      * intros [Hf _]. discriminate.
    + intros _. split; [reflexivity|].
      split; [|apply write_nodes_entry_head].
      rewrite find_node_request_target; [reflexivity|].
      apply Z.eqb_eq in Ht2. unfold string_length, string_ptr in *. lia.
  - assert (Hc : negb (is_set (dict_find_string arg "target"))
                 || negb (string_length (dict_find_string arg "target") =? 20)
                 = true).
    { apply andb_false_iff in Ht. destruct Ht as [-> | ->];
        [reflexivity | apply orb_true_r]. }
    rewrite Hc.
    destruct (is_set (dict_find_string arg "info_hash")
              && (string_length (dict_find_string arg "info_hash") =? 20)) eqn:Hi.
    + apply andb_true_iff in Hi. destruct Hi as [Hi1 Hi2].
      rewrite Hi1, Hi2. cbn [negb orb].
      eexists. split; [reflexivity|]. split.
      * split.
        -- intros [Hy _]. cbv in Hy. discriminate.
        -- intros [_ Hf]. discriminate.
      * intros _. split; [reflexivity|].
        split; [|apply write_nodes_entry_head].
        rewrite find_node_request_target; [reflexivity|].
        apply Z.eqb_eq in Hi2. unfold string_length, string_ptr in *. lia.
    + assert (Hc2 : negb (is_set (dict_find_string arg "info_hash"))
                    || negb (string_length (dict_find_string arg "info_hash") =? 20)
                    = true).
      { apply andb_false_iff in Hi. destruct Hi as [-> | ->];
          [reflexivity | apply orb_true_r]. }
      rewrite Hc2.
      eexists. split; [reflexivity|]. split.
      * split; [intros _; split; reflexivity|].
        intros _. split; reflexivity.
      * intros [Hf | Hf]; discriminate.
Qed.


(** ** What [verify_message] returns for a table without children *)

Definition read_key (msg : bdecode_node) (k : key_desc_t) : bdecode_node :=
  let r := dict_find msg (name k) in
  let r := if is_set r && negb (type_t_eqb (type r) (type_of k))
              && negb (type_t_eqb (type_of k) none_t)
           then None else r in
  if (0 <? size k) && is_set r && type_t_eqb (type_of k) string_t
     && (if size_divisible k
         then negb (string_length r mod size k =? 0)
         else negb (string_length r =? size k))
  then None else r.

Definition flat (k : key_desc_t) : bool :=
  negb (parse_children k) && negb (last_child k).

Lemma verify_keys_flat (desc : list key_desc_t) (msg : bdecode_node)
    (stack ret : list bdecode_node) :
  forallb flat desc = true ->
  verify_keys desc msg stack false = inl ret ->
  ret = map (read_key msg) desc.
Proof.
  revert ret. induction desc as [|k desc IH]; intros ret Hflat H.
  - cbn in H. now inversion H.
  - cbn [forallb] in Hflat. apply andb_true_iff in Hflat.
    destruct Hflat as [Hk Hflat]. unfold flat in Hk.
    apply andb_true_iff in Hk. destruct Hk as [Hpc Hlc].
    apply negb_true_iff in Hpc, Hlc.
    cbn [verify_keys] in H. cbv zeta in H. rewrite Hpc, Hlc in H.
    cbn [map]. unfold read_key at 1.
    destruct (negb (is_set _) && negb (optional k)); [discriminate|].
    match type of H with
    | (if ?inv && negb (optional k) then _ else _) = _ => destruct inv
    end; cbn [andb] in H.
    + destruct (optional k); cbn [negb] in H; [|discriminate].
      destruct (verify_keys desc msg stack false) as [ret'|] eqn:E;
        [|discriminate].
      inversion H. apply f_equal. apply IH; [assumption | reflexivity].
    + destruct (verify_keys desc msg stack false) as [ret'|] eqn:E;
        [|discriminate].
      inversion H. apply f_equal. apply IH; [assumption | reflexivity].
Qed.

Lemma read_key_sized (msg : bdecode_node) (k : key_desc_t) :
  0 < size k -> type_of k = string_t -> size_divisible k = false ->
  is_set (read_key msg k) = true ->
  string_length (read_key msg k) = size k.
Proof.
  intros Hsz Hty Hdiv. unfold read_key. rewrite Hty, Hdiv.
  cbn [type_t_eqb negb andb].
  assert (H0 : (0 <? size k) = true) by now apply Z.ltb_lt.
  rewrite H0. cbn [andb].
  set (r := if is_set _ && _ && _ then None else _).
  rewrite andb_true_r.
  destruct (is_set r) eqn:Hr; cbn [andb].
  - destruct (string_length r =? size k) eqn:E; cbn [negb].
    + intros _. now apply Z.eqb_eq.
    + discriminate.
  - rewrite Hr. discriminate.
Qed.

Lemma put_keys_sig (arg_ent : bdecode_node) (msg_keys : list bdecode_node) :
  verify_message arg_ent put_desc = inl msg_keys ->
  is_set (at_ msg_keys 4) = true ->
  string_length (at_ msg_keys 4) = item_sig_len.
Proof.
  unfold verify_message. destruct (negb _); [discriminate|].
  intros H Hset. apply verify_keys_flat in H; [|reflexivity]. subst msg_keys.
  cbn [put_desc map at_ nth] in *.
  apply read_key_sized in Hset; try reflexivity. exact Hset.
Qed.

Lemma verify_token_secret {C : collaborators} (n1 n2 : node) (token : string)
    (info_hash : string) (addr : endpoint) :
  m_secret n1 = m_secret n2 ->
  verify_token n1 token info_hash addr = verify_token n2 token info_hash addr.
Proof. unfold verify_token. now intros ->. Qed.

Lemma generate_token_secret {C : collaborators} (asserts_on : bool)
    (n1 n2 : node) (info_hash : string) (addr : endpoint) :
  m_secret n1 = m_secret n2 ->
  generate_token asserts_on n1 addr info_hash
  = generate_token asserts_on n2 addr info_hash.
Proof. unfold generate_token. now intros ->. Qed.


(** ** [put] on a stored mutable item *)

Definition put_buf {C : collaborators} (msg_keys : list bdecode_node) : string :=
  data_section (at_ msg_keys 1).

Definition put_salt (msg_keys : list bdecode_node) : string :=
  if is_set (at_ msg_keys 6) then string_ptr (at_ msg_keys 6) else "".

Definition put_target {C : collaborators} (msg_keys : list bdecode_node)
  : string :=
  if is_set (at_ msg_keys 3)
  then item_target_id_mutable (put_salt msg_keys) (string_ptr (at_ msg_keys 3))
  else item_target_id (put_buf msg_keys).

(** The stored item with the value, the signature and the sequence number
    of the message. *)
Definition replaced {C : collaborators} (msg_keys : list bdecode_node)
    (item : dht_mutable_item) : dht_mutable_item :=
  mk_mutable_item
    (mk_immutable_item (put_buf msg_keys) (ips (base item))
       (last_seen (base item)) (num_announcers (base item)))
    (string_ptr (at_ msg_keys 4)) (to_uint64 (int_value (at_ msg_keys 2)))
    (pk_key item) (salt item).

Lemma dispatch_put {C : collaborators} (asserts_on : bool) (now : Z)
    (n : node) (m : msg) (e : entry) (arg_ent : bdecode_node) (id : string) :
  dispatch asserts_on now n m e "put" arg_ent id
  = put_request asserts_on now n m e arg_ent id.
Proof. reflexivity. Qed.

Lemma is_error_incoming_error {C : collaborators} (n : node) (m : msg)
    (text : string) (code : Z) :
  is_error (incoming_error (reply_head n m) text code) code text.
Proof. split; reflexivity. Qed.

(** C6, as the code has it.  A put with a valid token and signature whose
    target is a stored mutable item: a [cas] that differs from the stored
    sequence number is answered with error 301, otherwise a [seq] lower
    than the stored one with error 302, and in both cases the table is as
    it was; otherwise the reply is a response, and value, signature and
    sequence number are replaced exactly when [seq] is higher than the
    stored one.  All comparisons are made on the numbers of the message
    converted to unsigned 64 bits. *)
Theorem put_stored_mutable {C : collaborators} (asserts_on : bool) (now : Z)
    (n : node) (m : msg) (e : entry) (top_level msg_keys : list bdecode_node)
    (item : dht_mutable_item) :
  verify_message (message m) top_desc = inl top_level ->
  enforce_node_id (m_settings n)
    && negb (verify_id (string_ptr (at_ top_level 3)) (address_of (addr m)))
    = false ->
  string_ptr (at_ top_level 0) = "put" ->
  verify_message (at_ top_level 2) put_desc = inl msg_keys ->
  is_set (at_ msg_keys 2) && is_set (at_ msg_keys 3) && is_set (at_ msg_keys 4)
    = true ->
  0 < Z.of_nat (String.length (put_buf msg_keys)) <= 1000 ->
  Z.of_nat (String.length (put_salt msg_keys)) <= 64 ->
  verify_token n (string_value (at_ msg_keys 0)) (put_target msg_keys) (addr m)
    = true ->
  verify_mutable_item (put_buf msg_keys) (put_salt msg_keys)
    (int_value (at_ msg_keys 2)) (string_ptr (at_ msg_keys 3))
    (string_ptr (at_ msg_keys 4)) = true ->
  map_find (put_target msg_keys) (m_mutable_table n) = Some item ->
  exists (n' : node) (e' : entry),
    incoming_request asserts_on true now n m e = Ret (n', e')
    /\ (is_set (at_ msg_keys 5) = true ->
        to_uint64 (int_value (at_ msg_keys 5)) <> seq item ->
        is_error e' 301 "CAS mismatch"
        /\ m_mutable_table n' = m_mutable_table n)
    /\ (is_set (at_ msg_keys 5) = false
        \/ to_uint64 (int_value (at_ msg_keys 5)) = seq item ->
        (to_uint64 (int_value (at_ msg_keys 2)) < seq item ->
         is_error e' 302 "old sequence number"
         /\ m_mutable_table n' = m_mutable_table n)
        /\ (to_uint64 (int_value (at_ msg_keys 2)) = seq item ->
            is_response e'
            /\ map_find (put_target msg_keys) (m_mutable_table n')
               = Some (announced_by_mutable now (address_of (addr m)) item))
        /\ (seq item < to_uint64 (int_value (at_ msg_keys 2)) ->
            is_response e'
            /\ map_find (put_target msg_keys) (m_mutable_table n')
               = Some (announced_by_mutable now (address_of (addr m))
                         (replaced msg_keys item)))).
Proof.
  intros Hhead Hid Hq Hkeys Hmut Hbuf Hsalt Htok Hsig Hfind.
  rewrite (incoming_request_dispatch asserts_on now n m e top_level Hhead Hid).
  rewrite Hq, dispatch_put.
  destruct (heard_fields n m top_level)
    as (Hset & Hmid & Hsec & Hmap & Himm & Hmutt & Hcnt).
  set (n1 := heard n m top_level) in *.
  unfold put_request. rewrite Hkeys.
  fold (put_buf msg_keys). fold (put_salt msg_keys).
  cbv zeta. rewrite Hmut. cbn [negb].
  replace ((Z.of_nat (String.length (put_buf msg_keys)) >? 1000)
           || (Z.of_nat (String.length (put_buf msg_keys)) <=? 0)) with false.
  2:{ symmetry. apply orb_false_iff.
      split; [rewrite Z.gtb_ltb; apply Z.ltb_ge | apply Z.leb_gt]; lia. }
  replace (Z.of_nat (String.length (put_salt msg_keys)) >? 64) with false.
  2:{ symmetry. rewrite Z.gtb_ltb. apply Z.ltb_ge. lia. }
  fold (put_target msg_keys).
  rewrite (verify_token_secret _ n) by exact Hsec.
  rewrite Htok, Hsig. cbn [negb].
  unfold put_mutable.
  cbn [m_mutable_table inc_stats_counter].
  rewrite Hmutt, Hfind.
  assert (Hs4 : is_set (at_ msg_keys 4) = true).
  { apply andb_true_iff in Hmut. tauto. }
  pose proof (put_keys_sig _ _ Hkeys Hs4) as Hsiglen.
  destruct (is_set (at_ msg_keys 5)
            && negb (seq item =? to_uint64 (int_value (at_ msg_keys 5))))
    eqn:Hcas.
  - (* the cas differs *)
    cbn [bind]. unfold put_invalid. do 2 eexists.
    split; [reflexivity|]. split.
    + intros _ _. split; [apply is_error_incoming_error | exact Hmutt].
    + intros [Hc | Hc]; exfalso.
      * rewrite Hc in Hcas. discriminate.
      * rewrite Hc, Z.eqb_refl, andb_false_r in Hcas. discriminate.
  - assert (Hnocas : is_set (at_ msg_keys 5) = true ->
                     to_uint64 (int_value (at_ msg_keys 5)) <> seq item -> False).
    { intros Hc Hne. rewrite Hc in Hcas. cbn in Hcas.
      apply negb_false_iff, Z.eqb_eq in Hcas. congruence. }
    destruct (seq item >? to_uint64 (int_value (at_ msg_keys 2))) eqn:Hgt.
    + (* the sequence number is lower *)
      rewrite Z.gtb_ltb in Hgt. apply Z.ltb_lt in Hgt.
      cbn [bind]. unfold put_invalid. do 2 eexists.
      split; [reflexivity|]. split.
      * intros Hc Hne. destruct (Hnocas Hc Hne).
      * intros _. split; [|split]; intros Hx; try lia.
        split; [apply is_error_incoming_error | exact Hmutt].
    + rewrite Z.gtb_ltb in Hgt. apply Z.ltb_ge in Hgt.
      destruct (seq item <? to_uint64 (int_value (at_ msg_keys 2))) eqn:Hlt.
      * (* the sequence number is higher: the item is replaced *)
        apply Z.ltb_lt in Hlt.
        rewrite TORRENT_ASSERT_holds by (now apply Z.eqb_eq).
        cbn [bind m_mutable_table set_m_mutable_table set_m_table].
        rewrite map_find_set_same.
        do 2 eexists. split; [reflexivity|]. split.
        -- intros Hc Hne. destruct (Hnocas Hc Hne).
        -- intros _. split; [|split]; intros Hx; try lia.
           split; [reflexivity|].
           cbn [m_mutable_table set_m_mutable_table].
           rewrite map_find_set_same. reflexivity.
      * (* the same sequence number: the item stays *)
        apply Z.ltb_ge in Hlt.
        cbn [bind m_mutable_table set_m_mutable_table set_m_table
             inc_stats_counter].
        rewrite Hmutt, Hfind.
        do 2 eexists. split; [reflexivity|]. split.
        -- intros Hc Hne. destruct (Hnocas Hc Hne).
        -- intros _. split; [|split]; intros Hx; try lia.
           split; [reflexivity|].
           cbn [m_mutable_table set_m_mutable_table].
           rewrite map_find_set_same. reflexivity.
Qed.


(** ** [get] *)

Lemma dispatch_get {C : collaborators} (asserts_on : bool) (now : Z)
    (n : node) (m : msg) (e : entry) (arg_ent : bdecode_node) (id : string) :
  dispatch asserts_on now n m e "get" arg_ent id
  = get_request asserts_on n m e arg_ent.
Proof. reflexivity. Qed.




(** ** [announce_peer] when the table of torrents is full *)

Lemma map_find_none_keys (V : Type) (k : string) (m : list (string * V)) :
  map_find k m = None -> forall kv, In kv m -> fst kv <> k.
Proof.
  induction m as [|[k' v] m IH]; cbn; intros H kv Hin; [contradiction|].
  destruct (String.eqb k k') eqn:E; [discriminate|].
  destruct Hin as [<- | Hin].
  - cbn. apply String.eqb_neq in E. congruence.
  - now apply IH.
Qed.

Lemma map_set_set (V : Type) (k : string) (v v0 : V) (m : list (string * V)) :
  map_set k v (map_set k v0 m) = map_set k v m.
Proof.
  induction m as [|[k' v'] m IH]; cbn.
  - now rewrite compare_refl.
  - destruct (String.compare k k') eqn:E; cbn.
    + now rewrite compare_refl.
    + now rewrite compare_refl.
    + rewrite E. now rewrite IH.
Qed.

Lemma erase_at_length (V : Type) (i : nat) (m : list V) :
  (i < List.length m)%nat ->
  (List.length (erase_at i m) + 1 = List.length m)%nat.
Proof.
  revert i; induction m as [|x m IH]; intros i Hi; cbn in Hi; [lia|].
  destruct i as [|i]; cbn; [lia|].
  specialize (IH i). lia.
Qed.

Lemma fewest_peers_spec (info_hash : string)
    (m pre : list (string * torrent_entry)) (num_peers : Z) (candidate : nat) :
  (forall kv, In kv m -> fst kv <> info_hash) ->
  (exists kv, nth_error (pre ++ m)%list candidate = Some kv
              /\ peers_size (snd kv) = num_peers) ->
  (forall kv, In kv pre -> num_peers <= peers_size (snd kv)) ->
  exists kv,
    nth_error (pre ++ m)%list
      (fewest_peers info_hash m (List.length pre) num_peers candidate)
    = Some kv
    /\ forall kv', In kv' (pre ++ m)%list ->
                   peers_size (snd kv) <= peers_size (snd kv').
Proof.
  revert pre num_peers candidate.
  induction m as [|[k v] m IH]; intros pre num_peers candidate Hkeys Hcand Hpre.
  - cbn. destruct Hcand as (kv & Hnth & Hsz). exists kv. split; [exact Hnth|].
    intros kv' Hin. rewrite app_nil_r in Hin. rewrite Hsz. now apply Hpre.
  - cbn [fewest_peers].
    assert (Hassoc : (pre ++ (k, v) :: m = (pre ++ [(k, v)]) ++ m)%list)
      by now rewrite <- app_assoc.
    assert (Hlen : List.length (pre ++ [(k, v)])%list = S (List.length pre))
      by (rewrite length_app; cbn; lia).
    assert (Hkeys' : forall kv, In kv m -> fst kv <> info_hash)
      by (intros kv Hin; apply Hkeys; now right).
    destruct (peers_size v >? num_peers) eqn:Hgt.
    + rewrite Z.gtb_ltb in Hgt. apply Z.ltb_lt in Hgt.
      rewrite Hassoc, <- Hlen. apply IH; [exact Hkeys'| |].
      * now rewrite <- Hassoc.
      * intros kv Hin. apply in_app_or in Hin. destruct Hin as [Hin | [<- | []]].
        -- now apply Hpre.
        -- cbn. lia.
    + rewrite Z.gtb_ltb in Hgt. apply Z.ltb_ge in Hgt.
      destruct (String.eqb k info_hash) eqn:Hk.
      * apply String.eqb_eq in Hk. exfalso.
        apply (Hkeys (k, v)); [now left | exact Hk].
      * rewrite Hassoc, <- Hlen. apply IH; [exact Hkeys'| |].
        -- exists (k, v). split; [|reflexivity].
           rewrite <- Hassoc. rewrite nth_error_app2 by lia.
           now rewrite Nat.sub_diag.
        -- intros kv Hin. apply in_app_or in Hin.
           destruct Hin as [Hin | [<- | []]].
           ++ specialize (Hpre kv Hin). lia.
           ++ cbn. lia.
Qed.

Lemma eviction_candidate_spec (info_hash : string)
    (m : list (string * torrent_entry)) :
  m <> [] ->
  map_find info_hash m = None ->
  exists victim,
    nth_error m (eviction_candidate info_hash m) = Some victim
    /\ fst victim <> info_hash
    /\ forall kv, In kv m -> peers_size (snd victim) <= peers_size (snd kv).
Proof.
  intros Hne Hfind. destruct m as [|[k v] m]; [congruence|].
  unfold eviction_candidate.
  destruct (fewest_peers_spec info_hash ((k, v) :: m) [] (peers_size v) O)
    as (victim & Hnth & Hmin).
  - now apply map_find_none_keys.
  - exists (k, v). split; reflexivity.
  - intros kv [].
  - exists victim. cbn [app List.length] in Hnth, Hmin.
    split; [exact Hnth|]. split; [|exact Hmin].
    apply (map_find_none_keys _ _ _ Hfind). eapply nth_error_In. exact Hnth.
Qed.


Lemma dispatch_announce_peer {C : collaborators} (asserts_on : bool) (now : Z)
    (n : node) (m : msg) (e : entry) (arg_ent : bdecode_node) (id : string) :
  dispatch asserts_on now n m e "announce_peer" arg_ent id
  = Ret (announce_peer_request now n m e arg_ent id).
Proof. reflexivity. Qed.

(** The port that is stored for the announcer. *)
Definition announce_port (m : msg) (msg_keys : list bdecode_node) : Z :=
  if is_set (at_ msg_keys 5) && negb (int_value (at_ msg_keys 5) =? 0)
  then port (addr m)
  else to_int (int_value (at_ msg_keys 1)).

(** The entry of a torrent that is announced for the first time. *)
Definition announced_torrent (now : Z) (m : msg)
    (msg_keys : list bdecode_node) : torrent_entry :=
  mk_torrent_entry
    (if is_set (at_ msg_keys 3)
     then substring 0 50 (string_value (at_ msg_keys 3)) else "")
    [mk_peer_entry
       (mk_endpoint (address_of (addr m)) (announce_port m msg_keys)) now
       (is_set (at_ msg_keys 4) && negb (int_value (at_ msg_keys 4) =? 0))].

(** C8, as the code has it.  A valid [announce_peer] for an info-hash that
    is not in the table of torrents, while the table is not empty and holds
    at least [max_torrents] entries: one entry is erased and then the new
    one is added; no stored entry has fewer peers than the erased one, and
    the erased one is not the info-hash that is announced. *)
Theorem announce_peer_evicts {C : collaborators} (asserts_on : bool) (now : Z)
    (n : node) (m : msg) (e : entry) (top_level msg_keys : list bdecode_node) :
  verify_message (message m) top_desc = inl top_level ->
  enforce_node_id (m_settings n)
    && negb (verify_id (string_ptr (at_ top_level 3)) (address_of (addr m)))
    = false ->
  string_ptr (at_ top_level 0) = "announce_peer" ->
  verify_message (at_ top_level 2) announce_peer_desc = inl msg_keys ->
  0 <= announce_port m msg_keys < 65536 ->
  verify_token n (string_value (at_ msg_keys 2)) (string_ptr (at_ msg_keys 0))
    (addr m) = true ->
  map_find (string_ptr (at_ msg_keys 0)) (m_map n) = None ->
  m_map n <> [] ->
  max_torrents (m_settings n) <= map_size (m_map n) ->
  exists (n' : node) (e' : entry) (c : nat) (victim : string * torrent_entry),
    incoming_request asserts_on true now n m e = Ret (n', e')
    /\ is_response e'
    /\ nth_error (m_map n) c = Some victim
    /\ fst victim <> string_ptr (at_ msg_keys 0)
    /\ (forall kv, In kv (m_map n) ->
                   peers_size (snd victim) <= peers_size (snd kv))
    /\ (List.length (erase_at c (m_map n)) + 1 = List.length (m_map n))%nat
    /\ m_map n'
       = map_set (string_ptr (at_ msg_keys 0)) (announced_torrent now m msg_keys)
           (erase_at c (m_map n)).
Proof.
  intros Hhead Hid Hq Hkeys Hport Htok Hfind Hne Hfull.
  rewrite (incoming_request_dispatch asserts_on now n m e top_level Hhead Hid).
  rewrite Hq, dispatch_announce_peer.
  destruct (heard_fields n m top_level)
    as (Hset & Hmid & Hsec & Hmap & Himm & Hmutt & Hcnt).
  set (n1 := heard n m top_level) in *.
  destruct (eviction_candidate_spec _ _ Hne Hfind) as (victim & Hnth & Hkey & Hmin).
  unfold announce_peer_request. rewrite Hkeys. cbv zeta.
  fold (announce_port m msg_keys).
  set (info_hash := string_ptr (at_ msg_keys 0)) in *.
  replace ((announce_port m msg_keys <? 0) || (announce_port m msg_keys >=? 65536))
    with false.
  2:{ symmetry. apply orb_false_iff.
      split; [apply Z.ltb_ge | rewrite Z.geb_leb; apply Z.leb_gt]; lia. }
  rewrite (verify_token_secret _ n) by exact Hsec.
  rewrite Htok. cbn [negb].
  cbn [m_map set_m_table inc_stats_counter m_settings].
  rewrite Hmap, Hset, Hfind.
  assert (Hnonempty : negb (Nat.eqb (List.length (m_map n)) 0) = true).
  { destruct (m_map n); [congruence | reflexivity]. }
  assert (Hge : (map_size (m_map n) >=? max_torrents (m_settings n)) = true).
  { rewrite Z.geb_leb. now apply Z.leb_le. }
  rewrite Hnonempty, Hge. cbn [andb].
  cbn [m_map set_m_map inc_stats_counter].
  unfold torrent_at. rewrite map_find_set_same.
  cbn [te_name peers String.length Nat.eqb andb peers_replace].
  rewrite andb_true_r, map_set_set.
  do 2 eexists. exists (eviction_candidate info_hash (m_map n)), victim.
  split; [reflexivity|]. split; [reflexivity|]. split; [exact Hnth|].
  split; [exact Hkey|]. split; [exact Hmin|]. split.
  - apply erase_at_length. apply nth_error_Some. congruence.
  - cbn [m_map set_m_map]. unfold announced_torrent.
    destruct (is_set (at_ msg_keys 3)); reflexivity.
Qed.

End DhtFacts.

(** * The node on concrete messages *)

Module DhtRuns.

Import Dht DhtFacts.
Local Open Scope string_scope.
Local Open Scope Z_scope.

#[local] Existing Instance World.world.

Definition settings0 : dht_settings := mk_dht_settings 100 2000 700 false.

Definition our_id : string := "BBBBBBBBBBBBBBBBBBBB".

(** A node whose current secret is 2138. *)
Definition node0 : @node World.world :=
  @mk_node World.world settings0 our_id [] (2138, 99) [] [] [] [].

(** The sender 10.0.0.1, port 6881. *)
Definition sender : endpoint := mk_endpoint (address_v4 167772161) 6881.

Definition hash_A : string := "AAAAAAAAAAAAAAAAAAAA".

Lemma write_token_rotation_witness :
  snd (@to_string World.world (address_of sender)) = false
  /\ (generate_token true node0 sender hash_A
        = Ret (write_token (fst (m_secret node0)) sender hash_A)
      /\ verify_token node0 (write_token (fst (m_secret node0)) sender hash_A)
           hash_A sender = true
      /\ verify_token (new_write_key 5 node0)
           (write_token (fst (m_secret node0)) sender hash_A) hash_A sender = true
      /\ (verify_token (new_write_key 6 (new_write_key 5 node0))
            (write_token (fst (m_secret node0)) sender hash_A) hash_A sender = false
          <-> write_token 5 sender hash_A
                <> write_token (fst (m_secret node0)) sender hash_A
              /\ write_token 6 sender hash_A
                <> write_token (fst (m_secret node0)) sender hash_A)).
Proof.
  split; [reflexivity|].
  exact (write_token_rotation true node0 sender hash_A 5 6 eq_refl).
Defined.

(** C5 as stated fails: the secrets 2138 and 175336 differ and give the
    same token for 10.0.0.1 and the hash [hash_A], the bytes 36 bf a6 9a of
    SHA-1.  The token made with 2138 is accepted after two rotations whose
    new secrets, 175336 and 7, both differ from 2138. *)
Lemma write_token_accepted_after_two_rotations :
  generate_token true node0 sender hash_A = Ret (World.be_string 4 0x36bfa69a)
  /\ fst (m_secret node0) = 2138
  /\ (175336 =? 2138) = false
  /\ (7 =? 2138) = false
  /\ verify_token (new_write_key 7 (new_write_key 175336 node0))
       (World.be_string 4 0x36bfa69a) hash_A sender = true.
Proof.
  repeat split; vm_compute; reflexivity.
Qed.


(** ** Messages *)

Definition sender_id : string := "NNNNNNNNNNNNNNNNNNNN".

(** The query [q] with the arguments [args], from [sender]. *)
Definition query (q : string) (args : list (string * bdecode_tree)) : msg :=
  mk_msg
    (Some (b_dict [("a", b_dict (("id", b_string sender_id) :: args)%list);
                   ("q", b_string q);
                   ("t", b_string "aa");
                   ("y", b_string "q")]))
    sender.

(** What [verify_message] returns for the header of [query q args]. *)
Definition header (q : string) (args : list (string * bdecode_tree))
  : list bdecode_node :=
  [Some (b_string q); None;
   Some (b_dict (("id", b_string sender_id) :: args)%list);
   Some (b_string sender_id)].

(** One call of [incoming_request] in a build with assertions, on a socket
    with quota, at time 100. *)
Definition run (n : node) (m : msg) : outcome (node * entry) :=
  incoming_request true true 100 n m entry_undefined.

Definition node_after (o : outcome (node * entry)) (n : node) : node :=
  match o with Ret (n', _) => n' | AssertionFailed => n end.

Definition reply_after (o : outcome (node * entry)) : entry :=
  match o with Ret (_, e') => e' | AssertionFailed => entry_undefined end.

Definition stored_seq (n : node) (target : string) : option Z :=
  option_map seq (map_find target (m_mutable_table n)).

(** ** A stored mutable item *)

Definition public_key : string := "KKKKKKKKKKKKKKKKKKKKKKKKKKKKKKKK".
Definition signature_5 : string := "SSSSSSSSSSSSSSSSSSSSSSSSSSSSSSSSSSSSSSSSSSSSSSSSSSSSSSSSSSSSSSSS".
Definition signature_6 : string := "TTTTTTTTTTTTTTTTTTTTTTTTTTTTTTTTTTTTTTTTTTTTTTTTTTTTTTTTTTTTTTTT".

(** The target of the item of [public_key] without salt. *)
Definition target_K : string := item_target_id_mutable "" public_key.

(** The token that [node0] hands [sender] for [target_K]. *)
Definition token_K : string := write_token 2138 sender target_K.

(** The item of [public_key] at sequence number 5, announced once. *)
Definition item5 : @dht_mutable_item World.world :=
  @mk_mutable_item World.world
    (@mk_immutable_item World.world "i1e" [] 90 1) signature_5 5 public_key "".

(** [node0] with [item5] stored. *)
Definition node5 : @node World.world :=
  @mk_node World.world settings0 our_id [] (2138, 99) [] []
    [(target_K, item5)] [].

(** A mutable put of the value 2 with the sequence number [s]. *)
Definition put_args (s : Z) (sg : string) (more : list (string * bdecode_tree))
  : list (string * bdecode_tree) :=
  ([("token", b_string token_K); ("v", b_int 2); ("seq", b_int s);
    ("k", b_string public_key); ("sig", b_string sg)] ++ more)%list.

Definition put_keys (s : Z) (sg : string) (cas : bdecode_node)
  : list bdecode_node :=
  [Some (b_string token_K); Some (b_int 2); Some (b_int s);
   Some (b_string public_key); Some (b_string sg); cas; None].


(** A put of sequence number 6 with [cas] 5 on the item stored at 5: the
    hypotheses of [put_stored_mutable] hold, and the item is replaced. *)
Lemma put_stored_mutable_witness :
  verify_message
    (message (query "put" (put_args 6 signature_6 [("cas", b_int 5)])))
    top_desc
  = inl (header "put" (put_args 6 signature_6 [("cas", b_int 5)]))
  /\ verify_message
       (Some (b_dict (("id", b_string sender_id)
                      :: put_args 6 signature_6 [("cas", b_int 5)])%list))
       put_desc
     = inl (put_keys 6 signature_6 (Some (b_int 5)))
  /\ verify_token node5 token_K target_K sender = true
  /\ stored_seq node5 target_K = Some 5
  /\ stored_seq
       (node_after
          (run node5 (query "put" (put_args 6 signature_6 [("cas", b_int 5)])))
          node5)
       target_K
     = Some 6.
Proof.
  assert (Hhead : verify_message
            (message (query "put" (put_args 6 signature_6 [("cas", b_int 5)])))
            top_desc
          = inl (header "put" (put_args 6 signature_6 [("cas", b_int 5)])))
    by (vm_compute; reflexivity).
  assert (Hkeys : verify_message
            (Some (b_dict (("id", b_string sender_id)
                           :: put_args 6 signature_6 [("cas", b_int 5)])%list))
            put_desc
          = inl (put_keys 6 signature_6 (Some (b_int 5))))
    by (vm_compute; reflexivity).
  assert (Htarget : put_target (put_keys 6 signature_6 (Some (b_int 5)))
                    = target_K).
  { unfold put_target, put_keys, target_K, put_salt.
    cbn [at_ nth is_set string_ptr string_value]. reflexivity. }
  assert (Htok : verify_token node5 token_K target_K sender = true)
    by (vm_compute; reflexivity).
  assert (Hfind : map_find target_K (m_mutable_table node5) = Some item5).
  { unfold node5. cbn [m_mutable_table map_find].
    now rewrite String.eqb_refl. }
  split; [exact Hhead|]. split; [exact Hkeys|]. split; [exact Htok|].
  split; [vm_compute; reflexivity|].
  pose proof (put_stored_mutable true 100 node5
                (query "put" (put_args 6 signature_6 [("cas", b_int 5)]))
                entry_undefined
                (header "put" (put_args 6 signature_6 [("cas", b_int 5)]))
                (put_keys 6 signature_6 (Some (b_int 5)))
                item5 Hhead eq_refl eq_refl Hkeys eq_refl) as P.
  rewrite Htarget in P.
  destruct (P ltac:(vm_compute; split; [reflexivity | discriminate])
              ltac:(vm_compute; discriminate) Htok eq_refl Hfind)
    as (n' & e' & Hrun & _ & Hrest).
  destruct (Hrest (or_intror eq_refl)) as (_ & _ & Hnew).
  destruct (Hnew ltac:(vm_compute; reflexivity)) as (_ & Hstored).
  unfold run. rewrite Hrun. unfold node_after, stored_seq.
  rewrite Hstored. reflexivity.
Defined.

(** C6 as stated fails: against the item stored at sequence number 5, a put
    with the sequence number -1, which is lower, is not answered with error
    302; the reply is a response and the item is replaced, stored at
    2^64 - 1. *)
Lemma put_negative_seq_replaces :
  stored_seq node5 target_K = Some 5
  /\ find_key
       (reply_after (run node5 (query "put" (put_args (-1) signature_6 []))))
       "y"
     = Some (entry_string "r")
  /\ find_key
       (reply_after (run node5 (query "put" (put_args (-1) signature_6 []))))
       "e"
     = None
  /\ stored_seq
       (node_after (run node5 (query "put" (put_args (-1) signature_6 [])))
          node5)
       target_K
     = Some 18446744073709551615.
Proof.
  split; [vm_compute; reflexivity|].
  split; [vm_compute; reflexivity|].
  split; vm_compute; reflexivity.
Qed.


(** ** [get] on concrete messages *)

Definition get_args (s : option Z) : list (string * bdecode_tree) :=
  (match s with Some s => [("seq", b_int s)] | None => [] end
   ++ [("target", b_string target_K)])%list.





(** The caller's [seq] is compared as an unsigned number too: a get with
    [seq] -1 for the item stored at 5 gets the sequence number alone. *)
Lemma get_negative_seq_omits_value :
  find_key
    (reply_of (reply_after (run node5 (query "get" (get_args (Some (-1)))))))
    "seq"
  = Some (entry_int 5)
  /\ find_key
       (reply_of (reply_after (run node5 (query "get" (get_args (Some (-1)))))))
       "v"
     = None.
Proof.
  split; vm_compute; reflexivity.
Qed.

(** ** [announce_peer] on concrete messages *)

Definition hash_C : string := "CCCCCCCCCCCCCCCCCCCC".
Definition hash_D : string := "DDDDDDDDDDDDDDDDDDDD".

Definition peer_1 : peer_entry :=
  mk_peer_entry (mk_endpoint (address_v4 167772162) 6881) 10 false.
Definition peer_2 : peer_entry :=
  mk_peer_entry (mk_endpoint (address_v4 167772163) 6881) 20 true.

Definition token_A : string := write_token 2138 sender hash_A.

Definition announce_args : list (string * bdecode_tree) :=
  [("info_hash", b_string hash_A); ("port", b_int 6881);
   ("token", b_string token_A)].

Definition announce_keys : list bdecode_node :=
  [Some (b_string hash_A); Some (b_int 6881); Some (b_string token_A);
   None; None; None].

(** A node that may store two torrents and stores two: [hash_C] with two
    peers and [hash_D] with one. *)
Definition node_full : @node World.world :=
  @mk_node World.world (mk_dht_settings 100 2 700 false) our_id []
    (2138, 99)
    [(hash_C, mk_torrent_entry "" [peer_1; peer_2]);
     (hash_D, mk_torrent_entry "" [peer_1])]
    [] [] [].

(** A node that may store no torrent and stores none. *)
Definition node_none : @node World.world :=
  @mk_node World.world (mk_dht_settings 100 0 700 false) our_id []
    (2138, 99) [] [] [] [].

Definition torrents (n : @node World.world) : list (string * Z) :=
  map (fun kv => (fst kv, peers_size (snd kv))) (m_map n).

Lemma announce_peer_evicts_witness :
  verify_message (message (query "announce_peer" announce_args)) top_desc
  = inl (header "announce_peer" announce_args)
  /\ verify_message
       (Some (b_dict (("id", b_string sender_id) :: announce_args)%list))
       announce_peer_desc
     = inl announce_keys
  /\ verify_token node_full token_A hash_A sender = true
  /\ map_find hash_A (m_map node_full) = None
  /\ max_torrents (m_settings node_full) <= map_size (m_map node_full)
  /\ exists (n' : node) (e' : entry),
       run node_full (query "announce_peer" announce_args) = Ret (n', e')
       /\ is_response e'.
Proof.
  assert (Hhead : verify_message
                    (message (query "announce_peer" announce_args)) top_desc
                  = inl (header "announce_peer" announce_args))
    by (vm_compute; reflexivity).
  assert (Hkeys : verify_message
                    (Some (b_dict (("id", b_string sender_id)
                                   :: announce_args)%list))
                    announce_peer_desc
                  = inl announce_keys)
    by (vm_compute; reflexivity).
  assert (Htok : verify_token node_full token_A hash_A sender = true)
    by (vm_compute; reflexivity).
  assert (Hfind : map_find hash_A (m_map node_full) = None) by reflexivity.
  assert (Hfull : max_torrents (m_settings node_full)
                  <= map_size (m_map node_full))
    by (vm_compute; discriminate).
  split; [exact Hhead|]. split; [exact Hkeys|]. split; [exact Htok|].
  split; [exact Hfind|]. split; [exact Hfull|].
  destruct (announce_peer_evicts true 100 node_full
              (query "announce_peer" announce_args) entry_undefined
              (header "announce_peer" announce_args) announce_keys
              Hhead eq_refl eq_refl Hkeys
              ltac:(vm_compute; split; [discriminate | reflexivity])
              Htok Hfind ltac:(discriminate) Hfull)
    as (n' & e' & c & victim & Hrun & Hresp & _).
  exists n', e'. split; [exact Hrun | exact Hresp].
Defined.

(** On [node_full] the announce of [hash_A] erases [hash_D], the torrent
    with the fewest peers. *)
Example announce_peer_on_full_table :
  torrents node_full = [(hash_C, 2); (hash_D, 1)]
  /\ torrents
       (node_after (run node_full (query "announce_peer" announce_args))
          node_full)
     = [(hash_A, 1); (hash_C, 2)].
Proof.
  split; vm_compute; reflexivity.
Qed.

(** C8 as stated fails: [node_none] holds at least [max_torrents] entries,
    none of zero, and the announce of a new info-hash erases nothing: the
    counter of torrents is raised once and never lowered. *)
Lemma announce_peer_nothing_to_evict :
  (map_size (m_map node_none) >=? max_torrents (m_settings node_none)) = true
  /\ torrents node_none = []
  /\ find_key
       (reply_after (run node_none (query "announce_peer" announce_args))) "y"
     = Some (entry_string "r")
  /\ torrents
       (node_after (run node_none (query "announce_peer" announce_args))
          node_none)
     = [(hash_A, 1)]
  /\ m_counters
       (node_after (run node_none (query "announce_peer" announce_args))
          node_none)
     = [(dht_torrents, 1); (dht_announce_peer_in, 1)].
Proof.
  split; [reflexivity|]. split; [reflexivity|].
  split; [vm_compute; reflexivity|].
  split; vm_compute; reflexivity.
Qed.

(** ** A query that is not recognised *)

(** A node that knows two other nodes, one with an IPv4 and one with an
    IPv6 address. *)
Definition node_v4 : node_entry :=
  mk_node_entry "CCCCCCCCCCCCCCCCCCCC" (address_v4 167772162) 6882.
Definition node_v6 : node_entry :=
  mk_node_entry "DDDDDDDDDDDDDDDDDDDD" (address_v6 1) 6883.

Definition node_known : @node World.world :=
  @mk_node World.world settings0 our_id [node_v6; node_v4] (2138, 99)
    [] [] [] [].

Definition vote : msg := query "vote" [("info_hash", b_string hash_A)].
Definition vote_header : list bdecode_node :=
  header "vote" [("info_hash", b_string hash_A)].

Lemma unknown_query_fallback_witness :
  verify_message (message vote) top_desc = inl vote_header
  /\ enforce_node_id (m_settings node_known)
       && negb (verify_id (string_ptr (at_ vote_header 3))
                  (address_of (addr vote))) = false
  /\ known_query (string_ptr (at_ vote_header 0)) = false
  /\ exists e' : entry,
       incoming_request true true 100 node_known vote entry_undefined
       = Ret (heard node_known vote vote_header, e')
       /\ (is_error e' default_error_code "unknown message"
           <-> has_id20 (at_ vote_header 2) "target" = false
               /\ has_id20 (at_ vote_header 2) "info_hash" = false)
       /\ (has_id20 (at_ vote_header 2) "target" = true
           \/ has_id20 (at_ vote_header 2) "info_hash" = true ->
           is_response e'
           /\ e' = snd (find_node_request (heard node_known vote vote_header)
                          (reply_head node_known vote)
                          (Some (b_dict [("target",
                                          b_string
                                            (fallback_id
                                               (at_ vote_header 2)))])))
           /\ find_key (reply_of e') "nodes"
              = Some (entry_string
                        (compact_nodes
                           (find_node
                              (m_table (heard node_known vote vote_header))
                              (fallback_id (at_ vote_header 2)))))
           /\ find_key (reply_of e') "id"
              = Some (entry_string (m_id node_known))).
Proof.
  assert (H1 : verify_message (message vote) top_desc = inl vote_header)
    by (vm_compute; reflexivity).
  assert (H2 : enforce_node_id (m_settings node_known)
               && negb (verify_id (string_ptr (at_ vote_header 3))
                          (address_of (addr vote))) = false)
    by reflexivity.
  assert (H3 : known_query (string_ptr (at_ vote_header 0)) = false)
    by reflexivity.
  split; [exact H1|]. split; [exact H2|]. split; [exact H3|].
  exact (unknown_query_fallback true 100 node_known vote entry_undefined
           vote_header H1 H2 H3).
Defined.

(** The reply to [vote] names the sender, which the routing table has just
    heard about, and the node with the IPv4 address, 26 bytes each; the
    node with the IPv6 address is left out. *)
Example unknown_query_names_the_nodes :
  find_key (reply_of (reply_after (run node_known vote))) "nodes"
  = Some (entry_string
            (sender_id ++ World.compact_endpoint (address_v4 167772161) 6881
             ++ "CCCCCCCCCCCCCCCCCCCC"
             ++ World.compact_endpoint (address_v4 167772162) 6882))
  /\ has_id20 (at_ vote_header 2) "info_hash" = true.
Proof. split; vm_compute; reflexivity. Qed.

(** The same query without an id of 20 bytes. *)
Example unknown_query_without_id :
  find_key (reply_after (run node0 (query "vote" [("info_hash", b_string "short")])))
    "e"
  = Some (entry_list [entry_int 203; entry_string "unknown message"]).
Proof. vm_compute. reflexivity. Qed.

End DhtRuns.

(** * Facts about the disk I/O thread *)

Module DiskFacts.

Import Disk.
Local Open Scope Z_scope.

(** ** Results of the outcome monad *)

Lemma bind_Ret_inv (A B : Type) (c : outcome A) (k : A -> outcome B) (r : B) :
  bind c k = Ret r -> exists a : A, c = Ret a /\ k a = Ret r.
Proof.
  destruct c as [a|]; cbn; intros H; [|discriminate].
  exists a. split; [reflexivity | exact H].
Qed.

Lemma bind_assert_inv (B : Type) (asserts_on cond : bool)
    (k : unit -> outcome B) (r : B) :
  bind (TORRENT_ASSERT asserts_on cond) k = Ret r ->
  k tt = Ret r /\ (asserts_on = true -> cond = true).
Proof.
  unfold TORRENT_ASSERT. destruct asserts_on, cond; cbn; intros H;
    try discriminate; split; auto; discriminate.
Qed.

Lemma bind_assert_release (B : Type) (cond : bool) (k : unit -> outcome B) :
  bind (TORRENT_ASSERT false cond) k = k tt.
Proof. reflexivity. Qed.

Lemma bind_assert_holds (B : Type) (asserts_on cond : bool)
    (k : unit -> outcome B) :
  (asserts_on = true -> cond = true) ->
  bind (TORRENT_ASSERT asserts_on cond) k = k tt.
Proof.
  intros H. destruct asserts_on; [|reflexivity].
  now rewrite TORRENT_ASSERT_holds by auto.
Qed.

Ltac inv_bind H :=
  lazymatch type of H with
  | bind (TORRENT_ASSERT _ _) _ = Ret _ =>
      apply bind_assert_inv in H; let Ha := fresh "Hassert" in
      destruct H as [H Ha]
  | bind _ _ = Ret _ =>
      apply bind_Ret_inv in H; let a := fresh "a" in let E := fresh "E" in
      destruct H as (a & E & H)
  end.

(** ** [add_fence_job] *)

Lemma free_job_not_in_use {D : collaborators} (j : disk_io_job)
    (t : disk_io_thread) :
  ~ In (job_id j) (m_jobs_in_use (free_job j t)).
Proof.
  unfold free_job, set_pool. cbn [m_jobs_in_use].
  intros Hin. apply filter_In in Hin. destruct Hin as [_ Hne].
  now rewrite Z.eqb_refl in Hne.
Qed.

(** The flush job that [add_fence_job] allocates for the fence job [j]. *)
Definition flush_job_for {D : collaborators} (j : disk_io_job)
    (t : disk_io_thread) : disk_io_job :=
  set_j_storage (j_storage j) (fst (allocate_job flush_storage t)).

(** What the assertions of [add_fence_job] ask of [raise_fence]. *)
Definition fence_contract (r : fence_result) (j fj : disk_io_job) : Prop :=
  match r with
  | fence_post_fence => in_progress_or_no_storage j = true
  | fence_post_flush =>
      blocked j = true /\ in_progress_or_no_storage fj = true
  | fence_post_none =>
      blocked j = true /\ in_progress fj = false /\ blocked fj = true
  end.

(** C3.  [add_fence_job] with the fence job [j]: if [raise_fence] answers
    [fence_post_fence], the fence job goes to the front of the queue and
    the flush job is freed and not queued; if it answers
    [fence_post_flush], the flush job goes to the front of the queue and
    the fence job is not queued: it stays with the fence of the storage.
    In a build with assertions the thread has been started and
    [raise_fence] keeps its contract. *)
Theorem add_fence_job_queues {D : collaborators} (asserts_on : bool) (s : Z)
    (j : disk_io_job) (t : disk_io_thread) (r : fence_result)
    (j' fj' : disk_io_job) (f : fence_t) (num_blocked : Z) :
  raise_fence j (flush_job_for j t) (fences t s) (m_num_blocked_jobs t)
    = (r, j', fj', f, num_blocked) ->
  (asserts_on = true -> 0 < m_num_threads t /\ fence_contract r j' fj') ->
  exists t' : disk_io_thread,
    add_fence_job asserts_on s j t = Ret t'
    /\ (r = fence_post_fence ->
        m_queued_jobs t' = j' :: m_queued_jobs t
        /\ ~ In (job_id fj') (m_jobs_in_use t'))
    /\ (r = fence_post_flush ->
        m_queued_jobs t' = fj' :: m_queued_jobs t
        /\ m_jobs_in_use t' = m_next_job t :: m_jobs_in_use t)
    /\ (r = fence_post_none -> m_queued_jobs t' = m_queued_jobs t)
    /\ fences t' s = f
    /\ m_num_blocked_jobs t' = num_blocked.
Proof.
  intros Hraise Hassert.
  unfold add_fence_job.
  rewrite bind_assert_holds
    by (intros Ha; apply Z.gtb_lt; destruct (Hassert Ha) as [H _]; lia).
  unfold flush_job_for in Hraise. cbn [allocate_job fst] in Hraise.
  cbn [allocate_job set_pool fences m_num_blocked_jobs].
  rewrite Hraise.
  assert (Hfence : forall t0 : disk_io_thread,
             fences (set_fence s f t0) s = f).
  { intros t0. unfold set_fence. cbn. now rewrite Z.eqb_refl. }
  destruct r.
  - rewrite bind_assert_holds by (intros Ha; now destruct (Hassert Ha)).
    eexists. split; [reflexivity|].
    split; [|split; [discriminate | split; [discriminate|]]].
    + intros _. split; [reflexivity | apply free_job_not_in_use].
    + split; [|reflexivity]. cbn. now rewrite Z.eqb_refl.
  - rewrite bind_assert_holds by (intros Ha; now destruct (Hassert Ha) as [_ []]).
    rewrite bind_assert_holds by (intros Ha; now destruct (Hassert Ha) as [_ []]).
    eexists. split; [reflexivity|].
    split; [discriminate|]. split; [intros _; split; reflexivity|].
    split; [discriminate|].
    split; [|reflexivity]. cbn. now rewrite Z.eqb_refl.
  - rewrite bind_assert_holds
      by (intros Ha; now destruct (Hassert Ha) as [_ (? & ? & ?)]).
    rewrite bind_assert_holds
      by (intros Ha; destruct (Hassert Ha) as [_ (? & Hp & ?)]; now rewrite Hp).
    rewrite bind_assert_holds
      by (intros Ha; now destruct (Hassert Ha) as [_ (? & ? & ?)]).
    eexists. split; [reflexivity|].
    split; [discriminate|]. split; [discriminate|].
    split; [reflexivity|].
    split; [|reflexivity]. cbn. now rewrite Z.eqb_refl.
Qed.


(** ** Completed and aborted jobs *)

(** [done] are the jobs [jobs_], each with the result [r] and the error
    [ec]. *)
Definition finished_as (r ec : Z) (jobs_ done : list disk_io_job) : Prop :=
  map job_id done = map job_id jobs_
  /\ Forall (fun d => ret d = r /\ error d = ec) done.

Lemma complete_jobs_spec {D : collaborators} (asserts_on : bool)
    (jobs_ : list disk_io_job) (f : Z -> fence_t) (new_jobs : list disk_io_job)
    (done : list disk_io_job) (f' : Z -> fence_t) (new_jobs' : list disk_io_job) :
  complete_jobs asserts_on jobs_ f new_jobs = Ret (done, f', new_jobs') ->
  map job_id done = map job_id jobs_
  /\ map ret done = map ret jobs_
  /\ map error done = map error jobs_.
Proof.
  revert f new_jobs done f' new_jobs'.
  induction jobs_ as [|j jobs_ IH]; intros f new_jobs done f' new_jobs' H.
  - cbn in H. inversion H. repeat split; reflexivity.
  - cbn [complete_jobs] in H. inv_bind H.
    destruct (j_storage j) as [s|].
    + destruct (job_complete j (f s)) as [unblocked fs].
      inv_bind H. inv_bind H. destruct a as [[done0 f0] new0].
      apply IH in E. destruct E as (E1 & E2 & E3).
      inversion H; subst. cbn. now rewrite E1, E2, E3.
    + inv_bind H. inv_bind H. destruct a as [[done0 f0] new0].
      apply IH in E. destruct E as (E1 & E2 & E3).
      inversion H; subst. cbn. now rewrite E1, E2, E3.
Qed.

Lemma complete_jobs_release {D : collaborators} (jobs_ : list disk_io_job)
    (f : Z -> fence_t) (new_jobs : list disk_io_job) :
  exists r, complete_jobs false jobs_ f new_jobs = Ret r.
Proof.
  revert f new_jobs. induction jobs_ as [|j jobs_ IH]; intros f new_jobs.
  - eexists. reflexivity.
  - cbn [complete_jobs]. rewrite bind_assert_release.
    destruct (j_storage j) as [s|].
    + destruct (job_complete j (f s)) as [unblocked fs].
      rewrite bind_assert_release.
      destruct (IH (fun s' => if s' =? s then fs else f s')
                  (new_jobs ++ unblocked)%list) as ([[d f0] n0] & ->).
      eexists. reflexivity.
    + rewrite bind_assert_release.
      destruct (IH f new_jobs) as ([[d f0] n0] & ->).
      eexists. reflexivity.
Qed.

Lemma add_completed_jobs_spec {D : collaborators} (asserts_on : bool)
    (jobs_ : list disk_io_job) (t t' : disk_io_thread) :
  add_completed_jobs asserts_on jobs_ t = Ret t' ->
  m_disk_cache t' = m_disk_cache t
  /\ writes t' = writes t
  /\ m_settings t' = m_settings t
  /\ exists done,
       m_completed_jobs t' = (m_completed_jobs t ++ done)%list
       /\ map job_id done = map job_id jobs_
       /\ map ret done = map ret jobs_
       /\ map error done = map error jobs_.
Proof.
  unfold add_completed_jobs. intros H.
  inv_bind H. destruct a as [[done f] new_jobs].
  inv_bind H. inv_bind H.
  apply complete_jobs_spec in E.
  inversion H; subst t'; clear H.
  destruct new_jobs; cbn; (repeat split; try reflexivity);
    exists done; (split; [reflexivity | exact E]).
Qed.

Lemma add_completed_jobs_release {D : collaborators}
    (jobs_ : list disk_io_job) (t : disk_io_thread) :
  exists t', add_completed_jobs false jobs_ t = Ret t'.
Proof.
  unfold add_completed_jobs.
  destruct (complete_jobs_release jobs_ (fences t) []) as ([[d f] n] & ->).
  cbn [bind]. rewrite !bind_assert_release. eexists. reflexivity.
Qed.

Lemma map_set_result (r ec : Z) (jobs_ : list disk_io_job) :
  finished_as r ec jobs_ (map (set_result r ec) jobs_).
Proof.
  split.
  - rewrite map_map. reflexivity.
  - apply Forall_forall. intros d Hin. apply in_map_iff in Hin.
    destruct Hin as (j & <- & _). split; reflexivity.
Qed.

Lemma finished_as_maps (r ec : Z) (jobs_ done done' : list disk_io_job) :
  finished_as r ec jobs_ done ->
  map job_id done' = map job_id done ->
  map ret done' = map ret done ->
  map error done' = map error done ->
  finished_as r ec jobs_ done'.
Proof.
  intros [Hid Hall] H1 H2 H3. split; [congruence|].
  apply Forall_forall. intros d Hin.
  destruct (In_nth _ _ d Hin) as (k & Hk & Hnth).
  assert (Hlen : List.length done' = List.length done).
  { rewrite <- (length_map job_id done'), H1. apply length_map. }
  rewrite Forall_forall in Hall.
  assert (Hk' : (k < List.length done)%nat) by (rewrite <- Hlen; exact Hk).
  specialize (Hall (nth k done d) (nth_In _ _ Hk')).
  assert (Hr : ret (nth k done' d) = ret (nth k done d)).
  { rewrite <- !(map_nth ret). now rewrite H2. }
  assert (He : error (nth k done' d) = error (nth k done d)).
  { rewrite <- !(map_nth error). now rewrite H3. }
  rewrite Hnth in Hr, He. destruct Hall. split; congruence.
Qed.

Lemma abort_jobs_spec {D : collaborators} (asserts_on : bool)
    (jobs_ : list disk_io_job) (t t' : disk_io_thread) :
  abort_jobs asserts_on jobs_ t = Ret t' ->
  m_disk_cache t' = m_disk_cache t
  /\ writes t' = writes t
  /\ exists done,
       m_completed_jobs t' = (m_completed_jobs t ++ done)%list
       /\ finished_as (-1) operation_aborted jobs_ done.
Proof.
  unfold abort_jobs. intros H. inv_bind H.
  destruct (map (set_result (-1) operation_aborted) jobs_) as [|a l] eqn:E.
  - inversion H; subst. repeat split; try reflexivity.
    exists []. split; [now rewrite app_nil_r|].
    destruct jobs_; [|discriminate]. split; [reflexivity | constructor].
  - apply add_completed_jobs_spec in H.
    destruct H as (Hc & Hw & _ & done & Hdone & H1 & H2 & H3).
    repeat split; try assumption.
    exists done. split; [exact Hdone|].
    rewrite <- E in H1, H2, H3.
    eapply finished_as_maps; [apply map_set_result | eassumption..].
Qed.

Lemma abort_jobs_release {D : collaborators} (jobs_ : list disk_io_job)
    (t : disk_io_thread) :
  exists t', abort_jobs false jobs_ t = Ret t'.
Proof.
  unfold abort_jobs. rewrite bind_assert_release.
  destruct (map _ jobs_).
  - eexists. reflexivity.
  - apply add_completed_jobs_release.
Qed.


(** ** [do_clear_piece] *)

(** The job that [async_clear_piece] builds: a fresh [clear_piece] job
    for piece [index] of the storage [s]. *)
Definition clear_piece_job_for {D : collaborators} (s index : Z)
    (t : disk_io_thread) : disk_io_job :=
  set_j_piece index
    (set_j_storage (Some s) (fst (allocate_job clear_piece t))).

Lemma clear_piece_job_for_fields {D : collaborators} (s index : Z)
    (t : disk_io_thread) :
  action (clear_piece_job_for s index t) = clear_piece
  /\ j_storage (clear_piece_job_for s index t) = Some s
  /\ j_piece (clear_piece_job_for s index t) = index.
Proof. repeat split. Qed.

(** C4, as the code has it: [async_clear_piece] submits a [clear_piece]
    job through [add_fence_job]; [do_clear_piece] returns 0 when the piece
    is not in the cache, and returns 0 with the jobs that hung on the piece
    completed as aborted when the piece is evicted.  When the piece is in
    the cache and cannot be evicted, the function returns [retry_job] only
    in a build without assertions: with assertions on it stops at
    [TORRENT_ASSERT(false)]. *)
Theorem clear_piece_fenced_and_evicts {D : collaborators} (s index : Z) (j : disk_io_job)
    (t : disk_io_thread) :
  (forall asserts_on,
     async_clear_piece asserts_on s index t
     = add_fence_job asserts_on s (clear_piece_job_for s index t)
         (snd (allocate_job clear_piece t)))
  /\ (forall asserts_on,
        find_piece_of (m_disk_cache t) j = None ->
        do_clear_piece asserts_on j t = Ret (0, t))
  /\ (forall pe jobs_ c,
        find_piece_of (m_disk_cache t) j = Some pe ->
        evict_piece (clear_hash pe) (store_piece (clear_hash pe) (m_disk_cache t))
          = (true, jobs_, c) ->
        (exists t', do_clear_piece false j t = Ret (0, t'))
        /\ forall asserts_on r t',
             do_clear_piece asserts_on j t = Ret (r, t') ->
             r = 0
             /\ m_disk_cache t' = c
             /\ exists done,
                  m_completed_jobs t' = (m_completed_jobs t ++ done)%list
                  /\ finished_as (-1) operation_aborted jobs_ done)
  /\ (forall pe jobs_ c,
        find_piece_of (m_disk_cache t) j = Some pe ->
        evict_piece (clear_hash pe) (store_piece (clear_hash pe) (m_disk_cache t))
          = (false, jobs_, c) ->
        do_clear_piece false j t
          = Ret (retry_job, set_m_disk_cache c (store (clear_hash pe) t))
        /\ do_clear_piece true j t = AssertionFailed).
Proof.
  split; [|split; [|split]].
  - intros a. reflexivity.
  - intros a H. unfold do_clear_piece. now rewrite H.
  - intros pe jobs_ c Hpe Hev. split.
    + unfold do_clear_piece. rewrite Hpe, bind_assert_release.
      cbn [store m_disk_cache set_m_disk_cache]. rewrite Hev.
      destruct (abort_jobs_release jobs_
                  (set_m_disk_cache c (store (clear_hash pe) t))) as (t' & Ht').
      exists t'. cbn [store set_m_disk_cache] in Ht'. now rewrite Ht'.
    + intros a r t' H. unfold do_clear_piece in H. rewrite Hpe in H.
      inv_bind H. cbn [store m_disk_cache set_m_disk_cache] in H.
      rewrite Hev in H. inv_bind H. inversion H; subst r t'; clear H.
      apply abort_jobs_spec in E. destruct E as (Hc & _ & done & Hd & Hf).
      split; [reflexivity|]. split; [rewrite Hc; reflexivity|].
      exists done. split; [|exact Hf]. rewrite Hd. reflexivity.
  - intros pe jobs_ c Hpe Hev. split.
    + unfold do_clear_piece. rewrite Hpe, bind_assert_release.
      cbn [store m_disk_cache set_m_disk_cache]. rewrite Hev.
      rewrite bind_assert_release. reflexivity.
    + unfold do_clear_piece. rewrite Hpe.
      destruct (negb (hashing pe)); [|reflexivity].
      cbn [TORRENT_ASSERT bind].
      cbn [store m_disk_cache set_m_disk_cache]. rewrite Hev.
      reflexivity.
Qed.


(** ** [iovec_flushed] *)

Lemma split_completed_release {D : collaborators} (js : list disk_io_job)
    (pe : cached_piece_entry) (bsize error_ : Z) :
  exists r, split_completed false js pe bsize error_ = Ret r.
Proof.
  induction js as [|j js IH].
  - eexists. reflexivity.
  - cbn [split_completed]. rewrite bind_assert_release.
    destruct IH as ([done rest] & ->). cbn [bind].
    destruct (completed j pe bsize); eexists; reflexivity.
Qed.

(** The piece that [iovec_flushed] hands to the cache: [block_offset] is
    taken off the indices, then [blocks_flushed] is called. *)
Definition flushed_piece {D : collaborators} (pe : cached_piece_entry)
    (flushing : list Z) (block_offset : Z) : cached_piece_entry :=
  blocks_flushed pe (map (fun f => f - block_offset) flushing).

(** The blocks are those that [blocks_flushed] leaves, with or without an
    error. *)
Lemma iovec_flushed_blocks {D : collaborators} (asserts_on : bool)
    (pe pe' : cached_piece_entry) (flushing : list Z)
    (block_offset error_ : Z) (t t' : disk_io_thread) :
  iovec_flushed asserts_on pe flushing block_offset error_ t = Ret (pe', t') ->
  blocks pe' = blocks (flushed_piece pe flushing block_offset).
Proof.
  unfold iovec_flushed, flushed_piece. intros H.
  apply bind_Ret_inv in H. destruct H as ([pe1 jobs1] & E & H).
  apply bind_Ret_inv in H. destruct H as (t1 & Ht1 & H).
  inversion H; subst pe' t1; clear H.
  destruct (negb (error_ =? 0)).
  - inv_bind E. inversion E; subst. reflexivity.
  - apply bind_Ret_inv in E. destruct E as ([done rest] & _ & E).
    inversion E; subst. reflexivity.
Qed.

Lemma iovec_flushed_release {D : collaborators} (pe : cached_piece_entry)
    (flushing : list Z) (block_offset error_ : Z) (t : disk_io_thread) :
  exists r, iovec_flushed false pe flushing block_offset error_ t = Ret r.
Proof.
  unfold iovec_flushed.
  destruct (negb (error_ =? 0)).
  - rewrite bind_assert_release. cbn [bind].
    match goal with
    | |- context [add_completed_jobs false ?js ?t0] =>
        destruct (add_completed_jobs_release js t0) as (t' & ->)
    end.
    eexists. reflexivity.
  - match goal with
    | |- context [split_completed false ?js ?p ?b ?e] =>
        destruct (split_completed_release js p b e) as ([done rest] & ->)
    end.
    cbn [bind].
    match goal with
    | |- context [add_completed_jobs false ?js ?t0] =>
        destruct (add_completed_jobs_release js t0) as (t' & ->)
    end.
    eexists. reflexivity.
Qed.

(** C1, as the code has it: [iovec_flushed] hands the blocks of the
    [writev] to [blocks_flushed] before it looks at [error].  After a
    failed write the piece is the one [blocks_flushed] leaves, with its job
    queue emptied: its blocks are in the state of the blocks of a write
    that succeeded, not in a state of their own.  Every job that hung on
    the piece is completed with [ret = -1] and the error. *)
Theorem iovec_flushed_failed_write {D : collaborators}
    (pe : cached_piece_entry) (flushing : list Z) (block_offset error_ : Z)
    (t : disk_io_thread) :
  error_ <> 0 ->
  (exists t',
     iovec_flushed false pe flushing block_offset error_ t
     = Ret (set_jobs [] (flushed_piece pe flushing block_offset), t'))
  /\ (forall asserts_on pe' t',
        iovec_flushed asserts_on pe flushing block_offset error_ t
        = Ret (pe', t') ->
        pe' = set_jobs [] (flushed_piece pe flushing block_offset)
        /\ m_disk_cache t' = store_piece pe' (m_disk_cache t)
        /\ exists done,
             m_completed_jobs t' = (m_completed_jobs t ++ done)%list
             /\ finished_as (-1) error_
                  (jobs (flushed_piece pe flushing block_offset)) done)
  /\ (forall asserts_on pe0 t0,
        iovec_flushed asserts_on pe flushing block_offset 0 t = Ret (pe0, t0) ->
        blocks pe0 = blocks (flushed_piece pe flushing block_offset)).
Proof.
  intros Herr.
  assert (Hne : negb (error_ =? 0) = true).
  { apply negb_true_iff, Z.eqb_neq, Herr. }
  assert (Hall : forall asserts_on pe' t',
             iovec_flushed asserts_on pe flushing block_offset error_ t
             = Ret (pe', t') ->
             pe' = set_jobs [] (flushed_piece pe flushing block_offset)
             /\ m_disk_cache t' = store_piece pe' (m_disk_cache t)
             /\ exists done,
                  m_completed_jobs t' = (m_completed_jobs t ++ done)%list
                  /\ finished_as (-1) error_
                       (jobs (flushed_piece pe flushing block_offset)) done).
  { intros a pe' t' H. unfold iovec_flushed in H. rewrite Hne in H.
    fold (flushed_piece pe flushing block_offset) in H.
    apply bind_Ret_inv in H. destruct H as ([pe1 jobs1] & E & H).
    inv_bind E. inversion E; subst pe1 jobs1; clear E.
    apply bind_Ret_inv in H. destruct H as (t1 & Ht1 & H).
    inversion H; subst pe' t1; clear H.
    apply add_completed_jobs_spec in Ht1.
    destruct Ht1 as (Hc & _ & _ & done & Hd & H1 & H2 & H3).
    split; [reflexivity|]. split; [rewrite Hc; reflexivity|].
    exists done. split; [rewrite Hd; reflexivity|].
    eapply finished_as_maps; [apply map_set_result | eassumption..]. }
  split; [|split].
  - destruct (iovec_flushed_release pe flushing block_offset error_ t)
      as ([pe' t'] & Hr).
    destruct (Hall false pe' t' Hr) as (-> & _).
    exists t'. exact Hr.
  - exact Hall.
  - intros a pe0 t0 H. eapply iovec_flushed_blocks. exact H.
Qed.


(** ** The blocks after [blocks_flushed], as the specification has it *)

Lemma update_nth_nth_error (A : Type) (f : A -> A) (l : list A) (n k : nat) :
  nth_error (update_nth n f l) k
  = if Nat.eqb k n then option_map f (nth_error l k) else nth_error l k.
Proof.
  revert n k. induction l as [|x l IH]; intros n k.
  - destruct n; destruct k; cbn; try reflexivity.
    destruct (Nat.eqb k n); reflexivity.
  - destruct n as [|n]; destruct k as [|k]; cbn; try reflexivity.
    apply IH.
Qed.

Lemma block_at_update_block (i k : Z)
    (f : cached_block_entry -> cached_block_entry) (pe : cached_piece_entry) :
  block_at (update_block i f pe) k
  = if k =? i then option_map f (block_at pe k) else block_at pe k.
Proof.
  unfold block_at. destruct (k <? 0) eqn:Hk.
  - destruct (k =? i); reflexivity.
  - apply Z.ltb_ge in Hk. unfold update_block.
    destruct (i <? 0) eqn:Hi.
    + apply Z.ltb_lt in Hi.
      destruct (k =? i) eqn:Hki; [apply Z.eqb_eq in Hki; lia | reflexivity].
    + apply Z.ltb_ge in Hi. cbn [blocks set_blocks].
      rewrite update_nth_nth_error.
      destruct (k =? i) eqn:Hki.
      * apply Z.eqb_eq in Hki. subst k. now rewrite Nat.eqb_refl.
      * apply Z.eqb_neq in Hki.
        destruct (Nat.eqb (Z.to_nat k) (Z.to_nat i)) eqn:E; [|reflexivity].
        apply Nat.eqb_eq in E. lia.
Qed.

(** A block is clean: neither dirty nor inside a write. *)
Definition clean (b : cached_block_entry) : Prop :=
  dirty b = false /\ pending b = false.

Lemma flushed_blocks_clean (flushed : list Z) (pe : cached_piece_entry)
    (k : Z) (b : cached_block_entry) :
  block_at pe k = Some b ->
  exists b',
    block_at
      (fold_left (fun pe i => update_block i DiskModel.flushed_block pe)
         flushed pe) k = Some b'
    /\ buf b' = buf b
    /\ (In k flushed \/ clean b -> clean b').
Proof.
  revert pe b. induction flushed as [|i flushed IH]; intros pe b Hb.
  - exists b. cbn. split; [exact Hb|]. split; [reflexivity|].
    intros [[]|H]; exact H.
  - cbn [fold_left].
    pose proof (block_at_update_block i k DiskModel.flushed_block pe) as Hu.
    rewrite Hb in Hu. destruct (k =? i) eqn:Hki.
    + apply Z.eqb_eq in Hki. subst i.
      destruct (IH _ _ Hu) as (b' & Hb' & Hbuf & Hclean).
      exists b'. split; [exact Hb'|]. split; [exact Hbuf|].
      intros _. apply Hclean. right. split; reflexivity.
    + apply Z.eqb_neq in Hki.
      destruct (IH _ _ Hu) as (b' & Hb' & Hbuf & Hclean).
      exists b'. split; [exact Hb'|]. split; [exact Hbuf|].
      intros [[H|H]|H]; [congruence | apply Hclean; now left
                         | apply Hclean; now right].
Qed.

Lemma blocks_flushed_model_clean (flushed : list Z) (pe : cached_piece_entry)
    (k : Z) (b : cached_block_entry) :
  block_at pe k = Some b ->
  In k flushed ->
  exists b',
    block_at (DiskModel.blocks_flushed_model pe flushed) k = Some b'
    /\ buf b' = buf b /\ clean b'.
Proof.
  intros Hb Hin.
  destruct (flushed_blocks_clean flushed pe k b Hb) as (b' & Hb' & Hbuf & Hc).
  exists b'. split; [exact Hb'|]. split; [exact Hbuf|]. apply Hc. now left.
Qed.

Section FlushedAsSpecified.

Context {D : collaborators}.

(** The cache marks the blocks of a write as the specification says of a
    block that is persisted. *)
Hypothesis blocks_flushed_as_specified :
  forall (pe : cached_piece_entry) (flushed : list Z),
    blocks (blocks_flushed pe flushed)
    = blocks (DiskModel.blocks_flushed_model pe flushed).

(** With such a cache, the blocks of a failed write are no longer dirty:
    the buffer stays, the mark that it has to be written does not. *)
Lemma failed_write_blocks_clean (asserts_on : bool)
    (pe pe' : cached_piece_entry) (flushing : list Z)
    (error_ : Z) (t t' : disk_io_thread) (k : Z) (b : cached_block_entry) :
  iovec_flushed asserts_on pe flushing 0 error_ t = Ret (pe', t') ->
  block_at pe k = Some b ->
  In k flushing ->
  exists b', block_at pe' k = Some b' /\ buf b' = buf b /\ clean b'.
Proof.
  intros H Hb Hin. apply iovec_flushed_blocks in H.
  unfold flushed_piece in H. rewrite blocks_flushed_as_specified in H.
  assert (Hmap : map (fun f => f - 0) flushing = flushing).
  { rewrite <- (map_id flushing) at 2. apply map_ext. intros a. lia. }
  rewrite Hmap in H.
  destruct (blocks_flushed_model_clean flushing pe k b Hb Hin)
    as (b' & Hb' & Hbuf & Hc).
  exists b'. split; [|split; assumption].
  unfold block_at in *. rewrite H. exact Hb'.
Qed.

End FlushedAsSpecified.


(** ** What [build_iovec] collects *)

(** The cache keeps what identifies a piece when it counts a reference on
    one of its blocks. *)
Definition same_identity (pe pe' : cached_piece_entry) : Prop :=
  storage pe' = storage pe
  /\ piece pe' = piece pe
  /\ blocks_in_piece pe' = blocks_in_piece pe.

Definition keeps_identity {D : collaborators} : Prop :=
  forall (pe : cached_piece_entry) (i : Z),
    same_identity pe (inc_block_refcount pe i).

Lemma same_identity_refl (pe : cached_piece_entry) : same_identity pe pe.
Proof. repeat split. Qed.

Lemma same_identity_trans (a b c : cached_piece_entry) :
  same_identity a b -> same_identity b c -> same_identity a c.
Proof.
  intros (H1 & H2 & H3) (H4 & H5 & H6). repeat split; congruence.
Qed.

Lemma same_identity_update_block (i : Z)
    (f : cached_block_entry -> cached_block_entry) (pe : cached_piece_entry) :
  same_identity pe (update_block i f pe).
Proof. unfold update_block. destruct (i <? 0); repeat split. Qed.

Lemma build_iovec_loop_spec {D : collaborators} (asserts_on : bool)
    (Q : Z -> Prop) (base bsize : Z) (n : nat) :
  keeps_identity ->
  forall (i size_left : Z) (pe : cached_piece_entry) (iov : list iovec_t)
    (flushing : list Z) (pe' : cached_piece_entry) (iov' : list iovec_t)
    (flushing' : list Z),
    build_iovec_loop asserts_on n i size_left base bsize pe iov flushing
    = Ret (pe', iov', flushing') ->
    same_identity pe pe'
    /\ (Forall Q flushing ->
        (forall x, i <= x < i + Z.of_nat n -> Q (x + base)) ->
        Forall Q flushing').
Proof.
  intros Hkeep. induction n as [|n IH];
    intros i size_left pe iov flushing pe' iov' flushing' H.
  - cbn in H. inversion H; subst. split; [apply same_identity_refl|].
    intros HQ _. exact HQ.
  - cbn [build_iovec_loop] in H. inv_bind H.
    assert (Hskip :
      build_iovec_loop asserts_on n (i + 1) (size_left - bsize) base bsize pe
        iov flushing = Ret (pe', iov', flushing') ->
      same_identity pe pe'
      /\ (Forall Q flushing ->
          (forall x, i <= x < i + Z.of_nat (S n) -> Q (x + base)) ->
          Forall Q flushing')).
    { intros H'. apply IH in H'. destruct H' as [Hid HQ].
      split; [exact Hid|]. intros Hf Hx. apply HQ; [exact Hf|].
      intros x Hr. apply Hx. lia. }
    destruct (block_at pe i) as [b|]; [|exact (Hskip H)].
    destruct (buf b) as [data|]; [|exact (Hskip H)].
    destruct (pending b || negb (dirty b)); [exact (Hskip H)|].
    apply IH in H. destruct H as [Hid HQ]. split.
    + eapply same_identity_trans; [|exact Hid].
      eapply same_identity_trans; [apply same_identity_update_block|].
      apply Hkeep.
    + intros Hf Hx. apply HQ.
      * apply Forall_app. split; [exact Hf|].
        constructor; [|constructor]. apply Hx. lia.
      * intros x Hr. apply Hx. lia.
Qed.

Lemma build_iovec_loop_release {D : collaborators} (base bsize : Z) (n : nat) :
  forall (i size_left : Z) (pe : cached_piece_entry) (iov : list iovec_t)
    (flushing : list Z),
    exists r,
      build_iovec_loop false n i size_left base bsize pe iov flushing = Ret r.
Proof.
  induction n as [|n IH]; intros i size_left pe iov flushing.
  - eexists. reflexivity.
  - cbn [build_iovec_loop]. rewrite bind_assert_release.
    destruct (block_at pe i) as [b|]; [|apply IH].
    destruct (buf b) as [data|]; [|apply IH].
    destruct (pending b || negb (dirty b)); apply IH.
Qed.

(** The indices that [build_iovec] writes to [flushing] are those of
    blocks from [start] up to [end], moved by [block_base_index]. *)
Lemma build_iovec_spec {D : collaborators} (asserts_on : bool)
    (c : block_cache) (pe : cached_piece_entry) (start end_ base : Z)
    (pe' : cached_piece_entry) (iov : list iovec_t) (flushing : list Z) :
  keeps_identity ->
  build_iovec asserts_on c pe start end_ base = Ret (pe', iov, flushing) ->
  same_identity pe pe'
  /\ Forall (fun x => start + base <= x
                      < Z.min end_ (blocks_in_piece pe) + base) flushing.
Proof.
  intros Hkeep H. unfold build_iovec in H.
  inv_bind H. inv_bind H. inv_bind H.
  apply bind_Ret_inv in H. destruct H as ([[pe1 iov1] fl1] & Hloop & H).
  inv_bind H. inversion H; subst pe1 iov1 fl1; clear H.
  apply (build_iovec_loop_spec asserts_on
           (fun x => start + base <= x
                     < Z.min end_ (blocks_in_piece pe) + base)) in Hloop;
    [|exact Hkeep].
  destruct Hloop as [Hid HQ]. split; [exact Hid|].
  apply HQ; [constructor|]. intros x Hx. lia.
Qed.

Lemma build_iovec_release {D : collaborators} (c : block_cache)
    (pe : cached_piece_entry) (start end_ base : Z) :
  exists r, build_iovec false c pe start end_ base = Ret r.
Proof.
  unfold build_iovec. rewrite !bind_assert_release.
  match goal with
  | |- context [build_iovec_loop false ?n ?i ?s ?b ?bs ?p ?io ?fl] =>
      destruct (build_iovec_loop_release b bs n i s p io fl)
        as ([[pe1 iov1] fl1] & ->)
  end.
  cbn [bind]. rewrite bind_assert_release. eexists. reflexivity.
Qed.

(** ** Where [flush_iovec] writes *)

(** A call of [writev] made for the block indices [flushing], counted from
    the piece [pe]. *)
Definition writes_from (pe : cached_piece_entry) (flushing : list Z)
    (call : writev_call) : Prop :=
  w_storage call = storage pe
  /\ exists k : Z,
       w_piece call
       = piece pe + Z.quot (at_index flushing k) (blocks_in_piece pe).

Lemma flush_iovec_loop_spec {D : collaborators} (pe : cached_piece_entry)
    (bsize : Z) (iov : list iovec_t) (flushing : list Z) (num_blocks : Z)
    (n : nat) :
  forall (i flushing_start error_ : Z) (log : list writev_call)
    (error' : Z) (log' : list writev_call),
    flush_iovec_loop n i flushing_start pe bsize iov flushing num_blocks
      error_ log = (error', log') ->
    exists calls,
      log' = (log ++ calls)%list /\ Forall (writes_from pe flushing) calls.
Proof.
  induction n as [|n IH]; intros i fs error_ log error' log' H.
  - cbn in H. inversion H; subst. exists []. split; [|constructor].
    now rewrite app_nil_r.
  - cbn [flush_iovec_loop] in H.
    destruct ((i <? num_blocks)
              && (at_index flushing i =? at_index flushing (i - 1) + 1)).
    + apply IH in H. exact H.
    + destruct (writev _ log) as [r ec]. apply IH in H.
      destruct H as (calls & -> & Hall).
      eexists (_ :: calls). rewrite <- app_assoc. split; [reflexivity|].
      constructor; [|exact Hall]. split; [reflexivity|].
      exists fs. reflexivity.
Qed.

Lemma flush_iovec_spec {D : collaborators} (asserts_on : bool)
    (pe : cached_piece_entry) (iov : list iovec_t) (flushing : list Z)
    (num_blocks error_ : Z) (t t' : disk_io_thread) (error' : Z) :
  flush_iovec asserts_on pe iov flushing num_blocks error_ t
  = Ret (t', error') ->
  m_disk_cache t' = m_disk_cache t
  /\ m_settings t' = m_settings t
  /\ exists calls,
       writes t' = (writes t ++ calls)%list
       /\ Forall (writes_from pe flushing) calls.
Proof.
  unfold flush_iovec. intros H. inv_bind H. inv_bind H.
  destruct (flush_iovec_loop _ _ _ _ _ _ _ _ _ _) as [e log] eqn:Hloop.
  inversion H; subst t' error'; clear H.
  apply flush_iovec_loop_spec in Hloop. destruct Hloop as (calls & -> & Hall).
  split; [reflexivity|]. split; [reflexivity|].
  exists calls. split; [reflexivity | exact Hall].
Qed.

Lemma flush_iovec_release {D : collaborators} (pe : cached_piece_entry)
    (iov : list iovec_t) (flushing : list Z) (num_blocks error_ : Z)
    (t : disk_io_thread) :
  exists r, flush_iovec false pe iov flushing num_blocks error_ t = Ret r.
Proof.
  unfold flush_iovec. rewrite !bind_assert_release.
  destruct (flush_iovec_loop _ _ _ _ _ _ _ _ _ _) as [e log].
  eexists. reflexivity.
Qed.

(** An index of [flushing], or the 0 read past its end, has the property
    of all indices when 0 has it. *)
Lemma at_index_Forall (Q : Z -> Prop) (flushing : list Z) (k : Z) :
  Q 0 -> Forall Q flushing -> Q (at_index flushing k).
Proof.
  intros H0 Hall. unfold at_index.
  destruct (nth_in_or_default (Z.to_nat k) flushing 0) as [Hin | ->];
    [|exact H0].
  rewrite Forall_forall in Hall. apply Hall, Hin.
Qed.


Lemma iovec_flushed_writes {D : collaborators} (asserts_on : bool)
    (pe pe' : cached_piece_entry) (flushing : list Z)
    (block_offset error_ : Z) (t t' : disk_io_thread) :
  iovec_flushed asserts_on pe flushing block_offset error_ t = Ret (pe', t') ->
  writes t' = writes t /\ m_settings t' = m_settings t.
Proof.
  unfold iovec_flushed. intros H.
  apply bind_Ret_inv in H. destruct H as ([pe1 jobs1] & _ & H).
  apply bind_Ret_inv in H. destruct H as (t1 & Ht1 & H).
  inversion H; subst pe' t1; clear H.
  apply add_completed_jobs_spec in Ht1.
  destruct Ht1 as (_ & Hw & Hs & _). split; assumption.
Qed.

Lemma evict_after_flush_writes {D : collaborators} (t : disk_io_thread) :
  writes (evict_after_flush t) = writes t.
Proof. unfold evict_after_flush. destruct (_ >? 0); reflexivity. Qed.

(** ** [flush_range] writes the piece it is given *)

(** All calls of [writev] between [t] and [t'] are for pieces of the
    storage [s] from [lo] up to [hi]. *)
Definition writes_within {D : collaborators} (s lo hi : Z)
    (t t' : disk_io_thread) : Prop :=
  exists calls,
    writes t' = (writes t ++ calls)%list
    /\ Forall (fun call => w_storage call = s /\ lo <= w_piece call < hi)
         calls.

Lemma writes_within_refl {D : collaborators} (s lo hi : Z)
    (t : disk_io_thread) :
  writes_within s lo hi t t.
Proof. exists []. split; [now rewrite app_nil_r | constructor]. Qed.

Lemma flush_range_spec {D : collaborators} (asserts_on : bool)
    (pe : cached_piece_entry) (start end_ : Z) (t t' : disk_io_thread)
    (n : Z) :
  keeps_identity ->
  0 <= start ->
  0 < blocks_in_piece pe ->
  flush_range asserts_on pe start end_ t = Ret (n, t') ->
  writes_within (storage pe) (piece pe) (piece pe + 1) t t'.
Proof.
  intros Hkeep Hstart Hbip H. unfold flush_range in H.
  inv_bind H. inv_bind H.
  apply bind_Ret_inv in H. destruct H as ([[pe1 iov] fl] & Hb & H).
  apply build_iovec_spec in Hb; [|exact Hkeep].
  destruct Hb as ((Hs & Hp & Hbp) & Hfl).
  destruct (Z.of_nat (List.length iov) =? 0).
  { inversion H; subst. apply writes_within_refl. }
  inv_bind H.
  apply bind_Ret_inv in H. destruct H as ([t1 e1] & Hf & H).
  inv_bind H.
  apply bind_Ret_inv in H. destruct H as ([pe2 t2] & Hi & H).
  inversion H; subst n t'; clear H.
  apply flush_iovec_spec in Hf. destruct Hf as (_ & _ & calls & Hw & Hall).
  apply iovec_flushed_writes in Hi. destruct Hi as [Hw2 _].
  exists calls. split.
  - rewrite evict_after_flush_writes, Hw2. cbn [store set_m_disk_cache writes].
    exact Hw.
  - eapply Forall_impl; [|exact Hall].
    intros call (Hst & k & Hk). cbn [storage piece blocks_in_piece
      set_piece_refcount] in Hst, Hk.
    split; [congruence|].
    assert (Hq : 0 <= at_index fl k < blocks_in_piece pe).
    { apply (at_index_Forall (fun x => 0 <= x < blocks_in_piece pe));
        [lia|].
      eapply Forall_impl; [|exact Hfl]. cbn. intros x Hx. lia. }
    rewrite Hbp in Hk. rewrite Z.quot_small in Hk by exact Hq. lia.
Qed.

Lemma flush_range_release {D : collaborators} (pe : cached_piece_entry)
    (start end_ : Z) (t : disk_io_thread) :
  exists r, flush_range false pe start end_ t = Ret r.
Proof.
  unfold flush_range. rewrite !bind_assert_release.
  destruct (build_iovec_release (m_disk_cache t) pe start end_ 0)
    as ([[pe1 iov] fl] & ->).
  cbn [bind]. destruct (_ =? 0); [eexists; reflexivity|].
  rewrite bind_assert_release.
  match goal with
  | |- context [flush_iovec false ?p ?io ?f ?n ?e ?t0] =>
      destruct (flush_iovec_release p io f n e t0) as ([t1 e1] & ->)
  end.
  cbn [bind]. rewrite bind_assert_release.
  match goal with
  | |- context [iovec_flushed false ?p ?f ?o ?e ?t0] =>
      destruct (iovec_flushed_release p f o e t0) as ([pe2 t2] & ->)
  end.
  eexists. reflexivity.
Qed.


(** ** Pieces in the cache *)

Lemma same_piece_key (s i : Z) (q : cached_piece_entry) :
  same_piece s i q = true <-> storage q = s /\ piece q = i.
Proof.
  unfold same_piece. rewrite andb_true_iff, !Z.eqb_eq. reflexivity.
Qed.

Lemma find_piece_key (c : block_cache) (s i : Z) (q : cached_piece_entry) :
  find_piece c s i = Some q -> storage q = s /\ piece q = i.
Proof.
  unfold find_piece. intros H. apply find_some in H.
  apply same_piece_key, H.
Qed.

Lemma find_piece_store_piece (pe : cached_piece_entry) (c : block_cache)
    (s i : Z) :
  find_piece (store_piece pe c) s i
  = option_map
      (fun q => if same_piece (storage pe) (piece pe) q then pe else q)
      (find_piece c s i).
Proof.
  unfold find_piece, store_piece. cbn [pieces].
  induction (pieces c) as [|q l IH]; [reflexivity|].
  cbn [map find].
  assert (Hsame :
    same_piece s i (if same_piece (storage pe) (piece pe) q then pe else q)
    = same_piece s i q).
  { destruct (same_piece (storage pe) (piece pe) q) eqn:E; [|reflexivity].
    apply same_piece_key in E. destruct E as [E1 E2].
    unfold same_piece. now rewrite E1, E2. }
  rewrite Hsame. destruct (same_piece s i q); [reflexivity | exact IH].
Qed.

(** Every piece of the cache [c'] is a piece of [c], with as many blocks. *)
Definition shape_from (c c' : block_cache) : Prop :=
  forall (s i : Z) (q' : cached_piece_entry),
    find_piece c' s i = Some q' ->
    exists q, find_piece c s i = Some q
              /\ blocks_in_piece q' = blocks_in_piece q.

Lemma shape_from_refl (c : block_cache) : shape_from c c.
Proof. intros s i q H. exists q. split; [exact H | reflexivity]. Qed.

Lemma shape_from_trans (a b c : block_cache) :
  shape_from a b -> shape_from b c -> shape_from a c.
Proof.
  intros Hab Hbc s i q H. destruct (Hbc s i q H) as (q1 & H1 & E1).
  destruct (Hab s i q1 H1) as (q0 & H0 & E0).
  exists q0. split; [exact H0 | congruence].
Qed.

Lemma shape_from_store (pe : cached_piece_entry) (c : block_cache) :
  (forall pe0, find_piece c (storage pe) (piece pe) = Some pe0 ->
               blocks_in_piece pe = blocks_in_piece pe0) ->
  shape_from c (store_piece pe c).
Proof.
  intros Hpe s i q' H. rewrite find_piece_store_piece in H.
  destruct (find_piece c s i) as [q|] eqn:Hq; [|discriminate].
  exists q. split; [reflexivity|]. cbn in H.
  destruct (same_piece (storage pe) (piece pe) q) eqn:E;
    inversion H; subst q'; [|reflexivity].
  apply Hpe. pose proof (find_piece_key _ _ _ _ Hq) as [K1 K2].
  apply same_piece_key in E. destruct E as [E1 E2].
  rewrite <- E1, <- E2, K1, K2. exact Hq.
Qed.


(** ** The stripe of [try_flush_hashed] *)

Lemma stripe_piece_found {D : collaborators} (i range_start : Z)
    (p pe : cached_piece_entry) (t : disk_io_thread) :
  stripe_piece i range_start p t = Some pe ->
  forall q, find_piece (m_disk_cache t) (storage pe) (piece pe) = Some q ->
            q = pe.
Proof.
  unfold stripe_piece, deref. intros H q Hq.
  destruct (i =? piece p).
  - destruct (find_piece (m_disk_cache t) (storage p) (piece p)) as [q0|] eqn:E.
    + inversion H; subst q0.
      destruct (find_piece_key _ _ _ _ E) as [K1 K2].
      rewrite K1, K2, E in Hq. now inversion Hq.
    + inversion H; subst pe. rewrite E in Hq. discriminate.
  - destruct (find_piece_key _ _ _ _ H) as [K1 K2].
    rewrite K1, K2, H in Hq. now inversion Hq.
Qed.

Lemma stripe_build_spec {D : collaborators} (asserts_on : bool)
    (Q : Z -> Prop) (range_start : Z) (p : cached_piece_entry) (n : nat) :
  keeps_identity ->
  0 <= blocks_in_piece p ->
  forall (i block_start : Z) (t : disk_io_thread) (iov : list iovec_t)
    (flushing : list Z) (per_piece : list (bool * list Z))
    (t' : disk_io_thread) (iov' : list iovec_t) (flushing' : list Z)
    (per_piece' : list (bool * list Z)),
    stripe_build asserts_on n i range_start block_start p t iov flushing
      per_piece = Ret (t', iov', flushing', per_piece') ->
    writes t' = writes t
    /\ m_settings t' = m_settings t
    /\ shape_from (m_disk_cache t) (m_disk_cache t')
    /\ (n = O -> iov' = iov)
    /\ (Forall Q flushing ->
        (forall x,
           block_start <= x < block_start + Z.of_nat n * blocks_in_piece p ->
           Q x) ->
        Forall Q flushing').
Proof.
  intros Hkeep Hbip. induction n as [|n IH];
    intros i block_start t iov flushing per_piece t' iov' flushing'
      per_piece' H.
  - cbn in H. inversion H; subst.
    split; [reflexivity|]. split; [reflexivity|].
    split; [apply shape_from_refl|]. split; [reflexivity|].
    intros HQ _. exact HQ.
  - cbn [stripe_build] in H.
    assert (Hskip :
      stripe_build asserts_on n (i + 1) range_start
        (block_start + blocks_in_piece p) p t iov flushing
        (per_piece ++ [(false, [])]) = Ret (t', iov', flushing', per_piece') ->
      writes t' = writes t
      /\ m_settings t' = m_settings t
      /\ shape_from (m_disk_cache t) (m_disk_cache t')
      /\ (S n = O -> iov' = iov)
      /\ (Forall Q flushing ->
          (forall x,
             block_start <= x
             < block_start + Z.of_nat (S n) * blocks_in_piece p -> Q x) ->
          Forall Q flushing')).
    { intros H'. apply IH in H'.
      destruct H' as (Hw & Hs & Hsh & _ & HQ).
      split; [exact Hw|]. split; [exact Hs|]. split; [exact Hsh|].
      split; [discriminate|].
      intros Hf Hx. apply HQ; [exact Hf|]. intros x Hr. apply Hx. nia. }
    destruct (stripe_piece i range_start p t) as [pe0|] eqn:Hpiece;
      [|exact (Hskip H)].
    destruct (negb (is_write_lru (cache_state pe0))); [exact (Hskip H)|].
    inv_bind H.
    apply bind_Ret_inv in H. destruct H as ([[pe1 iov1] fl1] & Hb & H).
    apply build_iovec_spec in Hb; [|exact Hkeep].
    destruct Hb as ((Hs1 & Hp1 & Hb1) & Hfl).
    cbn [storage piece blocks_in_piece set_piece_refcount] in Hs1, Hp1, Hb1, Hfl.
    apply IH in H. destruct H as (Hw & Hs & Hsh & _ & HQ).
    split; [exact Hw|]. split; [exact Hs|]. split.
    + eapply shape_from_trans; [|exact Hsh].
      cbn [store m_disk_cache set_m_disk_cache].
      apply shape_from_store. intros q Hq. rewrite Hs1, Hp1 in Hq.
      rewrite (stripe_piece_found _ _ _ _ _ Hpiece q Hq). exact Hb1.
    + split; [discriminate|].
      intros Hf Hx. apply HQ.
      * apply Forall_app. split; [exact Hf|].
        eapply Forall_impl; [|exact Hfl]. cbn. intros x Hr. apply Hx. nia.
      * intros x Hr. apply Hx. nia.
Qed.

Lemma stripe_build_release {D : collaborators} (range_start : Z)
    (p : cached_piece_entry) (n : nat) :
  forall (i block_start : Z) (t : disk_io_thread) (iov : list iovec_t)
    (flushing : list Z) (per_piece : list (bool * list Z)),
    exists r,
      stripe_build false n i range_start block_start p t iov flushing
        per_piece = Ret r.
Proof.
  induction n as [|n IH]; intros i block_start t iov flushing per_piece.
  - eexists. reflexivity.
  - cbn [stripe_build].
    destruct (stripe_piece i range_start p t) as [pe0|]; [|apply IH].
    destruct (negb (is_write_lru (cache_state pe0))); [apply IH|].
    rewrite bind_assert_release.
    match goal with
    | |- context [build_iovec false ?c ?pe ?s ?e ?b] =>
        destruct (build_iovec_release c pe s e b) as ([[pe1 iov1] fl1] & ->)
    end.
    cbn [bind]. apply IH.
Qed.

Lemma stripe_flushed_writes {D : collaborators} (asserts_on : bool)
    (range_start : Z) (p : cached_piece_entry) (error_ : Z)
    (per_piece : list (bool * list Z)) :
  forall (i block_start : Z) (t t' : disk_io_thread),
    stripe_flushed asserts_on per_piece i range_start block_start p error_ t
    = Ret t' ->
    writes t' = writes t.
Proof.
  induction per_piece as [|[counted fl] rest IH]; intros i block_start t t' H.
  - cbn in H. now inversion H.
  - cbn [stripe_flushed] in H.
    destruct (stripe_piece i range_start p t) as [pe0|].
    + apply bind_Ret_inv in H. destruct H as (pe1 & _ & H).
      apply bind_Ret_inv in H. destruct H as ([pe2 t2] & Hi & H).
      apply IH in H. apply iovec_flushed_writes in Hi.
      destruct Hi as [Hw _]. rewrite H, Hw. reflexivity.
    + inv_bind H. apply IH in H. exact H.
Qed.

Lemma stripe_flushed_release {D : collaborators} (range_start : Z)
    (p : cached_piece_entry) (error_ : Z) (per_piece : list (bool * list Z)) :
  forall (i block_start : Z) (t : disk_io_thread),
    exists t',
      stripe_flushed false per_piece i range_start block_start p error_ t
      = Ret t'.
Proof.
  induction per_piece as [|[counted fl] rest IH]; intros i block_start t.
  - eexists. reflexivity.
  - cbn [stripe_flushed].
    destruct (stripe_piece i range_start p t) as [pe0|].
    + assert (Hpe : exists pe1,
                (if counted
                 then bind (TORRENT_ASSERT false (piece_refcount pe0 >? 0))
                        (fun _ => Ret (set_piece_refcount
                                         (piece_refcount pe0 - 1) pe0))
                 else Ret pe0) = Ret pe1).
      { destruct counted; eexists; reflexivity. }
      destruct Hpe as (pe1 & ->). cbn [bind].
      match goal with
      | |- context [iovec_flushed false ?pe ?f ?o ?e ?t0] =>
          destruct (iovec_flushed_release pe f o e t0) as ([pe2 t2] & ->)
      end.
      cbn [bind]. apply IH.
    + rewrite bind_assert_release. apply IH.
Qed.


(** [first_piece] is the piece of the cache at [range_start]. *)
Lemma stripe_ready_first {D : collaborators} (range_start : Z)
    (p : cached_piece_entry) (t : disk_io_thread) (n : nat) :
  find_piece (m_disk_cache t) (storage p) (piece p) = Some p ->
  forall (i : Z) (first_piece first_piece' : option cached_piece_entry),
    match first_piece with
    | Some q => find_piece (m_disk_cache t) (storage p) range_start = Some q
    | None => i = range_start /\ n <> O
    end ->
    stripe_ready n i range_start p t first_piece = (true, first_piece') ->
    exists q,
      first_piece' = Some q
      /\ find_piece (m_disk_cache t) (storage p) range_start = Some q.
Proof.
  intros Hp. induction n as [|n IH]; intros i fp fp' Hfp H.
  - cbn in H. inversion H; subst fp'.
    destruct fp as [q|]; [exists q; split; [reflexivity | exact Hfp]|].
    destruct Hfp as [_ Hn]. now contradiction Hn.
  - cbn [stripe_ready] in H.
    assert (Hnext : forall pe,
              find_piece (m_disk_cache t) (storage p) i = Some pe ->
              match (if i =? range_start then Some pe else fp) with
              | Some q =>
                  find_piece (m_disk_cache t) (storage p) range_start = Some q
              | None => i + 1 = range_start /\ n <> O
              end).
    { intros pe Hpe. destruct (i =? range_start) eqn:E.
      - apply Z.eqb_eq in E. subst i. exact Hpe.
      - destruct fp as [q|]; [exact Hfp|].
        destruct Hfp as [Hi _]. apply Z.eqb_neq in E. contradiction. }
    destruct (i =? piece p) eqn:Hip.
    + apply Z.eqb_eq in Hip. subst i.
      eapply IH; [|exact H]. apply Hnext, Hp.
    + destruct (find_piece (m_disk_cache t) (storage p) i) as [pe|] eqn:Hpe;
        [|discriminate].
      destruct (negb (is_write_lru (cache_state pe))).
      * eapply IH; [|exact H]. apply Hnext. reflexivity.
      * destruct ((num_dirty pe =? blocks_in_piece pe) && _); [|discriminate].
        eapply IH; [|exact H]. apply Hnext. reflexivity.
Qed.

(** The stripe is not ready when one of its pieces is not in the cache. *)
Lemma stripe_ready_missing {D : collaborators} (range_start : Z)
    (p : cached_piece_entry) (t : disk_io_thread) (j : Z) (n : nat) :
  j <> piece p ->
  find_piece (m_disk_cache t) (storage p) j = None ->
  forall (i : Z) (first_piece : option cached_piece_entry),
    i <= j < i + Z.of_nat n ->
    fst (stripe_ready n i range_start p t first_piece) = false.
Proof.
  intros Hj Hnone. induction n as [|n IH]; intros i fp Hr; [lia|].
  cbn [stripe_ready].
  destruct (Z.eq_dec i j) as [->|Hij].
  - destruct (j =? piece p) eqn:E; [apply Z.eqb_eq in E; contradiction|].
    rewrite Hnone. reflexivity.
  - assert (Hr' : i + 1 <= j < i + 1 + Z.of_nat n) by lia.
    destruct (i =? piece p); [apply IH, Hr'|].
    destruct (find_piece (m_disk_cache t) (storage p) i) as [pe|];
      [|reflexivity].
    destruct (negb (is_write_lru (cache_state pe))); [apply IH, Hr'|].
    destruct ((num_dirty pe =? blocks_in_piece pe) && _);
      [apply IH, Hr' | reflexivity].
Qed.

Lemma quot_in_stripe (x n bp bf : Z) :
  0 < bp -> bp <= bf -> 0 <= x < n * bp -> 0 <= Z.quot x bf < n.
Proof.
  intros Hbp Hbf Hx. rewrite Z.quot_div_nonneg by lia. split.
  - apply Z.div_pos; lia.
  - apply Z.div_lt_upper_bound; [lia | nia].
Qed.

(** The stripe is written as pieces from [range_start] up to
    [range_end]. *)
Lemma flush_stripe_spec {D : collaborators} (asserts_on : bool)
    (p : cached_piece_entry) (range_start range_end : Z)
    (t t' : disk_io_thread) (n : Z) :
  keeps_identity ->
  0 < blocks_in_piece p ->
  find_piece (m_disk_cache t) (storage p) (piece p) = Some p ->
  (forall q, find_piece (m_disk_cache t) (storage p) range_start = Some q ->
             blocks_in_piece p <= blocks_in_piece q) ->
  flush_stripe asserts_on p range_start range_end t = Ret (n, t') ->
  writes_within (storage p) range_start range_end t t'.
Proof.
  intros Hkeep Hbip Hp Hfirst H. unfold flush_stripe in H.
  destruct (stripe_ready _ range_start range_start p t None)
    as [range_full fp] eqn:Hready.
  destruct range_full; cbn [negb] in H;
    [|inversion H; subst; apply writes_within_refl].
  apply bind_Ret_inv in H.
  destruct H as ([[[t1 iov] fl] pp] & Hbuild & H).
  inv_bind H.
  pose proof (stripe_build_spec asserts_on
                (fun x => 0 <= x
                   < Z.of_nat (Z.to_nat (range_end - range_start))
                     * blocks_in_piece p)
                range_start p _ Hkeep ltac:(lia) _ _ _ _ _ _ _ _ _ _ Hbuild)
    as (Hw1 & Hs1 & Hshape & Hzero & HQ).
  destruct (Z.of_nat (List.length iov) =? 0) eqn:Hlen.
  { inv_bind H. inversion H; subst. exists [].
    split; [rewrite Hw1; now rewrite app_nil_r | constructor]. }
  assert (Hn : Z.to_nat (range_end - range_start) <> O).
  { intros E. rewrite (Hzero E) in Hlen. discriminate. }
  destruct (stripe_ready_first range_start p t _ Hp range_start None fp
              (conj eq_refl Hn) Hready) as (q & -> & Hq).
  apply bind_Ret_inv in H. destruct H as ([t2 e2] & Hf & H).
  apply bind_Ret_inv in H. destruct H as (t3 & Hsf & H).
  inversion H; subst n t'; clear H.
  apply flush_iovec_spec in Hf. destruct Hf as (_ & _ & calls & Hw2 & Hall).
  apply stripe_flushed_writes in Hsf.
  exists calls. split.
  { rewrite evict_after_flush_writes, Hsf, Hw2, Hw1. reflexivity. }
  specialize (HQ (Forall_nil _) ltac:(intros x Hx; lia)).
  destruct (find_piece_key _ _ _ _ Hq) as [Kq1 Kq2].
  assert (Hderef : storage (deref t1 q) = storage p
                   /\ piece (deref t1 q) = range_start
                   /\ blocks_in_piece p <= blocks_in_piece (deref t1 q)).
  { unfold deref.
    destruct (find_piece (m_disk_cache t1) (storage q) (piece q))
      as [q'|] eqn:Hq'.
    - destruct (find_piece_key _ _ _ _ Hq') as [K1 K2].
      destruct (Hshape _ _ _ Hq') as (q0 & Hq0 & Hb).
      rewrite Kq1, Kq2, Hq in Hq0. inversion Hq0; subst q0.
      split; [congruence|]. split; [congruence|].
      rewrite Hb. apply Hfirst, Hq.
    - split; [exact Kq1|]. split; [exact Kq2|]. apply Hfirst, Hq. }
  destruct Hderef as (Hd1 & Hd2 & Hd3).
  eapply Forall_impl; [|exact Hall].
  intros call (Hst & k & Hk). split; [congruence|].
  rewrite Hd2 in Hk.
  assert (Hpos : 0 < Z.of_nat (Z.to_nat (range_end - range_start))) by lia.
  assert (H0 : 0 <= 0 < Z.of_nat (Z.to_nat (range_end - range_start))
                        * blocks_in_piece p) by nia.
  pose proof (at_index_Forall _ fl k H0 HQ) as Hx.
  pose proof (quot_in_stripe _ _ _ _ Hbip Hd3 Hx) as Hquot.
  lia.
Qed.

Lemma flush_stripe_release {D : collaborators} (p : cached_piece_entry)
    (range_start range_end : Z) (t : disk_io_thread) :
  exists r, flush_stripe false p range_start range_end t = Ret r.
Proof.
  unfold flush_stripe.
  destruct (stripe_ready _ range_start range_start p t None)
    as [range_full fp].
  destruct range_full; cbn [negb]; [|eexists; reflexivity].
  match goal with
  | |- context [stripe_build false ?n ?i ?rs ?bs ?pp ?t0 ?io ?fl ?per] =>
      destruct (stripe_build_release rs pp n i bs t0 io fl per)
        as ([[[t1 iov] fl1] per1] & ->)
  end.
  cbn [bind]. rewrite bind_assert_release.
  destruct (_ =? 0); [rewrite bind_assert_release; eexists; reflexivity|].
  match goal with
  | |- context [flush_iovec false ?pe ?io ?f ?n ?e ?t0] =>
      destruct (flush_iovec_release pe io f n e t0) as ([t2 e2] & ->)
  end.
  cbn [bind].
  match goal with
  | |- context [stripe_flushed false ?per ?i ?rs ?bs ?pp ?e ?t0] =>
      destruct (stripe_flushed_release rs pp e per i bs t0) as (t3 & ->)
  end.
  eexists. reflexivity.
Qed.


(** ** [try_flush_hashed] *)

(** [cont_pieces = cont_block / p->blocks_in_piece] *)
Definition cont_pieces_of (p : cached_piece_entry) (cont_block : Z) : Z :=
  Z.quot cont_block (blocks_in_piece p).

(** The three ways out of [try_flush_hashed]: nothing to do yet, the blocks
    of the piece alone, the stripe. *)
Lemma try_flush_hashed_paths {D : collaborators} (asserts_on : bool)
    (p : cached_piece_entry) (cont_block : Z) (t : disk_io_thread) :
  0 < cont_block ->
  try_flush_hashed asserts_on p cont_block t = Ret (0, t)
  \/ (((cont_pieces_of p cont_block <=? 1)
       || allow_partial_disk_writes (m_settings t) = true)
      /\ exists end_,
           try_flush_hashed asserts_on p cont_block t
           = flush_range asserts_on p 0 end_ t)
  \/ (((cont_pieces_of p cont_block <=? 1)
       || allow_partial_disk_writes (m_settings t) = false)
      /\ try_flush_hashed asserts_on p cont_block t
         = flush_stripe asserts_on p
             (range_start_of p (cont_pieces_of p cont_block))
             (range_end_of p (cont_pieces_of p cont_block)) t).
Proof.
  intros Hcb. unfold try_flush_hashed, cont_pieces_of.
  rewrite bind_assert_holds by (intros _; apply Z.gtb_lt; exact Hcb).
  destruct (match hash p with None => true | Some _ => false end
            && negb (hashing_done p)); [now left|].
  destruct (num_dirty p =? 0); [now left|].
  destruct ((_ =? 0) && negb (need_readback p)); [now left|].
  destruct (_ >? _); [now left|].
  destruct ((Z.quot cont_block (blocks_in_piece p) <=? 1)
            || allow_partial_disk_writes (m_settings t)) eqn:E.
  - right. left. split; [reflexivity|]. eexists. reflexivity.
  - right. right. split; reflexivity.
Qed.

Lemma cont_pieces_small (b cont_block : Z) :
  0 < b -> 0 < cont_block -> cont_block <= b -> Z.quot cont_block b <= 1.
Proof.
  intros Hb Hcb Hle. rewrite Z.quot_div_nonneg by lia.
  apply Z.div_le_upper_bound; lia.
Qed.

Lemma cont_pieces_large (b cont_block : Z) :
  0 < b -> b < cont_block -> 1 <= Z.quot cont_block b.
Proof.
  intros Hb Hlt. rewrite Z.quot_div_nonneg by lia.
  apply Z.div_le_lower_bound; lia.
Qed.

(** C2: with [cont_block] larger than the piece and partial writes off,
    whatever [try_flush_hashed] writes goes to pieces of the range
    [[range_start, range_start + cont_pieces)], cut at the number of pieces
    of the torrent, and nothing is written when a piece of that range is
    not in the cache; in every other case it is done without writing or it
    is [flush_range] on the piece, which writes that piece alone.  Without
    assertions the function always returns. *)
Theorem try_flush_hashed_pieces {D : collaborators} (asserts_on : bool)
    (p : cached_piece_entry) (cont_block : Z) (t : disk_io_thread) :
  keeps_identity ->
  0 < cont_block ->
  0 < blocks_in_piece p ->
  0 <= piece p < num_pieces (storage p) ->
  find_piece (m_disk_cache t) (storage p) (piece p) = Some p ->
  (forall q,
     find_piece (m_disk_cache t) (storage p)
       (range_start_of p (cont_pieces_of p cont_block)) = Some q ->
     blocks_in_piece p <= blocks_in_piece q) ->
  (exists r, try_flush_hashed false p cont_block t = Ret r)
  /\ (blocks_in_piece p < cont_block ->
      allow_partial_disk_writes (m_settings t) = false ->
      range_start_of p (cont_pieces_of p cont_block)
      = Z.quot (piece p) (cont_pieces_of p cont_block)
        * cont_pieces_of p cont_block
      /\ range_end_of p (cont_pieces_of p cont_block)
         = Z.min (range_start_of p (cont_pieces_of p cont_block)
                  + cont_pieces_of p cont_block)
             (num_pieces (storage p))
      /\ (forall n t',
            try_flush_hashed asserts_on p cont_block t = Ret (n, t') ->
            writes_within (storage p)
              (range_start_of p (cont_pieces_of p cont_block))
              (range_end_of p (cont_pieces_of p cont_block)) t t')
      /\ (forall i,
            range_start_of p (cont_pieces_of p cont_block) <= i
            < range_end_of p (cont_pieces_of p cont_block) ->
            find_piece (m_disk_cache t) (storage p) i = None ->
            try_flush_hashed asserts_on p cont_block t = Ret (0, t)))
  /\ (cont_block <= blocks_in_piece p
      \/ allow_partial_disk_writes (m_settings t) = true ->
      (try_flush_hashed asserts_on p cont_block t = Ret (0, t)
       \/ exists end_,
            try_flush_hashed asserts_on p cont_block t
            = flush_range asserts_on p 0 end_ t)
      /\ forall n t',
           try_flush_hashed asserts_on p cont_block t = Ret (n, t') ->
           writes_within (storage p) (piece p) (piece p + 1) t t').
Proof.
  intros Hkeep Hcb Hbip Hpiece Hp Hfirst.
  split; [|split].
  - destruct (try_flush_hashed_paths false p cont_block t Hcb)
      as [-> | [(_ & end_ & ->) | (_ & ->)]].
    + eexists. reflexivity.
    + apply flush_range_release.
    + apply flush_stripe_release.
  - intros Hlarge Hallow.
    pose proof (cont_pieces_large _ _ Hbip Hlarge) as Hcp.
    fold (cont_pieces_of p cont_block) in Hcp.
    split; [reflexivity|]. split; [reflexivity|].
    destruct (try_flush_hashed_paths asserts_on p cont_block t Hcb)
      as [E | [(Hc & end_ & E) | (Hc & E)]]; rewrite E.
    + split.
      * intros n t' H. inversion H; subst. apply writes_within_refl.
      * reflexivity.
    + rewrite Hallow, orb_false_r in Hc. apply Z.leb_le in Hc.
      assert (Hone : cont_pieces_of p cont_block = 1) by lia.
      assert (Hrs : range_start_of p (cont_pieces_of p cont_block) = piece p).
      { unfold range_start_of. rewrite Hone, Z.quot_1_r. lia. }
      assert (Hre : range_end_of p (cont_pieces_of p cont_block)
                    = piece p + 1).
      { unfold range_end_of. rewrite Hrs, Hone. lia. }
      rewrite Hrs, Hre. split.
      * intros n t' H.
        apply (flush_range_spec asserts_on p 0 end_ t t' n Hkeep
                 ltac:(lia) Hbip H).
      * intros i Hi Hnone. assert (i = piece p) by lia. subst i.
        rewrite Hp in Hnone. discriminate.
    + split.
      * intros n t' H.
        apply (flush_stripe_spec asserts_on p _ _ t t' n Hkeep Hbip Hp
                 Hfirst H).
      * intros i Hi Hnone.
        assert (Hne : i <> piece p).
        { intros ->. rewrite Hp in Hnone. discriminate. }
        unfold flush_stripe.
        pose proof (stripe_ready_missing
                      (range_start_of p (cont_pieces_of p cont_block)) p t i
                      (Z.to_nat (range_end_of p (cont_pieces_of p cont_block)
                                 - range_start_of p
                                     (cont_pieces_of p cont_block)))
                      Hne Hnone
                      (range_start_of p (cont_pieces_of p cont_block)) None
                      ltac:(lia)) as Hmiss.
        destruct (stripe_ready _ _ _ p t None) as [range_full fp].
        cbn [fst] in Hmiss. subst range_full. reflexivity.
  - intros Hsmall.
    assert (Hpath :
      try_flush_hashed asserts_on p cont_block t = Ret (0, t)
      \/ exists end_,
           try_flush_hashed asserts_on p cont_block t
           = flush_range asserts_on p 0 end_ t).
    { destruct (try_flush_hashed_paths asserts_on p cont_block t Hcb)
        as [E | [(Hc & end_ & E) | (Hc & E)]].
      - now left.
      - right. exists end_. exact E.
      - apply orb_false_iff in Hc. destruct Hc as [Hc Ha].
        apply Z.leb_gt in Hc. destruct Hsmall as [Hle | Hs]; [|congruence].
        pose proof (cont_pieces_small _ _ Hbip Hcb Hle).
        unfold cont_pieces_of in Hc. lia. }
    split; [exact Hpath|].
    intros n t' H. destruct Hpath as [E | (end_ & E)]; rewrite E in H.
    + inversion H; subst. apply writes_within_refl.
    + apply (flush_range_spec asserts_on p 0 end_ t t' n Hkeep
               ltac:(lia) Hbip H).
Qed.

End DiskFacts.

(** * Runs of the disk I/O thread

    The thread on the cache, the fence and the backend of [DiskModel], on
    torrents of four pieces of four blocks. *)

Module DiskRuns.

Import Disk DiskModel DiskFacts.
Local Open Scope string_scope.
Local Open Scope Z_scope.

(** A backend that writes, and one whose [writev] fails with the error
    code 5. *)
Definition working : collaborators := backend 0 4.
Definition failing : collaborators := backend 5 4.

Definition dirty_block (data : string) : cached_block_entry :=
  mk_block (Some data) 0 true false.

Definition no_block : cached_block_entry := mk_block None 0 false false.

(** A write job for the first block of the piece [i] of the storage 0. *)
Definition write_job (id i : Z) : disk_io_job :=
  mk_disk_io_job id write (Some 0) i 0 16384 true false false 0 0.

(** The piece [i] with all four blocks dirty and hashed. *)
Definition full_piece (i : Z) : cached_piece_entry :=
  mk_piece 0 i
    [dirty_block "a"; dirty_block "b"; dirty_block "c"; dirty_block "d"]
    4 4 None true false false write_lru 0 0 [].

(** The piece 0 with one dirty block and the write job that hangs on it;
    the piece is due for a read-back. *)
Definition one_block_piece : cached_piece_entry :=
  mk_piece 0 0 [dirty_block "a"; no_block; no_block; no_block]
    4 1 None false false true write_lru 0 0 [write_job 7 0].

Definition thread_with {D : collaborators} (f : fence_t)
    (ps : list cached_piece_entry) : disk_io_thread :=
  mk_thread (mk_block_cache ps 16384) (mk_settings false false)
    [] [] [] 0 1 (fun _ => f) [] [] 0.

Definition thread_after {D : collaborators} (A : Type)
    (o : outcome (A * disk_io_thread)) : option disk_io_thread :=
  match o with
  | Ret (_, t) => Some t
  | AssertionFailed => None
  end.

Definition block_after {D : collaborators} (i k : Z)
    (t : option disk_io_thread) : option cached_block_entry :=
  match t with
  | Some t =>
      match find_piece (m_disk_cache t) 0 i with
      | Some pe => block_at pe k
      | None => None
      end
  | None => None
  end.

Definition written {D : collaborators} (t : option disk_io_thread)
  : list writev_call :=
  match t with
  | Some t => writes t
  | None => []
  end.

Definition results {D : collaborators} (t : option disk_io_thread)
  : list (Z * Z * Z) :=
  match t with
  | Some t => map (fun j => (job_id j, ret j, error j)) (m_completed_jobs t)
  | None => []
  end.

(** ** A write that fails *)

Definition failed_flush : option (@disk_io_thread failing) :=
  thread_after Z
    (flush_range (D := failing) true one_block_piece 0 4
       (thread_with (D := failing) (mk_fence 0 1 []) [one_block_piece])).

(** The first block of the piece is written, [writev] fails, and the block
    is left with its buffer, not pending and not dirty; the job is
    completed with the error. *)
Example failed_write_not_dirty :
  written failed_flush = [mk_writev 0 [("a", 16384)] 0 0]
  /\ results failed_flush = [(7, -1, 5)]
  /\ block_after 0 0 failed_flush = Some (mk_block (Some "a") 0 false false).
Proof. vm_compute. repeat split. Qed.

Lemma iovec_flushed_failed_write_witness :
  5 <> 0
  /\ (exists t',
        iovec_flushed (D := failing) false one_block_piece [0] 0 5
          (thread_with (D := failing) (mk_fence 0 1 []) [one_block_piece])
        = Ret (set_jobs [] (flushed_piece (D := failing) one_block_piece [0] 0), t'))
  /\ (forall asserts_on pe' t',
        iovec_flushed (D := failing) asserts_on one_block_piece [0] 0 5
          (thread_with (D := failing) (mk_fence 0 1 []) [one_block_piece])
        = Ret (pe', t') ->
        pe' = set_jobs [] (flushed_piece (D := failing) one_block_piece [0] 0)
        /\ m_disk_cache t'
           = store_piece pe'
               (m_disk_cache
                  (thread_with (D := failing) (mk_fence 0 1 [])
                     [one_block_piece]))
        /\ exists done,
             m_completed_jobs t'
             = (m_completed_jobs
                  (thread_with (D := failing) (mk_fence 0 1 [])
                     [one_block_piece]) ++ done)%list
             /\ finished_as (-1) 5
                  (jobs (flushed_piece (D := failing) one_block_piece [0] 0))
                  done)
  /\ (forall asserts_on pe0 t0,
        iovec_flushed (D := failing) asserts_on one_block_piece [0] 0 0
          (thread_with (D := failing) (mk_fence 0 1 []) [one_block_piece])
        = Ret (pe0, t0) ->
        blocks pe0
        = blocks (flushed_piece (D := failing) one_block_piece [0] 0)).
Proof.
  assert (H : 5 <> 0) by lia.
  split; [exact H|].
  exact (iovec_flushed_failed_write (D := failing) one_block_piece [0] 0 5
           (thread_with (D := failing) (mk_fence 0 1 []) [one_block_piece]) H).
Defined.

(** ** A fence *)

Definition fence_job : disk_io_job :=
  mk_disk_io_job 9 clear_piece (Some 0) 0 0 0 false false false 0 0.

Definition idle : @disk_io_thread working :=
  thread_with (D := working) (mk_fence 0 0 []) [full_piece 0].

Definition busy : @disk_io_thread working :=
  thread_with (D := working) (mk_fence 0 2 []) [full_piece 0].

Lemma add_fence_job_queues_witness :
  raise_fence (collaborators := working) fence_job
    (flush_job_for (D := working) fence_job idle) (fences idle 0)
    (m_num_blocked_jobs idle)
  = (fence_post_fence,
     with_flags true true false fence_job,
     flush_job_for (D := working) fence_job idle,
     mk_fence 1 1 [], 0)
  /\ (true = true ->
      0 < m_num_threads idle
      /\ fence_contract fence_post_fence
           (with_flags true true false fence_job)
           (flush_job_for (D := working) fence_job idle))
  /\ exists t' : @disk_io_thread working,
       add_fence_job (D := working) true 0 fence_job idle = Ret t'
       /\ (fence_post_fence = fence_post_fence ->
           m_queued_jobs t'
           = with_flags true true false fence_job :: m_queued_jobs idle
           /\ ~ In (job_id (flush_job_for (D := working) fence_job idle))
                  (m_jobs_in_use t'))
       /\ (fence_post_fence = fence_post_flush ->
           m_queued_jobs t'
           = flush_job_for (D := working) fence_job idle :: m_queued_jobs idle
           /\ m_jobs_in_use t' = m_next_job idle :: m_jobs_in_use idle)
       /\ (fence_post_fence = fence_post_none ->
           m_queued_jobs t' = m_queued_jobs idle)
       /\ fences t' 0 = mk_fence 1 1 []
       /\ m_num_blocked_jobs t' = 0.
Proof.
  assert (Hraise :
    raise_fence (collaborators := working) fence_job
      (flush_job_for (D := working) fence_job idle) (fences idle 0)
      (m_num_blocked_jobs idle)
    = (fence_post_fence,
       with_flags true true false fence_job,
       flush_job_for (D := working) fence_job idle,
       mk_fence 1 1 [], 0)) by reflexivity.
  assert (Hcontract :
    true = true ->
    0 < m_num_threads idle
    /\ fence_contract fence_post_fence
         (with_flags true true false fence_job)
         (flush_job_for (D := working) fence_job idle)).
  { intros _. split; [reflexivity | reflexivity]. }
  split; [exact Hraise|]. split; [exact Hcontract|].
  exact (add_fence_job_queues (D := working) true 0 fence_job idle
           fence_post_fence _ _ _ _ Hraise Hcontract).
Defined.

(** With jobs outstanding on the storage the flush job is queued and the
    fence job waits at the fence. *)
Example fence_job_waits :
  match add_fence_job (D := working) true 0 fence_job busy with
  | Ret t' =>
      map job_id (m_queued_jobs t') = [0]
      /\ map action (m_queued_jobs t') = [flush_storage]
      /\ map job_id (m_blocked_jobs (fences t' 0)) = [9]
      /\ m_num_blocked_jobs t' = 1
  | AssertionFailed => False
  end.
Proof. vm_compute. repeat split. Qed.

(** ** [clear_piece] *)

(** The piece 0, held by a reference. *)
Definition pinned_piece : cached_piece_entry :=
  mk_piece 0 0 [dirty_block "a"; no_block; no_block; no_block]
    4 1 None false false false write_lru 1 0 [write_job 7 0].

Definition pinned : @disk_io_thread working :=
  thread_with (D := working) (mk_fence 1 1 []) [pinned_piece].

(** A piece that cannot be evicted: with assertions the job does not
    return, without them it returns [retry_job]. *)
Example clear_piece_asserts :
  find_piece_of (m_disk_cache pinned) fence_job = Some pinned_piece
  /\ fst (fst (evict_piece (collaborators := working) (clear_hash pinned_piece)
                 (store_piece (clear_hash pinned_piece) (m_disk_cache pinned))))
     = false
  /\ do_clear_piece (D := working) true fence_job pinned = AssertionFailed
  /\ do_clear_piece (D := working) false fence_job pinned
     = Ret (-201, pinned).
Proof. vm_compute. repeat split. Qed.

(** A piece that can be evicted: the job returns 0, the piece is gone and
    the write job that hung on it is completed as aborted. *)
Example clear_piece_evicts :
  (let t := thread_after Z
              (do_clear_piece (D := working) true fence_job
                 (thread_with (D := working) (mk_fence 1 1 [])
                    [one_block_piece])) in
   results t = [(7, -1, 125)] /\ block_after 0 0 t = None)
  /\ match do_clear_piece (D := working) true fence_job
             (thread_with (D := working) (mk_fence 1 1 []) [one_block_piece])
     with
     | Ret (r, _) => r = 0
     | AssertionFailed => False
     end.
Proof. vm_compute. repeat split. Qed.

(** ** A stripe of two pieces *)

#[local] Existing Instance working.

Lemma model_keeps_identity (ec pieces_ : Z) :
  keeps_identity (D := backend ec pieces_).
Proof.
  intros pe i. unfold same_identity. cbn [inc_block_refcount backend].
  unfold inc_block_refcount_model, update_block.
  destruct (i <? 0); repeat split.
Qed.

Definition two_pieces : @disk_io_thread working :=
  thread_with (D := working) (mk_fence 0 2 []) [full_piece 0; full_piece 1].

(** [cont_block] is twice the blocks of a piece: the two pieces are
    written by one call of [writev], which starts at the piece 0. *)
Example stripe_of_two_pieces :
  written
    (thread_after Z
       (try_flush_hashed (D := working) true (full_piece 1) 8 two_pieces))
  = [mk_writev 0
       [("a", 16384); ("b", 16384); ("c", 16384); ("d", 16384);
        ("a", 16384); ("b", 16384); ("c", 16384); ("d", 16384)] 0 0].
Proof. vm_compute. reflexivity. Qed.

(** Without the piece 0 in the cache nothing is written. *)
Example stripe_with_a_piece_missing :
  try_flush_hashed (D := working) true (full_piece 1) 8
    (thread_with (D := working) (mk_fence 0 2 []) [full_piece 1])
  = Ret (0, thread_with (D := working) (mk_fence 0 2 []) [full_piece 1]).
Proof. vm_compute. reflexivity. Qed.

Lemma try_flush_hashed_pieces_witness :
  keeps_identity (D := working)
  /\ 0 < 8
  /\ 0 < blocks_in_piece (full_piece 1)
  /\ 0 <= piece (full_piece 1) < num_pieces (storage (full_piece 1))
  /\ find_piece (m_disk_cache two_pieces) (storage (full_piece 1))
       (piece (full_piece 1)) = Some (full_piece 1)
  /\ (forall q,
        find_piece (m_disk_cache two_pieces) (storage (full_piece 1))
          (range_start_of (full_piece 1) (cont_pieces_of (full_piece 1) 8))
        = Some q ->
        blocks_in_piece (full_piece 1) <= blocks_in_piece q)
  /\ (exists r,
        try_flush_hashed (D := working) false (full_piece 1) 8 two_pieces
        = Ret r)
  /\ (blocks_in_piece (full_piece 1) < 8 ->
      allow_partial_disk_writes (m_settings two_pieces) = false ->
      range_start_of (full_piece 1) (cont_pieces_of (full_piece 1) 8)
      = Z.quot (piece (full_piece 1)) (cont_pieces_of (full_piece 1) 8)
        * cont_pieces_of (full_piece 1) 8
      /\ range_end_of (full_piece 1) (cont_pieces_of (full_piece 1) 8)
         = Z.min (range_start_of (full_piece 1)
                    (cont_pieces_of (full_piece 1) 8)
                  + cont_pieces_of (full_piece 1) 8)
             (num_pieces (storage (full_piece 1)))
      /\ (forall n t',
            try_flush_hashed (D := working) true (full_piece 1) 8 two_pieces
            = Ret (n, t') ->
            writes_within (storage (full_piece 1))
              (range_start_of (full_piece 1)
                 (cont_pieces_of (full_piece 1) 8))
              (range_end_of (full_piece 1)
                 (cont_pieces_of (full_piece 1) 8)) two_pieces t')
      /\ (forall i,
            range_start_of (full_piece 1) (cont_pieces_of (full_piece 1) 8)
            <= i
            < range_end_of (full_piece 1) (cont_pieces_of (full_piece 1) 8) ->
            find_piece (m_disk_cache two_pieces) (storage (full_piece 1)) i
            = None ->
            try_flush_hashed (D := working) true (full_piece 1) 8 two_pieces
            = Ret (0, two_pieces)))
  /\ (8 <= blocks_in_piece (full_piece 1)
      \/ allow_partial_disk_writes (m_settings two_pieces) = true ->
      (try_flush_hashed (D := working) true (full_piece 1) 8 two_pieces
       = Ret (0, two_pieces)
       \/ exists end_,
            try_flush_hashed (D := working) true (full_piece 1) 8 two_pieces
            = flush_range (D := working) true (full_piece 1) 0 end_
                two_pieces)
      /\ forall n t',
           try_flush_hashed (D := working) true (full_piece 1) 8 two_pieces
           = Ret (n, t') ->
           writes_within (storage (full_piece 1)) (piece (full_piece 1))
             (piece (full_piece 1) + 1) two_pieces t').
Proof.
  assert (H1 : keeps_identity (D := working))
    by apply model_keeps_identity.
  assert (H2 : 0 < 8) by lia.
  assert (H3 : 0 < blocks_in_piece (full_piece 1)) by (cbn; lia).
  assert (H4 : 0 <= piece (full_piece 1)
               < num_pieces (storage (full_piece 1))) by (cbn; lia).
  assert (H5 : find_piece (m_disk_cache two_pieces) (storage (full_piece 1))
                 (piece (full_piece 1)) = Some (full_piece 1))
    by reflexivity.
  assert (H6 : forall q,
             find_piece (m_disk_cache two_pieces) (storage (full_piece 1))
               (range_start_of (full_piece 1)
                  (cont_pieces_of (full_piece 1) 8)) = Some q ->
             blocks_in_piece (full_piece 1) <= blocks_in_piece q).
  { intros q Hq. vm_compute in Hq. inversion Hq; subst q. cbn. lia. }
  split; [exact H1|]. split; [exact H2|]. split; [exact H3|].
  split; [exact H4|]. split; [exact H5|]. split; [exact H6|].
  exact (try_flush_hashed_pieces (D := working) true (full_piece 1) 8
           two_pieces H1 H2 H3 H4 H5 H6).
Defined.

End DiskRuns.

(** * More facts about the alert manager *)

Module AlertLaws.

Import Alert AlertWait.

Lemma counter_as_size_t (x : Z) : 0 <= x <= INT_MAX -> to_size_t x = x.
Proof.
  intros H. unfold to_size_t. apply Z.mod_small.
  unfold INT_MAX in H. lia.
Qed.

Lemma get_all_drained (alert : Type) (asserts_on : bool) (mask limit : Z)
    (alerts : list alert) :
  get_all asserts_on (mk_alert_manager [] mask limit 0) alerts
  = Ret (mk_alert_manager [] mask limit 0, [], 0).
Proof.
  unfold get_all. rewrite TORRENT_ASSERT_holds by reflexivity. reflexivity.
Qed.

(** X5.  After one [get_all] nothing is left: a second [get_all] hands out
    no alert and reports no resume-data alert, and leaves the manager as it
    is.  The invariant that [get_all] asserts is kept by the call. *)
Theorem get_all_twice (alert : Type) (asserts_on : bool)
    (m : alert_manager alert) (alerts alerts' : list alert) :
  counts_queued m ->
  exists m1 : alert_manager alert,
    get_all asserts_on m alerts = Ret (m1, m_alerts m, m_num_queued_resume m)
    /\ counts_queued m1
    /\ m_queue_size_limit m1 = m_queue_size_limit m
    /\ m_alert_mask m1 = m_alert_mask m
    /\ get_all asserts_on m1 alerts' = Ret (m1, [], 0).
Proof.
  intros [[Hlo Hhi] Hmax].
  unfold get_all at 1.
  rewrite TORRENT_ASSERT_holds.
  2:{ rewrite counter_as_size_t by lia. now apply Z.leb_le. }
  cbn [bind].
  destruct m as [q mask limit n]; cbn [m_alerts m_num_queued_resume
    m_alert_mask m_queue_size_limit] in *.
  destruct q as [|a q]; cbn [empty].
  - unfold size in Hhi. cbn in Hhi. assert (n = 0) by lia. subst n.
    exists (mk_alert_manager [] mask limit 0).
    split; [reflexivity|]. split.
    { unfold counts_queued, size, INT_MAX. cbn. lia. }
    split; [reflexivity|]. split; [reflexivity|]. apply get_all_drained.
  - exists (mk_alert_manager [] mask limit 0).
    split; [reflexivity|]. split.
    { unfold counts_queued, size, INT_MAX. cbn. lia. }
    split; [reflexivity|]. split; [reflexivity|]. apply get_all_drained.
Qed.

Lemma get_all_twice_witness :
  counts_queued (mk_alert_manager [7%nat; 8%nat; 9%nat] 0 1000 2)
  /\ exists m1 : alert_manager nat,
       get_all true (mk_alert_manager [7%nat; 8%nat; 9%nat] 0 1000 2) [1%nat]
       = Ret (m1, m_alerts (mk_alert_manager [7%nat; 8%nat; 9%nat] 0 1000 2),
              m_num_queued_resume
                (mk_alert_manager [7%nat; 8%nat; 9%nat] 0 1000 2))
       /\ counts_queued m1
       /\ m_queue_size_limit m1
          = m_queue_size_limit (mk_alert_manager [7%nat; 8%nat; 9%nat] 0 1000 2)
       /\ m_alert_mask m1
          = m_alert_mask (mk_alert_manager [7%nat; 8%nat; 9%nat] 0 1000 2)
       /\ get_all true m1 [5%nat] = Ret (m1, [], 0).
Proof.
  assert (H : counts_queued (mk_alert_manager [7%nat; 8%nat; 9%nat] 0 1000 2)).
  { unfold counts_queued, size, INT_MAX; cbn. lia. }
  split; [exact H|].
  exact (get_all_twice nat true
           (mk_alert_manager [7%nat; 8%nat; 9%nat] 0 1000 2)
           [1%nat] [5%nat] H).
Defined.

(** X6.  [wait_for_alert], [pending] and [get_all] agree on the queue:
    when no alert arrives during the wait, [wait_for_alert] returns [NULL]
    exactly when [pending] is false, the alert it returns is the first one
    that [get_all] hands out, and it stays in the queue.  A manager that
    was just constructed has nothing pending. *)
Theorem wait_for_alert_shows_first (alert : Type) (asserts_on : bool)
    (m : alert_manager alert) (alerts : list alert) :
  counts_queued m ->
  (wait_for_alert m m = None <-> pending m = false)
  /\ (forall a, wait_for_alert m m = Some a ->
        exists m1 rest,
          get_all asserts_on m alerts = Ret (m1, a :: rest, m_num_queued_resume m)
          /\ m_alerts m = a :: rest)
  /\ (forall woken a, wait_for_alert m woken = Some a ->
        In a (m_alerts m) \/ (pending m = false /\ front (m_alerts woken) = Some a))
  /\ forall limit mask,
       pending (@new_alert_manager alert limit mask) = false
       /\ counts_queued (@new_alert_manager alert limit mask).
Proof.
  intros [[Hlo Hhi] Hmax].
  split; [|split; [|split]].
  - unfold wait_for_alert, pending.
    destruct (m_alerts m) as [|a q]; cbn; split; intros H;
      try reflexivity; discriminate.
  - intros a H. unfold wait_for_alert in H.
    destruct (m_alerts m) as [|b q] eqn:Hq; cbn in H; [discriminate|].
    inversion H; subst b.
    unfold get_all. rewrite TORRENT_ASSERT_holds.
    2:{ rewrite counter_as_size_t by lia. apply Z.leb_le.
        rewrite Hq. exact Hhi. }
    cbn [bind]. rewrite Hq. cbn [empty].
    do 2 eexists. split; reflexivity.
  - intros woken a H. unfold wait_for_alert, pending in *.
    destruct (m_alerts m) as [|b q]; cbn in *.
    + right. split; [reflexivity|].
      destruct (m_alerts woken); cbn in *; [discriminate | exact H].
    + left. inversion H. now left.
  - intros limit mask. split; [reflexivity|].
    unfold counts_queued, new_alert_manager, size, INT_MAX. cbn. lia.
Qed.

Lemma wait_for_alert_shows_first_witness :
  counts_queued (mk_alert_manager [7%nat; 8%nat] 0 1000 1)
  /\ (wait_for_alert (mk_alert_manager [7%nat; 8%nat] 0 1000 1)
        (mk_alert_manager [7%nat; 8%nat] 0 1000 1) = None
      <-> pending (mk_alert_manager [7%nat; 8%nat] 0 1000 1) = false)
  /\ (forall a,
        wait_for_alert (mk_alert_manager [7%nat; 8%nat] 0 1000 1)
          (mk_alert_manager [7%nat; 8%nat] 0 1000 1) = Some a ->
        exists m1 rest,
          get_all true (mk_alert_manager [7%nat; 8%nat] 0 1000 1) [3%nat]
          = Ret (m1, a :: rest,
                 m_num_queued_resume (mk_alert_manager [7%nat; 8%nat] 0 1000 1))
          /\ m_alerts (mk_alert_manager [7%nat; 8%nat] 0 1000 1) = a :: rest)
  /\ (forall woken a,
        wait_for_alert (mk_alert_manager [7%nat; 8%nat] 0 1000 1) woken
        = Some a ->
        In a (m_alerts (mk_alert_manager [7%nat; 8%nat] 0 1000 1))
        \/ (pending (mk_alert_manager [7%nat; 8%nat] 0 1000 1) = false
            /\ front (m_alerts woken) = Some a))
  /\ forall limit mask,
       pending (@new_alert_manager nat limit mask) = false
       /\ counts_queued (@new_alert_manager nat limit mask).
Proof.
  assert (H : counts_queued (mk_alert_manager [7%nat; 8%nat] 0 1000 1)).
  { unfold counts_queued, size, INT_MAX; cbn. lia. }
  split; [exact H|].
  exact (wait_for_alert_shows_first nat true
           (mk_alert_manager [7%nat; 8%nat] 0 1000 1) [3%nat] H).
Defined.

End AlertLaws.

(** * More facts about the DHT node *)

Module DhtLaws.

Import Dht DhtFacts.
Local Open Scope string_scope.
Local Open Scope Z_scope.

(** ** What [verify_message] lets through *)

Lemma type_t_eqb_eq (a b : type_t) : type_t_eqb a b = true <-> a = b.
Proof. destruct a, b; cbn; split; intros H; congruence. Qed.

(** The node [r] returned for the key [k], if it is set, has the type that
    [k] asks for ([none_t] asks for none) and, for a string with a size,
    that size or a multiple of it. *)
Definition well_formed (k : key_desc_t) (r : bdecode_node) : Prop :=
  is_set r = true ->
  (type_of k = none_t \/ type r = type_of k)
  /\ (0 < size k -> type_of k = string_t ->
      if size_divisible k then string_length r mod size k = 0
      else string_length r = size k).

Lemma read_key_well_formed (msg : bdecode_node) (k : key_desc_t) :
  well_formed k (read_key msg k).
Proof.
  unfold well_formed, read_key.
  set (r0 := dict_find msg (name k)).
  set (r1 := if is_set r0 && negb (type_t_eqb (type r0) (type_of k))
                && negb (type_t_eqb (type_of k) none_t)
             then None else r0).
  assert (Htype : is_set r1 = true ->
                  type_of k = none_t \/ type r1 = type_of k).
  { unfold r1.
    destruct (is_set r0) eqn:Hr0; cbn [andb]; [|now rewrite Hr0].
    destruct (type_t_eqb (type r0) (type_of k)) eqn:Ht; cbn [negb andb].
    - intros _. right. now apply type_t_eqb_eq.
    - destruct (type_t_eqb (type_of k) none_t) eqn:Hn; cbn [negb].
      + intros _. left. now apply type_t_eqb_eq.
      + discriminate. }
  destruct ((0 <? size k) && is_set r1 && type_t_eqb (type_of k) string_t
            && (if size_divisible k
                then negb (string_length r1 mod size k =? 0)
                else negb (string_length r1 =? size k))) eqn:Hinv;
    [discriminate|].
  intros Hset. split; [exact (Htype Hset)|].
  intros Hsz Hstr. rewrite Hset in Hinv.
  apply Z.ltb_lt in Hsz. rewrite Hsz in Hinv.
  apply type_t_eqb_eq in Hstr. rewrite Hstr in Hinv. cbn [andb] in Hinv.
  destruct (size_divisible k).
  - apply negb_false_iff, Z.eqb_eq in Hinv. exact Hinv.
  - apply negb_false_iff, Z.eqb_eq in Hinv. exact Hinv.
Qed.

Lemma well_formed_None (k : key_desc_t) : well_formed k None.
Proof. intros H. discriminate. Qed.

Lemma verify_keys_well_formed (desc : list key_desc_t) :
  forall (msg : bdecode_node) (stack : list bdecode_node) (skipping : bool)
    (ret : list bdecode_node),
    verify_keys desc msg stack skipping = inl ret ->
    Forall2 well_formed desc ret.
Proof.
  induction desc as [|k desc IH]; intros msg stack skipping ret H.
  - cbn in H. inversion H. constructor.
  - cbn [verify_keys] in H. destruct skipping.
    + destruct (verify_keys desc msg stack (negb (last_child k)))
        as [ret'|] eqn:E; [|discriminate].
      inversion H. constructor; [apply well_formed_None | eapply IH, E].
    + cbv zeta in H.
      pose proof (read_key_well_formed msg k) as Hwf. unfold read_key in Hwf.
      destruct (negb (is_set _) && negb (optional k)); [discriminate|].
      match type of H with
      | (if ?inv && negb (optional k) then _ else _) = _ =>
          destruct inv eqn:Hinv
      end; cbn [andb] in H.
      * destruct (optional k); cbn [negb] in H; [|discriminate].
        destruct (parse_children k).
        -- cbn [is_set] in H.
           destruct (verify_keys desc msg stack (negb (last_child k)))
             as [ret'|] eqn:E; [|discriminate].
           inversion H. constructor; [apply well_formed_None | eapply IH, E].
        -- destruct (last_child k).
           ++ destruct stack as [|s0 [|parent stack']]; try discriminate.
              destruct (verify_keys desc parent (parent :: stack') false)
                as [ret'|] eqn:E; [|discriminate].
              inversion H.
              constructor; [apply well_formed_None | eapply IH, E].
           ++ destruct (verify_keys desc msg stack false)
                as [ret'|] eqn:E; [|discriminate].
              inversion H.
              constructor; [apply well_formed_None | eapply IH, E].
      * destruct (parse_children k).
        -- match type of H with
           | (if is_set ?r then _ else _) = _ => destruct (is_set r) eqn:Hr
           end.
           ++ match type of H with
              | match verify_keys desc ?a ?b ?c with _ => _ end = _ =>
                  destruct (verify_keys desc a b c) as [ret'|] eqn:E;
                    [|discriminate]
              end.
              inversion H. constructor; [exact Hwf | eapply IH, E].
           ++ destruct (verify_keys desc msg stack (negb (last_child k)))
                as [ret'|] eqn:E; [|discriminate].
              inversion H. constructor; [exact Hwf | eapply IH, E].
        -- destruct (last_child k).
           ++ destruct stack as [|s0 [|parent stack']]; try discriminate.
              destruct (verify_keys desc parent (parent :: stack') false)
                as [ret'|] eqn:E; [|discriminate].
              inversion H. constructor; [exact Hwf | eapply IH, E].
           ++ destruct (verify_keys desc msg stack false)
                as [ret'|] eqn:E; [|discriminate].
              inversion H. constructor; [exact Hwf | eapply IH, E].
Qed.

Lemma read_key_found (msg : bdecode_node) (k : key_desc_t) :
  is_set (read_key msg k) = true -> read_key msg k = dict_find msg (name k).
Proof.
  unfold read_key.
  destruct (is_set (dict_find msg (name k))
            && negb (type_t_eqb (type (dict_find msg (name k))) (type_of k))
            && negb (type_t_eqb (type_of k) none_t));
    destruct (_ && _ && _ && _); try discriminate; reflexivity.
Qed.

Lemma verify_keys_required (desc : list key_desc_t) (msg : bdecode_node)
    (stack ret : list bdecode_node) :
  forallb flat desc = true ->
  verify_keys desc msg stack false = inl ret ->
  Forall2 (fun k r => optional k = false -> is_set r = true) desc ret.
Proof.
  revert ret. induction desc as [|k desc IH]; intros ret Hflat H.
  - cbn in H. inversion H. constructor.
  - cbn [forallb] in Hflat. apply andb_true_iff in Hflat.
    destruct Hflat as [Hk Hflat]. unfold flat in Hk.
    apply andb_true_iff in Hk. destruct Hk as [Hpc Hlc].
    apply negb_true_iff in Hpc, Hlc.
    cbn [verify_keys] in H. cbv zeta in H. rewrite Hpc, Hlc in H.
    destruct (negb (is_set _) && negb (optional k)) eqn:Hmiss;
      [discriminate|].
    match type of H with
    | (if ?inv && negb (optional k) then _ else _) = _ =>
        destruct inv eqn:Hinv
    end; cbn [andb] in H.
    + destruct (optional k) eqn:Hopt; cbn [negb] in H; [|discriminate].
      destruct (verify_keys desc msg stack false) as [ret'|] eqn:E;
        [|discriminate].
      inversion H. constructor; [intros Hf; congruence | now apply IH].
    + destruct (verify_keys desc msg stack false) as [ret'|] eqn:E;
        [|discriminate].
      inversion H. constructor; [|now apply IH].
      intros Hopt. rewrite Hopt in Hmiss. cbn [negb] in Hmiss.
      rewrite andb_true_r in Hmiss. now apply negb_false_iff in Hmiss.
Qed.

(** X7.  When [verify_message] succeeds, the message is a dictionary and
    [ret] has one node for each key of the table; every node that is set
    has the type its key asks for and, for a string key with a size, that
    length (or a multiple of it).  For a table without children every key
    that is not optional is set, and a node that is set is the one stored
    in the message under the key's name. *)
Theorem verify_message_sound (message : bdecode_node)
    (desc : list key_desc_t) (ret : list bdecode_node) :
  verify_message message desc = inl ret ->
  type message = dict_t
  /\ List.length ret = List.length desc
  /\ Forall2 well_formed desc ret
  /\ (forallb flat desc = true ->
      Forall2 (fun k r =>
                 (optional k = false -> is_set r = true)
                 /\ (is_set r = true -> r = dict_find message (name k)))
        desc ret).
Proof.
  unfold verify_message. intros H.
  destruct (negb (type_t_eqb (type message) dict_t)) eqn:Ht; [discriminate|].
  apply negb_false_iff, type_t_eqb_eq in Ht.
  pose proof (verify_keys_well_formed _ _ _ _ _ H) as Hwf.
  split; [exact Ht|]. split.
  { symmetry. eapply Forall2_length, Hwf. }
  split; [exact Hwf|].
  intros Hflat.
  pose proof (verify_keys_required _ _ _ _ Hflat H) as Hreq.
  apply verify_keys_flat in H; [|exact Hflat]. subst ret.
  clear Hwf. induction desc as [|k desc IH]; [constructor|].
  cbn [map] in *. inversion Hreq; subst.
  cbn [forallb] in Hflat. apply andb_true_iff in Hflat.
  constructor.
  - split; [assumption | apply read_key_found].
  - apply IH; [apply Hflat | assumption].
Qed.


Definition sample_get_peers : bdecode_node :=
  Some (b_dict [("info_hash", b_string "AAAAAAAAAAAAAAAAAAAA");
                ("noseed", b_int 1);
                ("scrape", b_string "yes")]).

Lemma verify_message_sound_witness :
  verify_message sample_get_peers get_peers_desc
  = inl [Some (b_string "AAAAAAAAAAAAAAAAAAAA"); Some (b_int 1); None]
  /\ type sample_get_peers = dict_t
  /\ List.length [Some (b_string "AAAAAAAAAAAAAAAAAAAA"); Some (b_int 1); None]
     = List.length get_peers_desc
  /\ Forall2 well_formed get_peers_desc
       [Some (b_string "AAAAAAAAAAAAAAAAAAAA"); Some (b_int 1); None]
  /\ (forallb flat get_peers_desc = true ->
      Forall2 (fun k r =>
                 (optional k = false -> is_set r = true)
                 /\ (is_set r = true
                     -> r = dict_find sample_get_peers (name k)))
        get_peers_desc
        [Some (b_string "AAAAAAAAAAAAAAAAAAAA"); Some (b_int 1); None]).
Proof.
  assert (H : verify_message sample_get_peers get_peers_desc
              = inl [Some (b_string "AAAAAAAAAAAAAAAAAAAA"); Some (b_int 1);
                     None]) by (vm_compute; reflexivity).
  split; [exact H|].
  exact (verify_message_sound sample_get_peers get_peers_desc _ H).
Defined.


(** ** [lookup_peers] *)

Import DhtUpkeep.

Lemma find_key_entry_set_same (k : string) (v : entry)
    (d : list (string * entry)) :
  find_key (entry_set k v (entry_dictionary d)) k = Some v.
Proof. cbn. apply map_find_set_same. Qed.

Lemma find_key_entry_set_other (k k0 : string) (v : entry)
    (d : list (string * entry)) :
  k0 <> k ->
  find_key (entry_set k v (entry_dictionary d)) k0 = map_find k0 d.
Proof. intros H. cbn. now apply map_find_set_other. Qed.

(** What the loop of [lookup_peers] adds: compact endpoints of peers of
    the torrent, seeds left out on request, and never more than
    [num - m]. *)
Definition picked_from {C : collaborators} (noseed : bool)
    (ps : list peer_entry) (x : entry) : Prop :=
  exists p : peer_entry,
    In p ps
    /\ x = entry_string (write_endpoint (address_of (pe_addr p))
                           (port (pe_addr p)))
    /\ (noseed = true -> seed p = false).

Lemma pick_peers_spec {C : collaborators} (random : nat -> Z)
    (skip_peer : Z -> Z -> Z -> bool) (noseed : bool) (num : Z)
    (all : list peer_entry) (iter : list peer_entry) :
  forall (t m : Z) (pe : list entry),
    (forall p, In p iter -> In p all) ->
    exists picked,
      pick_peers random skip_peer noseed num iter t m pe
      = (pe ++ picked)%list
      /\ Z.of_nat (List.length picked) <= Z.max 0 (num - m)
      /\ Z.of_nat (List.length picked) <= Z.of_nat (List.length iter)
      /\ Forall (picked_from noseed all) picked.
Proof.
  induction iter as [|p iter IH]; intros t m pe Hsub.
  - exists []. cbn. rewrite app_nil_r. repeat split; try lia. constructor.
  - cbn [pick_peers].
    assert (Hsub' : forall q, In q iter -> In q all).
    { intros q Hq. apply Hsub. now right. }
    assert (Hskip : forall t' pe',
              exists picked,
                pick_peers random skip_peer noseed num iter t' m pe'
                = (pe' ++ picked)%list
                /\ Z.of_nat (List.length picked) <= Z.max 0 (num - m)
                /\ Z.of_nat (List.length picked)
                   <= Z.of_nat (List.length (p :: iter))
                /\ Forall (picked_from noseed all) picked).
    { intros t' pe'. destruct (IH t' m pe' Hsub') as (picked & E & H1 & H2 & H3).
      exists picked. cbn [List.length]. repeat split; try assumption. lia. }
    destruct (m <? num) eqn:Hm; cbn [negb].
    + destruct (skip_peer _ _ _); [apply Hskip|].
      destruct (noseed && seed p) eqn:Hseed; [apply Hskip|].
      destruct (IH (t + 1) (m + 1)
                  (pe ++ [entry_string
                            (write_endpoint (address_of (pe_addr p))
                               (port (pe_addr p)))])%list Hsub')
        as (picked & E & H1 & H2 & H3).
      exists (entry_string (write_endpoint (address_of (pe_addr p))
                              (port (pe_addr p))) :: picked).
      rewrite E, <- app_assoc. cbn [app List.length].
      apply Z.ltb_lt in Hm.
      split; [reflexivity|]. split; [lia|]. split; [lia|].
      constructor; [|exact H3].
      exists p. split; [apply Hsub; now left|]. split; [reflexivity|].
      intros ->. cbn [andb] in Hseed. exact Hseed.
    + exists []. rewrite app_nil_r. cbn. repeat split; try lia. constructor.
Qed.

(** X8.  [lookup_peers] on a reply that is a dictionary: for an info-hash
    that is not in the table the reply is left as it is; no key other than
    [n], [values], [BFpe] and [BFsd] is ever touched; without [scrape] the
    list [values] gets compact endpoints of peers stored for the torrent,
    at most [max_peers_reply] of them and no seed when [noseed] is set;
    with [scrape] only the two filters are added. *)
Theorem lookup_peers_reply {C : collaborators} {F : scrape_filter}
    (random : nat -> Z) (skip_peer : Z -> Z -> Z -> bool)
    (m_map : list (string * torrent_entry)) (max_peers_reply : Z)
    (info_hash : string) (d : list (string * entry)) (noseed scrape : bool) :
  (map_find info_hash m_map = None ->
   lookup_peers_run random skip_peer m_map max_peers_reply info_hash
     (entry_dictionary d) noseed scrape = entry_dictionary d)
  /\ (forall key,
        key <> "n" -> key <> "values" -> key <> "BFpe" -> key <> "BFsd" ->
        find_key
          (lookup_peers_run random skip_peer m_map max_peers_reply info_hash
             (entry_dictionary d) noseed scrape) key
        = map_find key d)
  /\ (forall v,
        map_find info_hash m_map = Some v ->
        scrape = false ->
        map_find "values" d = None ->
        exists picked,
          find_key
            (lookup_peers_run random skip_peer m_map max_peers_reply
               info_hash (entry_dictionary d) noseed scrape) "values"
          = Some (entry_list picked)
          /\ Z.of_nat (List.length picked) <= Z.max 0 max_peers_reply
          /\ Z.of_nat (List.length picked)
             <= Z.of_nat (List.length (peers v))
          /\ Forall (picked_from noseed (peers v)) picked)
  /\ (forall v,
        map_find info_hash m_map = Some v ->
        scrape = true ->
        find_key
          (lookup_peers_run random skip_peer m_map max_peers_reply info_hash
             (entry_dictionary d) noseed scrape) "values"
        = map_find "values" d
        /\ find_key
             (lookup_peers_run random skip_peer m_map max_peers_reply
                info_hash (entry_dictionary d) noseed scrape) "BFpe"
           = Some (entry_string
                     (filter256_to_string (fst (scrape_filters (peers v)))))
        /\ find_key
             (lookup_peers_run random skip_peer m_map max_peers_reply
                info_hash (entry_dictionary d) noseed scrape) "BFsd"
           = Some (entry_string
                     (filter256_to_string (snd (scrape_filters (peers v)))))).
Proof.
  assert (Hname : forall v,
            exists d1,
              (if negb (String.eqb (te_name v) "")
               then entry_set "n" (entry_string (te_name v))
                      (entry_dictionary d)
               else entry_dictionary d) = entry_dictionary d1
              /\ forall key, key <> "n" -> map_find key d1 = map_find key d).
  { intros v. destruct (negb (String.eqb (te_name v) "")).
    - eexists. split; [reflexivity|]. intros key Hk.
      now apply map_find_set_other.
    - exists d. split; [reflexivity|]. reflexivity. }
  split; [|split; [|split]].
  - intros Hnone. unfold lookup_peers_run. now rewrite Hnone.
  - intros key Hn Hv Hpe Hsd. unfold lookup_peers_run.
    destruct (map_find info_hash m_map) as [v|]; [|reflexivity].
    destruct (Hname v) as (d1 & -> & Hd1). destruct scrape.
    + destruct (scrape_filters (peers v)) as [downloaders seeds].
      cbn [entry_set find_key].
      rewrite !map_find_set_other by assumption. now apply Hd1.
    + cbn [entry_set find_key].
      rewrite map_find_set_other by assumption. now apply Hd1.
  - intros v Hv -> Hno. unfold lookup_peers_run. rewrite Hv.
    destruct (Hname v) as (d1 & -> & Hd1).
    assert (Hvalues : entry_get "values" (entry_dictionary d1)
                      = entry_undefined).
    { cbn. rewrite Hd1 by discriminate. now rewrite Hno. }
    rewrite Hvalues. cbn [list_of].
    destruct (pick_peers_spec random skip_peer noseed
                (Z.min (to_int (Z.of_nat (List.length (peers v))))
                   max_peers_reply)
                (peers v) (peers v) 0 0 [] (fun p H => H))
      as (picked & E & H1 & H2 & H3).
    exists picked. rewrite E. cbn [app].
    split; [apply find_key_entry_set_same|].
    split; [|split; assumption]. lia.
  - intros v Hv ->. unfold lookup_peers_run. rewrite Hv.
    destruct (Hname v) as (d1 & -> & Hd1).
    destruct (scrape_filters (peers v)) as [downloaders seeds].
    cbn [entry_set find_key fst snd]. split; [|split].
    + rewrite !map_find_set_other by discriminate.
      apply Hd1. discriminate.
    + rewrite map_find_set_other by discriminate.
      apply map_find_set_same.
    + apply map_find_set_same.
Qed.


(** ** [announce_peer]: the peer that is stored *)

Lemma In_peers_replace (peer : peer_entry) (ps : list peer_entry) :
  In peer (peers_replace peer ps).
Proof.
  induction ps as [|p ps IH]; cbn; [now left|].
  destruct (peer_equiv peer p); [now left|].
  destruct (peer_ltb peer p); [now left | now right].
Qed.

Lemma peers_replace_from (peer q : peer_entry) (ps : list peer_entry) :
  In q (peers_replace peer ps) -> q = peer \/ In q ps.
Proof.
  induction ps as [|p ps IH]; cbn.
  - intros [H|[]]. now left.
  - destruct (peer_equiv peer p).
    + intros [H|H]; [now left | right; now right].
    + destruct (peer_ltb peer p).
      * intros [H|H]; [now left | now right].
      * intros [H|H]; [right; now left|].
        destruct (IH H) as [E|E]; [now left | right; now right].
Qed.

Lemma peers_replace_keeps (peer q : peer_entry) (ps : list peer_entry) :
  In q ps -> peer_equiv peer q = false -> In q (peers_replace peer ps).
Proof.
  induction ps as [|p ps IH]; cbn; [intros []|].
  intros [->|Hin] Hne.
  - rewrite Hne. destruct (peer_ltb peer q); [right; now left | now left].
  - destruct (peer_equiv peer p); [now right|].
    destruct (peer_ltb peer p); [right; now right|].
    right. now apply IH.
Qed.

Lemma peers_replace_length (peer : peer_entry) (ps : list peer_entry) :
  (List.length ps <= List.length (peers_replace peer ps) <= S (List.length ps))%nat.
Proof.
  induction ps as [|p ps IH]; cbn; [lia|].
  destruct (peer_equiv peer p); cbn; [lia|].
  destruct (peer_ltb peer p); cbn; lia.
Qed.

(** The peer that an [announce_peer] from [m] stores. *)
Definition announced_peer (now : Z) (m : msg) (msg_keys : list bdecode_node)
  : peer_entry :=
  mk_peer_entry (mk_endpoint (address_of (addr m)) (announce_port m msg_keys))
    now (is_set (at_ msg_keys 4) && negb (int_value (at_ msg_keys 4) =? 0)).

(** The name of a torrent after an announce that may carry a name. *)
Definition announced_name (msg_keys : list bdecode_node) (v : torrent_entry)
  : string :=
  if is_set (at_ msg_keys 3) && Nat.eqb (String.length (te_name v)) 0
  then substring 0 50 (string_value (at_ msg_keys 3))
  else te_name v.

Lemma announce_peer_request_known {C : collaborators} (now : Z) (n : node)
    (m : msg) (e : entry) (arg_ent : bdecode_node) (id : string)
    (msg_keys : list bdecode_node) (v : torrent_entry) :
  verify_message arg_ent announce_peer_desc = inl msg_keys ->
  0 <= announce_port m msg_keys < 65536 ->
  verify_token n (string_value (at_ msg_keys 2)) (string_ptr (at_ msg_keys 0))
    (addr m) = true ->
  map_find (string_ptr (at_ msg_keys 0)) (m_map n) = Some v ->
  exists n',
    announce_peer_request now n m e arg_ent id = (n', e)
    /\ m_map n'
       = map_set (string_ptr (at_ msg_keys 0))
           (mk_torrent_entry (announced_name msg_keys v)
              (peers_replace (announced_peer now m msg_keys) (peers v)))
           (m_map n)
    /\ m_immutable_table n' = m_immutable_table n
    /\ m_mutable_table n' = m_mutable_table n
    /\ m_secret n' = m_secret n
    /\ m_settings n' = m_settings n.
Proof.
  intros Hkeys Hport Htok Hfind.
  unfold announce_peer_request. rewrite Hkeys. cbv zeta.
  fold (announce_port m msg_keys).
  replace ((announce_port m msg_keys <? 0)
           || (announce_port m msg_keys >=? 65536)) with false.
  2:{ symmetry. apply orb_false_iff.
      split; [apply Z.ltb_ge | rewrite Z.geb_leb; apply Z.leb_gt]; lia. }
  rewrite Htok. cbn [negb].
  cbn [m_map set_m_table inc_stats_counter m_settings].
  rewrite Hfind. unfold torrent_at.
  cbn [m_map set_m_table inc_stats_counter m_settings].
  rewrite Hfind.
  eexists. split; [reflexivity|].
  cbn [m_map set_m_map m_immutable_table m_mutable_table m_secret m_settings].
  split; [|repeat split].
  unfold announced_name, announced_peer.
  destruct (is_set (at_ msg_keys 3) && Nat.eqb (String.length (te_name v)) 0);
    reflexivity.
Qed.

Lemma announce_peer_request_stores {C : collaborators} (now : Z) (n : node)
    (m : msg) (e : entry) (arg_ent : bdecode_node) (id : string)
    (msg_keys : list bdecode_node) :
  verify_message arg_ent announce_peer_desc = inl msg_keys ->
  0 <= announce_port m msg_keys < 65536 ->
  verify_token n (string_value (at_ msg_keys 2)) (string_ptr (at_ msg_keys 0))
    (addr m) = true ->
  exists n' v',
    announce_peer_request now n m e arg_ent id = (n', e)
    /\ map_find (string_ptr (at_ msg_keys 0)) (m_map n') = Some v'
    /\ In (announced_peer now m msg_keys) (peers v').
Proof.
  intros Hkeys Hport Htok.
  unfold announce_peer_request. rewrite Hkeys. cbv zeta.
  fold (announce_port m msg_keys).
  replace ((announce_port m msg_keys <? 0)
           || (announce_port m msg_keys >=? 65536)) with false.
  2:{ symmetry. apply orb_false_iff.
      split; [apply Z.ltb_ge | rewrite Z.geb_leb; apply Z.leb_gt]; lia. }
  rewrite Htok. cbn [negb].
  do 2 eexists. split; [reflexivity|].
  cbn [m_map set_m_map]. rewrite map_find_set_same.
  split; [reflexivity|]. cbn [peers]. apply In_peers_replace.
Qed.


(** ** From [get_peers] to [announce_peer] *)

(** The collaborator [lookup_peers] of the node is [node::lookup_peers],
    for some values of [random()]. *)
Definition lookup_from_source {C : collaborators} {F : scrape_filter}
    (random : nat -> Z) (skip_peer : Z -> Z -> Z -> bool) : Prop :=
  forall m_map max_peers_reply info_hash reply noseed scrape,
    lookup_peers m_map max_peers_reply info_hash reply noseed scrape
    = lookup_peers_run random skip_peer m_map max_peers_reply info_hash reply
        noseed scrape.

Lemma lookup_peers_run_keeps {C : collaborators} {F : scrape_filter}
    (random : nat -> Z) (skip_peer : Z -> Z -> Z -> bool)
    (m_map : list (string * torrent_entry)) (max_peers_reply : Z)
    (info_hash : string) (d : list (string * entry)) (noseed scrape : bool)
    (key : string) :
  key <> "n" -> key <> "values" -> key <> "BFpe" -> key <> "BFsd" ->
  exists d',
    lookup_peers_run random skip_peer m_map max_peers_reply info_hash
      (entry_dictionary d) noseed scrape = entry_dictionary d'
    /\ map_find key d' = map_find key d.
Proof.
  intros Hn Hv Hpe Hsd. unfold lookup_peers_run.
  destruct (map_find info_hash m_map) as [v|];
    [|exists d; split; reflexivity].
  assert (Hname : exists d1,
            (if negb (String.eqb (te_name v) "")
             then entry_set "n" (entry_string (te_name v))
                    (entry_dictionary d)
             else entry_dictionary d) = entry_dictionary d1
            /\ map_find key d1 = map_find key d).
  { destruct (negb (String.eqb (te_name v) "")).
    - eexists. split; [reflexivity|]. now apply map_find_set_other.
    - exists d. split; reflexivity. }
  destruct Hname as (d1 & -> & Hd1). destruct scrape.
  - destruct (scrape_filters (peers v)) as [downloaders seeds].
    cbn [entry_set]. eexists. split; [reflexivity|].
    rewrite !map_find_set_other by assumption. exact Hd1.
  - cbn [entry_set]. eexists. split; [reflexivity|].
    rewrite map_find_set_other by assumption. exact Hd1.
Qed.

Lemma write_token_address {C : collaborators} (secret : Z) (a b : endpoint)
    (info_hash : string) :
  address_of a = address_of b ->
  write_token secret a info_hash = write_token secret b info_hash.
Proof. intros H. unfold write_token. now rewrite H. Qed.

Lemma dispatch_get_peers {C : collaborators} (asserts_on : bool) (now : Z)
    (n : node) (m : msg) (e : entry) (arg_ent : bdecode_node) (id : string) :
  dispatch asserts_on now n m e "get_peers" arg_ent id
  = get_peers_request asserts_on n m e arg_ent.
Proof. reflexivity. Qed.

Lemma get_peers_request_token {C : collaborators} {F : scrape_filter}
    (asserts_on : bool) (random : nat -> Z)
    (skip_peer : Z -> Z -> Z -> bool) (n n0 : node) (m : msg)
    (arg_ent : bdecode_node) (msg_keys : list bdecode_node) :
  lookup_from_source random skip_peer ->
  verify_message arg_ent get_peers_desc = inl msg_keys ->
  snd (to_string (address_of (addr m))) = false ->
  exists e',
    get_peers_request asserts_on n m (reply_head n0 m) arg_ent
    = Ret (inc_stats_counter dht_get_peers_in 1 n, e')
    /\ is_response e'
    /\ find_key (reply_of e') "token"
       = Some (entry_string
                 (write_token (fst (m_secret n)) (addr m)
                    (string_ptr (at_ msg_keys 0)))).
Proof.
  intros Hlookup Hkeys Hec. unfold get_peers_request.
  rewrite Hkeys, (generate_token_spec asserts_on n (addr m) _ Hec).
  cbn [bind]. rewrite Hlookup.
  match goal with
  | |- context [lookup_peers_run _ _ ?mp ?k ?h ?r ?ns ?sc] =>
      set (reply := r); set (mp0 := mp); set (k0 := k); set (ns0 := ns);
      set (sc0 := sc)
  end.
  assert (Hreply : exists d,
            reply = entry_dictionary d
            /\ map_find "token" d
               = Some (entry_string
                         (write_token (fst (m_secret n)) (addr m)
                            (string_ptr (at_ msg_keys 0))))).
  { unfold reply, write_nodes_entry, reply_set, reply_of, reply_head.
    cbn. eexists. split; [reflexivity|]. reflexivity. }
  destruct Hreply as (d & Hd & Htoken). rewrite Hd.
  destruct (lookup_peers_run_keeps random skip_peer mp0 k0
              (string_ptr (at_ msg_keys 0)) d ns0 sc0 "token")
    as (d' & Hrun & Hd'); try discriminate.
  rewrite Hrun. eexists. split; [reflexivity|].
  unfold is_response, reply_of, write_nodes_entry, reply_set, reply_head.
  cbn. split; [reflexivity|]. rewrite Hd'. exact Htoken.
Qed.


(** X9.  The token in the reply to a [get_peers] query is accepted in an
    [announce_peer] for the same info-hash that comes from the same
    address (the port may differ), as long as the secret it was made with
    is still one of the node's two secrets, that is until the second
    [new_write_key]: the announce is answered with a response and the
    peer is stored for the torrent. *)
Theorem get_peers_token_lets_announce {C : collaborators} {F : scrape_filter}
    (asserts_on : bool) (random : nat -> Z) (skip_peer : Z -> Z -> Z -> bool)
    (now1 now2 : Z) (n : node) (m1 : msg) (e1 : entry)
    (top1 keys1 : list bdecode_node) :
  lookup_from_source random skip_peer ->
  verify_message (message m1) top_desc = inl top1 ->
  enforce_node_id (m_settings n)
    && negb (verify_id (string_ptr (at_ top1 3)) (address_of (addr m1)))
    = false ->
  string_ptr (at_ top1 0) = "get_peers" ->
  verify_message (at_ top1 2) get_peers_desc = inl keys1 ->
  snd (to_string (address_of (addr m1))) = false ->
  exists (n1 : node) (r1 : entry) (token : string),
    incoming_request asserts_on true now1 n m1 e1 = Ret (n1, r1)
    /\ is_response r1
    /\ find_key (reply_of r1) "token" = Some (entry_string token)
    /\ m_secret n1 = m_secret n
    /\ forall (n2 : node) (m2 : msg) (e2 : entry)
         (top2 keys2 : list bdecode_node),
         fst (m_secret n2) = fst (m_secret n)
         \/ snd (m_secret n2) = fst (m_secret n) ->
         verify_message (message m2) top_desc = inl top2 ->
         enforce_node_id (m_settings n2)
           && negb (verify_id (string_ptr (at_ top2 3))
                      (address_of (addr m2))) = false ->
         string_ptr (at_ top2 0) = "announce_peer" ->
         verify_message (at_ top2 2) announce_peer_desc = inl keys2 ->
         address_of (addr m2) = address_of (addr m1) ->
         string_ptr (at_ keys2 0) = string_ptr (at_ keys1 0) ->
         string_value (at_ keys2 2) = token ->
         0 <= announce_port m2 keys2 < 65536 ->
         exists (n3 : node) (r3 : entry) (v : torrent_entry),
           incoming_request asserts_on true now2 n2 m2 e2 = Ret (n3, r3)
           /\ is_response r3
           /\ map_find (string_ptr (at_ keys1 0)) (m_map n3) = Some v
           /\ In (announced_peer now2 m2 keys2) (peers v).
Proof.
  intros Hlookup Hhead Hid Hq Hkeys Hec.
  rewrite (incoming_request_dispatch asserts_on now1 n m1 e1 top1 Hhead Hid).
  rewrite Hq, dispatch_get_peers.
  destruct (heard_fields n m1 top1)
    as (Hset & Hmid & Hsec & Hmap & Himm & Hmutt & Hcnt).
  destruct (get_peers_request_token asserts_on random skip_peer
              (heard n m1 top1) n m1 (at_ top1 2) keys1 Hlookup Hkeys Hec)
    as (r1 & Hrun & Hresp & Htoken).
  rewrite Hsec in Htoken.
  exists (inc_stats_counter dht_get_peers_in 1 (heard n m1 top1)), r1,
    (write_token (fst (m_secret n)) (addr m1) (string_ptr (at_ keys1 0))).
  split; [exact Hrun|]. split; [exact Hresp|]. split; [exact Htoken|].
  split; [exact Hsec|].
  intros n2 m2 e2 top2 keys2 Hsecret Hhead2 Hid2 Hq2 Hkeys2 Haddr Hhash Htok
    Hport.
  rewrite (incoming_request_dispatch asserts_on now2 n2 m2 e2 top2 Hhead2 Hid2).
  rewrite Hq2, dispatch_announce_peer.
  destruct (heard_fields n2 m2 top2)
    as (Hset2 & Hmid2 & Hsec2 & Hmap2 & Himm2 & Hmutt2 & Hcnt2).
  assert (Hverify :
    verify_token (heard n2 m2 top2) (string_value (at_ keys2 2))
      (string_ptr (at_ keys2 0)) (addr m2) = true).
  { rewrite (verify_token_secret _ n2) by exact Hsec2.
    rewrite Htok, Hhash.
    rewrite verify_token_spec.
    - rewrite <- !(write_token_address _ _ _ _ Haddr).
      destruct Hsecret as [E|E]; rewrite E, String.eqb_refl;
        [reflexivity | apply orb_true_r].
    - apply write_token_length.
    - now rewrite Haddr. }
  destruct (announce_peer_request_stores now2 (heard n2 m2 top2) m2
              (reply_head n2 m2) (at_ top2 2) (string_ptr (at_ top2 3))
              keys2 Hkeys2 Hport Hverify)
    as (n3 & v & Hstore & Hfind & Hin).
  exists n3, (reply_head n2 m2), v.
  rewrite Hstore. split; [reflexivity|]. split; [reflexivity|].
  rewrite <- Hhash. split; assumption.
Qed.


(** ** [announce_peer]: what is refused, and what an announce changes *)

(** X10.  An [announce_peer] whose port (the one given, or the source port
    when [implied_port] is set) is not in [[0, 65536)], or whose token
    [verify_token] refuses, is answered with error 203 ([invalid port],
    checked first, or [invalid token]).  Nothing is stored: the three
    tables are as they were, the sender is not passed to [node_seen], and
    the call is counted as invalid. *)
Theorem announce_peer_refused {C : collaborators} (asserts_on : bool)
    (now : Z) (n : node) (m : msg) (e : entry)
    (top_level msg_keys : list bdecode_node) :
  verify_message (message m) top_desc = inl top_level ->
  enforce_node_id (m_settings n)
    && negb (verify_id (string_ptr (at_ top_level 3)) (address_of (addr m)))
    = false ->
  string_ptr (at_ top_level 0) = "announce_peer" ->
  verify_message (at_ top_level 2) announce_peer_desc = inl msg_keys ->
  ~ 0 <= announce_port m msg_keys < 65536
  \/ verify_token n (string_value (at_ msg_keys 2))
       (string_ptr (at_ msg_keys 0)) (addr m) = false ->
  exists (n' : node) (e' : entry),
    incoming_request asserts_on true now n m e = Ret (n', e')
    /\ is_error e' 203
         (if (announce_port m msg_keys <? 0)
             || (announce_port m msg_keys >=? 65536)
          then "invalid port" else "invalid token")
    /\ m_map n' = m_map n
    /\ m_immutable_table n' = m_immutable_table n
    /\ m_mutable_table n' = m_mutable_table n
    /\ m_table n' = m_table (heard n m top_level)
    /\ m_counters n' = ((dht_invalid_announce, 1) :: m_counters n)%list.
Proof.
  intros Hhead Hid Hq Hkeys Hbad.
  rewrite (incoming_request_dispatch asserts_on now n m e top_level Hhead Hid).
  rewrite Hq, dispatch_announce_peer.
  destruct (heard_fields n m top_level)
    as (Hset & Hmid & Hsec & Hmap & Himm & Hmutt & Hcnt).
  unfold announce_peer_request. rewrite Hkeys. cbv zeta.
  fold (announce_port m msg_keys).
  destruct ((announce_port m msg_keys <? 0)
            || (announce_port m msg_keys >=? 65536)) eqn:Hport.
  - do 2 eexists. split; [reflexivity|].
    split; [apply is_error_incoming_error|].
    cbn [inc_stats_counter m_map m_immutable_table m_mutable_table m_table
         m_counters].
    rewrite Hcnt. repeat split; assumption.
  - apply orb_false_iff in Hport. destruct Hport as [Hlo Hhi].
    apply Z.ltb_ge in Hlo. rewrite Z.geb_leb in Hhi. apply Z.leb_gt in Hhi.
    destruct Hbad as [Hbad | Htok]; [exfalso; apply Hbad; lia|].
    rewrite (verify_token_secret _ n) by exact Hsec.
    rewrite Htok. cbn [negb].
    do 2 eexists. split; [reflexivity|].
    split; [apply is_error_incoming_error|].
    cbn [inc_stats_counter m_map m_immutable_table m_mutable_table m_table
         m_counters].
    rewrite Hcnt. repeat split; assumption.
Qed.

(** X11.  A valid [announce_peer] for a torrent that is in the table:
    the announcing endpoint is among the peers of the torrent afterwards;
    every peer stored afterwards is that one or was stored before; a peer
    that was stored for another endpoint stays; the set grows by at most
    one; a name is taken over only when the torrent had none, cut to 50
    bytes; and no other torrent is touched. *)
Theorem announce_peer_known_torrent {C : collaborators} (asserts_on : bool)
    (now : Z) (n : node) (m : msg) (e : entry)
    (top_level msg_keys : list bdecode_node) (v : torrent_entry) :
  verify_message (message m) top_desc = inl top_level ->
  enforce_node_id (m_settings n)
    && negb (verify_id (string_ptr (at_ top_level 3)) (address_of (addr m)))
    = false ->
  string_ptr (at_ top_level 0) = "announce_peer" ->
  verify_message (at_ top_level 2) announce_peer_desc = inl msg_keys ->
  0 <= announce_port m msg_keys < 65536 ->
  verify_token n (string_value (at_ msg_keys 2)) (string_ptr (at_ msg_keys 0))
    (addr m) = true ->
  map_find (string_ptr (at_ msg_keys 0)) (m_map n) = Some v ->
  exists (n' : node) (e' : entry) (v' : torrent_entry),
    incoming_request asserts_on true now n m e = Ret (n', e')
    /\ is_response e'
    /\ map_find (string_ptr (at_ msg_keys 0)) (m_map n') = Some v'
    /\ In (announced_peer now m msg_keys) (peers v')
    /\ (forall q, In q (peers v') ->
                  q = announced_peer now m msg_keys \/ In q (peers v))
    /\ (forall q, In q (peers v) ->
                  peer_equiv (announced_peer now m msg_keys) q = false ->
                  In q (peers v'))
    /\ (List.length (peers v) <= List.length (peers v')
        <= S (List.length (peers v)))%nat
    /\ te_name v'
       = (if is_set (at_ msg_keys 3) && Nat.eqb (String.length (te_name v)) 0
          then substring 0 50 (string_value (at_ msg_keys 3))
          else te_name v)
    /\ (forall k, k <> string_ptr (at_ msg_keys 0) ->
                  map_find k (m_map n') = map_find k (m_map n)).
Proof.
  intros Hhead Hid Hq Hkeys Hport Htok Hfind.
  rewrite (incoming_request_dispatch asserts_on now n m e top_level Hhead Hid).
  rewrite Hq, dispatch_announce_peer.
  destruct (heard_fields n m top_level)
    as (Hset & Hmid & Hsec & Hmap & Himm & Hmutt & Hcnt).
  assert (Htok' : verify_token (heard n m top_level)
                    (string_value (at_ msg_keys 2))
                    (string_ptr (at_ msg_keys 0)) (addr m) = true).
  { rewrite (verify_token_secret _ n) by exact Hsec. exact Htok. }
  assert (Hfind' : map_find (string_ptr (at_ msg_keys 0))
                     (m_map (heard n m top_level)) = Some v).
  { rewrite Hmap. exact Hfind. }
  destruct (announce_peer_request_known now (heard n m top_level) m
              (reply_head n m) (at_ top_level 2) (string_ptr (at_ top_level 3))
              msg_keys v Hkeys Hport Htok' Hfind')
    as (n' & Hrun & Hmap' & _).
  rewrite Hrun. rewrite Hmap in Hmap'.
  exists n', (reply_head n m),
    (mk_torrent_entry (announced_name msg_keys v)
       (peers_replace (announced_peer now m msg_keys) (peers v))).
  split; [reflexivity|]. split; [reflexivity|].
  rewrite Hmap'. split; [apply map_find_set_same|]. cbn [peers te_name].
  split; [apply In_peers_replace|].
  split; [intros q; apply peers_replace_from|].
  split; [intros q; apply peers_replace_keeps|].
  split; [apply peers_replace_length|].
  split; [reflexivity|].
  intros k Hk. now apply map_find_set_other.
Qed.


(** ** Items: from [put] to [get] *)

Lemma min_element_from_bound (V : Type) (comp : V -> V -> bool) (l : list V) :
  forall (i : nat) (smallest : V) (pos : nat),
    (pos < i)%nat ->
    (min_element_from comp l i smallest pos < i + List.length l)%nat.
Proof.
  induction l as [|x l IH]; intros i smallest pos Hpos; cbn.
  - lia.
  - destruct (comp x smallest).
    + specialize (IH (S i) x i ltac:(lia)). lia.
    + specialize (IH (S i) smallest pos ltac:(lia)). lia.
Qed.

Lemma min_element_bound (V : Type) (comp : V -> V -> bool) (l : list V) :
  l <> [] ->
  exists j, min_element comp l = Some j /\ (j < List.length l)%nat.
Proof.
  destruct l as [|x l]; [congruence|]. intros _. cbn.
  eexists. split; [reflexivity|].
  pose proof (min_element_from_bound V comp l 1 x 0 ltac:(lia)). lia.
Qed.

Lemma map_set_length (V : Type) (k : string) (v : V) (m : list (string * V)) :
  (List.length (map_set k v m) <= S (List.length m))%nat.
Proof.
  induction m as [|[k' v'] m IH]; cbn; [lia|].
  destruct (String.compare k k'); cbn; lia.
Qed.

Lemma erase_at_shorter (V : Type) (j : nat) (m : list V) :
  (j < List.length m)%nat ->
  S (List.length (erase_at j m)) = List.length m.
Proof.
  revert j. induction m as [|x m IH]; intros j Hj; [cbn in Hj; lia|].
  destruct j as [|j]; cbn; [reflexivity|].
  cbn in Hj. rewrite IH by lia. reflexivity.
Qed.

(** [put_immutable] stores the value, and keeps the table within
    [max_dht_items]. *)
Lemma put_immutable_stores {C : collaborators} (asserts_on : bool) (n : node)
    (target buf : string) :
  0 < max_dht_items (m_settings n) ->
  exists n',
    put_immutable asserts_on n target buf = Ret n'
    /\ (exists f, map_find target (m_immutable_table n') = Some f
                  /\ (map_find target (m_immutable_table n) = None ->
                      value f = buf)
                  /\ (forall f0, map_find target (m_immutable_table n)
                                 = Some f0 -> f = f0))
    /\ (map_size (m_immutable_table n) <= max_dht_items (m_settings n) ->
        map_size (m_immutable_table n') <= max_dht_items (m_settings n))
    /\ m_settings n' = m_settings n
    /\ m_id n' = m_id n
    /\ m_table n' = m_table n
    /\ m_secret n' = m_secret n
    /\ m_map n' = m_map n
    /\ m_mutable_table n' = m_mutable_table n.
Proof.
  intros Hmax. unfold put_immutable.
  destruct (map_find target (m_immutable_table n)) as [f0|] eqn:Hfind.
  - exists n. split; [reflexivity|]. split.
    { exists f0. split; [exact Hfind|]. split; [discriminate|].
      intros f1 H. now inversion H. }
    split; [tauto|]. repeat split.
  - destruct (map_size (m_immutable_table n) >=? max_dht_items (m_settings n))
      eqn:Hfull.
    + rewrite Z.geb_leb in Hfull. apply Z.leb_le in Hfull.
      assert (Hne : m_immutable_table n <> []).
      { intros E. rewrite E in Hfull. unfold map_size in Hfull.
        cbn in Hfull. lia. }
      destruct (min_element_bound _ (immutable_item_comparator (m_id n))
                  _ Hne) as (j & Hj & Hlt).
      rewrite Hj. rewrite TORRENT_ASSERT_holds by reflexivity. cbn [bind].
      cbn [m_immutable_table set_m_immutable_table inc_stats_counter].
      eexists. split; [reflexivity|].
      cbn [m_immutable_table set_m_immutable_table inc_stats_counter
           m_settings m_id m_table m_secret m_map m_mutable_table].
      split.
      { destruct (map_find target (erase_at j (m_immutable_table n)))
          as [f1|] eqn:Hf1.
        - exists f1. split; [exact Hf1|]. split.
          + intros _. exfalso.
            clear - Hfind Hf1.
            revert j Hf1. induction (m_immutable_table n) as [|[k v] l IH];
              intros j Hf1; [destruct j; discriminate|].
            cbn in Hfind. destruct (String.eqb target k) eqn:E;
              [discriminate|].
            destruct j as [|j]; cbn in Hf1.
            * rewrite Hfind in Hf1. discriminate.
            * rewrite E in Hf1. eapply IH; eassumption.
          + intros f2 H. discriminate.
        - eexists. split; [apply map_find_set_same|].
          split; [reflexivity | intros f2 H; discriminate]. }
      split.
      { intros Hle. unfold map_size in *.
        destruct (map_find target (erase_at j (m_immutable_table n))).
        - pose proof (erase_at_shorter _ j _ Hlt). lia.
        - pose proof (map_set_length _ target
                        (mk_immutable_item buf bloom_empty 0 0)
                        (erase_at j (m_immutable_table n))).
          pose proof (erase_at_shorter _ j _ Hlt). lia. }
      repeat split.
    + rewrite Z.geb_leb in Hfull. apply Z.leb_gt in Hfull.
      cbn [bind]. rewrite Hfind.
      eexists. split; [reflexivity|].
      cbn [m_immutable_table set_m_immutable_table inc_stats_counter
           m_settings m_id m_table m_secret m_map m_mutable_table].
      split.
      { eexists. split; [apply map_find_set_same|].
        split; [reflexivity | intros f2 H; discriminate]. }
      split.
      { intros _. unfold map_size in *.
        pose proof (map_set_length _ target
                      (mk_immutable_item buf bloom_empty 0 0)
                      (m_immutable_table n)). lia. }
      repeat split.
Qed.


Lemma announced_by_fields {C : collaborators} (now : Z) (a : address)
    (f : dht_immutable_item) :
  value (announced_by now a f) = value f
  /\ last_seen (announced_by now a f) = now
  /\ num_announcers f <= num_announcers (announced_by now a f)
     <= num_announcers f + 1.
Proof.
  unfold announced_by. cbn [ips value last_seen num_announcers].
  destruct (negb (bloom_find (ips f) (hash_address a)));
    cbn [ips value last_seen num_announcers]; repeat split; lia.
Qed.

(** A [put] that is not a mutable put (not all of [seq], [k] and [sig] are
    there) and passes the checks stores the bytes of [v] in
    [m_immutable_table]. *)
Lemma put_request_immutable {C : collaborators} (asserts_on : bool) (now : Z)
    (n : node) (m : msg) (e : entry) (arg_ent : bdecode_node) (id : string)
    (msg_keys : list bdecode_node) :
  verify_message arg_ent put_desc = inl msg_keys ->
  is_set (at_ msg_keys 2) && is_set (at_ msg_keys 3) && is_set (at_ msg_keys 4)
    = false ->
  0 < Z.of_nat (String.length (put_buf msg_keys)) <= 1000 ->
  Z.of_nat (String.length (put_salt msg_keys)) <= 64 ->
  verify_token n (string_value (at_ msg_keys 0)) (put_target msg_keys) (addr m)
    = true ->
  0 < max_dht_items (m_settings n) ->
  exists (n' : node) (f : dht_immutable_item),
    put_request asserts_on now n m e arg_ent id = Ret (n', e)
    /\ map_find (put_target msg_keys) (m_immutable_table n') = Some f
    /\ last_seen f = now
    /\ (map_find (put_target msg_keys) (m_immutable_table n) = None ->
        value f = put_buf msg_keys)
    /\ (forall f0, map_find (put_target msg_keys) (m_immutable_table n)
                   = Some f0 -> value f = value f0)
    /\ m_secret n' = m_secret n
    /\ m_settings n' = m_settings n
    /\ m_id n' = m_id n
    /\ m_map n' = m_map n
    /\ m_mutable_table n' = m_mutable_table n.
Proof.
  intros Hkeys Hmut Hbuf Hsalt Htok Hmax.
  unfold put_request. rewrite Hkeys.
  fold (put_buf msg_keys). fold (put_salt msg_keys).
  cbv zeta. rewrite Hmut. cbn [negb].
  replace ((Z.of_nat (String.length (put_buf msg_keys)) >? 1000)
           || (Z.of_nat (String.length (put_buf msg_keys)) <=? 0)) with false.
  2:{ symmetry. apply orb_false_iff.
      split; [rewrite Z.gtb_ltb; apply Z.ltb_ge | apply Z.leb_gt]; lia. }
  replace (Z.of_nat (String.length (put_salt msg_keys)) >? 64) with false.
  2:{ symmetry. rewrite Z.gtb_ltb. apply Z.ltb_ge. lia. }
  fold (put_target msg_keys).
  rewrite (verify_token_secret _ n) by reflexivity.
  rewrite Htok. cbn [negb].
  destruct (put_immutable_stores asserts_on
              (inc_stats_counter dht_put_in 1 n) (put_target msg_keys)
              (put_buf msg_keys) Hmax)
    as (n1 & Hput & (f & Hf & Hfresh & Hold) & _ & Hs & Hi & Ht & Hsec & Hmap
        & Hmt).
  rewrite Hput. cbn [bind].
  cbn [m_immutable_table set_m_table]. rewrite Hf.
  pose proof (announced_by_fields now (address_of (addr m)) f)
    as (Hval & Hseen & _).
  do 2 eexists. split; [reflexivity|].
  cbn [m_immutable_table set_m_immutable_table set_m_table m_secret m_settings
       m_id m_map m_mutable_table].
  split; [apply map_find_set_same|].
  split; [exact Hseen|].
  split; [intros Hnone; rewrite Hval; apply Hfresh; exact Hnone|].
  split; [intros f0 H0; rewrite Hval; now rewrite (Hold f0 H0)|].
  repeat split; assumption.
Qed.

Lemma get_request_immutable {C : collaborators} (asserts_on : bool)
    (n n0 : node) (m : msg) (arg_ent : bdecode_node)
    (msg_keys : list bdecode_node) (f : dht_immutable_item) :
  verify_message arg_ent get_desc = inl msg_keys ->
  is_set (at_ msg_keys 0) = false ->
  snd (to_string (address_of (addr m))) = false ->
  map_find (string_ptr (at_ msg_keys 1)) (m_immutable_table n) = Some f ->
  exists e',
    get_request asserts_on n m (reply_head n0 m) arg_ent
    = Ret (inc_stats_counter dht_get_in 1 n, e')
    /\ is_response e'
    /\ find_key (reply_of e') "v" = Some (bdecode (value f))
    /\ find_key (reply_of e') "seq" = None
    /\ find_key (reply_of e') "token"
       = Some (entry_string
                 (write_token (fst (m_secret n)) (addr m)
                    (string_ptr (at_ msg_keys 1)))).
Proof.
  intros Hkeys Hseq Hec Hfind. unfold get_request. rewrite Hkeys.
  cbv zeta.
  rewrite (generate_token_secret asserts_on _ n) by reflexivity.
  rewrite (generate_token_spec asserts_on n (addr m) _ Hec).
  cbn [bind]. rewrite Hseq. cbn [negb].
  cbn [m_immutable_table inc_stats_counter]. rewrite Hfind.
  eexists. split; [reflexivity|].
  unfold is_response, reply_of, write_nodes_entry, reply_set, reply_head.
  cbn. repeat split.
Qed.


(** X12.  A [put] that is not a mutable put, passes the checks and whose
    target is not stored yet puts the bytes of [v] into the immutable
    table under its target, and a [get] for that target without [seq] is
    then answered with that value (decoded), and without [seq].  The
    target is [item_target_id(v)] when the put names no [k], and
    [item_target_id(salt, k)] when it does. *)
Theorem put_then_get {C : collaborators} (asserts_on : bool) (now1 : Z)
    (n : node) (m1 : msg) (e1 : entry) (top1 keys1 : list bdecode_node) :
  verify_message (message m1) top_desc = inl top1 ->
  enforce_node_id (m_settings n)
    && negb (verify_id (string_ptr (at_ top1 3)) (address_of (addr m1)))
    = false ->
  string_ptr (at_ top1 0) = "put" ->
  verify_message (at_ top1 2) put_desc = inl keys1 ->
  is_set (at_ keys1 2) && is_set (at_ keys1 3) && is_set (at_ keys1 4)
    = false ->
  0 < Z.of_nat (String.length (put_buf keys1)) <= 1000 ->
  Z.of_nat (String.length (put_salt keys1)) <= 64 ->
  verify_token n (string_value (at_ keys1 0)) (put_target keys1) (addr m1)
    = true ->
  0 < max_dht_items (m_settings n) ->
  map_find (put_target keys1) (m_immutable_table n) = None ->
  exists (n1 : node) (r1 : entry) (f : dht_immutable_item),
    incoming_request asserts_on true now1 n m1 e1 = Ret (n1, r1)
    /\ is_response r1
    /\ map_find (put_target keys1) (m_immutable_table n1) = Some f
    /\ value f = put_buf keys1
    /\ last_seen f = now1
    /\ put_target keys1
       = (if is_set (at_ keys1 3)
          then item_target_id_mutable (put_salt keys1)
                 (string_ptr (at_ keys1 3))
          else item_target_id (put_buf keys1))
    /\ forall (now2 : Z) (m2 : msg) (e2 : entry)
         (top2 keys2 : list bdecode_node),
         verify_message (message m2) top_desc = inl top2 ->
         enforce_node_id (m_settings n1)
           && negb (verify_id (string_ptr (at_ top2 3))
                      (address_of (addr m2))) = false ->
         string_ptr (at_ top2 0) = "get" ->
         verify_message (at_ top2 2) get_desc = inl keys2 ->
         is_set (at_ keys2 0) = false ->
         string_ptr (at_ keys2 1) = put_target keys1 ->
         snd (to_string (address_of (addr m2))) = false ->
         exists (n2 : node) (r2 : entry),
           incoming_request asserts_on true now2 n1 m2 e2 = Ret (n2, r2)
           /\ is_response r2
           /\ find_key (reply_of r2) "v" = Some (bdecode (put_buf keys1))
           /\ find_key (reply_of r2) "seq" = None
           /\ m_immutable_table n2 = m_immutable_table n1.
Proof.
  intros Hhead Hid Hq Hkeys Hmut Hbuf Hsalt Htok Hmax Hfresh.
  rewrite (incoming_request_dispatch asserts_on now1 n m1 e1 top1 Hhead Hid).
  rewrite Hq, dispatch_put.
  destruct (heard_fields n m1 top1)
    as (Hset & Hmid & Hsec & Hmap & Himm & Hmutt & Hcnt).
  destruct (put_request_immutable asserts_on now1 (heard n m1 top1) m1
              (reply_head n m1) (at_ top1 2) (string_ptr (at_ top1 3)) keys1
              Hkeys Hmut Hbuf Hsalt)
    as (n1 & f & Hrun & Hf & Hseen & Hval & _).
  { rewrite (verify_token_secret _ n) by exact Hsec. exact Htok. }
  { rewrite Hset. exact Hmax. }
  rewrite Himm in Hval. specialize (Hval Hfresh).
  exists n1, (reply_head n m1), f.
  split; [exact Hrun|]. split; [reflexivity|]. split; [exact Hf|].
  split; [exact Hval|]. split; [exact Hseen|]. split; [reflexivity|].
  intros now2 m2 e2 top2 keys2 Hhead2 Hid2 Hq2 Hkeys2 Hnoseq Htarget Hec.
  rewrite (incoming_request_dispatch asserts_on now2 n1 m2 e2 top2 Hhead2 Hid2).
  rewrite Hq2, dispatch_get.
  destruct (heard_fields n1 m2 top2)
    as (Hset2 & Hmid2 & Hsec2 & Hmap2 & Himm2 & Hmutt2 & Hcnt2).
  destruct (get_request_immutable asserts_on (heard n1 m2 top2) n1 m2
              (at_ top2 2) keys2 f Hkeys2 Hnoseq Hec)
    as (r2 & Hget & Hresp & Hv & Hs & _).
  { rewrite Himm2, Htarget. exact Hf. }
  eexists. exists r2. split; [exact Hget|]. split; [exact Hresp|].
  rewrite Hv, Hval. split; [reflexivity|]. split; [exact Hs|].
  cbn [inc_stats_counter m_immutable_table]. exact Himm2.
Qed.

(** ** [put]: what is refused *)

(** The tables and the secrets of the node are untouched. *)
Definition stores_nothing {C : collaborators} (n n' : node) : Prop :=
  m_map n' = m_map n
  /\ m_immutable_table n' = m_immutable_table n
  /\ m_mutable_table n' = m_mutable_table n
  /\ m_secret n' = m_secret n.

(** X13.  A [put] whose arguments verify is refused, in this order: with
    error 205 when the bytes of [v] are more than 1000 (or none), with 207
    when the salt has more than 64 bytes, with 203 when [verify_token]
    refuses the token for the target, and, for a mutable put, with 206
    when the signature does not verify.  In each case nothing is stored
    and the sender is not passed to [node_seen]. *)
Theorem put_refused {C : collaborators} (asserts_on : bool) (now : Z)
    (n : node) (m : msg) (e : entry) (top_level msg_keys : list bdecode_node) :
  verify_message (message m) top_desc = inl top_level ->
  enforce_node_id (m_settings n)
    && negb (verify_id (string_ptr (at_ top_level 3)) (address_of (addr m)))
    = false ->
  string_ptr (at_ top_level 0) = "put" ->
  verify_message (at_ top_level 2) put_desc = inl msg_keys ->
  forall (code : Z) (text : string),
    (code = 205 /\ text = "message too big"
     /\ ~ 0 < Z.of_nat (String.length (put_buf msg_keys)) <= 1000)
    \/ (code = 207 /\ text = "salt too big"
        /\ 0 < Z.of_nat (String.length (put_buf msg_keys)) <= 1000
        /\ 64 < Z.of_nat (String.length (put_salt msg_keys)))
    \/ (code = 203 /\ text = "invalid token"
        /\ 0 < Z.of_nat (String.length (put_buf msg_keys)) <= 1000
        /\ Z.of_nat (String.length (put_salt msg_keys)) <= 64
        /\ verify_token n (string_value (at_ msg_keys 0)) (put_target msg_keys)
             (addr m) = false)
    \/ (code = 206 /\ text = "invalid signature"
        /\ 0 < Z.of_nat (String.length (put_buf msg_keys)) <= 1000
        /\ Z.of_nat (String.length (put_salt msg_keys)) <= 64
        /\ verify_token n (string_value (at_ msg_keys 0)) (put_target msg_keys)
             (addr m) = true
        /\ is_set (at_ msg_keys 2) && is_set (at_ msg_keys 3)
           && is_set (at_ msg_keys 4) = true
        /\ verify_mutable_item (put_buf msg_keys) (put_salt msg_keys)
             (int_value (at_ msg_keys 2)) (string_ptr (at_ msg_keys 3))
             (string_ptr (at_ msg_keys 4)) = false) ->
    exists (n' : node) (e' : entry),
      incoming_request asserts_on true now n m e = Ret (n', e')
      /\ is_error e' code text
      /\ stores_nothing n n'
      /\ m_table n' = m_table (heard n m top_level).
Proof.
  intros Hhead Hid Hq Hkeys code text Hcase.
  rewrite (incoming_request_dispatch asserts_on now n m e top_level Hhead Hid).
  rewrite Hq, dispatch_put.
  destruct (heard_fields n m top_level)
    as (Hset & Hmid & Hsec & Hmap & Himm & Hmutt & Hcnt).
  unfold put_request. rewrite Hkeys.
  fold (put_buf msg_keys). fold (put_salt msg_keys).
  cbv zeta. fold (put_target msg_keys).
  rewrite (verify_token_secret _ n) by exact Hsec.
  assert (Hdone : forall n1,
            m_map n1 = m_map (heard n m top_level) ->
            m_immutable_table n1 = m_immutable_table (heard n m top_level) ->
            m_mutable_table n1 = m_mutable_table (heard n m top_level) ->
            m_secret n1 = m_secret (heard n m top_level) ->
            m_table n1 = m_table (heard n m top_level) ->
            exists (n' : node) (e' : entry),
              put_invalid n1 (reply_head n m) text code = Ret (n', e')
              /\ is_error e' code text
              /\ stores_nothing n n'
              /\ m_table n' = m_table (heard n m top_level)).
  { intros n1 H1 H2 H3 H4 H5. unfold put_invalid. do 2 eexists.
    split; [reflexivity|]. split; [apply is_error_incoming_error|].
    unfold stores_nothing.
    cbn [inc_stats_counter m_map m_immutable_table m_mutable_table m_secret
         m_table].
    repeat split; congruence. }
  assert (Hsize :
            0 < Z.of_nat (String.length (put_buf msg_keys)) <= 1000 ->
            (Z.of_nat (String.length (put_buf msg_keys)) >? 1000)
            || (Z.of_nat (String.length (put_buf msg_keys)) <=? 0) = false).
  { intros H. apply orb_false_iff.
    split; [rewrite Z.gtb_ltb; apply Z.ltb_ge | apply Z.leb_gt]; lia. }
  assert (Hsmall : Z.of_nat (String.length (put_salt msg_keys)) <= 64 ->
                   (Z.of_nat (String.length (put_salt msg_keys)) >? 64)
                   = false).
  { intros H. rewrite Z.gtb_ltb. apply Z.ltb_ge. lia. }
  destruct Hcase as [(-> & -> & Hbig) | [(-> & -> & Hbuf & Hsalt)
    | [(-> & -> & Hbuf & Hsalt & Htok)
      | (-> & -> & Hbuf & Hsalt & Htok & Hmut & Hsig)]]].
  - replace ((Z.of_nat (String.length (put_buf msg_keys)) >? 1000)
             || (Z.of_nat (String.length (put_buf msg_keys)) <=? 0))
      with true.
    2:{ symmetry. apply orb_true_iff.
        destruct (Z_le_gt_dec (Z.of_nat (String.length (put_buf msg_keys))) 0).
        - right. now apply Z.leb_le.
        - left. rewrite Z.gtb_ltb. apply Z.ltb_lt. lia. }
    apply Hdone; reflexivity.
  - rewrite (Hsize Hbuf).
    replace (Z.of_nat (String.length (put_salt msg_keys)) >? 64) with true
      by (symmetry; rewrite Z.gtb_ltb; apply Z.ltb_lt; lia).
    apply Hdone; reflexivity.
  - rewrite (Hsize Hbuf), (Hsmall Hsalt), Htok. cbn [negb].
    apply Hdone; reflexivity.
  - rewrite (Hsize Hbuf), (Hsmall Hsalt), Htok, Hmut, Hsig.
    cbn [negb bind]. apply Hdone; reflexivity.
Qed.


(** ** [connection_timeout] *)

(** [k] calls of [inc_stats_counter(c, -1)]. *)
Definition decremented {C : collaborators} (c : stats_counter) (k : nat)
    (n : node) : node :=
  Nat.iter k (inc_stats_counter c (-1)) n.

Lemma decremented_S {C : collaborators} (c : stats_counter) (k : nat)
    (n : node) :
  decremented c k (inc_stats_counter c (-1) n) = decremented c (S k) n.
Proof.
  unfold decremented. symmetry. apply Nat.iter_succ_r.
Qed.

Lemma decremented_fields {C : collaborators} (c : stats_counter) (k : nat)
    (n : node) :
  m_settings (decremented c k n) = m_settings n
  /\ m_id (decremented c k n) = m_id n
  /\ m_table (decremented c k n) = m_table n
  /\ m_secret (decremented c k n) = m_secret n
  /\ m_map (decremented c k n) = m_map n
  /\ m_immutable_table (decremented c k n) = m_immutable_table n
  /\ m_mutable_table (decremented c k n) = m_mutable_table n
  /\ m_counters (decremented c k n) = (repeat (c, -1) k ++ m_counters n)%list.
Proof.
  unfold decremented. induction k as [|k IH]; [cbn; tauto|].
  destruct IH as (H1 & H2 & H3 & H4 & H5 & H6 & H7 & H8).
  rewrite Nat.iter_succ.
  set (n1 := Nat.iter k (inc_stats_counter c (-1)) n) in *.
  cbn [inc_stats_counter m_settings m_id m_table m_secret m_map
       m_immutable_table m_mutable_table m_counters repeat app].
  rewrite H8. tauto.
Qed.

(** An item that was seen less than 60 minutes ago. *)
Definition fresh_item {C : collaborators} (tpm now : Z)
    (ki : string * dht_immutable_item) : bool :=
  last_seen (snd ki) + minutes tpm 60 >? now.

Lemma filter_shorter {A : Type} (f : A -> bool) (l : list A) :
  (List.length (filter f l) <= List.length l)%nat.
Proof.
  induction l as [|x l IH]; [apply Nat.le_refl|].
  cbn. destruct (f x); cbn; lia.
Qed.

Lemma expire_items_spec {C : collaborators} (tpm now : Z)
    (table : list (string * dht_immutable_item)) (n : node) :
  expire_items tpm now table n
  = (filter (fresh_item tpm now) table,
     decremented dht_immutable_data
       (List.length table - List.length (filter (fresh_item tpm now) table))
       n).
Proof.
  revert n. induction table as [|[k i] table IH]; intros n; [reflexivity|].
  assert (Hf : fresh_item tpm now (k, i)
               = (last_seen i + minutes tpm 60 >? now)) by reflexivity.
  cbn [expire_items filter]. rewrite Hf.
  pose proof (filter_shorter (fresh_item tpm now) table) as Hle.
  destruct (last_seen i + minutes tpm 60 >? now).
  - rewrite IH. cbn [List.length]. reflexivity.
  - rewrite IH, decremented_S. cbn [List.length].
    f_equal. f_equal. lia.
Qed.

(** What [connection_timeout] leaves of a torrent. *)
Definition purged (tpm now : Z) (kt : string * torrent_entry)
  : string * torrent_entry :=
  (fst kt, mk_torrent_entry (te_name (snd kt))
             (purge_peers tpm now (peers (snd kt)))).

Definition has_peers (kt : string * torrent_entry) : bool :=
  match peers (snd kt) with [] => false | _ :: _ => true end.

Lemma expire_torrents_spec {C : collaborators} (tpm now : Z)
    (table : list (string * torrent_entry)) (n : node) :
  expire_torrents tpm now table n
  = (filter has_peers (map (purged tpm now) table),
     decremented dht_torrents
       (List.length table
        - List.length (filter has_peers (map (purged tpm now) table)))
       n).
Proof.
  revert n. induction table as [|[k t] table IH]; intros n; [reflexivity|].
  assert (Hf : has_peers (purged tpm now (k, t))
               = match purge_peers tpm now (peers t) with
                 | [] => false
                 | _ :: _ => true
                 end) by reflexivity.
  cbn [expire_torrents map filter peers]. rewrite Hf.
  change (purged tpm now (k, t))
    with (k, mk_torrent_entry (te_name t) (purge_peers tpm now (peers t))).
  pose proof (filter_shorter has_peers (map (purged tpm now) table)) as Hle.
  rewrite length_map in Hle.
  destruct (purge_peers tpm now (peers t)) as [|p ps] eqn:Hp.
  - rewrite IH, decremented_S. cbn [List.length]. f_equal. f_equal. lia.
  - rewrite IH. cbn [List.length]. reflexivity.
Qed.

Lemma In_purge_peers (tpm now : Z) (p : peer_entry) (ps : list peer_entry) :
  In p (purge_peers tpm now ps)
  <-> In p ps /\ now <= added p + minutes tpm 45.
Proof.
  unfold purge_peers. rewrite filter_In.
  rewrite negb_true_iff, Z.ltb_ge. reflexivity.
Qed.

(** X14.  When two minutes have passed since the last round,
    [connection_timeout] returns what [m_rpc.tick()] returned, notes the
    time, and keeps exactly: the immutable items seen less than 60 minutes
    ago; of every torrent the peers added no more than 45 minutes ago;
    the torrents that still have a peer, with their names.  One counter is
    decremented for each item and each torrent that goes.  The mutable
    items do not expire. *)
Theorem connection_timeout_expires {C : collaborators} (tpm d now : Z)
    (tm : node_timers) (n : node) :
  m_last_tracker_tick tm <= now - minutes tpm 2 ->
  exists (n' : node),
    connection_timeout tpm d now tm n
    = (d, mk_node_timers now (m_last_self_refresh tm), n')
    /\ (forall k i, In (k, i) (m_immutable_table n')
                    <-> In (k, i) (m_immutable_table n)
                        /\ now < last_seen i + minutes tpm 60)
    /\ (forall k t', In (k, t') (m_map n')
                     <-> peers t' <> []
                         /\ exists t, In (k, t) (m_map n)
                                      /\ te_name t' = te_name t
                                      /\ peers t'
                                         = purge_peers tpm now (peers t))
    /\ (forall p ps, In p (purge_peers tpm now ps)
                     <-> In p ps /\ now <= added p + minutes tpm 45)
    /\ m_mutable_table n' = m_mutable_table n
    /\ m_table n' = m_table n
    /\ m_secret n' = m_secret n
    /\ m_counters n'
       = (repeat (dht_torrents, -1)
            (List.length (m_map n) - List.length (m_map n'))
          ++ repeat (dht_immutable_data, -1)
               (List.length (m_immutable_table n)
                - List.length (m_immutable_table n'))
          ++ m_counters n)%list.
Proof.
  intros Hdue. unfold connection_timeout.
  replace (now - minutes tpm 2 <? m_last_tracker_tick tm) with false
    by (symmetry; apply Z.ltb_ge; exact Hdue).
  rewrite expire_items_spec.
  set (items := filter (fresh_item tpm now) (m_immutable_table n)).
  set (n1 := set_m_immutable_table items
               (decremented dht_immutable_data
                  (List.length (m_immutable_table n) - List.length items) n)).
  rewrite expire_torrents_spec.
  destruct (decremented_fields dht_immutable_data
              (List.length (m_immutable_table n) - List.length items) n)
    as (_ & _ & Ht1 & Hs1 & Hm1 & _ & Hmu1 & Hc1).
  assert (Hmap1 : m_map n1 = m_map n) by exact Hm1.
  rewrite Hmap1.
  set (torrents := filter has_peers (map (purged tpm now) (m_map n))).
  destruct (decremented_fields dht_torrents
              (List.length (m_map n) - List.length torrents) n1)
    as (_ & _ & Ht2 & Hs2 & _ & Hi2 & Hmu2 & Hc2).
  eexists. split; [reflexivity|].
  cbn [set_m_map m_immutable_table m_map m_mutable_table m_table m_secret
       m_counters].
  split; [|split; [|split; [|split; [|split; [|split]]]]].
  - intros k i. rewrite Hi2. subst n1. cbn [set_m_immutable_table m_immutable_table].
    subst items. rewrite filter_In. unfold fresh_item. cbn [snd].
    rewrite Z.gtb_ltb, Z.ltb_lt. reflexivity.
  - intros k t'. subst torrents. rewrite filter_In, in_map_iff.
    unfold has_peers, purged. cbn [snd]. split.
    + intros (([k0 t] & Heq & Hin) & Hp). cbn [fst snd] in Heq.
      inversion Heq; subst k0 t'. cbn [peers te_name] in *.
      split; [destruct (purge_peers tpm now (peers t)); congruence|].
      exists t. auto.
    + intros (Hne & t & Hin & Hname & Hpeers). split.
      * exists (k, t). split; [|exact Hin]. cbn [fst snd].
        destruct t' as [nm ps]. cbn [te_name peers] in *. congruence.
      * destruct (peers t'); congruence.
  - intros p ps. apply In_purge_peers.
  - rewrite Hmu2. exact Hmu1.
  - rewrite Ht2. exact Ht1.
  - rewrite Hs2. exact Hs1.
  - rewrite Hi2, Hc2. subst n1.
    cbn [set_m_immutable_table m_immutable_table m_counters].
    rewrite Hc1. reflexivity.
Qed.


(** ** What every answer carries *)

Lemma bind_returns {A B : Type} (c : outcome A) (k : A -> outcome B) (b : B) :
  bind c k = Ret b -> exists a, c = Ret a /\ k a = Ret b.
Proof. destruct c as [a|]; cbn; [eauto | discriminate]. Qed.

Lemma bind_release {A : Type} (cond : bool) (k : unit -> outcome A) :
  bind (TORRENT_ASSERT false cond) k = k tt.
Proof. reflexivity. Qed.

(** A reply that is being written: a dictionary with the transaction id
    [t], with ["y"] = ["r"] and without ["e"]. *)
Definition answer_open (t : string) (e : entry) : Prop :=
  exists d, e = entry_dictionary d
            /\ map_find "t" d = Some (entry_string t)
            /\ map_find "y" d = Some (entry_string "r")
            /\ map_find "e" d = None.

(** A reply as it is sent: a response without ["e"], or an error with its
    code and text; both with the transaction id. *)
Definition answer_closed (t : string) (e : entry) : Prop :=
  find_key e "t" = Some (entry_string t)
  /\ ((is_response e /\ find_key e "e" = None)
      \/ exists code text, is_error e code text).

Lemma answer_open_set (t k : string) (v e : entry) :
  k <> "t" -> k <> "y" -> k <> "e" ->
  answer_open t e -> answer_open t (entry_set k v e).
Proof.
  intros Ht Hy He (d & -> & H1 & H2 & H3). exists (map_set k v d).
  split; [reflexivity|].
  rewrite !map_find_set_other by congruence. auto.
Qed.

Lemma answer_open_reply_set (t k : string) (v e : entry) :
  answer_open t e -> answer_open t (reply_set k v e).
Proof. intros H. unfold reply_set. apply answer_open_set; easy. Qed.

Lemma answer_open_nodes {C : collaborators} (t : string) (e : entry)
    (nodes : list node_entry) :
  answer_open t e -> answer_open t (write_nodes_entry e nodes).
Proof. intros H. unfold write_nodes_entry. now apply answer_open_reply_set. Qed.

Lemma answer_open_closed (t : string) (e : entry) :
  answer_open t e -> answer_closed t e.
Proof.
  intros (d & -> & H1 & H2 & H3). split; [exact H1|]. left. split; assumption.
Qed.

Lemma answer_error (t : string) (e : entry) (text : string) (code : Z) :
  answer_open t e -> answer_closed t (incoming_error e text code).
Proof.
  intros (d & -> & H1 & H2 & H3). unfold incoming_error.
  cbn [entry_set entry_get].
  rewrite map_find_set_other by easy. rewrite H3.
  cbn [list_push_back app]. split.
  - cbn [find_key]. rewrite !map_find_set_other by easy. exact H1.
  - right. exists code, text. split; cbn [find_key].
    + rewrite map_find_set_other by easy. apply map_find_set_same.
    + apply map_find_set_same.
Qed.

Lemma answer_open_head {C : collaborators} (n : node) (m : msg) :
  answer_open (dict_find_string_value (message m) "t") (reply_head n m).
Proof. eexists. split; [reflexivity|]. repeat split. Qed.

(** What no query changes: the id, the settings and the secrets. *)
Definition node_kept {C : collaborators} (n n' : node) : Prop :=
  m_id n' = m_id n /\ m_settings n' = m_settings n /\ m_secret n' = m_secret n.

Lemma node_kept_refl {C : collaborators} (n : node) : node_kept n n.
Proof. repeat split. Qed.

Lemma node_kept_trans {C : collaborators} (n1 n2 n3 : node) :
  node_kept n1 n2 -> node_kept n2 n3 -> node_kept n1 n3.
Proof. unfold node_kept. intros (?&?&?) (?&?&?). repeat split; congruence. Qed.

Lemma generate_token_release {C : collaborators} (n : node) (a : endpoint)
    (h : string) :
  exists token, generate_token false n a h = Ret token.
Proof.
  unfold generate_token. destruct (to_string (address_of a)) as [s ec].
  rewrite !bind_release. eexists. reflexivity.
Qed.

Lemma get_peers_request_answer {C : collaborators} (asserts_on : bool)
    (t : string) (n : node) (m : msg) (e : entry) (arg_ent : bdecode_node)
    (n' : node) (e' : entry) :
  answer_open t e ->
  get_peers_request asserts_on n m e arg_ent = Ret (n', e') ->
  answer_closed t e' /\ node_kept n n' /\ m_table n' = m_table n.
Proof.
  intros Ho. unfold get_peers_request.
  destruct (verify_message arg_ent get_peers_desc) as [msg_keys|err].
  - intros H. apply bind_returns in H. destruct H as (token & _ & H).
    inversion H; subst n' e'. clear H.
    split; [|split; [repeat split|reflexivity]].
    apply answer_open_closed, answer_open_set; try easy.
    now apply answer_open_nodes, answer_open_reply_set.
  - intros H. inversion H; subst n' e'.
    split; [now apply answer_error|]. split; [repeat split|reflexivity].
Qed.

Lemma find_node_request_answer {C : collaborators} (t : string) (n : node)
    (e : entry) (arg_ent : bdecode_node) :
  answer_open t e ->
  answer_closed t (snd (find_node_request n e arg_ent))
  /\ node_kept n (fst (find_node_request n e arg_ent))
  /\ m_table (fst (find_node_request n e arg_ent)) = m_table n.
Proof.
  intros Ho. unfold find_node_request.
  destruct (verify_message arg_ent find_node_desc) as [msg_keys|err];
    cbn [fst snd].
  - split; [|split; [repeat split|reflexivity]].
    now apply answer_open_closed, answer_open_nodes.
  - split; [now apply answer_error|]. split; [repeat split|reflexivity].
Qed.

Lemma unknown_request_answer {C : collaborators} (t : string) (n : node)
    (e : entry) (arg_ent : bdecode_node) :
  answer_open t e ->
  answer_closed t (snd (unknown_request n e arg_ent))
  /\ node_kept n (fst (unknown_request n e arg_ent))
  /\ m_table (fst (unknown_request n e arg_ent)) = m_table n.
Proof.
  intros Ho. unfold unknown_request.
  repeat match goal with
         | |- context [if ?b then _ else _] => destruct b
         end; cbn [fst snd];
    (split; [|split; [repeat split|reflexivity]]);
    first [ now apply answer_error
          | now apply answer_open_closed, answer_open_nodes ].
Qed.

Lemma announce_peer_request_answer {C : collaborators} (t : string) (now : Z)
    (n : node) (m : msg) (e : entry) (arg_ent : bdecode_node) (id : string) :
  answer_open t e ->
  answer_closed t (snd (announce_peer_request now n m e arg_ent id))
  /\ node_kept n (fst (announce_peer_request now n m e arg_ent id)).
Proof.
  intros Ho. unfold announce_peer_request.
  destruct (verify_message arg_ent announce_peer_desc) as [msg_keys|err];
    cbn [fst snd].
  2:{ split; [now apply answer_error | repeat split]. }
  cbv zeta.
  destruct (_ || _); cbn [fst snd].
  { split; [now apply answer_error | repeat split]. }
  destruct (negb (verify_token _ _ _ _)); cbn [fst snd].
  { split; [now apply answer_error | repeat split]. }
  split; [now apply answer_open_closed|].
  unfold node_kept.
  cbn [set_m_map inc_stats_counter set_m_table m_id m_settings m_secret m_map].
  destruct (map_find _ _); [repeat split|].
  destruct (_ && _); repeat split.
Qed.

Lemma put_immutable_kept {C : collaborators} (asserts_on : bool) (n n' : node)
    (target buf : string) :
  put_immutable asserts_on n target buf = Ret n' ->
  node_kept n n' /\ m_table n' = m_table n.
Proof.
  unfold put_immutable.
  destruct (map_find target (m_immutable_table n)).
  { intros H. inversion H. repeat split. }
  intros H. apply bind_returns in H. destruct H as (n1 & H1 & H).
  inversion H; subst n'. clear H.
  cbn [inc_stats_counter set_m_immutable_table m_id m_settings m_secret m_table].
  unfold node_kept.
  cbn [inc_stats_counter set_m_immutable_table m_id m_settings m_secret m_table].
  destruct (map_size _ >=? _).
  - apply bind_returns in H1. destruct H1 as (u & _ & H1).
    inversion H1; subst n1. repeat split.
  - inversion H1; subst n1. repeat split.
Qed.

Lemma put_mutable_kept {C : collaborators} (asserts_on : bool) (n n' : node)
    (target buf salt_ : string) (msg_keys : list bdecode_node) :
  put_mutable asserts_on n target buf salt_ msg_keys = Ret (inl n') ->
  node_kept n n' /\ m_table n' = m_table n.
Proof.
  unfold put_mutable.
  destruct (map_find target (m_mutable_table n)) as [item|].
  - destruct (_ && _); [discriminate|].
    destruct (_ >? _); [discriminate|].
    destruct (_ <? _).
    + intros H. apply bind_returns in H. destruct H as (u & _ & H).
      inversion H; subst n'. repeat split.
    + intros H. inversion H; subst n'. repeat split.
  - intros H. apply bind_returns in H. destruct H as (n1 & H1 & H).
    apply bind_returns in H. destruct H as (u & _ & H).
    inversion H; subst n'. clear H.
    unfold node_kept.
    cbn [inc_stats_counter set_m_mutable_table m_id m_settings m_secret
         m_table].
    destruct (map_size _ >=? _).
    + apply bind_returns in H1. destruct H1 as (u1 & _ & H1).
      inversion H1; subst n1. repeat split.
    + inversion H1; subst n1. repeat split.
Qed.

Lemma put_request_answer {C : collaborators} (asserts_on : bool) (t : string)
    (now : Z) (n : node) (m : msg) (e : entry) (arg_ent : bdecode_node)
    (id : string) (n' : node) (e' : entry) :
  answer_open t e ->
  put_request asserts_on now n m e arg_ent id = Ret (n', e') ->
  answer_closed t e' /\ node_kept n n'.
Proof.
  intros Ho. unfold put_request, put_invalid.
  assert (Hbad : forall n1 text code,
            node_kept n n1 ->
            Ret (inc_stats_counter dht_invalid_put 1 n1,
                 incoming_error e text code) = Ret (n', e') ->
            answer_closed t e' /\ node_kept n n').
  { intros n1 text code Hk H. inversion H; subst n' e'.
    split; [now apply answer_error|].
    destruct Hk as (?&?&?). repeat split; assumption. }
  destruct (verify_message arg_ent put_desc) as [msg_keys|err].
  2:{ apply Hbad, node_kept_refl. }
  cbv zeta.
  destruct (_ || _); [apply Hbad; repeat split|].
  destruct (_ >? 64); [apply Hbad; repeat split|].
  destruct (negb (verify_token _ _ _ _)); [apply Hbad; repeat split|].
  intros H. apply bind_returns in H. destruct H as (stored & Hs & H).
  destruct stored as [n1 | [text code]].
  - inversion H; subst n' e'. clear H.
    split; [now apply answer_open_closed|].
    assert (Hk : node_kept (inc_stats_counter dht_put_in 1 n) n1).
    { destruct (negb (_ && _ && _)).
      - apply bind_returns in Hs. destruct Hs as (n2 & H2 & Hs).
        inversion Hs; subst n2. now apply put_immutable_kept in H2.
      - destruct (negb (verify_mutable_item _ _ _ _ _)); [discriminate|].
        now apply put_mutable_kept in Hs. }
    destruct Hk as (K1 & K2 & K3). unfold node_kept.
    destruct (negb (_ && _ && _));
      destruct (map_find _ _);
      cbn [set_m_immutable_table set_m_mutable_table set_m_table m_id
           m_settings m_secret];
      rewrite K1, K2, K3; repeat split.
  - revert H. apply Hbad.
    destruct (negb (_ && _ && _)).
    + apply bind_returns in Hs. destruct Hs as (n2 & H2 & Hs). discriminate.
    + repeat split.
Qed.

Lemma get_request_answer {C : collaborators} (asserts_on : bool) (t : string)
    (n : node) (m : msg) (e : entry) (arg_ent : bdecode_node)
    (n' : node) (e' : entry) :
  answer_open t e ->
  get_request asserts_on n m e arg_ent = Ret (n', e') ->
  answer_closed t e' /\ node_kept n n' /\ m_table n' = m_table n.
Proof.
  intros Ho. unfold get_request.
  destruct (verify_message arg_ent get_desc) as [msg_keys|err].
  2:{ intros H. inversion H; subst n' e'.
      split; [now apply answer_error|]. split; [repeat split|reflexivity]. }
  intros H. apply bind_returns in H. destruct H as (token & _ & H).
  assert (Ho' : answer_open t
                  (write_nodes_entry
                     (reply_set "token" (entry_string token) e)
                     (find_node (m_table (inc_stats_counter dht_get_in 1 n))
                        (string_ptr (at_ msg_keys 1)))))
    by now apply answer_open_nodes, answer_open_reply_set.
  revert H. cbv zeta.
  repeat match goal with
         | |- context [match ?x with Some _ => _ | None => _ end] =>
             destruct x
         | |- context [if ?b then _ else _] => destruct b
         end;
    intros H; inversion H; subst n' e';
    (split; [|split; [repeat split|reflexivity]]);
    apply answer_open_closed;
    repeat first [exact Ho' | apply answer_open_reply_set].
Qed.

Lemma put_immutable_release {C : collaborators} (n : node)
    (target buf : string) :
  exists n', put_immutable false n target buf = Ret n'.
Proof.
  unfold put_immutable. destruct (map_find _ _); [eauto|].
  destruct (_ >=? _); rewrite ?bind_release; cbn [bind]; eauto.
Qed.

Lemma put_mutable_release {C : collaborators} (n : node)
    (target buf salt_ : string) (msg_keys : list bdecode_node) :
  exists r, put_mutable false n target buf salt_ msg_keys = Ret r.
Proof.
  unfold put_mutable. destruct (map_find _ _).
  - repeat match goal with
           | |- context [if ?b then _ else _] => destruct b
           end; rewrite ?bind_release; eauto.
  - destruct (_ >=? _); rewrite ?bind_release; cbn [bind];
      rewrite ?bind_release; eauto.
Qed.

Lemma dispatch_release {C : collaborators} (now : Z) (n : node) (m : msg)
    (e : entry) (q : string) (arg_ent : bdecode_node) (id : string) :
  exists r, dispatch false now n m e q arg_ent id = Ret r.
Proof.
  unfold dispatch.
  destruct (String.eqb q "ping"); [eauto|].
  destruct (String.eqb q "get_peers").
  { unfold get_peers_request. destruct (verify_message _ _); [|eauto].
    destruct (generate_token_release n (addr m) (string_ptr (at_ l 0)))
      as (token & ->). cbn [bind]. eauto. }
  destruct (String.eqb q "find_node"); [eauto|].
  destruct (String.eqb q "announce_peer"); [eauto|].
  destruct (String.eqb q "put").
  { unfold put_request, put_invalid.
    destruct (verify_message _ _) as [msg_keys|]; [|eauto]. cbv zeta.
    destruct (_ || _); [eauto|].
    destruct (_ >? 64); [eauto|].
    destruct (negb (verify_token _ _ _ _)); [eauto|].
    destruct (negb (_ && _ && _)).
    - match goal with
      | |- context [put_immutable false ?a ?b ?c] =>
          destruct (put_immutable_release a b c) as (n1 & ->)
      end. cbn [bind]. eauto.
    - destruct (negb (verify_mutable_item _ _ _ _ _)); [cbn [bind]; eauto|].
      match goal with
      | |- context [put_mutable false ?a ?b ?c ?d ?k] =>
          destruct (put_mutable_release a b c d k) as ([n1|[text code]] & ->)
      end; cbn [bind]; eauto. }
  destruct (String.eqb q "get"); [|eauto].
  unfold get_request. destruct (verify_message _ _) as [msg_keys|]; [|eauto].
  match goal with
  | |- context [generate_token false ?a ?b ?c] =>
      destruct (generate_token_release a b c) as (token & ->)
  end. cbn [bind]. cbv zeta.
  repeat match goal with
         | |- context [match ?x with Some _ => _ | None => _ end] =>
             destruct x
         | |- context [if ?b then _ else _] => destruct b
         end; eauto.
Qed.

Lemma dispatch_answer {C : collaborators} (asserts_on : bool) (t : string)
    (now : Z) (n : node) (m : msg) (e : entry) (q : string)
    (arg_ent : bdecode_node) (id : string) (n' : node) (e' : entry) :
  answer_open t e ->
  dispatch asserts_on now n m e q arg_ent id = Ret (n', e') ->
  answer_closed t e' /\ node_kept n n'
  /\ (q <> "announce_peer" -> q <> "put" -> m_table n' = m_table n).
Proof.
  intros Ho. unfold dispatch.
  destruct (String.eqb q "ping") eqn:E1.
  { intros H. inversion H; subst n' e'.
    split; [now apply answer_open_closed|]. split; [repeat split|reflexivity]. }
  destruct (String.eqb q "get_peers") eqn:E2.
  { intros H. apply (get_peers_request_answer _ t) in H; [|exact Ho]. tauto. }
  destruct (String.eqb q "find_node") eqn:E3.
  { intros H. inversion H.
    destruct (find_node_request_answer t n e arg_ent Ho) as (A & B & D).
    rewrite H1 in A, B, D. tauto. }
  destruct (String.eqb q "announce_peer") eqn:E4.
  { intros H. inversion H.
    destruct (announce_peer_request_answer t now n m e arg_ent id Ho)
      as (A & B).
    rewrite H1 in A, B. apply String.eqb_eq in E4. tauto. }
  destruct (String.eqb q "put") eqn:E5.
  { intros H. apply (put_request_answer _ t) in H; [|exact Ho].
    apply String.eqb_eq in E5. tauto. }
  destruct (String.eqb q "get") eqn:E6.
  { intros H. apply (get_request_answer _ t) in H; [|exact Ho]. tauto. }
  intros H. inversion H.
  destruct (unknown_request_answer t n e arg_ent Ho) as (A & B & D).
  rewrite H1 in A, B, D. tauto.
Qed.

Lemma incoming_request_release {C : collaborators} (has_quota : bool)
    (now : Z) (n : node) (m : msg) (e : entry) :
  exists r, incoming_request false has_quota now n m e = Ret r.
Proof.
  unfold incoming_request. destruct (negb has_quota); [eauto|].
  destruct (verify_message (message m) top_desc) as [top_level|];
    [|eauto].
  cbv zeta. destruct (_ && negb (verify_id _ _)); [eauto|].
  apply dispatch_release.
Qed.

(** X15.  With quota, a release build answers every message, and whatever
    [incoming_request] answers carries the transaction id of the message
    under ["t"] and is either a response without ["e"] or an error with a
    code and a text; no query changes the node's id, settings or secrets. *)
Theorem incoming_request_answers {C : collaborators} (asserts_on : bool)
    (now : Z) (n : node) (m : msg) (e : entry) :
  (exists r, incoming_request false true now n m e = Ret r)
  /\ forall (n' : node) (e' : entry),
       incoming_request asserts_on true now n m e = Ret (n', e') ->
       find_key e' "t"
       = Some (entry_string (dict_find_string_value (message m) "t"))
       /\ ((is_response e' /\ find_key e' "e" = None)
           \/ exists code text, is_error e' code text)
       /\ m_id n' = m_id n
       /\ m_settings n' = m_settings n
       /\ m_secret n' = m_secret n.
Proof.
  assert (Hopen : answer_open (dict_find_string_value (message m) "t")
                    (entry_set "t"
                       (entry_string (dict_find_string_value (message m) "t"))
                       (entry_set "y" (entry_string "r")
                          (entry_dictionary [])))).
  { eexists. split; [reflexivity|]. repeat split. }
  split; [apply incoming_request_release|].
  intros n' e'.
  unfold incoming_request. cbn [negb].
  destruct (verify_message (message m) top_desc) as [top_level|err].
  2:{ intros H. inversion H; subst n' e'.
      destruct (answer_error _ _ err default_error_code Hopen) as (A & B).
      auto. }
  cbv zeta. destruct (_ && negb (verify_id _ _)).
  { intros H. inversion H; subst n' e'.
    assert (Ho : answer_open (dict_find_string_value (message m) "t")
                   (entry_set "ip"
                      (entry_string (endpoint_to_bytes (addr m)))
                      (entry_set "t"
                         (entry_string
                            (dict_find_string_value (message m) "t"))
                         (entry_set "y" (entry_string "r")
                            (entry_dictionary [])))))
      by now apply answer_open_set.
    destruct (answer_error _ _ "invalid node ID" default_error_code Ho)
      as (A & B).
    auto. }
  intros H.
  apply (dispatch_answer _ (dict_find_string_value (message m) "t")) in H.
  - destruct H as ((A & B) & (K1 & K2 & K3) & _).
    split; [exact A|]. split; [exact B|].
    destruct (negb (is_set _ && _)); cbn in K1, K2, K3; auto.
  - now apply answer_open_reply_set, answer_open_reply_set,
      answer_open_set.
Qed.

(** X16.  A query that is marked read-only ([ro] present and not 0) and
    is neither [announce_peer] nor [put] is answered (always, in a release
    build) with the routing table left as it is: neither [heard_about] nor
    [node_seen] is called for its sender. *)
Theorem read_only_query_not_heard {C : collaborators} (now : Z) (n : node)
    (m : msg) (e : entry) (top_level : list bdecode_node) :
  verify_message (message m) top_desc = inl top_level ->
  is_set (at_ top_level 1) = true ->
  int_value (at_ top_level 1) <> 0 ->
  string_ptr (at_ top_level 0) <> "announce_peer" ->
  string_ptr (at_ top_level 0) <> "put" ->
  (exists r, incoming_request false true now n m e = Ret r)
  /\ forall (asserts_on : bool) (n' : node) (e' : entry),
       incoming_request asserts_on true now n m e = Ret (n', e') ->
       m_table n' = m_table n.
Proof.
  intros Hhead Hro Hnz Hq1 Hq2.
  split; [apply incoming_request_release|].
  intros asserts_on n' e'. unfold incoming_request. cbn [negb].
  rewrite Hhead. cbv zeta.
  destruct (_ && negb (verify_id _ _)).
  { intros H. now inversion H. }
  rewrite Hro. replace (int_value (at_ top_level 1) =? 0) with false
    by (symmetry; now apply Z.eqb_neq).
  cbn [negb andb]. intros H.
  assert (Ho : answer_open (dict_find_string_value (message m) "t")
                 (reply_set "p" (entry_int (port (addr m)))
                    (reply_set "id" (entry_string (m_id n))
                       (entry_set "ip"
                          (entry_string (endpoint_to_bytes (addr m)))
                          (entry_set "t"
                             (entry_string
                                (dict_find_string_value (message m) "t"))
                             (entry_set "y" (entry_string "r")
                                (entry_dictionary []))))))).
  { apply answer_open_reply_set, answer_open_reply_set, answer_open_set;
      try easy.
    eexists. split; [reflexivity|]. repeat split. }
  apply (dispatch_answer _ _ _ _ _ _ _ _ _ _ _ Ho) in H.
  destruct H as (_ & _ & H). now apply H.
Qed.


(** ** [incoming] *)

(** The first byte of ["y"], by which [incoming] tells queries, replies
    and errors apart; [None] when there is no such string or it is empty. *)
Definition kind (m : msg) : option ascii :=
  first_char (dict_find_string_value (message m) "y").

Lemma kind_None (m : msg) :
  kind m = None
  <-> negb (is_set (dict_find_string (message m) "y"))
      || (string_length (dict_find_string (message m) "y") =? 0) = true.
Proof.
  unfold kind, dict_find_string_value, string_length, dict_find_string.
  destruct (dict_find (message m) "y") as [[d|l|str|i]|];
    cbn; try (split; intros H; congruence).
  destruct str; cbn; split; intros H; congruence.
Qed.

(** The [switch (y)] of [incoming], by comparisons. *)
Lemma kind_cases (A : Type) (c : ascii) (reply query other : A) :
  match Some c with
  | Some "r"%char | Some "e"%char => reply
  | Some "q"%char => query
  | _ => other
  end
  = if Ascii.eqb c "r" || Ascii.eqb c "e" then reply
    else if Ascii.eqb c "q" then query else other.
Proof.
  destruct c as [b0 b1 b2 b3 b4 b5 b6 b7].
  destruct b0, b1, b2, b3, b4, b5, b6, b7; reflexivity.
Qed.

(** X17.  [incoming] in a release build always returns.  Only a message
    whose ["y"] starts with [q] reaches [incoming_request], and then
    exactly one packet goes out, to the address the message came from;
    without quota that packet is the entry as it was constructed, and the
    node is unchanged.  Replies and errors go to the RPC manager only.
    A message without ["y"], or with an empty one, changes nothing.  The
    observer is told at most one external address, with the sender's
    address as the source.  With assertions on, a query that gets through
    has ["y"] equal to ["q"]. *)
Theorem incoming_routes {C : collaborators} {R : rpc_collaborator}
    (asserts_on use_ipv6 has_observer has_quota : bool) (now : Z)
    (s : node_io) (m : msg) :
  (exists s', incoming false use_ipv6 has_observer has_quota now s m = Ret s')
  /\ forall s' : node_io,
       incoming asserts_on use_ipv6 has_observer has_quota now s m = Ret s' ->
       (kind m = Some "q"%char ->
        exists e : entry,
          incoming_request asserts_on has_quota now (the_node s) m
            entry_undefined = Ret (the_node s', e)
          /\ sent s' = (sent s ++ [(e, addr m)])%list
          /\ m_rpc s' = m_rpc s
          /\ (has_quota = false ->
              e = entry_undefined /\ the_node s' = the_node s)
          /\ (asserts_on = true ->
              dict_find_string_value (message m) "y" = "q"))
       /\ (kind m <> Some "q"%char ->
           sent s' = sent s /\ the_node s' = the_node s)
       /\ (kind m = Some "r"%char \/ kind m = Some "e"%char ->
           m_rpc s' = rpc_incoming (m_rpc s) m (m_settings (the_node s)))
       /\ (kind m <> Some "r"%char -> kind m <> Some "e"%char ->
           m_rpc s' = m_rpc s)
       /\ (kind m = None -> s' = s)
       /\ exists told : list (address * address),
            external_address s' = (external_address s ++ told)%list
            /\ (List.length told <= 1)%nat
            /\ forall a b, In (a, b) told ->
                 b = address_of (addr m) /\ has_observer = true.
Proof.
  unfold incoming.
  destruct (negb (is_set (dict_find_string (message m) "y"))
            || (string_length (dict_find_string (message m) "y") =? 0))
    eqn:Hbroken.
  { apply kind_None in Hbroken. split; [eauto|].
    intros s' H. inversion H; subst s'. rewrite Hbroken.
    repeat split; try congruence.
    - intros [H1|H1]; discriminate.
    - exists []. rewrite app_nil_r. split; [reflexivity|].
      split; [cbn; lia|]. intros a b []. }
  assert (Hkind : kind m <> None).
  { intros Hk. apply kind_None in Hk. congruence. }
  cbv zeta.
  match goal with
  | |- context [first_char ?y] =>
      change (first_char y) with (kind m) in *
  end.
  match goal with
  | |- context [if use_ipv6 && ?a && ?b then ?x else if ?c then ?y else s] =>
      set (s1 := if use_ipv6 && a && b then x else if c then y else s)
  end.
  assert (Hs1 : the_node s1 = the_node s /\ m_rpc s1 = m_rpc s
                /\ sent s1 = sent s
                /\ exists told : list (address * address),
                     external_address s1 = (external_address s ++ told)%list
                     /\ (List.length told <= 1)%nat
                     /\ forall a b, In (a, b) told ->
                          b = address_of (addr m) /\ has_observer = true).
  { subst s1.
    assert (Hnone : exists told : list (address * address),
               external_address s = (external_address s ++ told)%list
               /\ (List.length told <= 1)%nat
               /\ forall a b, In (a, b) told ->
                    b = address_of (addr m) /\ has_observer = true).
    { exists []. rewrite app_nil_r. split; [reflexivity|].
      split; [cbn; lia|]. intros a b []. }
    assert (Htold : forall a0 : address,
               the_node (if has_observer
                         then mk_node_io (the_node s) (m_rpc s) (sent s)
                                (external_address s
                                 ++ [(a0, address_of (addr m))])
                         else s) = the_node s
               /\ m_rpc (if has_observer
                         then mk_node_io (the_node s) (m_rpc s) (sent s)
                                (external_address s
                                 ++ [(a0, address_of (addr m))])
                         else s) = m_rpc s
               /\ sent (if has_observer
                        then mk_node_io (the_node s) (m_rpc s) (sent s)
                               (external_address s
                                ++ [(a0, address_of (addr m))])
                        else s) = sent s
               /\ exists told : list (address * address),
                    external_address
                      (if has_observer
                       then mk_node_io (the_node s) (m_rpc s) (sent s)
                              (external_address s
                               ++ [(a0, address_of (addr m))])
                       else s)
                    = (external_address s ++ told)%list
                    /\ (List.length told <= 1)%nat
                    /\ forall a b, In (a, b) told ->
                         b = address_of (addr m) /\ has_observer = true).
    { intros a0. destruct has_observer.
      - split; [reflexivity|]. split; [reflexivity|].
        split; [reflexivity|].
        exists [(a0, address_of (addr m))]. split; [reflexivity|].
        split; [cbn; lia|].
        intros a b [Hab|[]]. inversion Hab. split; reflexivity.
      - split; [reflexivity|]. split; [reflexivity|].
        split; [reflexivity|]. exact Hnone. }
    destruct (use_ipv6 && _ && _); [apply Htold|].
    destruct (_ && _); [apply Htold|].
    split; [reflexivity|]. split; [reflexivity|]. split; [reflexivity|].
    exact Hnone. }
  destruct Hs1 as (Hn1 & Hr1 & Hp1 & Htold).
  clearbody s1.
  destruct (kind m) as [c|] eqn:Hk; [|congruence].
  rewrite !kind_cases.
  assert (Hsome : forall a b : ascii, Some a = Some b <-> a = b)
    by (intros a b; split; congruence).
  destruct Htold as (told & Hext & Hlen & Hin).
  destruct (Ascii.eqb c "r" || Ascii.eqb c "e") eqn:Ere.
  - (* a reply or an error *)
    assert (Hc : c = "r"%char \/ c = "e"%char).
    { apply orb_true_iff in Ere. destruct Ere as [E|E];
        apply Ascii.eqb_eq in E; auto. }
    assert (Hq : c <> "q"%char) by (destruct Hc; subst c; discriminate).
    split; [eauto|]. intros s' H. injection H as <-.
    cbn [the_node m_rpc sent external_address]. rewrite !Hsome.
    split; [tauto|]. split; [auto|].
    split; [intros _; now rewrite Hr1, Hn1|].
    split; [tauto|]. split; [discriminate|].
    exists told. auto.
  - apply orb_false_iff in Ere. destruct Ere as [Er Ee].
    apply Ascii.eqb_neq in Er, Ee.
    destruct (Ascii.eqb c "q") eqn:Eq.
    + (* a query *)
      apply Ascii.eqb_eq in Eq. subst c.
      split.
      * rewrite bind_release.
        destruct (incoming_request_release has_quota now (the_node s1) m
                    entry_undefined) as ([n e] & ->).
        cbn [bind]. eauto.
      * intros s' H. apply bind_returns in H. destruct H as ([] & Ha & H).
        apply bind_returns in H. destruct H as ([n e] & Hreq & H).
        injection H as <-.
        cbn [the_node m_rpc sent external_address]. rewrite !Hsome.
        split.
        -- intros _. exists e. rewrite <- Hn1, Hp1.
           split; [exact Hreq|]. split; [reflexivity|]. split; [exact Hr1|].
           split.
           ++ intros ->. unfold incoming_request in Hreq. cbn in Hreq.
              inversion Hreq. auto.
           ++ intros ->. unfold TORRENT_ASSERT in Ha. cbn [andb] in Ha.
              destruct (String.eqb _ "q") eqn:Heq; [|discriminate].
              now apply String.eqb_eq in Heq.
        -- split; [tauto|]. split; [intros [H|H]; discriminate|].
           split; [intros _ _; exact Hr1|]. split; [discriminate|].
           exists told. auto.
    + (* anything else *)
      apply Ascii.eqb_neq in Eq.
      split; [eauto|]. intros s' H. injection H as <-.
      rewrite !Hsome.
      split; [tauto|]. split; [auto|]. split; [tauto|].
      split; [auto|]. split; [discriminate|].
      exists told. auto.
Qed.


(** ** The tables stay sorted and within their limits *)

(** A [std::map] keeps its keys in increasing order, each once. *)
Definition key_lt {V : Type} (a b : string * V) : Prop :=
  String.compare (fst a) (fst b) = Lt.

Definition sorted_map {V : Type} (m : list (string * V)) : Prop :=
  Sorted.StronglySorted key_lt m.

Lemma compare_lt_trans (a b c : string) :
  String.compare a b = Lt -> String.compare b c = Lt ->
  String.compare a c = Lt.
Proof.
  intros H1 H2.
  apply OrderedTypeEx.String_as_OT.cmp_lt in H1, H2.
  apply OrderedTypeEx.String_as_OT.cmp_lt.
  eapply OrderedTypeEx.String_as_OT.lt_trans; eassumption.
Qed.

Lemma compare_gt_lt (a b : string) :
  String.compare a b = Gt -> String.compare b a = Lt.
Proof.
  intros H. rewrite String.compare_antisym, H. reflexivity.
Qed.

Lemma In_map_set (V : Type) (k : string) (v : V) (m : list (string * V))
    (x : string * V) :
  In x (map_set k v m) -> x = (k, v) \/ In x m.
Proof.
  induction m as [|[k' v'] m IH]; cbn.
  - intros [H|[]]; auto.
  - destruct (String.compare k k'); cbn; intros [H|H]; auto.
    destruct (IH H); auto.
Qed.

Lemma sorted_map_set (V : Type) (k : string) (v : V) (m : list (string * V)) :
  sorted_map m -> sorted_map (map_set k v m).
Proof.
  unfold sorted_map. induction 1 as [|[k' v'] m Hs IH Hall].
  - cbn. constructor; constructor.
  - cbn. destruct (String.compare k k') eqn:E.
    + apply String.compare_eq_iff in E. subst k'.
      constructor; [exact Hs|]. exact Hall.
    + constructor; [constructor; assumption|].
      constructor; [exact E|].
      eapply Forall_impl; [|exact Hall].
      intros [k2 v2]. unfold key_lt. cbn. intros H2.
      eapply compare_lt_trans; eassumption.
    + constructor; [exact IH|].
      apply Forall_forall. intros x Hx. apply In_map_set in Hx.
      destruct Hx as [->|Hx].
      * unfold key_lt. cbn. now apply compare_gt_lt.
      * rewrite Forall_forall in Hall. now apply Hall.
Qed.

Lemma sorted_map_set_length (V : Type) (k : string) (v v0 : V)
    (m : list (string * V)) :
  sorted_map m -> map_find k m = Some v0 ->
  List.length (map_set k v m) = List.length m.
Proof.
  unfold sorted_map. induction 1 as [|[k' v'] m Hs IH Hall]; [discriminate|].
  cbn. rewrite compare_eqb. destruct (String.compare k k') eqn:E.
  - reflexivity.
  - intros Hf. exfalso.
    assert (Hin : exists kv, In kv m /\ fst kv = k).
    { clear -Hf. induction m as [|[k2 v2] m IHm]; [discriminate|].
      cbn in Hf. destruct (String.eqb k k2) eqn:E2.
      - apply String.eqb_eq in E2. subst. exists (k2, v2). cbn. auto.
      - destruct (IHm Hf) as (kv & H1 & H2). exists kv. cbn. auto. }
    destruct Hin as (kv & Hin & <-).
    rewrite Forall_forall in Hall. specialize (Hall kv Hin).
    unfold key_lt in Hall. cbn in Hall.
    pose proof (compare_lt_trans _ _ _ E Hall) as Hc.
    rewrite compare_refl in Hc. discriminate.
  - intros Hf. cbn. f_equal. now apply IH.
Qed.

Lemma In_erase_at (V : Type) (i : nat) (m : list V) (x : V) :
  In x (erase_at i m) -> In x m.
Proof.
  revert i. induction m as [|y m IH]; intros [|i]; cbn; auto.
  intros [H|H]; eauto.
Qed.

Lemma sorted_erase_at (V : Type) (i : nat) (m : list (string * V)) :
  sorted_map m -> sorted_map (erase_at i m).
Proof.
  unfold sorted_map. intros Hs. revert i.
  induction Hs as [|kv m Hs IH Hall]; intros [|i]; cbn;
    try constructor; auto.
  apply Forall_forall. intros x Hx. apply In_erase_at in Hx.
  rewrite Forall_forall in Hall. now apply Hall.
Qed.

Lemma sorted_filter (V : Type) (f : string * V -> bool)
    (m : list (string * V)) :
  sorted_map m -> sorted_map (filter f m).
Proof.
  unfold sorted_map. induction 1 as [|kv m Hs IH Hall]; cbn;
    [constructor|].
  destruct (f kv); [|exact IH].
  constructor; [exact IH|].
  apply Forall_forall. intros x Hx. apply filter_In in Hx.
  rewrite Forall_forall in Hall. now apply Hall.
Qed.

Lemma sorted_purged (tpm now : Z) (m : list (string * torrent_entry)) :
  sorted_map m -> sorted_map (map (purged tpm now) m).
Proof.
  unfold sorted_map. induction 1 as [|kv m Hs IH Hall]; cbn;
    constructor; [exact IH|].
  apply Forall_forall. intros x Hx. apply in_map_iff in Hx.
  destruct Hx as (y & <- & Hy).
  rewrite Forall_forall in Hall. exact (Hall y Hy).
Qed.

(** The three tables are maps, and none is larger than the settings
    allow. *)
Definition bounded {C : collaborators} (n : node) : Prop :=
  sorted_map (m_map n)
  /\ sorted_map (m_immutable_table n)
  /\ sorted_map (m_mutable_table n)
  /\ map_size (m_map n) <= max_torrents (m_settings n)
  /\ map_size (m_immutable_table n) <= max_dht_items (m_settings n)
  /\ map_size (m_mutable_table n) <= max_dht_items (m_settings n).

Definition tables_kept {C : collaborators} (n n' : node) : Prop :=
  m_map n' = m_map n
  /\ m_immutable_table n' = m_immutable_table n
  /\ m_mutable_table n' = m_mutable_table n
  /\ m_settings n' = m_settings n.

Lemma bounded_kept {C : collaborators} (n n' : node) :
  tables_kept n n' -> bounded n -> bounded n'.
Proof.
  unfold tables_kept, bounded. intros (-> & -> & -> & ->). tauto.
Qed.

(** The comparisons of the sizes with the limits, as the requests make
    them. *)
Lemma room_for_one (V : Type) (k : string) (v : V) (m : list (string * V))
    (limit : Z) :
  (map_size m >=? limit) = false ->
  map_size (map_set k v m) <= limit.
Proof.
  unfold map_size. intros H.
  pose proof (map_set_length V k v m).
  rewrite Z.geb_leb in H. apply Z.leb_gt in H. lia.
Qed.

Lemma room_after_erase (V : Type) (k : string) (v : V) (j : nat)
    (m : list (string * V)) (limit : Z) :
  (j < List.length m)%nat ->
  map_size m <= limit ->
  map_size (map_set k v (erase_at j m)) <= limit.
Proof.
  unfold map_size. intros Hj H.
  pose proof (map_set_length V k v (erase_at j m)).
  pose proof (erase_at_shorter _ j m Hj). lia.
Qed.

Lemma announce_peer_request_bounded {C : collaborators} (now : Z) (n : node)
    (m : msg) (e : entry) (arg_ent : bdecode_node) (id : string) :
  0 < max_torrents (m_settings n) ->
  bounded n ->
  bounded (fst (announce_peer_request now n m e arg_ent id)).
Proof.
  intros Hmax Hb. unfold announce_peer_request.
  destruct (verify_message arg_ent announce_peer_desc) as [msg_keys|err];
    cbn [fst]; [|exact Hb].
  cbv zeta. destruct (_ || _); cbn [fst]; [exact Hb|].
  destruct (negb (verify_token _ _ _ _)); cbn [fst]; [exact Hb|].
  destruct Hb as (S1 & S2 & S3 & B1 & B2 & B3).
  cbn [set_m_table inc_stats_counter m_map m_settings].
  set (info_hash := string_ptr (at_ msg_keys 0)).
  match goal with
  | |- bounded (set_m_map (map_set info_hash ?v (m_map ?n1)) ?n2) =>
      set (v1 := v); set (n1' := n1)
  end.
  assert (Hn1 : sorted_map (m_map n1')
                /\ map_size (m_map n1') <= max_torrents (m_settings n)
                /\ (exists v0, map_find info_hash (m_map n1') = Some v0)
                /\ m_immutable_table n1' = m_immutable_table n
                /\ m_mutable_table n1' = m_mutable_table n
                /\ m_settings n1' = m_settings n).
  { subst n1'. destruct (map_find info_hash (m_map n)) as [v0|] eqn:Hfind.
    - cbn. rewrite Hfind. repeat split; eauto.
    - destruct (negb (Nat.eqb (List.length (m_map n)) 0)
                && (map_size (m_map n) >=? max_torrents (m_settings n)))
        eqn:Hfull;
        cbn [set_m_map set_m_table inc_stats_counter m_map m_settings
             m_immutable_table m_mutable_table].
      + apply andb_true_iff in Hfull. destruct Hfull as [Hne _].
        apply negb_true_iff, Nat.eqb_neq in Hne.
        assert (Hne' : m_map n <> []) by (destruct (m_map n); cbn in *; congruence).
        destruct (eviction_candidate_spec info_hash (m_map n) Hne' Hfind)
          as (victim & Hnth & _).
        assert (Hj : (eviction_candidate info_hash (m_map n)
                      < List.length (m_map n))%nat)
          by (apply nth_error_Some; congruence).
        split; [now apply sorted_map_set, sorted_erase_at|].
        split; [now apply room_after_erase|].
        split; [eexists; apply map_find_set_same|]. repeat split.
      + split; [now apply sorted_map_set|].
        split.
        * apply andb_false_iff in Hfull. destruct Hfull as [Hemp|Hroom].
          -- apply negb_false_iff, Nat.eqb_eq in Hemp.
             destruct (m_map n); [|discriminate].
             unfold map_size. cbn. lia.
          -- now apply room_for_one.
        * split; [eexists; apply map_find_set_same|]. repeat split. }
  destruct Hn1 as (Hs & Hsize & (v0 & Hv0) & Hi & Hm & Hset).
  clearbody n1' v1.
  unfold bounded.
  cbn [set_m_map m_map m_immutable_table m_mutable_table m_settings].
  rewrite Hi, Hm, Hset.
  split; [now apply sorted_map_set|].
  split; [exact S2|]. split; [exact S3|].
  split; [|split; assumption].
  unfold map_size in *.
  rewrite (sorted_map_set_length _ info_hash v1 v0 _ Hs Hv0). exact Hsize.
Qed.


Lemma put_immutable_bounded {C : collaborators} (asserts_on : bool)
    (n n' : node) (target buf : string) :
  0 < max_dht_items (m_settings n) ->
  put_immutable asserts_on n target buf = Ret n' ->
  bounded n ->
  bounded n'
  /\ m_settings n' = m_settings n
  /\ (exists f, map_find target (m_immutable_table n') = Some f).
Proof.
  intros Hmax Hrun (S1 & S2 & S3 & B1 & B2 & B3). revert Hrun.
  unfold put_immutable.
  destruct (map_find target (m_immutable_table n)) as [f0|] eqn:Hfind.
  { intros H. injection H as <-. unfold bounded. eauto 10. }
  intros H. apply bind_returns in H. destruct H as (n1 & H1 & H).
  injection H as <-.
  assert (Hn1 : m_map n1 = m_map n /\ m_mutable_table n1 = m_mutable_table n
                /\ m_settings n1 = m_settings n
                /\ sorted_map (m_immutable_table n1)
                /\ forall v,
                     map_size (map_set target v (m_immutable_table n1))
                     <= max_dht_items (m_settings n)).
  { destruct (map_size (m_immutable_table n) >=? max_dht_items (m_settings n))
      eqn:Hfull.
    - apply bind_returns in H1. destruct H1 as ([] & _ & H1).
      injection H1 as <-.
      cbn [inc_stats_counter set_m_immutable_table m_map m_mutable_table
           m_settings m_immutable_table].
      assert (Hne : m_immutable_table n <> []).
      { intros Hnil. rewrite Hnil in Hfull. unfold map_size in Hfull.
        cbn in Hfull. rewrite Z.geb_leb in Hfull. apply Z.leb_le in Hfull.
        lia. }
      destruct (min_element_bound _ (immutable_item_comparator (m_id n))
                  (m_immutable_table n) Hne) as (j & -> & Hj).
      repeat split; [now apply sorted_erase_at|].
      intros v. now apply room_after_erase.
    - injection H1 as <-. repeat split; [exact S2|].
      intros v. now apply room_for_one. }
  destruct Hn1 as (Hm & Hmu & Hset & Hs & Hroom).
  destruct (map_find target (m_immutable_table n1)) as [f1|] eqn:Hf1.
  - unfold bounded.
    cbn [inc_stats_counter set_m_immutable_table m_map m_mutable_table
         m_settings m_immutable_table].
    rewrite Hm, Hmu, Hset.
    split; [|split; [reflexivity | eauto]].
    split; [exact S1|]. split; [exact Hs|]. split; [exact S3|].
    split; [exact B1|]. split; [|exact B3].
    specialize (Hroom f1). unfold map_size in *.
    now rewrite (sorted_map_set_length _ target f1 f1 _ Hs Hf1) in Hroom.
  - unfold bounded.
    cbn [inc_stats_counter set_m_immutable_table m_map m_mutable_table
         m_settings m_immutable_table].
    rewrite Hm, Hmu, Hset.
    split; [|split; [reflexivity | eexists; apply map_find_set_same]].
    split; [exact S1|]. split; [now apply sorted_map_set|].
    split; [exact S3|]. split; [exact B1|]. split; [apply Hroom | exact B3].
Qed.

Lemma put_mutable_bounded {C : collaborators} (asserts_on : bool)
    (n n' : node) (target buf salt_ : string) (msg_keys : list bdecode_node) :
  0 < max_dht_items (m_settings n) ->
  put_mutable asserts_on n target buf salt_ msg_keys = Ret (inl n') ->
  bounded n ->
  bounded n'
  /\ m_settings n' = m_settings n
  /\ (exists f, map_find target (m_mutable_table n') = Some f).
Proof.
  intros Hmax Hrun (S1 & S2 & S3 & B1 & B2 & B3). revert Hrun.
  unfold put_mutable.
  destruct (map_find target (m_mutable_table n)) as [item|] eqn:Hfind.
  - destruct (_ && _); [discriminate|].
    destruct (_ >? _); [discriminate|].
    destruct (_ <? _).
    + intros H. apply bind_returns in H. destruct H as ([] & _ & H).
      injection H as <-. unfold bounded.
      cbn [set_m_mutable_table m_map m_mutable_table m_settings
           m_immutable_table].
      split; [|split; [reflexivity | eexists; apply map_find_set_same]].
      split; [exact S1|]. split; [exact S2|].
      split; [now apply sorted_map_set|].
      split; [exact B1|]. split; [exact B2|].
      unfold map_size in *.
      match goal with
      | |- context [map_set target ?x _] =>
          now rewrite (sorted_map_set_length _ target x item _ S3 Hfind)
      end.
    + intros H. injection H as <-. unfold bounded. eauto 10.
  - intros H. apply bind_returns in H. destruct H as (n1 & H1 & H).
    apply bind_returns in H. destruct H as ([] & _ & H).
    injection H as <-.
    assert (Hn1 : m_map n1 = m_map n
                  /\ m_immutable_table n1 = m_immutable_table n
                  /\ m_settings n1 = m_settings n
                  /\ sorted_map (m_mutable_table n1)
                  /\ forall v,
                       map_size (map_set target v (m_mutable_table n1))
                       <= max_dht_items (m_settings n)).
    { destruct (map_size (m_mutable_table n) >=? max_dht_items (m_settings n))
        eqn:Hfull.
      - apply bind_returns in H1. destruct H1 as ([] & _ & H1).
        injection H1 as <-.
        cbn [inc_stats_counter set_m_mutable_table m_map m_mutable_table
             m_settings m_immutable_table].
        assert (Hne : m_mutable_table n <> []).
        { intros Hnil. rewrite Hnil in Hfull. unfold map_size in Hfull.
          cbn in Hfull. rewrite Z.geb_leb in Hfull. apply Z.leb_le in Hfull.
          lia. }
        destruct (min_element_bound _ mutable_item_comparator
                    (m_mutable_table n) Hne) as (j & -> & Hj).
        repeat split; [now apply sorted_erase_at|].
        intros v. now apply room_after_erase.
      - injection H1 as <-. repeat split; [exact S3|].
        intros v. now apply room_for_one. }
    destruct Hn1 as (Hm & Hi & Hset & Hs & Hroom).
    destruct (map_find target (m_mutable_table n1)) as [f1|] eqn:Hf1.
    + unfold bounded.
      cbn [inc_stats_counter set_m_mutable_table m_map m_mutable_table
           m_settings m_immutable_table].
      rewrite Hm, Hi, Hset.
      split; [|split; [reflexivity | eauto]].
      split; [exact S1|]. split; [exact S2|]. split; [exact Hs|].
      split; [exact B1|]. split; [exact B2|].
      specialize (Hroom f1). unfold map_size in *.
      now rewrite (sorted_map_set_length _ target f1 f1 _ Hs Hf1) in Hroom.
    + unfold bounded.
      cbn [inc_stats_counter set_m_mutable_table m_map m_mutable_table
           m_settings m_immutable_table].
      rewrite Hm, Hi, Hset.
      split; [|split; [reflexivity | eexists; apply map_find_set_same]].
      split; [exact S1|]. split; [exact S2|].
      split; [now apply sorted_map_set|].
      split; [exact B1|]. split; [exact B2 | apply Hroom].
Qed.

Lemma put_request_bounded {C : collaborators} (asserts_on : bool) (now : Z)
    (n : node) (m : msg) (e : entry) (arg_ent : bdecode_node) (id : string)
    (n' : node) (e' : entry) :
  0 < max_dht_items (m_settings n) ->
  put_request asserts_on now n m e arg_ent id = Ret (n', e') ->
  bounded n -> bounded n'.
Proof.
  intros Hmax Hrun Hb. revert Hrun. unfold put_request, put_invalid.
  assert (Hbad : forall n1 text code,
            bounded n1 ->
            Ret (inc_stats_counter dht_invalid_put 1 n1,
                 incoming_error e text code) = Ret (n', e') ->
            bounded n').
  { intros n1 text code Hb1 H. injection H as <- _. exact Hb1. }
  destruct (verify_message arg_ent put_desc) as [msg_keys|err];
    [|now apply Hbad].
  cbv zeta.
  destruct (_ || _); [now apply Hbad|].
  destruct (_ >? 64); [now apply Hbad|].
  destruct (negb (verify_token _ _ _ _)); [now apply Hbad|].
  intros H. apply bind_returns in H. destruct H as (stored & Hs & H).
  set (target := if is_set (at_ msg_keys 3)
                 then item_target_id_mutable
                        (if is_set (at_ msg_keys 6)
                         then string_ptr (at_ msg_keys 6) else "")
                        (string_ptr (at_ msg_keys 3))
                 else item_target_id (data_section (at_ msg_keys 1))) in *.
  destruct (negb (is_set (at_ msg_keys 2) && is_set (at_ msg_keys 3)
                  && is_set (at_ msg_keys 4))) eqn:Hmut.
  - apply bind_returns in Hs. destruct Hs as (n2 & H2 & Hs).
    injection Hs as <-.
    apply put_immutable_bounded in H2; [|exact Hmax|exact Hb].
    destruct H2 as ((S1 & S2 & S3 & B1 & B2 & B3) & Hset & (f & Hf)).
    cbn [set_m_table m_immutable_table] in H. rewrite Hf in H.
    injection H as <- _. unfold bounded.
    cbn [set_m_immutable_table set_m_table m_map m_immutable_table
         m_mutable_table m_settings].
    split; [exact S1|]. split; [now apply sorted_map_set|].
    split; [exact S3|]. split; [exact B1|]. split; [|exact B3].
    unfold map_size in *.
    match goal with
    | |- context [map_set target ?x _] =>
        now rewrite (sorted_map_set_length _ target x f _ S2 Hf)
    end.
  - destruct (negb (verify_mutable_item _ _ _ _ _)).
    { injection Hs as <-. revert H. now apply Hbad. }
    destruct stored as [n2|[text code]].
    2:{ revert H. now apply Hbad. }
    apply put_mutable_bounded in Hs; [|exact Hmax|exact Hb].
    destruct Hs as ((S1 & S2 & S3 & B1 & B2 & B3) & Hset & (f & Hf)).
    cbn [set_m_table m_mutable_table] in H. rewrite Hf in H.
    injection H as <- _. unfold bounded.
    cbn [set_m_mutable_table set_m_table m_map m_immutable_table
         m_mutable_table m_settings].
    split; [exact S1|]. split; [exact S2|].
    split; [now apply sorted_map_set|].
    split; [exact B1|]. split; [exact B2|].
    unfold map_size in *.
    match goal with
    | |- context [map_set target ?x _] =>
        now rewrite (sorted_map_set_length _ target x f _ S3 Hf)
    end.
Qed.

Lemma dispatch_bounded {C : collaborators} (asserts_on : bool) (now : Z)
    (n : node) (m : msg) (e : entry) (q : string) (arg_ent : bdecode_node)
    (id : string) (n' : node) (e' : entry) :
  0 < max_torrents (m_settings n) ->
  0 < max_dht_items (m_settings n) ->
  dispatch asserts_on now n m e q arg_ent id = Ret (n', e') ->
  bounded n -> bounded n'.
Proof.
  intros Ht Hi. unfold dispatch.
  destruct (String.eqb q "ping").
  { intros H. injection H as <- _. auto. }
  destruct (String.eqb q "get_peers").
  { unfold get_peers_request.
    destruct (verify_message _ _) as [msg_keys|].
    - intros H. apply bind_returns in H. destruct H as (token & _ & H).
      injection H as <- _. auto.
    - intros H. injection H as <- _. auto. }
  destruct (String.eqb q "find_node").
  { unfold find_node_request. destruct (verify_message _ _);
      intros H; injection H as <- _; auto. }
  destruct (String.eqb q "announce_peer").
  { intros H. injection H as H. intros Hb.
    pose proof (announce_peer_request_bounded now n m e arg_ent id Ht Hb)
      as Hb'.
    now rewrite H in Hb'. }
  destruct (String.eqb q "put").
  { intros H. now apply (put_request_bounded _ _ _ _ _ _ _ _ _ Hi H). }
  destruct (String.eqb q "get").
  { unfold get_request. destruct (verify_message _ _) as [msg_keys|].
    - intros H. apply bind_returns in H. destruct H as (token & _ & H).
      revert H. cbv zeta.
      repeat match goal with
             | |- context [match ?x with Some _ => _ | None => _ end] =>
                 destruct x
             | |- context [if ?b then _ else _] => destruct b
             end;
        intros H; injection H as <- _; auto.
    - intros H. injection H as <- _. auto. }
  unfold unknown_request.
  repeat match goal with
         | |- context [if ?b then _ else _] => destruct b
         end;
    intros H; injection H as <- _; auto.
Qed.

Lemma incoming_request_settings {C : collaborators} (asserts_on : bool)
    (has_quota : bool) (now : Z) (n : node) (m : msg) (e : entry)
    (n' : node) (e' : entry) :
  incoming_request asserts_on has_quota now n m e = Ret (n', e') ->
  m_settings n' = m_settings n.
Proof.
  unfold incoming_request.
  destruct (negb has_quota); [intros H; now injection H as <- _|].
  destruct (verify_message (message m) top_desc) as [top_level|];
    [|intros H; now injection H as <- _].
  cbv zeta. destruct (_ && negb (verify_id _ _));
    [intros H; now injection H as <- _|].
  intros H.
  apply (dispatch_answer _ (dict_find_string_value (message m) "t")) in H.
  - destruct H as (_ & (_ & K & _) & _). rewrite K.
    destruct (negb (is_set _ && _)); reflexivity.
  - apply answer_open_reply_set, answer_open_reply_set, answer_open_set;
      try easy.
    eexists. split; [reflexivity|]. split; [reflexivity|].
    split; reflexivity.
Qed.

(** X18.  A node whose three tables are maps within the limits of the
    settings (which are positive) stays so: whatever message
    [incoming_request] answers, whenever [connection_timeout] runs, and
    when the secret is changed. *)
Theorem tables_stay_bounded {C : collaborators} (n : node) :
  0 < max_torrents (m_settings n) ->
  0 < max_dht_items (m_settings n) ->
  bounded n ->
  (forall (asserts_on has_quota : bool) (now : Z) (m : msg) (e : entry)
          (n' : node) (e' : entry),
     incoming_request asserts_on has_quota now n m e = Ret (n', e') ->
     bounded n' /\ m_settings n' = m_settings n)
  /\ (forall (tpm d now : Z) (tm : node_timers),
        bounded (snd (connection_timeout tpm d now tm n))
        /\ m_settings (snd (connection_timeout tpm d now tm n))
           = m_settings n)
  /\ (forall random : Z,
        bounded (new_write_key random n)
        /\ m_settings (new_write_key random n) = m_settings n).
Proof.
  intros Ht Hi Hb. split; [|split].
  - intros asserts_on has_quota now m e n' e' H.
    split; [|exact (incoming_request_settings _ _ _ _ _ _ _ _ H)].
    revert H. unfold incoming_request.
    destruct (negb has_quota); [intros H; injection H as <- _; exact Hb|].
    destruct (verify_message (message m) top_desc) as [top_level|];
      [|intros H; injection H as <- _; exact Hb].
    cbv zeta. destruct (_ && negb (verify_id _ _));
      [intros H; injection H as <- _; exact Hb|].
    intros H. eapply dispatch_bounded in H; [exact H| | |].
    + destruct (negb (is_set _ && _)); exact Ht.
    + destruct (negb (is_set _ && _)); exact Hi.
    + destruct (negb (is_set _ && _)); exact Hb.
  - intros tpm d now tm. unfold connection_timeout.
    destruct (_ <? _); cbn [snd]; [auto|].
    rewrite expire_items_spec, expire_torrents_spec.
    destruct Hb as (S1 & S2 & S3 & B1 & B2 & B3).
    match goal with
    | |- context [decremented dht_torrents ?k ?n1] =>
        destruct (decremented_fields dht_torrents k n1)
          as (Hs2 & _ & _ & _ & _ & Hi2 & Hm2 & _)
    end.
    match goal with
    | |- context [decremented dht_immutable_data ?k n] =>
        destruct (decremented_fields dht_immutable_data k n)
          as (Hs1 & _ & _ & _ & Hmap1 & _ & Hm1 & _)
    end.
    cbn [set_m_immutable_table m_map m_settings m_immutable_table
         m_mutable_table] in *.
    unfold bounded.
    cbn [snd set_m_map m_map m_settings m_immutable_table m_mutable_table].
    rewrite Hs2, Hi2, Hm2, Hs1, Hm1, Hmap1.
    split; [|reflexivity].
    split; [now apply sorted_filter, sorted_purged|].
    split; [now apply sorted_filter|]. split; [exact S3|].
    unfold map_size in *.
    pose proof (filter_shorter has_peers (map (purged tpm now) (m_map n))).
    pose proof (filter_shorter (fresh_item tpm now) (m_immutable_table n)).
    rewrite length_map in *. repeat split; lia.
  - intros random. split; [exact Hb | reflexivity].
Qed.

End DhtLaws.

(** * More runs of the node

    The collaborators of [World], with [lookup_peers] as the source has it:
    [random()] returns 0 and no peer is skipped. *)

Module DhtCases.

Import Dht DhtUpkeep DhtFacts DhtLaws.
Local Open Scope string_scope.
Local Open Scope Z_scope.

Definition listed : scrape_filter := {|
  filter256 := list string;
  filter256_empty := [];
  filter256_set := fun f h => (h :: f)%list;
  filter256_to_string := fun f => String.concat "" f
|}.

Definition never_skip (r a b : Z) : bool := false.
Definition no_random (k : nat) : Z := 0.

Definition world : collaborators := {|
  hasher := @hasher World.world;
  hasher_size := @hasher_size World.world;
  to_string := @to_string World.world;
  int_bytes := @int_bytes World.world;
  endpoint_to_bytes := @endpoint_to_bytes World.world;
  write_endpoint := @write_endpoint World.world;
  routing_table := @routing_table World.world;
  heard_about := @heard_about World.world;
  node_seen := @node_seen World.world;
  find_node := @find_node World.world;
  verify_id := @verify_id World.world;
  verify_mutable_item := @verify_mutable_item World.world;
  item_target_id := @item_target_id World.world;
  item_target_id_mutable := @item_target_id_mutable World.world;
  bloom_filter := @bloom_filter World.world;
  bloom_empty := @bloom_empty World.world;
  bloom_find := @bloom_find World.world;
  bloom_set := @bloom_set World.world;
  hash_address := @hash_address World.world;
  bdecode := @bdecode World.world;
  data_section := @data_section World.world;
  distance_exp := @distance_exp World.world;
  lookup_peers :=
    @lookup_peers_run World.world listed no_random never_skip
|}.

#[local] Existing Instance world.
#[local] Existing Instance listed.

Lemma world_lookup_from_source : lookup_from_source no_random never_skip.
Proof. intros m_map k h r noseed scrape. reflexivity. Qed.

Definition sender : endpoint := mk_endpoint (address_v4 167772161) 6881.
Definition sender_id : string := "NNNNNNNNNNNNNNNNNNNN".
Definition our_id : string := "BBBBBBBBBBBBBBBBBBBB".
Definition hash_A : string := "AAAAAAAAAAAAAAAAAAAA".

Definition node0 : node :=
  mk_node (mk_dht_settings 100 2000 700 false) our_id [] (2138, 99) [] [] [] [].

(** A query of the sender, and what [verify_message] returns for its
    header. *)
Definition query_from (from : endpoint) (q : string)
    (args : list (string * bdecode_tree)) : msg :=
  mk_msg
    (Some (b_dict [("a", b_dict (("id", b_string sender_id) :: args)%list);
                   ("q", b_string q);
                   ("t", b_string "aa");
                   ("y", b_string "q")]))
    from.

Definition query : string -> list (string * bdecode_tree) -> msg :=
  query_from sender.

Definition header (q : string) (args : list (string * bdecode_tree))
  : list bdecode_node :=
  [Some (b_string q); None;
   Some (b_dict (("id", b_string sender_id) :: args)%list);
   Some (b_string sender_id)].

Definition get_peers_args : list (string * bdecode_tree) :=
  [("info_hash", b_string hash_A)].

Lemma get_peers_token_lets_announce_witness :
  lookup_from_source no_random never_skip
  /\ verify_message (message (query "get_peers" get_peers_args)) top_desc
     = inl (header "get_peers" get_peers_args)
  /\ enforce_node_id (m_settings node0)
       && negb (verify_id (string_ptr (at_ (header "get_peers" get_peers_args) 3))
                  (address_of (addr (query "get_peers" get_peers_args))))
     = false
  /\ string_ptr (at_ (header "get_peers" get_peers_args) 0) = "get_peers"
  /\ verify_message (at_ (header "get_peers" get_peers_args) 2) get_peers_desc
     = inl [Some (b_string hash_A); None; None]
  /\ snd (to_string (address_of (addr (query "get_peers" get_peers_args))))
     = false
  /\ exists (n1 : node) (r1 : entry) (token : string),
       incoming_request true true 100 node0 (query "get_peers" get_peers_args)
         entry_undefined = Ret (n1, r1)
       /\ is_response r1
       /\ find_key (reply_of r1) "token" = Some (entry_string token)
       /\ m_secret n1 = m_secret node0
       /\ forall (n2 : node) (m2 : msg) (e2 : entry)
            (top2 keys2 : list bdecode_node),
            fst (m_secret n2) = fst (m_secret node0)
            \/ snd (m_secret n2) = fst (m_secret node0) ->
            verify_message (message m2) top_desc = inl top2 ->
            enforce_node_id (m_settings n2)
              && negb (verify_id (string_ptr (at_ top2 3))
                         (address_of (addr m2))) = false ->
            string_ptr (at_ top2 0) = "announce_peer" ->
            verify_message (at_ top2 2) announce_peer_desc = inl keys2 ->
            address_of (addr m2)
            = address_of (addr (query "get_peers" get_peers_args)) ->
            string_ptr (at_ keys2 0)
            = string_ptr (at_ [Some (b_string hash_A); None; None] 0) ->
            string_value (at_ keys2 2) = token ->
            0 <= announce_port m2 keys2 < 65536 ->
            exists (n3 : node) (r3 : entry) (v : torrent_entry),
              incoming_request true true 200 n2 m2 e2 = Ret (n3, r3)
              /\ is_response r3
              /\ map_find
                   (string_ptr (at_ [Some (b_string hash_A); None; None] 0))
                   (m_map n3) = Some v
              /\ In (announced_peer 200 m2 keys2) (peers v).
Proof.
  assert (H1 : verify_message (message (query "get_peers" get_peers_args))
                 top_desc = inl (header "get_peers" get_peers_args))
    by (vm_compute; reflexivity).
  assert (H2 : enforce_node_id (m_settings node0)
               && negb (verify_id
                          (string_ptr (at_ (header "get_peers" get_peers_args) 3))
                          (address_of (addr (query "get_peers" get_peers_args))))
               = false) by reflexivity.
  assert (H3 : string_ptr (at_ (header "get_peers" get_peers_args) 0)
               = "get_peers") by reflexivity.
  assert (H4 : verify_message (at_ (header "get_peers" get_peers_args) 2)
                 get_peers_desc = inl [Some (b_string hash_A); None; None])
    by (vm_compute; reflexivity).
  assert (H5 : snd (to_string
                      (address_of (addr (query "get_peers" get_peers_args))))
               = false) by reflexivity.
  split; [exact world_lookup_from_source|].
  split; [exact H1|]. split; [exact H2|]. split; [exact H3|].
  split; [exact H4|]. split; [exact H5|].
  exact (get_peers_token_lets_announce true no_random never_skip 100 200
           node0 (query "get_peers" get_peers_args) entry_undefined
           (header "get_peers" get_peers_args)
           [Some (b_string hash_A); None; None]
           world_lookup_from_source H1 H2 H3 H4 H5).
Defined.


Definition node_after (o : outcome (node * entry)) (n : node) : node :=
  match o with Ret (n', _) => n' | AssertionFailed => n end.

Definition reply_after (o : outcome (node * entry)) : entry :=
  match o with Ret (_, e') => e' | AssertionFailed => entry_undefined end.

Definition token_of (e : entry) : string :=
  match find_key (reply_of e) "token" with
  | Some (entry_string s) => s
  | _ => ""
  end.

(** The peers stored for each torrent, as endpoints. *)
Definition stored_peers (n : node) : list (string * list endpoint) :=
  map (fun kv => (fst kv, map pe_addr (peers (snd kv)))) (m_map n).

Definition asked : outcome (node * entry) :=
  incoming_request true true 100 node0 (query "get_peers" get_peers_args)
    entry_undefined.

(** The sender asks for peers, the node changes its secret once, and the
    sender announces from another port with the token it was given. *)
Example announce_with_the_token_of_get_peers :
  stored_peers
    (node_after
       (incoming_request true true 200
          (new_write_key 7 (node_after asked node0))
          (query_from (mk_endpoint (address_v4 167772161) 7000)
             "announce_peer"
             [("info_hash", b_string hash_A); ("port", b_int 51413);
              ("token", b_string (token_of (reply_after asked)))])
          entry_undefined)
       node0)
  = [(hash_A, [mk_endpoint (address_v4 167772161) 51413])].
Proof. vm_compute. reflexivity. Qed.


(** ** Announces *)

Definition bad_announce_args : list (string * bdecode_tree) :=
  [("info_hash", b_string hash_A); ("port", b_int 6881);
   ("token", b_string "XXXX")].

Definition bad_announce_keys : list bdecode_node :=
  [Some (b_string hash_A); Some (b_int 6881); Some (b_string "XXXX");
   None; None; None].

Lemma announce_peer_refused_witness :
  verify_message (message (query "announce_peer" bad_announce_args)) top_desc
  = inl (header "announce_peer" bad_announce_args)
  /\ enforce_node_id (m_settings node0)
       && negb (verify_id
                  (string_ptr (at_ (header "announce_peer" bad_announce_args) 3))
                  (address_of (addr (query "announce_peer" bad_announce_args))))
     = false
  /\ string_ptr (at_ (header "announce_peer" bad_announce_args) 0)
     = "announce_peer"
  /\ verify_message (at_ (header "announce_peer" bad_announce_args) 2)
       announce_peer_desc = inl bad_announce_keys
  /\ (~ 0 <= announce_port (query "announce_peer" bad_announce_args)
              bad_announce_keys < 65536
      \/ verify_token node0 (string_value (at_ bad_announce_keys 2))
           (string_ptr (at_ bad_announce_keys 0))
           (addr (query "announce_peer" bad_announce_args)) = false)
  /\ exists (n' : node) (e' : entry),
       incoming_request true true 100 node0
         (query "announce_peer" bad_announce_args) entry_undefined
       = Ret (n', e')
       /\ is_error e' 203
            (if (announce_port (query "announce_peer" bad_announce_args)
                   bad_announce_keys <? 0)
                || (announce_port (query "announce_peer" bad_announce_args)
                      bad_announce_keys >=? 65536)
             then "invalid port" else "invalid token")
       /\ m_map n' = m_map node0
       /\ m_immutable_table n' = m_immutable_table node0
       /\ m_mutable_table n' = m_mutable_table node0
       /\ m_table n'
          = m_table (heard node0 (query "announce_peer" bad_announce_args)
                       (header "announce_peer" bad_announce_args))
       /\ m_counters n'
          = ((dht_invalid_announce, 1) :: m_counters node0)%list.
Proof.
  assert (H1 : verify_message
                 (message (query "announce_peer" bad_announce_args)) top_desc
               = inl (header "announce_peer" bad_announce_args))
    by (vm_compute; reflexivity).
  assert (H2 : enforce_node_id (m_settings node0)
               && negb (verify_id
                          (string_ptr
                             (at_ (header "announce_peer" bad_announce_args) 3))
                          (address_of
                             (addr (query "announce_peer" bad_announce_args))))
               = false) by reflexivity.
  assert (H3 : string_ptr (at_ (header "announce_peer" bad_announce_args) 0)
               = "announce_peer") by reflexivity.
  assert (H4 : verify_message
                 (at_ (header "announce_peer" bad_announce_args) 2)
                 announce_peer_desc = inl bad_announce_keys)
    by (vm_compute; reflexivity).
  assert (H5 : ~ 0 <= announce_port (query "announce_peer" bad_announce_args)
                        bad_announce_keys < 65536
               \/ verify_token node0 (string_value (at_ bad_announce_keys 2))
                    (string_ptr (at_ bad_announce_keys 0))
                    (addr (query "announce_peer" bad_announce_args)) = false).
  { right. vm_compute. reflexivity. }
  split; [exact H1|]. split; [exact H2|]. split; [exact H3|].
  split; [exact H4|]. split; [exact H5|].
  exact (announce_peer_refused true 100 node0
           (query "announce_peer" bad_announce_args) entry_undefined
           (header "announce_peer" bad_announce_args) bad_announce_keys
           H1 H2 H3 H4 H5).
Defined.

Definition token_A : string := write_token 2138 sender hash_A.

Definition announce_args : list (string * bdecode_tree) :=
  [("info_hash", b_string hash_A); ("port", b_int 6881);
   ("token", b_string token_A); ("n", b_string "ubuntu.iso")].

Definition announce_keys : list bdecode_node :=
  [Some (b_string hash_A); Some (b_int 6881); Some (b_string token_A);
   Some (b_string "ubuntu.iso"); None; None].

(** Another peer of the torrent, 10.0.0.2 port 6881, seen at time 50. *)
Definition other_peer : peer_entry :=
  mk_peer_entry (mk_endpoint (address_v4 167772162) 6881) 50 false.

Definition torrent_A : torrent_entry := mk_torrent_entry "" [other_peer].

Definition node_A : node :=
  mk_node (mk_dht_settings 100 2000 700 false) our_id [] (2138, 99)
    [(hash_A, torrent_A)] [] [] [].

Lemma announce_peer_known_torrent_witness :
  verify_message (message (query "announce_peer" announce_args)) top_desc
  = inl (header "announce_peer" announce_args)
  /\ enforce_node_id (m_settings node_A)
       && negb (verify_id
                  (string_ptr (at_ (header "announce_peer" announce_args) 3))
                  (address_of (addr (query "announce_peer" announce_args))))
     = false
  /\ string_ptr (at_ (header "announce_peer" announce_args) 0)
     = "announce_peer"
  /\ verify_message (at_ (header "announce_peer" announce_args) 2)
       announce_peer_desc = inl announce_keys
  /\ 0 <= announce_port (query "announce_peer" announce_args) announce_keys
     < 65536
  /\ verify_token node_A (string_value (at_ announce_keys 2))
       (string_ptr (at_ announce_keys 0))
       (addr (query "announce_peer" announce_args)) = true
  /\ map_find (string_ptr (at_ announce_keys 0)) (m_map node_A)
     = Some torrent_A
  /\ exists (n' : node) (e' : entry) (v' : torrent_entry),
       incoming_request true true 100 node_A
         (query "announce_peer" announce_args) entry_undefined = Ret (n', e')
       /\ is_response e'
       /\ map_find (string_ptr (at_ announce_keys 0)) (m_map n') = Some v'
       /\ In (announced_peer 100 (query "announce_peer" announce_args)
                announce_keys) (peers v')
       /\ (forall q, In q (peers v') ->
             q = announced_peer 100 (query "announce_peer" announce_args)
                   announce_keys
             \/ In q (peers torrent_A))
       /\ (forall q, In q (peers torrent_A) ->
             peer_equiv
               (announced_peer 100 (query "announce_peer" announce_args)
                  announce_keys) q = false ->
             In q (peers v'))
       /\ (List.length (peers torrent_A) <= List.length (peers v')
           <= S (List.length (peers torrent_A)))%nat
       /\ te_name v'
          = (if is_set (at_ announce_keys 3)
                && Nat.eqb (String.length (te_name torrent_A)) 0
             then substring 0 50 (string_value (at_ announce_keys 3))
             else te_name torrent_A)
       /\ (forall k, k <> string_ptr (at_ announce_keys 0) ->
             map_find k (m_map n') = map_find k (m_map node_A)).
Proof.
  assert (H1 : verify_message
                 (message (query "announce_peer" announce_args)) top_desc
               = inl (header "announce_peer" announce_args))
    by (vm_compute; reflexivity).
  assert (H2 : enforce_node_id (m_settings node_A)
               && negb (verify_id
                          (string_ptr
                             (at_ (header "announce_peer" announce_args) 3))
                          (address_of
                             (addr (query "announce_peer" announce_args))))
               = false) by reflexivity.
  assert (H3 : string_ptr (at_ (header "announce_peer" announce_args) 0)
               = "announce_peer") by reflexivity.
  assert (H4 : verify_message (at_ (header "announce_peer" announce_args) 2)
                 announce_peer_desc = inl announce_keys)
    by (vm_compute; reflexivity).
  assert (H5 : 0 <= announce_port (query "announce_peer" announce_args)
                      announce_keys < 65536)
    by (vm_compute; split; [discriminate | reflexivity]).
  assert (H6 : verify_token node_A (string_value (at_ announce_keys 2))
                 (string_ptr (at_ announce_keys 0))
                 (addr (query "announce_peer" announce_args)) = true)
    by (vm_compute; reflexivity).
  assert (H7 : map_find (string_ptr (at_ announce_keys 0)) (m_map node_A)
               = Some torrent_A) by reflexivity.
  split; [exact H1|]. split; [exact H2|]. split; [exact H3|].
  split; [exact H4|]. split; [exact H5|]. split; [exact H6|].
  split; [exact H7|].
  exact (announce_peer_known_torrent true 100 node_A
           (query "announce_peer" announce_args) entry_undefined
           (header "announce_peer" announce_args) announce_keys torrent_A
           H1 H2 H3 H4 H5 H6 H7).
Defined.


(** ** Immutable items *)

Definition item_V : bdecode_tree := b_string "hello".
Definition target_V : string := item_target_id (data_section (Some item_V)).
Definition token_V : string := write_token 2138 sender target_V.

Definition put_args : list (string * bdecode_tree) :=
  [("token", b_string token_V); ("v", item_V)].

Definition put_keys : list bdecode_node :=
  [Some (b_string token_V); Some item_V; None; None; None; None; None].

Definition get_args : list (string * bdecode_tree) :=
  [("target", b_string target_V)].

Lemma put_then_get_witness :
  verify_message (message (query "put" put_args)) top_desc
  = inl (header "put" put_args)
  /\ enforce_node_id (m_settings node0)
       && negb (verify_id (string_ptr (at_ (header "put" put_args) 3))
                  (address_of (addr (query "put" put_args)))) = false
  /\ string_ptr (at_ (header "put" put_args) 0) = "put"
  /\ verify_message (at_ (header "put" put_args) 2) put_desc = inl put_keys
  /\ is_set (at_ put_keys 2) && is_set (at_ put_keys 3)
       && is_set (at_ put_keys 4) = false
  /\ 0 < Z.of_nat (String.length (put_buf put_keys)) <= 1000
  /\ Z.of_nat (String.length (put_salt put_keys)) <= 64
  /\ verify_token node0 (string_value (at_ put_keys 0)) (put_target put_keys)
       (addr (query "put" put_args)) = true
  /\ 0 < max_dht_items (m_settings node0)
  /\ map_find (put_target put_keys) (m_immutable_table node0) = None
  /\ exists (n1 : node) (r1 : entry) (f : dht_immutable_item),
       incoming_request true true 100 node0 (query "put" put_args)
         entry_undefined = Ret (n1, r1)
       /\ is_response r1
       /\ map_find (put_target put_keys) (m_immutable_table n1) = Some f
       /\ value f = put_buf put_keys
       /\ last_seen f = 100
       /\ put_target put_keys
          = (if is_set (at_ put_keys 3)
             then item_target_id_mutable (put_salt put_keys)
                    (string_ptr (at_ put_keys 3))
             else item_target_id (put_buf put_keys))
       /\ forall (now2 : Z) (m2 : msg) (e2 : entry)
            (top2 keys2 : list bdecode_node),
            verify_message (message m2) top_desc = inl top2 ->
            enforce_node_id (m_settings n1)
              && negb (verify_id (string_ptr (at_ top2 3))
                         (address_of (addr m2))) = false ->
            string_ptr (at_ top2 0) = "get" ->
            verify_message (at_ top2 2) get_desc = inl keys2 ->
            is_set (at_ keys2 0) = false ->
            string_ptr (at_ keys2 1) = put_target put_keys ->
            snd (to_string (address_of (addr m2))) = false ->
            exists (n2 : node) (r2 : entry),
              incoming_request true true now2 n1 m2 e2 = Ret (n2, r2)
              /\ is_response r2
              /\ find_key (reply_of r2) "v"
                 = Some (bdecode (put_buf put_keys))
              /\ find_key (reply_of r2) "seq" = None
              /\ m_immutable_table n2 = m_immutable_table n1.
Proof.
  assert (H1 : verify_message (message (query "put" put_args)) top_desc
               = inl (header "put" put_args)) by (vm_compute; reflexivity).
  assert (H2 : enforce_node_id (m_settings node0)
               && negb (verify_id (string_ptr (at_ (header "put" put_args) 3))
                          (address_of (addr (query "put" put_args))))
               = false) by reflexivity.
  assert (H3 : string_ptr (at_ (header "put" put_args) 0) = "put")
    by reflexivity.
  assert (H4 : verify_message (at_ (header "put" put_args) 2) put_desc
               = inl put_keys) by (vm_compute; reflexivity).
  assert (H5 : is_set (at_ put_keys 2) && is_set (at_ put_keys 3)
               && is_set (at_ put_keys 4) = false) by reflexivity.
  assert (H6 : 0 < Z.of_nat (String.length (put_buf put_keys)) <= 1000)
    by (vm_compute; split; [reflexivity | discriminate]).
  assert (H7 : Z.of_nat (String.length (put_salt put_keys)) <= 64)
    by (vm_compute; discriminate).
  assert (H8 : verify_token node0 (string_value (at_ put_keys 0))
                 (put_target put_keys) (addr (query "put" put_args)) = true)
    by (vm_compute; reflexivity).
  assert (H9 : 0 < max_dht_items (m_settings node0)) by reflexivity.
  assert (H10 : map_find (put_target put_keys) (m_immutable_table node0)
                = None) by reflexivity.
  split; [exact H1|]. split; [exact H2|]. split; [exact H3|].
  split; [exact H4|]. split; [exact H5|]. split; [exact H6|].
  split; [exact H7|]. split; [exact H8|]. split; [exact H9|].
  split; [exact H10|].
  exact (put_then_get true 100 node0 (query "put" put_args) entry_undefined
           (header "put" put_args) put_keys
           H1 H2 H3 H4 H5 H6 H7 H8 H9 H10).
Defined.

(** The sender stores an item and another host reads it back. *)
Example get_after_put :
  find_key
    (reply_of
       (reply_after
          (incoming_request true true 200
             (node_after
                (incoming_request true true 100 node0 (query "put" put_args)
                   entry_undefined)
                node0)
             (query_from (mk_endpoint (address_v4 167772162) 7000) "get"
                get_args)
             entry_undefined)))
    "v"
  = Some (entry_string "hello").
Proof. vm_compute. reflexivity. Qed.

Definition bad_put_args : list (string * bdecode_tree) :=
  [("token", b_string "XXXX"); ("v", item_V)].

Definition bad_put_keys : list bdecode_node :=
  [Some (b_string "XXXX"); Some item_V; None; None; None; None; None].

Lemma put_refused_witness :
  verify_message (message (query "put" bad_put_args)) top_desc
  = inl (header "put" bad_put_args)
  /\ enforce_node_id (m_settings node0)
       && negb (verify_id (string_ptr (at_ (header "put" bad_put_args) 3))
                  (address_of (addr (query "put" bad_put_args)))) = false
  /\ string_ptr (at_ (header "put" bad_put_args) 0) = "put"
  /\ verify_message (at_ (header "put" bad_put_args) 2) put_desc
     = inl bad_put_keys
  /\ 0 < Z.of_nat (String.length (put_buf bad_put_keys)) <= 1000
  /\ Z.of_nat (String.length (put_salt bad_put_keys)) <= 64
  /\ verify_token node0 (string_value (at_ bad_put_keys 0))
       (put_target bad_put_keys) (addr (query "put" bad_put_args)) = false
  /\ exists (n' : node) (e' : entry),
       incoming_request true true 100 node0 (query "put" bad_put_args)
         entry_undefined = Ret (n', e')
       /\ is_error e' 203 "invalid token"
       /\ stores_nothing node0 n'
       /\ m_table n'
          = m_table (heard node0 (query "put" bad_put_args)
                       (header "put" bad_put_args)).
Proof.
  assert (H1 : verify_message (message (query "put" bad_put_args)) top_desc
               = inl (header "put" bad_put_args)) by (vm_compute; reflexivity).
  assert (H2 : enforce_node_id (m_settings node0)
               && negb (verify_id
                          (string_ptr (at_ (header "put" bad_put_args) 3))
                          (address_of (addr (query "put" bad_put_args))))
               = false) by reflexivity.
  assert (H3 : string_ptr (at_ (header "put" bad_put_args) 0) = "put")
    by reflexivity.
  assert (H4 : verify_message (at_ (header "put" bad_put_args) 2) put_desc
               = inl bad_put_keys) by (vm_compute; reflexivity).
  assert (H5 : 0 < Z.of_nat (String.length (put_buf bad_put_keys)) <= 1000)
    by (vm_compute; split; [reflexivity | discriminate]).
  assert (H6 : Z.of_nat (String.length (put_salt bad_put_keys)) <= 64)
    by (vm_compute; discriminate).
  assert (H7 : verify_token node0 (string_value (at_ bad_put_keys 0))
                 (put_target bad_put_keys) (addr (query "put" bad_put_args))
               = false) by (vm_compute; reflexivity).
  split; [exact H1|]. split; [exact H2|]. split; [exact H3|].
  split; [exact H4|]. split; [exact H5|]. split; [exact H6|].
  split; [exact H7|].
  exact (put_refused true 100 node0 (query "put" bad_put_args)
           entry_undefined (header "put" bad_put_args) bad_put_keys
           H1 H2 H3 H4 203 "invalid token"
           (or_intror (or_intror (or_introl
              (conj eq_refl (conj eq_refl (conj H5 (conj H6 H7)))))))).
Defined.


(** ** Expiry *)

(** The clock counts seconds. *)
Definition seconds_per_minute : Z := 60.

(** A peer of another torrent, 10.0.0.3 port 6881, seen at time 9000. *)
Definition late_peer : peer_entry :=
  mk_peer_entry (mk_endpoint (address_v4 167772163) 6881) 9000 true.

Definition hash_B : string := "BBBBBBBBBBBBBBBBBBBB".

Definition node_AB : node :=
  mk_node (mk_dht_settings 100 2000 700 false) our_id [] (2138, 99)
    [(hash_A, torrent_A);
     (hash_B, mk_torrent_entry "debian.iso" [other_peer; late_peer])]
    [] [] [].

Definition timers0 : node_timers := mk_node_timers 0 0.

Lemma connection_timeout_expires_witness :
  m_last_tracker_tick timers0 <= 10000 - minutes seconds_per_minute 2
  /\ exists (n' : node),
       connection_timeout seconds_per_minute 5 10000 timers0 node_AB
       = (5, mk_node_timers 10000 (m_last_self_refresh timers0), n')
       /\ (forall k i, In (k, i) (m_immutable_table n')
                       <-> In (k, i) (m_immutable_table node_AB)
                           /\ 10000 < last_seen i
                                      + minutes seconds_per_minute 60)
       /\ (forall k t', In (k, t') (m_map n')
                        <-> peers t' <> []
                            /\ exists t, In (k, t) (m_map node_AB)
                                         /\ te_name t' = te_name t
                                         /\ peers t'
                                            = purge_peers seconds_per_minute
                                                10000 (peers t))
       /\ (forall p ps, In p (purge_peers seconds_per_minute 10000 ps)
                        <-> In p ps
                            /\ 10000 <= added p
                                        + minutes seconds_per_minute 45)
       /\ m_mutable_table n' = m_mutable_table node_AB
       /\ m_table n' = m_table node_AB
       /\ m_secret n' = m_secret node_AB
       /\ m_counters n'
          = (repeat (dht_torrents, -1)
               (List.length (m_map node_AB) - List.length (m_map n'))
             ++ repeat (dht_immutable_data, -1)
                  (List.length (m_immutable_table node_AB)
                   - List.length (m_immutable_table n'))
             ++ m_counters node_AB)%list.
Proof.
  assert (H1 : m_last_tracker_tick timers0
               <= 10000 - minutes seconds_per_minute 2)
    by (vm_compute; discriminate).
  split; [exact H1|].
  exact (connection_timeout_expires seconds_per_minute 5 10000 timers0
           node_AB H1).
Defined.

(** The torrent whose only peer is 45 minutes old goes, the other keeps
    its late peer; a second call within two minutes changes nothing. *)
Example expiry_of_two_torrents :
  let '(_, tm, n) :=
    connection_timeout seconds_per_minute 5 10000 timers0 node_AB in
  stored_peers n = [(hash_B, [mk_endpoint (address_v4 167772163) 6881])]
  /\ map fst (m_counters n) = [dht_torrents]
  /\ stored_peers (snd (connection_timeout seconds_per_minute 5 10100 tm n))
     = stored_peers n
  /\ stored_peers (snd (connection_timeout seconds_per_minute 5 20000 tm n))
     = [].
Proof. vm_compute. repeat split. Qed.


(** ** Read-only senders *)

(** A query of the sender that is marked read-only. *)
Definition ro_query (q : string) (args : list (string * bdecode_tree)) : msg :=
  mk_msg
    (Some (b_dict [("a", b_dict (("id", b_string sender_id) :: args)%list);
                   ("q", b_string q);
                   ("ro", b_int 1);
                   ("t", b_string "aa");
                   ("y", b_string "q")]))
    sender.

Definition ro_header (q : string) (args : list (string * bdecode_tree))
  : list bdecode_node :=
  [Some (b_string q); Some (b_int 1);
   Some (b_dict (("id", b_string sender_id) :: args)%list);
   Some (b_string sender_id)].

Lemma read_only_query_not_heard_witness :
  verify_message (message (ro_query "get_peers" get_peers_args)) top_desc
  = inl (ro_header "get_peers" get_peers_args)
  /\ is_set (at_ (ro_header "get_peers" get_peers_args) 1) = true
  /\ int_value (at_ (ro_header "get_peers" get_peers_args) 1) <> 0
  /\ string_ptr (at_ (ro_header "get_peers" get_peers_args) 0)
     <> "announce_peer"
  /\ string_ptr (at_ (ro_header "get_peers" get_peers_args) 0) <> "put"
  /\ (exists r, incoming_request false true 100 node0
                  (ro_query "get_peers" get_peers_args) entry_undefined
                = Ret r)
  /\ forall (asserts_on : bool) (n' : node) (e' : entry),
       incoming_request asserts_on true 100 node0
         (ro_query "get_peers" get_peers_args) entry_undefined = Ret (n', e') ->
       m_table n' = m_table node0.
Proof.
  assert (H1 : verify_message
                 (message (ro_query "get_peers" get_peers_args)) top_desc
               = inl (ro_header "get_peers" get_peers_args))
    by (vm_compute; reflexivity).
  assert (H2 : is_set (at_ (ro_header "get_peers" get_peers_args) 1) = true)
    by reflexivity.
  assert (H3 : int_value (at_ (ro_header "get_peers" get_peers_args) 1) <> 0)
    by (vm_compute; discriminate).
  assert (H4 : string_ptr (at_ (ro_header "get_peers" get_peers_args) 0)
               <> "announce_peer") by (vm_compute; discriminate).
  assert (H5 : string_ptr (at_ (ro_header "get_peers" get_peers_args) 0)
               <> "put") by (vm_compute; discriminate).
  split; [exact H1|]. split; [exact H2|]. split; [exact H3|].
  split; [exact H4|]. split; [exact H5|].
  exact (read_only_query_not_heard 100 node0
           (ro_query "get_peers" get_peers_args) entry_undefined
           (ro_header "get_peers" get_peers_args) H1 H2 H3 H4 H5).
Defined.

(** The number of nodes in the routing table after one query. *)
Definition nodes_after (m : msg) : nat :=
  List.length (m_table (node_after (incoming_request true true 100 node0 m
                                      entry_undefined) node0)).

(** A read-only sender is not added for [get_peers], but it is for an
    [announce_peer] that carries a valid token. *)
Example read_only_announce_is_seen :
  nodes_after (query "get_peers" get_peers_args) = 1%nat
  /\ nodes_after (ro_query "get_peers" get_peers_args) = 0%nat
  /\ nodes_after (ro_query "announce_peer"
                    [("info_hash", b_string hash_A); ("port", b_int 6881);
                     ("token", b_string token_A)]) = 1%nat.
Proof. vm_compute. repeat split. Qed.


(** ** Messages as they come in *)

(** An RPC manager that keeps the messages it is given. *)
Definition kept_messages : rpc_collaborator := {|
  rpc_manager := list msg;
  rpc_incoming := fun r m _ => (r ++ [m])%list
|}.

#[local] Existing Instance kept_messages.

Definition io0 : node_io := mk_node_io node0 [] [] [].

(** A ping whose ["y"] is [y]. *)
Definition ping_as (y : string) : msg :=
  mk_msg
    (Some (b_dict [("a", b_dict [("id", b_string sender_id)]);
                   ("q", b_string "ping");
                   ("t", b_string "aa");
                   ("y", b_string y)]))
    sender.

Definition packets (o : outcome node_io) : option (list (entry * endpoint)) :=
  match o with Ret s => Some (sent s) | AssertionFailed => None end.

(** Without quota the query is still answered, with an entry that holds
    nothing.  A ["y"] that only starts with [q] is a query in a release
    build and stops a build with assertions.  A reply is not answered. *)
Example incoming_edge_cases :
  packets (incoming true false true false 100 io0 (ping_as "q"))
  = Some [(entry_undefined, sender)]
  /\ packets (incoming true false true true 100 io0 (ping_as "query")) = None
  /\ option_map (@List.length _)
       (packets (incoming false false true true 100 io0 (ping_as "query")))
     = Some 1%nat
  /\ packets (incoming true false true true 100 io0 (ping_as "r")) = Some []
  /\ packets (incoming true false true true 100 io0 (ping_as "")) = Some [].
Proof. vm_compute. repeat split. Qed.


(** ** Limits *)

Lemma tables_stay_bounded_witness :
  0 < max_torrents (m_settings node_AB)
  /\ 0 < max_dht_items (m_settings node_AB)
  /\ bounded node_AB
  /\ (forall (asserts_on has_quota : bool) (now : Z) (m : msg) (e : entry)
             (n' : node) (e' : entry),
        incoming_request asserts_on has_quota now node_AB m e = Ret (n', e') ->
        bounded n' /\ m_settings n' = m_settings node_AB)
  /\ (forall (tpm d now : Z) (tm : node_timers),
        bounded (snd (connection_timeout tpm d now tm node_AB))
        /\ m_settings (snd (connection_timeout tpm d now tm node_AB))
           = m_settings node_AB)
  /\ (forall random : Z,
        bounded (new_write_key random node_AB)
        /\ m_settings (new_write_key random node_AB) = m_settings node_AB).
Proof.
  assert (H1 : 0 < max_torrents (m_settings node_AB)) by reflexivity.
  assert (H2 : 0 < max_dht_items (m_settings node_AB)) by reflexivity.
  assert (H3 : bounded node_AB).
  { unfold bounded, sorted_map.
    cbn [node_AB m_map m_immutable_table m_mutable_table m_settings].
    split.
    { constructor; [constructor; constructor|].
      constructor; [reflexivity | constructor]. }
    split; [constructor|]. split; [constructor|].
    split; [vm_compute; discriminate|].
    split; vm_compute; discriminate. }
  split; [exact H1|]. split; [exact H2|]. split; [exact H3|].
  exact (tables_stay_bounded node_AB H1 H2 H3).
Defined.

(** With [max_torrents] 0 the first announce is stored all the same. *)
Example announce_with_no_room :
  stored_peers
    (node_after
       (incoming_request true true 100
          (mk_node (mk_dht_settings 100 0 700 false) our_id [] (2138, 99)
             [] [] [] [])
          (query "announce_peer" announce_args) entry_undefined)
       node0)
  = [(hash_A, [mk_endpoint (address_v4 167772161) 6881])].
Proof. vm_compute. reflexivity. Qed.

End DhtCases.
